(* ===== verification/_CoqProject ===== *)
-Q . S2P
Prelude.v
JsString.v
JsStringFacts.v
JsNumber.v
Utf8.v
JsNumberFacts.v
JsJson.v
JsJsonFacts.v
Bytes.v
Address.v
Crypto.v
WalletTypes.v
Transaction.v
TransactionFacts.v
HdWallet.v
Vault.v
Async.v
Client.v
Formatters.v
View.v
Render.v
Onboarding.v
SendModal.v
WalletApp.v
WalletAppFacts.v
MockData.v
Types.v
RenderTyped.v
Offers.v
ExplorerTypes.v
ExplorerApi.v
ExplorerApiFacts.v
ExplorerUi.v
ExplorerParts.v
QrCode.v
ExplorerDevelopers.v
ExplorerApp.v
ExplorerLayout.v
ExplorerWidgets.v
ExplorerEvents.v
ExplorerPages.v
ExplorerHome.v
ExplorerLearn.v
ExplorerHubs.v
ExplorerSite.v
ExplorerRender.v
ExplorerContract.v
ExplorerTyped.v
ExplorerSafe.v
ExplorerLoad.v
ExplorerVisits.v
ExplorerRuns.v
ExplorerAppFacts.v
AdminTypes.v
AdminUi.v
AdminState.v
AdminApi.v
AdminPages.v
AdminViews.v
AdminRender.v
AdminApp.v
AdminTyped.v
AdminFacts.v
AdminSession.v
AdminPageFacts.v
AdminRuns.v
