(* ===== verification/Prelude.v ===== *)
(** * Verification of the SPRX client applications

    This library models the TypeScript programs of the repository and proves what
    makes them correct: the wallet library [packages/sprax-wallet-core], the web
    wallet [apps/web-wallet] that is built on it, the block explorer
    [apps/explorer-ui] and the panel of the administrators [apps/admin-panel].

    ** The programs

    - The wallet library turns a mnemonic into keys and addresses
      ([mnemonic.ts], [hd_wallet.ts], [address.ts]), signs transfers
      ([transaction.ts]), keeps the mnemonic in an encrypted vault ([vault.ts]) and
      talks to a node over HTTP ([client.ts]).
    - The web wallet is a React application: [WalletOnboarding] obtains a
      mnemonic and a password, [App] derives the account and encrypts the vault,
      [WalletDashboard] polls the balance, [SendModal] signs and broadcasts,
      [ReceiveModal] shows the address.
    - The explorer is a React application over [ExplorerApiService], which asks an
      indexer, then a node, and falls back to built-in data; [App] loads and polls
      the lists, resolves searches, and shows one page by route, inside a header with
      menus, a footer, dialogs and an error boundary.
    - The admin panel is a React application over [ApiClient], which carries the token
      of a session; [AuthContext] holds the user and their permissions, a menu offers
      the tabs these allow, and each page fetches and shows one kind of data.

    ** The language

    Programs are embedded shallowly. JavaScript itself is modelled as far as the
    sources use it:
    - this file: strings as sequences of UTF-16 code units with literals in
      [js_scope], thrown errors as the [outcome] type;
    - [JsString], [JsStringFacts]: the methods of strings, [BigInt] and [parseInt];
    - [JsNumber], [JsNumberFacts]: numbers as IEEE-754 doubles, [parseFloat],
      [toFixed], [toLocaleString] and printing;
    - [Utf8]: [TextEncoder] and [TextDecoder]; [Bytes]: byte arrays;
    - [JsJson], [JsJsonFacts]: values of type [any], property access,
      [JSON.stringify] and [JSON.parse], and that the one reads back the other;
    - [Async]: an [async] function is a [cmd] that reads and writes the shared state
      and stops at each [await]; [run] and [eval] execute it alone, [advance] up to
      the next suspension, and [world] is a state with the functions in flight, from
      which the step relations of the applications are made;
    - [View]: what a component renders, with its handlers; [fires v e] says that the
      user can cause the event [e] in the view [v];
    - [Render]: JSX that shows values of type [any] and may throw; [Types]: interfaces
      as descriptions that values can be checked against; [RenderTyped]: values of
      their declared types render; [Offers]: what a render lets the user cause.

    ** The components

    - Wallet library: [Address] is [address.ts], [Crypto] the interface of the noble
      packages, [WalletTypes] is [types.ts], [Transaction] and [TransactionFacts] are
      [transaction.ts], [HdWallet] is [mnemonic.ts] and [hd_wallet.ts], [Vault] is
      [vault.ts], [Client] is [client.ts].
    - Web wallet: [Onboarding] is [WalletOnboarding.tsx], [SendModal] is
      [SendModal.tsx], [WalletApp] is [WalletDashboard.tsx], [ReceiveModal.tsx] and
      [App.tsx] with the step relation of the whole wallet, [WalletAppFacts] its
      theorems.
    - Explorer, data: [Formatters] is [utils/formatters.ts], [MockData] is
      [services/mockData.ts], [ExplorerTypes] is [types/index.ts], [ExplorerApi] is
      [services/api.ts] and [ExplorerApiFacts] its theorems.
    - Explorer, components: [ExplorerUi] holds the page controls, the search bar and
      dialog, the wallet dialog and the faucet form; [ExplorerParts] the small shared
      components, [QrCode] the QR dialog, [ExplorerLayout] header, footer and the dialog
      for newcomers, [ExplorerWidgets] the playground, the protocol layers and the
      charts, [ExplorerPages], [ExplorerHome], [ExplorerLearn] and [ExplorerHubs] the
      pages with the events of [ExplorerEvents], [ExplorerDevelopers] a page that no
      route shows.
    - Explorer, application: [ExplorerApp] is [App.tsx] with its handlers, loads and
      routes, [ExplorerSite] the whole screen with the hooks of the mounted page and
      the step relation of the explorer.
    - Explorer, theorems: [ExplorerRender] (every page renders typed data and links to
      pages), [ExplorerContract] (what is expected of the servers and what the queries
      then return), [ExplorerTyped] (the state stays typed), [ExplorerSafe] (the screen
      never throws, links lead somewhere), [ExplorerLoad] (the first load ends),
      [ExplorerVisits] (votes, RPC console, deep links, tabs), [ExplorerAppFacts]
      (routes, search, polling), [ExplorerRuns] (evaluated runs).
    - Admin panel: [AdminTypes] is [types/index.ts], [AdminUi] is [components/common],
      [AdminState] holds the hooks of all pages, [AdminApi] is [services/api.ts] and
      [AuthContext.tsx], [AdminPages] the fetches and handlers of the pages and
      [AdminViews] their markup, [AdminApp] is [App.tsx] with the login form, the menu
      and the step relation; [AdminRender], [AdminTyped], [AdminFacts], [AdminSession],
      [AdminPageFacts] and [AdminRuns] hold the theorems.

    A component with hooks is a record of its hooks with a setter for each, its
    handlers are functions or commands on that state, and what it renders is a
    function of it. A handler takes as arguments what its closure captured at the
    render it belongs to. [Promise.all] starts its calls as separate commands
    whose last one resumes the caller. A page keeps its hooks while the same child of
    its parent is shown, and a fresh instance starts with new ones.

    ** What is assumed

    Packages that are not in the repository are type classes whose laws state
    their documented behaviour: [Bech32], [Crypto], [Bip39], [SubtleCrypto]. Case
    mapping outside ASCII is the parameter [UnicodeCase]; locale, time zone and
    logarithm of the host are [Host]. Every law class has a concrete instance, at
    which the theorems that need it are instantiated. Servers are not assumed to do
    anything: theorems quantify over their responses, except that the two theorems
    that nothing crashes suppose that a successful answer has its declared type
    ([typed_answer] for the explorer, [declared] for the panel), and for the explorer
    that the recent searches found in the storage are a list of strings.

    ** What is proved

    - Transfers: sign bytes determine the transfer ([getSignBytes_inj]), the
      published body is the signed one, signatures verify, amounts convert exactly,
      and exactly the well-formed requests are signed.
    - Addresses: both notations are read back, and every accepted string is one of
      them.
    - Keys and vault: generated mnemonics open wallets, derived accounts belong to
      their keys, indices below [2 ^ 31] have distinct key material and wrap beyond,
      a vault opens with its password and reports a wrong one.
    - Wallet application: in every reachable state account and key belong together;
      onboarding only accepts valid phrases and confirmed passwords; the form sends
      what was typed, at most once, and cannot be resubmitted meanwhile; what
      locking clears, and that it does not stop a transfer in flight; that a late
      balance of another network is shown.
    - Explorer, service: queries never reject and without servers return values of
      their declared types; the offline flag is exact for the list queries; pages of
      the built-in data tile it.
    - Explorer, application: no reachable screen throws ([explorer_never_crashes]),
      every link it offers leads to a page ([links_lead]), the start page appears after
      at most thirteen answers whatever these are ([home_page_loads]); a search for a
      number opens that block; at most one page is shown; recent searches are the latest
      five; page controls stay in range; a vote is final; the QR dialog draws inside its
      canvas. Also what it gets wrong: polling replaces the page the user is on, detail
      addresses cannot be opened directly, links inside a hub have no effect, the RPC
      console may show the answer to another method.
    - Admin panel: no reachable screen throws ([panel_never_crashes]); an answer of 401
      ends the session ([session_ends_on_401]); the menu offers exactly the permitted
      tabs; every fetch ends and clears its spinner; tables tile their rows; a critical
      flag is sent only after its phrase was typed, once per click. Also what it gets
      wrong: a profile in flight undoes signing out, a tab outlives its user, a typed
      phrase survives cancelling, the paginated lists of the backend are dropped.

    ** Bounds

    [digits] prints with one unit of fuel per binary digit, and [JSON_parse] reads
    with twice the length of its input plus two; the round-trip lemmas show that
    this is enough. Shortest printing of doubles tries up to 17 digits, which
    identify a double. [parse_value] and the printers are otherwise structural. The
    JSON round trip is for integers up to [2 ^ 53] and keys that are not array
    indices, which covers what the sources serialize. The thirteen steps of
    [home_page_loads] are two for each of at most six requests (the answer and its
    body), and one that resumes the caller.

    ** What is not modelled

    Styling, icons, class names and animation; the clipboard inside a [CopyButton] that
    a page contains; re-exports and entry points ([index.ts], [main.tsx]) and the
    configuration of the build; garbage collection and the byte-level erasure of
    secrets; network timing other than the order of events. The node and its crates
    (Rust), the backend (Python) and the mobile wallet (Dart) are separate programs in
    other languages, which the applications meet only as answers to their requests;
    deployment and documents have no program logic of the applications. *)
From stdpp Require Export prelude.
From stdpp Require Import gmap.
From Stdlib Require Import Strings.Byte.

(** ** JavaScript strings

    A JavaScript string is a sequence of UTF-16 code units. *)
Definition jsstring := list N.

Declare Scope js_scope.
Delimit Scope js_scope with js.
Bind Scope js_scope with jsstring.

(** *** Literals

    A literal ["..."%js] is written in UTF-8 in the file and denotes its UTF-16
    code units; characters outside the Basic Multilingual Plane become a
    surrogate pair. *)
Inductive jslit :=
| Lnil
| Lcons (c : N) (s : jslit).

Definition lit_scalar (c : N) (k : jslit) : jslit :=
  if (c <? 65536)%N then Lcons c k
  else Lcons (55296 + (c - 65536) / 1024)%N (Lcons (56320 + (c - 65536) mod 1024)%N k).

Fixpoint lit_parse (l : list Byte.byte) : jslit :=
  match l with
  | [] => Lnil
  | a :: l1 =>
      let x := Byte.to_N a in
      if (x <? 128)%N then Lcons x (lit_parse l1)
      else match l1 with
      | [] => Lnil
      | b :: l2 =>
          let y := (Byte.to_N b mod 64)%N in
          if (x <? 224)%N then lit_scalar ((x - 192) * 64 + y)%N (lit_parse l2)
          else match l2 with
          | [] => Lnil
          | c :: l3 =>
              let z := (Byte.to_N c mod 64)%N in
              if (x <? 240)%N
              then lit_scalar ((x - 224) * 4096 + y * 64 + z)%N (lit_parse l3)
              else match l3 with
              | [] => Lnil
              | d :: l4 =>
                  let w := (Byte.to_N d mod 64)%N in
                  lit_scalar ((x - 240) * 262144 + y * 4096 + z * 64 + w)%N
                    (lit_parse l4)
              end
          end
      end
  end.

(** ASCII strings are printed back as literals, other strings as lists. *)
Fixpoint lit_print (s : jslit) : option (list Byte.byte) :=
  match s with
  | Lnil => Some []
  | Lcons c s' =>
      if (c <? 128)%N
      then b ← Byte.of_N c; r ← lit_print s'; Some (b :: r)
      else None
  end.

#[warnings="-via-type-remapping,-via-type-mismatch"]
String Notation jsstring lit_parse lit_print
  (via jslit mapping [[nil] => Lnil, [cons] => Lcons]) : js_scope.

(** ** Exceptions

    A JavaScript error object is its class name and its message; a computation
    that may throw is an [outcome]. *)
Record jserr := JsErr { err_name : jsstring; err_message : jsstring }.

#[global] Instance jserr_eq_dec : EqDecision jserr.
Proof. solve_decision. Defined.

Inductive outcome (A : Type) :=
| Ok (a : A)
| Throw (e : jserr).
Arguments Ok {A} a.
Arguments Throw {A} e.

#[global] Instance outcome_eq_dec {A} `{EqDecision A} : EqDecision (outcome A).
Proof. solve_decision. Defined.

#[global] Instance outcome_ret : MRet outcome := @Ok.
#[global] Instance outcome_bind : MBind outcome := λ A B f m,
  match m with Ok a => f a | Throw e => Throw e end.
#[global] Instance outcome_fmap : FMap outcome := λ A B f m,
  match m with Ok a => Ok (f a) | Throw e => Throw e end.

(** [throw new Error(msg)] *)
Definition throw {A} (msg : jsstring) : outcome A := Throw (JsErr "Error"%js msg).

(** [try { m } catch (e) { h e }] *)
Definition try_catch {A} (m : outcome A) (h : jserr → outcome A) : outcome A :=
  match m with Ok a => Ok a | Throw e => h e end.

Definition is_ok {A} (m : outcome A) : bool :=
  match m with Ok _ => true | Throw _ => false end.
