(* ===== verification/JsString.v ===== *)
(** * Strings of the JavaScript standard library

    The members of [String.prototype], the [BigInt] and [parseInt] conversions
    and the regular expressions that the sources use, on sequences of UTF-16
    code units. *)
From S2P Require Import Prelude.
Local Open Scope N_scope.

(** ** Character classes *)

(** White space and line terminators: what [trim] removes and [\s] matches. *)
Definition is_ws (c : N) : bool :=
  ((9 <=? c) && (c <=? 13)) || (c =? 32) || (c =? 160) || (c =? 5760)
  || ((8192 <=? c) && (c <=? 8202)) || (c =? 8232) || (c =? 8233)
  || (c =? 8239) || (c =? 8287) || (c =? 12288) || (c =? 65279).

(** What [.] does not match. *)
Definition is_line_end (c : N) : bool :=
  (c =? 10) || (c =? 13) || (c =? 8232) || (c =? 8233).

Definition is_digit (c : N) : bool := (48 <=? c) && (c <=? 57).

(** [[0-9a-fA-F]] *)
Definition is_hex (c : N) : bool :=
  is_digit c || ((97 <=? c) && (c <=? 102)) || ((65 <=? c) && (c <=? 70)).

(** ** [String.prototype] *)

Fixpoint drop_while {A} (p : A → bool) (l : list A) : list A :=
  match l with
  | [] => []
  | x :: l' => if p x then drop_while p l' else l
  end.

Definition drop_while_end {A} (p : A → bool) (l : list A) : list A :=
  reverse (drop_while p (reverse l)).

Definition trimStart (s : jsstring) : jsstring := drop_while is_ws s.
Definition trim (s : jsstring) : jsstring := drop_while_end is_ws (trimStart s).

Fixpoint startsWith (s p : jsstring) : bool :=
  match p, s with
  | [], _ => true
  | c :: p', d :: s' => (c =? d) && startsWith s' p'
  | _ :: _, [] => false
  end.

Fixpoint includes (s p : jsstring) : bool :=
  startsWith s p || match s with [] => false | _ :: s' => includes s' p end.

(** A relative index of [slice]: negative indices count from the end. *)
Definition rel_index (len i : Z) : nat :=
  Z.to_nat (if (i <? 0)%Z then Z.max (len + i) 0 else Z.min i len).

Definition slice {A} (l : list A) (i j : Z) : list A :=
  let len := Z.of_nat (length l) in
  take (rel_index len j - rel_index len i) (drop (rel_index len i) l).

Definition slice_from {A} (l : list A) (i : Z) : list A :=
  drop (rel_index (Z.of_nat (length l)) i) l.

Definition cons_head (c : N) (ws : list jsstring) : list jsstring :=
  match ws with [] => [[c]] | w :: ws' => (c :: w) :: ws' end.

(** [s.split(sep)] for a separator of one code unit. *)
Fixpoint split_on (sep : N) (s : jsstring) : list jsstring :=
  match s with
  | [] => [[]]
  | c :: s' => if c =? sep then [] :: split_on sep s' else cons_head c (split_on sep s')
  end.

(** [s.split(/\s+/)]; [in_ws] holds inside a run of white space. *)
Fixpoint split_ws_from (in_ws : bool) (s : jsstring) : list jsstring :=
  match s with
  | [] => [[]]
  | c :: s' =>
      if is_ws c
      then if in_ws then split_ws_from true s' else [] :: split_ws_from true s'
      else cons_head c (split_ws_from false s')
  end.
Definition split_ws (s : jsstring) : list jsstring := split_ws_from false s.

Definition padStart (n : nat) (c : N) (s : jsstring) : jsstring :=
  replicate (n - length s) c ++ s.
Definition padEnd (n : nat) (c : N) (s : jsstring) : jsstring :=
  s ++ replicate (n - length s) c.

(** [s.replace(/c+$/, "")] *)
Definition strip_end (c : N) (s : jsstring) : jsstring :=
  drop_while_end (λ d, d =? c) s.

(** [ss.join("")] *)
Definition join (ss : list jsstring) : jsstring := concat ss.

Fixpoint join_with (sep : jsstring) (ss : list jsstring) : jsstring :=
  match ss with
  | [] => []
  | [s] => s
  | s :: ss' => s ++ sep ++ join_with sep ss'
  end.

(** [s.match(/.{1,2}/g)], the empty list when there is no match. *)
Fixpoint chunks2 (s : jsstring) : list jsstring :=
  match s with
  | [] => []
  | a :: s1 =>
      if is_line_end a then chunks2 s1
      else match s1 with
      | [] => [[a]]
      | b :: s2 => if is_line_end b then [a] :: chunks2 s2 else [a; b] :: chunks2 s2
      end
  end.

(** *** Case mapping

    ASCII strings are mapped here; the Unicode tables for strings with other
    characters are a parameter of the model. *)
Class UnicodeCase := {
  unicode_lower : jsstring → jsstring;
  unicode_upper : jsstring → jsstring;
}.

Definition is_ascii (s : jsstring) : bool := forallb (λ c, c <? 128) s.
Definition ascii_lower (c : N) : N := if (65 <=? c) && (c <=? 90) then c + 32 else c.
Definition ascii_upper (c : N) : N := if (97 <=? c) && (c <=? 122) then c - 32 else c.

Section case.
Context `{UnicodeCase}.

Definition toLowerCase (s : jsstring) : jsstring :=
  if is_ascii s then ascii_lower <$> s else unicode_lower s.
Definition toUpperCase (s : jsstring) : jsstring :=
  if is_ascii s then ascii_upper <$> s else unicode_upper s.
End case.

(** The instance that leaves non-ASCII strings alone, for evaluation. *)
Definition ascii_case : UnicodeCase :=
  {| unicode_lower := id; unicode_upper := id |}.

(** ** Integers in a radix *)

Definition digit_char (d : N) : N := if d <? 10 then 48 + d else 87 + d.

Definition digit_val (c : N) : option N :=
  if (48 <=? c) && (c <=? 57) then Some (c - 48)
  else if (97 <=? c) && (c <=? 122) then Some (c - 87)
  else if (65 <=? c) && (c <=? 90) then Some (c - 55)
  else None.

Fixpoint digits_fuel (fuel : nat) (b n : N) (acc : list N) : list N :=
  match fuel with
  | O => acc
  | S f => let acc' := (n mod b) :: acc in
           if n / b =? 0 then acc' else digits_fuel f b (n / b) acc'
  end.

(** One binary digit of fuel per digit of the radix is enough (radix >= 2). *)
Definition digits (b n : N) : list N := digits_fuel (S (N.size_nat n)) b n [].

Definition digits_value (b : N) (ds : list N) : N := foldl (λ acc d, acc * b + d) 0 ds.

(** [n.toString(b)] *)
Definition N_to_radix (b n : N) : jsstring := digit_char <$> digits b n.

Definition Z_to_string (z : Z) : jsstring :=
  if (z <? 0)%Z then 45 :: N_to_radix 10 (Z.abs_N z) else N_to_radix 10 (Z.abs_N z).

Definition radix_digit (b c : N) : option N :=
  d ← digit_val c; if d <? b then Some d else None.

(** A non-empty run of digits of the radix, all of [s]. *)
Definition parse_radix (b : N) (s : jsstring) : option N :=
  match s with
  | [] => None
  | _ => digits_value b <$> mapM (radix_digit b) s
  end.

(** StringToBigInt of ECMA-262. *)
Definition string_to_bigint (s : jsstring) : option Z :=
  match trim s with
  | [] => Some 0%Z
  | c :: ds =>
      if c =? 45 then (λ n, - Z.of_N n)%Z <$> parse_radix 10 ds
      else if c =? 43 then Z.of_N <$> parse_radix 10 ds
      else match c =? 48, ds with
      | true, x :: ds' =>
          if (x =? 120) || (x =? 88) then Z.of_N <$> parse_radix 16 ds'
          else if (x =? 111) || (x =? 79) then Z.of_N <$> parse_radix 8 ds'
          else if (x =? 98) || (x =? 66) then Z.of_N <$> parse_radix 2 ds'
          else Z.of_N <$> parse_radix 10 (c :: ds)
      | _, _ => Z.of_N <$> parse_radix 10 (c :: ds)
      end
  end.

(** [BigInt(s)]; the message is V8's. *)
Definition BigInt (s : jsstring) : outcome Z :=
  match string_to_bigint s with
  | Some z => Ok z
  | None => Throw (JsErr "SyntaxError"%js ("Cannot convert "%js ++ s ++ " to a BigInt"%js))
  end.

Fixpoint take_while {A} (p : A → bool) (l : list A) : list A :=
  match l with
  | [] => []
  | x :: l' => if p x then x :: take_while p l' else []
  end.

Definition is_radix_digit (b c : N) : bool := bool_decide (is_Some (radix_digit b c)).

(** [parseInt(s, b)] for a radix of 2 to 36; [None] is [NaN]. *)
Definition parseInt (b : N) (s : jsstring) : option Z :=
  let t := trimStart s in
  let '(neg, u) := match t with
    | c :: t' => if c =? 45 then (true, t') else if c =? 43 then (false, t') else (false, t)
    | [] => (false, t) end in
  let v := match u with
    | z :: x :: u' =>
        if (b =? 16) && (z =? 48) && ((x =? 120) || (x =? 88)) then u' else u
    | _ => u end in
  match take_while (is_radix_digit b) v with
  | [] => None
  | ds => n ← parse_radix b ds; Some (if neg : bool then - Z.of_N n else Z.of_N n)%Z
  end.
