(* ===== verification/JsStringFacts.v ===== *)
(** * Facts about JavaScript strings

    Lemmas on trimming, splitting, and on printing and reading integers in a
    radix, shared by the components. *)
From S2P Require Import Prelude JsString.
Local Open Scope N_scope.

(** ** Automation *)

Create HintDb js discriminated.

(** Turns boolean comparisons of code units into arithmetic. *)
Ltac unb :=
  repeat match goal with
  | H : _ && _ = true |- _ => apply andb_true_iff in H; destruct H
  | H : _ || _ = false |- _ => apply orb_false_iff in H; destruct H
  | H : (_ <=? _) = true |- _ => apply N.leb_le in H
  | H : (_ <=? _) = false |- _ => apply N.leb_gt in H
  | H : (_ <? _) = true |- _ => apply N.ltb_lt in H
  | H : (_ <? _) = false |- _ => apply N.ltb_ge in H
  | H : (_ =? _) = true |- _ => apply N.eqb_eq in H
  | H : (_ =? _) = false |- _ => apply N.eqb_neq in H
  end.

(** Decides a boolean test on code units by arithmetic. *)
Ltac bcase :=
  repeat match goal with
  | |- context [if ?b then _ else _] =>
      first [ replace b with true by (symmetry; bsolve)
            | replace b with false by (symmetry; bsolve) ]
  end
with bsolve :=
  rewrite ?orb_false_iff, ?andb_false_iff, ?orb_true_iff, ?andb_true_iff,
    ?N.leb_le, ?N.leb_gt, ?N.ltb_lt, ?N.ltb_ge, ?N.eqb_eq, ?N.eqb_neq; lia.

(** ** Lists *)

Lemma drop_while_id {A} (p : A → bool) (l : list A) :
  match l with [] => True | x :: _ => p x = false end → drop_while p l = l.
Proof. destruct l; simpl; [done|]. by intros ->. Qed.

Lemma drop_while_end_app {A} (p : A → bool) (l k : list A) :
  Forall (λ x, p x = true) k → drop_while_end p (l ++ k) = drop_while_end p l.
Proof.
  intros Hk. unfold drop_while_end. f_equal. rewrite reverse_app.
  assert (Forall (λ x, p x = true) (reverse k)) as H by by apply Forall_reverse.
  induction H as [|x k' Hx _ IH]; simpl; [done|]. by rewrite Hx.
Qed.

Lemma drop_while_end_snoc {A} (p : A → bool) (l : list A) x :
  p x = false → drop_while_end p (l ++ [x]) = l ++ [x].
Proof.
  intros Hx. unfold drop_while_end.
  by rewrite reverse_snoc, drop_while_id, reverse_cons, reverse_involutive.
Qed.

Lemma drop_while_end_id {A} (p : A → bool) (l : list A) :
  Forall (λ x, p x = false) l → drop_while_end p l = l.
Proof.
  destruct l as [|x l] using rev_ind; [done|].
  rewrite Forall_app, Forall_singleton. intros [_ Hx]. by apply drop_while_end_snoc.
Qed.

(** What [drop_while_end] removes is a suffix of elements that satisfy [p]. *)
Lemma drop_while_end_split {A} (p : A → bool) (l : list A) :
  ∃ k, l = drop_while_end p l ++ k ∧ Forall (λ x, p x = true) k.
Proof.
  induction l as [|x l IH] using rev_ind; [by exists []|].
  destruct (p x) eqn:Hx.
  - destruct IH as (k & Hk & Hf). exists (k ++ [x]).
    rewrite drop_while_end_app by by apply Forall_singleton.
    split; [by rewrite app_assoc, <- Hk|].
    apply Forall_app; split; [done|by apply Forall_singleton].
  - exists []. by rewrite drop_while_end_snoc, app_nil_r.
Qed.

Lemma forallb_Forall_true {A} (p : A → bool) (l : list A) :
  forallb p l = true ↔ Forall (λ x, p x = true) l.
Proof. rewrite forallb_forall, Forall_forall. setoid_rewrite list_elem_of_In. done. Qed.

(** ** Trimming *)

Lemma trim_id s : Forall (λ c, is_ws c = false) s → trim s = s.
Proof.
  intros Hs. unfold trim, trimStart.
  rewrite drop_while_id by (destruct Hs; done). by apply drop_while_end_id.
Qed.

Lemma trim_nil : trim [] = [].
Proof. done. Qed.

Lemma drop_while_head {A} (p : A → bool) (l : list A) :
  match drop_while p l with [] => True | x :: _ => p x = false end.
Proof. induction l as [|x l IH]; simpl; [done|]. by destruct (p x) eqn:?. Qed.

Lemma drop_while_idemp {A} (p : A → bool) (l : list A) :
  drop_while p (drop_while p l) = drop_while p l.
Proof. apply drop_while_id, drop_while_head. Qed.

Lemma drop_while_prefix_nil {A} (p : A → bool) (l k : list A) :
  Forall (λ x, p x = true) k → drop_while p (k ++ l) = drop_while p l.
Proof. induction 1 as [|x k Hx _ IH]; simpl; [done|]. by rewrite Hx. Qed.

Lemma trim_idemp s : trim (trim s) = trim s.
Proof.
  unfold trim, trimStart. set (t := drop_while is_ws s).
  assert (drop_while is_ws (drop_while_end is_ws t) = drop_while_end is_ws t) as ->.
  { apply drop_while_id. destruct (drop_while_end_split is_ws t) as (k & Ht & _).
    destruct (drop_while_end is_ws t) as [|c r] eqn:E; [done|].
    pose proof (drop_while_head is_ws s) as Hd. fold t in Hd. by rewrite Ht in Hd. }
  unfold drop_while_end. by rewrite reverse_involutive, drop_while_idemp.
Qed.

(** ** Splitting *)

Lemma split_on_nosep sep s : Forall (λ c, c ≠ sep) s → split_on sep s = [s].
Proof.
  induction 1 as [|c s Hc _ IH]; simpl; [done|].
  rewrite (proj2 (N.eqb_neq c sep)) by done. by rewrite IH.
Qed.

Lemma split_on_app sep w s :
  Forall (λ c, c ≠ sep) w → split_on sep (w ++ sep :: s) = w :: split_on sep s.
Proof.
  induction 1 as [|c w Hc _ IH]; simpl; [by rewrite N.eqb_refl|].
  rewrite (proj2 (N.eqb_neq c sep)) by done. by rewrite IH.
Qed.

Lemma split_on_cons sep s : ∃ w ws, split_on sep s = w :: ws.
Proof.
  induction s as [|c s (w & ws & IH)]; simpl; [eauto|].
  destruct (c =? sep); [eauto|]. rewrite IH. simpl. eauto.
Qed.

(** Joining the pieces with the separator gives the string back. *)
Lemma join_split_on sep s : join_with [sep] (split_on sep s) = s.
Proof.
  induction s as [|c s IH]; [done|]. simpl.
  destruct (split_on_cons sep s) as (w & ws & E). rewrite E in IH |- *.
  destruct (c =? sep) eqn:Hc.
  - apply N.eqb_eq in Hc as ->. simpl in *. by rewrite IH.
  - simpl in *. destruct ws; simpl in *; by rewrite <- IH.
Qed.

(** No piece contains the separator. *)
Lemma split_on_pieces sep s : Forall (Forall (λ c, c ≠ sep)) (split_on sep s).
Proof.
  induction s as [|c s IH]; simpl; [by repeat constructor|].
  destruct (N.eqb_spec c sep); [by constructor|].
  destruct IH; simpl; repeat constructor; done.
Qed.

(** ** Digits of a radix *)

Lemma digits_value_acc b ds acc :
  foldl (λ a d, a * b + d) acc ds = acc * b ^ N.of_nat (length ds) + digits_value b ds.
Proof.
  unfold digits_value. revert acc. induction ds as [|d ds IH]; intros acc.
  - simpl. lia.
  - cbn [foldl length]. rewrite IH, (IH (0 * b + d)), Nat2N.inj_succ, N.pow_succ_r'. lia.
Qed.

Lemma digits_value_app b ds es :
  digits_value b (ds ++ es)
  = digits_value b ds * b ^ N.of_nat (length es) + digits_value b es.
Proof. unfold digits_value at 1. rewrite foldl_app. apply digits_value_acc. Qed.

Lemma digits_value_cons b d ds :
  digits_value b (d :: ds) = d * b ^ N.of_nat (length ds) + digits_value b ds.
Proof. apply (digits_value_app b [d] ds). Qed.

Lemma digits_value_zeros b n : digits_value b (replicate n 0) = 0.
Proof.
  induction n as [|n IH]; [done|]. rewrite replicate_S, digits_value_cons, IH. lia.
Qed.

Lemma digits_value_bound b ds :
  Forall (λ d, d < b) ds → digits_value b ds < b ^ N.of_nat (length ds).
Proof.
  induction 1 as [|d ds Hd _ IH]; [done|].
  rewrite digits_value_cons. simpl length. rewrite Nat2N.inj_succ, N.pow_succ_r'. nia.
Qed.

Lemma digits_fuel_value fuel b n acc :
  2 ≤ b → n < 2 ^ N.of_nat fuel →
  digits_value b (digits_fuel fuel b n acc)
  = n * b ^ N.of_nat (length acc) + digits_value b acc.
Proof.
  intros Hb. revert n acc. induction fuel as [|f IH]; intros n acc Hn.
  - simpl in *. replace n with 0 by lia. lia.
  - cbn [digits_fuel]. pose proof (N.div_mod n b ltac:(lia)) as Hdm.
    destruct (N.eqb_spec (n / b) 0) as [Hz|Hz].
    + rewrite digits_value_cons. rewrite Hz in Hdm. nia.
    + rewrite IH.
      * rewrite digits_value_cons. simpl length. rewrite Nat2N.inj_succ, N.pow_succ_r'. nia.
      * rewrite Nat2N.inj_succ, N.pow_succ_r' in Hn. apply N.Div0.div_lt_upper_bound. nia.
Qed.

Lemma digits_fuel_bound fuel b n acc :
  2 ≤ b → Forall (λ d, d < b) acc → Forall (λ d, d < b) (digits_fuel fuel b n acc).
Proof.
  intros Hb. revert n acc. induction fuel as [|f IH]; intros n acc Ha; simpl; [done|].
  assert (n mod b < b) by (apply N.mod_lt; lia).
  destruct (n / b =? 0); [|apply IH]; by constructor.
Qed.

Lemma size_nat_gt n : n < 2 ^ N.of_nat (N.size_nat n).
Proof.
  replace (N.of_nat (N.size_nat n)) with (N.size n); [apply N.size_gt|].
  destruct n as [|p]; [done|]. simpl. induction p as [p IH|p IH|]; simpl in *; lia.
Qed.

Lemma digits_value_digits b n : 2 ≤ b → digits_value b (digits b n) = n.
Proof.
  intros Hb. unfold digits. rewrite digits_fuel_value; [cbn; lia|done|].
  rewrite Nat2N.inj_succ, N.pow_succ_r'. pose proof (size_nat_gt n). lia.
Qed.

Lemma digits_bound b n : 2 ≤ b → Forall (λ d, d < b) (digits b n).
Proof. intros. by apply digits_fuel_bound. Qed.

Lemma digits_fuel_nonnil fuel b n acc : acc ≠ [] → digits_fuel fuel b n acc ≠ [].
Proof.
  revert n acc. induction fuel as [|f IH]; intros n acc Ha; simpl; [done|].
  destruct (n / b =? 0); [|apply IH]; done.
Qed.

Lemma digits_nonnil b n : digits b n ≠ [].
Proof.
  unfold digits. cbn [digits_fuel].
  destruct (n / b =? 0); [|apply digits_fuel_nonnil]; done.
Qed.

(** A number below [b ^ k] has at most [k] digits. *)
Lemma digits_fuel_length fuel b n acc k :
  2 ≤ b → (0 < k)%nat → n < b ^ N.of_nat k →
  (length (digits_fuel fuel b n acc) ≤ k + length acc)%nat.
Proof.
  intros Hb. revert n acc k. induction fuel as [|f IH]; intros n acc k Hk Hn; simpl; [lia|].
  destruct (N.eqb_spec (n / b) 0) as [Hz|Hz]; simpl; [lia|].
  destruct k as [|[|k]]; [lia| |].
  - exfalso. apply Hz, N.div_small. by rewrite N.pow_1_r in Hn.
  - etransitivity; [apply (IH _ _ (S k)); [lia|]|simpl; lia].
    rewrite Nat2N.inj_succ, N.pow_succ_r' in Hn. apply N.Div0.div_lt_upper_bound. lia.
Qed.

Lemma digits_length b n k :
  2 ≤ b → (0 < k)%nat → n < b ^ N.of_nat k → (length (digits b n) ≤ k)%nat.
Proof. intros. etransitivity; [by apply (digits_fuel_length _ _ _ _ k)|]. simpl. lia. Qed.

(** ** Digit characters *)

Lemma digit_val_char d : d < 36 → digit_val (digit_char d) = Some d.
Proof.
  intros Hd. unfold digit_val, digit_char. destruct (N.ltb_spec d 10); bcase; f_equal; lia.
Qed.

Lemma radix_digit_char b d : d < b → b ≤ 36 → radix_digit b (digit_char d) = Some d.
Proof.
  intros. unfold radix_digit. rewrite digit_val_char by lia. simpl. by bcase.
Qed.

Lemma mapM_radix_digits b ds :
  b ≤ 36 → Forall (λ d, d < b) ds → mapM (radix_digit b) (digit_char <$> ds) = Some ds.
Proof.
  intros Hb. induction 1 as [|d ds Hd _ IH]; [done|].
  rewrite fmap_cons. cbn [mapM]. rewrite radix_digit_char by done.
  cbn [mbind option_bind]. by rewrite IH.
Qed.

Lemma parse_radix_print b n :
  2 ≤ b → b ≤ 36 → parse_radix b (N_to_radix b n) = Some n.
Proof.
  intros. unfold N_to_radix, parse_radix.
  pose proof (digits_nonnil b n). pose proof (mapM_radix_digits b (digits b n) ltac:(done)
    (digits_bound b n ltac:(done))) as Hm.
  destruct (digit_char <$> digits b n) eqn:E; [by destruct (digits b n)|].
  rewrite Hm. simpl. by rewrite digits_value_digits.
Qed.

Lemma is_digit_spec c : is_digit c = true ↔ 48 ≤ c ∧ c ≤ 57.
Proof. unfold is_digit. rewrite andb_true_iff, !N.leb_le. done. Qed.

Lemma is_digit_char d : d < 10 → is_digit (digit_char d) = true.
Proof. intros. rewrite is_digit_spec. unfold digit_char. bcase. lia. Qed.

Lemma is_digit_not_ws c : is_digit c = true → is_ws c = false.
Proof. rewrite is_digit_spec. intros. unfold is_ws. bsolve. Qed.

Lemma radix10_digit c : is_digit c = true → radix_digit 10 c = Some (c - 48).
Proof.
  rewrite is_digit_spec. intros. unfold radix_digit, digit_val.
  bcase. simpl. by bcase.
Qed.

Lemma N_to_radix10_digits n : Forall (λ c, is_digit c = true) (N_to_radix 10 n).
Proof.
  unfold N_to_radix. apply Forall_fmap. eapply Forall_impl; [by apply digits_bound|].
  intros d Hd. by apply is_digit_char.
Qed.

Lemma N_to_radix_nonnil b n : N_to_radix b n ≠ [].
Proof. unfold N_to_radix. pose proof (digits_nonnil b n). by destruct (digits b n). Qed.

(** *** The value of a string of decimal digits *)

Definition dec_value (s : jsstring) : N := digits_value 10 ((λ c, c - 48) <$> s).

Lemma mapM_radix10 s :
  Forall (λ c, is_digit c = true) s →
  mapM (radix_digit 10) s = Some ((λ c, c - 48) <$> s).
Proof.
  induction 1 as [|c s Hc _ IH]; [done|].
  rewrite fmap_cons. cbn [mapM]. rewrite radix10_digit by done.
  cbn [mbind option_bind]. by rewrite IH.
Qed.

Lemma parse_radix10 s :
  Forall (λ c, is_digit c = true) s → s ≠ [] → parse_radix 10 s = Some (dec_value s).
Proof.
  intros Hs Hn. unfold parse_radix. destruct s; [done|]. by rewrite mapM_radix10.
Qed.

Lemma dec_value_N_to_radix n : dec_value (N_to_radix 10 n) = n.
Proof.
  pose proof (parse_radix_print 10 n ltac:(lia) ltac:(lia)) as H.
  rewrite parse_radix10 in H; [by injection H|apply N_to_radix10_digits|apply N_to_radix_nonnil].
Qed.

Lemma dec_value_app s t :
  dec_value (s ++ t) = dec_value s * 10 ^ N.of_nat (length t) + dec_value t.
Proof. unfold dec_value. by rewrite fmap_app, digits_value_app, length_fmap. Qed.

Lemma dec_value_zeros n : dec_value (replicate n 48) = 0.
Proof. unfold dec_value. rewrite fmap_replicate. apply digits_value_zeros. Qed.

Lemma dec_value_bound s :
  Forall (λ c, is_digit c = true) s → dec_value s < 10 ^ N.of_nat (length s).
Proof.
  intros Hs. unfold dec_value. rewrite <- (length_fmap (λ c, c - 48) s).
  apply digits_value_bound, Forall_fmap. eapply Forall_impl; [done|].
  intros c Hc. apply is_digit_spec in Hc. simpl. lia.
Qed.

(** ** [BigInt] *)

Lemma trim_digits s : Forall (λ c, is_digit c = true) s → trim s = s.
Proof. intros. apply trim_id. eapply Forall_impl; [done|]. apply is_digit_not_ws. Qed.

(** A non-empty string of decimal digits is read in radix 10, leading zeros
    included. *)
Lemma string_to_bigint_digits s :
  Forall (λ c, is_digit c = true) s → s ≠ [] →
  string_to_bigint s = Some (Z.of_N (dec_value s)).
Proof.
  intros Hs Hn. unfold string_to_bigint. rewrite trim_digits by done.
  destruct s as [|c ds]; [done|]. inversion Hs as [|?? Hc Hds]; subst.
  apply is_digit_spec in Hc.
  assert (Z.of_N <$> parse_radix 10 (c :: ds) = Some (Z.of_N (dec_value (c :: ds)))) as He.
  { by rewrite parse_radix10. }
  rewrite !(proj2 (N.eqb_neq c _)) by lia.
  destruct (c =? 48); [|done]. destruct ds as [|x ds']; [done|].
  inversion Hds as [|?? Hx]; subst. apply is_digit_spec in Hx. by bcase.
Qed.

Lemma string_to_bigint_print z : string_to_bigint (Z_to_string z) = Some z.
Proof.
  unfold Z_to_string. destruct (Z.ltb_spec z 0).
  - unfold string_to_bigint. rewrite trim_id.
    + simpl. rewrite parse_radix_print by lia. simpl. f_equal. lia.
    + constructor; [done|]. eapply Forall_impl; [apply N_to_radix10_digits|].
      apply is_digit_not_ws.
  - rewrite string_to_bigint_digits; [|apply N_to_radix10_digits|apply N_to_radix_nonnil].
    rewrite dec_value_N_to_radix. f_equal. lia.
Qed.

Lemma BigInt_print z : BigInt (Z_to_string z) = Ok z.
Proof. unfold BigInt. by rewrite string_to_bigint_print. Qed.

Lemma BigInt_digits s :
  Forall (λ c, is_digit c = true) s → s ≠ [] → BigInt s = Ok (Z.of_N (dec_value s)).
Proof. intros. unfold BigInt. by rewrite string_to_bigint_digits. Qed.

Lemma Z_to_string_inj z1 z2 : Z_to_string z1 = Z_to_string z2 → z1 = z2.
Proof.
  intros H. pose proof (string_to_bigint_print z1) as H1.
  rewrite H, string_to_bigint_print in H1. congruence.
Qed.

(** ** Fixed-width numerals *)

Lemma padStart_radix k b n :
  padStart k 48 (N_to_radix b n)
  = digit_char <$> (replicate (k - length (digits b n)) 0 ++ digits b n).
Proof.
  unfold padStart, N_to_radix. rewrite fmap_app, fmap_replicate, length_fmap. done.
Qed.

Lemma parse_radix_pad k b n :
  2 ≤ b → b ≤ 36 → parse_radix b (padStart k 48 (N_to_radix b n)) = Some n.
Proof.
  intros Hb Hb'. rewrite padStart_radix. unfold parse_radix.
  rewrite mapM_radix_digits; [|done|].
  - destruct (digit_char <$> _) eqn:E.
    + apply fmap_nil_inv, app_nil in E as [_ E]. by destruct (digits_nonnil b n).
    + simpl. by rewrite digits_value_app, digits_value_zeros, digits_value_digits.
  - apply Forall_app. split; [apply Forall_replicate; lia|by apply digits_bound].
Qed.

Lemma length_padStart_radix k b n :
  2 ≤ b → (0 < k)%nat → n < b ^ N.of_nat k →
  length (padStart k 48 (N_to_radix b n)) = k.
Proof.
  intros Hb Hk Hn. pose proof (digits_length b n k Hb Hk Hn).
  rewrite padStart_radix, length_fmap, length_app, length_replicate. lia.
Qed.

Lemma padStart_radix_chars k b n :
  2 ≤ b → b ≤ 36 →
  Forall (λ c, ∃ d, d < b ∧ c = digit_char d) (padStart k 48 (N_to_radix b n)).
Proof.
  intros Hb Hb'. rewrite padStart_radix. apply Forall_fmap.
  apply Forall_app. split.
  - apply Forall_replicate. exists 0. split; [lia|done].
  - eapply Forall_impl; [by apply digits_bound|]. intros d Hd. by exists d.
Qed.

(** No leading zero. *)
Lemma digits_fuel_head fuel b n acc :
  2 ≤ b → n ≠ 0 → n < 2 ^ N.of_nat fuel →
  ∃ d ds, digits_fuel fuel b n acc = d :: ds ∧ d ≠ 0.
Proof.
  intros Hb. revert n acc. induction fuel as [|f IH]; intros n acc Hn Hf; [simpl in *; lia|].
  cbn [digits_fuel]. destruct (N.eqb_spec (n / b) 0) as [Hz|Hz].
  - eexists _, _. split; [done|]. pose proof (N.div_mod n b ltac:(lia)). lia.
  - apply IH; [done|]. rewrite Nat2N.inj_succ, N.pow_succ_r' in Hf.
    apply N.Div0.div_lt_upper_bound. nia.
Qed.

Lemma N_to_radix10_head n :
  n ≠ 0 → ∃ c s, N_to_radix 10 n = c :: s ∧ 49 ≤ c ∧ c ≤ 57.
Proof.
  intros Hn. pose proof (N_to_radix10_digits n) as Hd. revert Hd.
  unfold N_to_radix, digits.
  destruct (digits_fuel_head (S (N.size_nat n)) 10 n []) as (d & ds & -> & Hd'); [done..| |].
  - rewrite Nat2N.inj_succ, N.pow_succ_r'. pose proof (size_nat_gt n). lia.
  - rewrite fmap_cons. intros Hd. inversion Hd as [|? ? Hc _]; subst.
    eexists _, _. split; [done|]. apply is_digit_spec in Hc. revert Hc.
    unfold digit_char. destruct (N.ltb_spec d 10); lia.
Qed.

Lemma take_drop_while_app {A} (p : A → bool) l rest :
  Forall (λ x, p x = true) l → match rest with [] => True | x :: _ => p x = false end →
  take_while p (l ++ rest) = l ∧ drop_while p (l ++ rest) = rest.
Proof.
  intros Hl Hr. induction Hl as [|x l Hx _ [IH1 IH2]]; simpl.
  - destruct rest as [|y rest]; [done|]. simpl. by rewrite Hr.
  - by rewrite Hx, IH1, IH2.
Qed.

Lemma take_drop_while {A} (p : A → bool) l :
  take_while p l ++ drop_while p l = l ∧ Forall (λ x, p x = true) (take_while p l).
Proof.
  induction l as [|x l [IH1 IH2]]; simpl; [by split|].
  destruct (p x) eqn:E; [|by split]. simpl. rewrite IH1. by split; [|constructor].
Qed.

Lemma ascii_lower_idemp (s : jsstring) : ascii_lower <$> (ascii_lower <$> s) = ascii_lower <$> s.
Proof.
  rewrite <-list_fmap_compose. apply list_fmap_ext. intros _ c _. simpl.
  unfold ascii_lower. destruct ((65 <=? c) && (c <=? 90)) eqn:E; [unb; by bcase|by rewrite E].
Qed.

(** ** Slices *)

Lemma slice_0 {A} (l : list A) (n : nat) : slice l 0 (Z.of_nat n) = take n l.
Proof.
  unfold slice, rel_index.
  rewrite (proj2 (Z.ltb_ge (Z.of_nat n) 0)) by lia. change (0 <? 0)%Z with false. cbv iota.
  replace (Z.to_nat (Z.min 0 _)) with 0%nat by lia. rewrite drop_0, Nat.sub_0_r.
  destruct (decide (n ≤ length l)%nat).
  - by replace (Z.to_nat _) with n by lia.
  - rewrite !take_ge by lia. done.
Qed.

Lemma slice_from_nat {A} (l : list A) (n : nat) : slice_from l (Z.of_nat n) = drop n l.
Proof.
  unfold slice_from, rel_index. rewrite (proj2 (Z.ltb_ge (Z.of_nat n) 0)) by lia.
  destruct (decide (n ≤ length l)%nat).
  - by replace (Z.to_nat _) with n by lia.
  - rewrite !drop_ge by lia. done.
Qed.

Lemma slice_from_neg {A} (l : list A) (n : nat) :
  (0 < n)%nat → slice_from l (- Z.of_nat n) = drop (length l - n) l.
Proof.
  intros Hn. unfold slice_from, rel_index.
  rewrite (proj2 (Z.ltb_lt (- Z.of_nat n) 0)) by lia. f_equal. lia.
Qed.

Lemma slice_nat {A} (l : list A) (i j : nat) :
  (i ≤ length l)%nat → (j ≤ length l)%nat →
  slice l (Z.of_nat i) (Z.of_nat j) = take (j - i) (drop i l).
Proof.
  intros Hi Hj. unfold slice, rel_index.
  rewrite (proj2 (Z.ltb_ge (Z.of_nat i) 0)), (proj2 (Z.ltb_ge (Z.of_nat j) 0)) by lia.
  by replace (Z.to_nat (Z.min (Z.of_nat i) _)) with i by lia;
    replace (Z.to_nat (Z.min (Z.of_nat j) _)) with j by lia.
Qed.

(** Trimming commutes with a mapping that keeps white space. *)
Lemma drop_while_fmap {A} (q : A → bool) (f : A → A) (l : list A) :
  (∀ x, q (f x) = q x) → drop_while q (f <$> l) = f <$> drop_while q l.
Proof.
  intros Hf. induction l as [|x l IH]; [done|]. rewrite fmap_cons. cbn [drop_while].
  rewrite Hf. by destruct (q x).
Qed.

Lemma trim_fmap (f : N → N) (s : jsstring) :
  (∀ c, is_ws (f c) = is_ws c) → trim (f <$> s) = f <$> trim s.
Proof.
  intros Hf. unfold trim, trimStart, drop_while_end.
  by rewrite drop_while_fmap, <-fmap_reverse, drop_while_fmap, fmap_reverse.
Qed.

Lemma is_ws_lower c : is_ws (ascii_lower c) = is_ws c.
Proof.
  unfold ascii_lower. destruct ((65 <=? c) && (c <=? 90)) eqn:E; [|done]. unb.
  unfold is_ws. transitivity false; [|symmetry]; bsolve.
Qed.

Lemma is_ascii_lower (s : jsstring) : is_ascii s = true → is_ascii (ascii_lower <$> s) = true.
Proof.
  unfold is_ascii. rewrite !forallb_Forall_true, Forall_fmap. intros Hs.
  eapply Forall_impl; [exact Hs|]. intros c Hc. unfold compose, ascii_lower. cbv beta in Hc.
  case_match; unb; apply N.ltb_lt; lia.
Qed.

Lemma startsWith_app (p s : jsstring) : startsWith (p ++ s) p = true.
Proof.
  induction p as [|c p IH]; [by destruct s|]. cbn [app startsWith]. by rewrite N.eqb_refl, IH.
Qed.

Lemma startsWith_split (s p : jsstring) : startsWith s p = true → ∃ r, s = p ++ r.
Proof.
  revert s. induction p as [|c p IH]; intros s; [by exists s|]. destruct s as [|d s]; [done|].
  cbn [startsWith]. intros [<-%N.eqb_eq Hs]%andb_true_iff. destruct (IH s Hs) as [r ->].
  by exists r.
Qed.

(** ** Pages of a list *)

Lemma slice_page {A} (l : list A) (limit k : nat) :
  slice l (Z.of_nat (k * limit)) (Z.of_nat (k * limit) + Z.of_nat limit)
  = take limit (drop (k * limit) l).
Proof.
  unfold slice, rel_index.
  rewrite (proj2 (Z.ltb_ge (Z.of_nat (k * limit)) 0)) by lia.
  rewrite (proj2 (Z.ltb_ge (_ + _) 0)) by lia.
  destruct (decide (k * limit ≤ length l)%nat).
  - replace (Z.to_nat (Z.min (Z.of_nat (k * limit)) _)) with (k * limit)%nat by lia.
    destruct (decide (k * limit + limit ≤ length l)%nat).
    + f_equal. lia.
    + rewrite !take_ge; [done|rewrite length_drop; lia..].
  - rewrite !drop_ge by lia. by rewrite !take_nil.
Qed.

Lemma pages_concat {A} (l : list A) (limit n : nat) :
  concat ((λ k, take limit (drop (k * limit) l)) <$> seq 0 n) = take (n * limit) l.
Proof.
  induction n as [|n IH]; [done|].
  rewrite seq_S, fmap_app, concat_app, IH. simpl. rewrite app_nil_r, (Nat.add_comm limit).
  apply take_take_drop.
Qed.
