(* ===== verification/JsNumber.v ===== *)
(** * JavaScript numbers

    A JavaScript number is an IEEE-754 double. Doubles whose value is an
    integer are kept as that integer ([NInt]), all others (fractions,
    infinities, [NaN] and minus zero) as a [spec_float] of precision 53 and
    maximal exponent 1024 ([NFlt]). [num_of_float] maps a double to its unique
    representation. *)
From stdpp Require Import prelude.
From Stdlib Require Import SpecFloat.
From S2P Require Import Prelude JsString.
Local Open Scope Z_scope.

Inductive num :=
| NInt (z : Z)
| NFlt (f : spec_float).

#[global] Instance spec_float_eq_dec : EqDecision spec_float.
Proof. solve_decision. Defined.
#[global] Instance num_eq_dec : EqDecision num.
Proof. solve_decision. Defined.

Definition NaN : num := NFlt S754_nan.

Definition signed (s : bool) (z : Z) : Z := if s then - z else z.

Definition num_of_float (f : spec_float) : num :=
  match f with
  | S754_zero false => NInt 0
  | S754_finite s m e =>
      if 0 <=? e then NInt (signed s (Zpos m * 2 ^ e))
      else if Zpos m mod 2 ^ (- e) =? 0 then NInt (signed s (Zpos m / 2 ^ (- e)))
      else NFlt f
  | _ => NFlt f
  end.

(** The double nearest to an integer, ties to even. *)
Definition float_of_Z (z : Z) : spec_float := binary_normalize 53 1024 z 0 false.

Definition num_to_float (n : num) : spec_float :=
  match n with NInt z => float_of_Z z | NFlt f => f end.

(** [Number(z)] for a [BigInt]. *)
Definition num_of_Z (z : Z) : num := num_of_float (float_of_Z z).

(** The double nearest to [m * 10 ^ e]. *)
Definition float_of_decimal (m : N) (e : Z) : spec_float :=
  match m with
  | N0 => S754_zero false
  | Npos p =>
      if 0 <=? e then float_of_Z (Zpos p * 10 ^ e)
      else let '(mz, ez, lz) := SFdiv_core_binary 53 1024 (Zpos p) 0 (10 ^ (- e)) 0 in
           binary_round_aux 53 1024 false mz ez lz
  end.

Definition num_neg (n : num) : num := num_of_float (SFopp (num_to_float n)).
Definition num_add (a b : num) : num :=
  num_of_float (SFadd 53 1024 (num_to_float a) (num_to_float b)).
Definition num_sub (a b : num) : num :=
  num_of_float (SFsub 53 1024 (num_to_float a) (num_to_float b)).
Definition num_mul (a b : num) : num :=
  num_of_float (SFmul 53 1024 (num_to_float a) (num_to_float b)).
Definition num_div (a b : num) : num :=
  num_of_float (SFdiv 53 1024 (num_to_float a) (num_to_float b)).

Definition num_cmp (a b : num) : option comparison :=
  SFcompare (num_to_float a) (num_to_float b).
Definition num_ltb (a b : num) : bool :=
  match num_cmp a b with Some Lt => true | _ => false end.
Definition num_leb (a b : num) : bool :=
  match num_cmp a b with Some (Lt | Eq) => true | _ => false end.
Definition num_eqb (a b : num) : bool :=
  match num_cmp a b with Some Eq => true | _ => false end.

Definition isNaN (n : num) : bool := bool_decide (n = NaN).

(** [Math.min] and [Math.max] *)
Definition num_max (a b : num) : num :=
  if isNaN a || isNaN b then NaN else if num_ltb a b then b else a.
Definition num_min (a b : num) : num :=
  if isNaN a || isNaN b then NaN else if num_ltb a b then a else b.

(** [!!n] *)
Definition num_truthy (n : num) : bool :=
  match n with
  | NInt z => negb (z =? 0)
  | NFlt (S754_zero _ | S754_nan) => false
  | NFlt _ => true
  end.

(** The number a decimal literal of the sources denotes: [lit m e] is
    [m * 10 ^ e]. *)
Definition lit (m : N) (e : Z) : num := num_of_float (float_of_decimal m e).

(** ** Reading: [parseFloat] *)

Definition parse_exponent (s : jsstring) : Z :=
  match s with
  | e :: s1 =>
      if ((e =? 101) || (e =? 69))%N then
        let '(neg, ds) := match s1 with
          | c :: s2 => if (c =? 45)%N then (true, s2) else if (c =? 43)%N then (false, s2)
                       else (false, s1)
          | [] => (false, []) end in
        match parse_radix 10 (take_while is_digit ds) with
        | Some n => signed neg (Z.of_N n)
        | None => 0
        end
      else 0
  | [] => 0
  end.

(** The longest prefix of [u] that is an unsigned decimal literal. *)
Definition parse_unsigned (u : jsstring) : option spec_float :=
  if startsWith u "Infinity"%js then Some (S754_infinity false)
  else
    let ip := take_while is_digit u in
    let r := drop_while is_digit u in
    let '(fp, r') := match r with
      | c :: r1 => if (c =? 46)%N then (take_while is_digit r1, drop_while is_digit r1)
                   else ([], r)
      | [] => ([], []) end in
    match parse_radix 10 (ip ++ fp) with
    | None => None
    | Some m => Some (float_of_decimal m (parse_exponent r' - Z.of_nat (length fp)))
    end.

Definition parseFloat (s : jsstring) : num :=
  let t := trimStart s in
  let '(neg, u) := match t with
    | c :: t' => if (c =? 45)%N then (true, t') else if (c =? 43)%N then (false, t')
                 else (false, t)
    | [] => (false, t) end in
  match parse_unsigned u with
  | None => NaN
  | Some f => num_of_float (if neg : bool then SFopp f else f)
  end.

(** ** Printing *)

(** Sign and magnitude of a finite double, the magnitude as a fraction. *)
Definition num_magnitude (n : num) : option (bool * N * N) :=
  match n with
  | NInt z => Some (z <? 0, Z.abs_N z, 1%N)
  | NFlt (S754_zero s) => Some (s, 0%N, 1%N)
  | NFlt (S754_finite s m e) =>
      Some (if 0 <=? e then (s, Z.to_N (Zpos m * 2 ^ e), 1%N)
            else (s, Npos m, Z.to_N (2 ^ (- e))))
  | _ => None
  end.

(** The integer nearest to [p / q], the larger one in a tie. *)
Definition round_half_up (p q : N) : N := ((2 * p + q) / (2 * q))%N.

(** [m / 10 ^ f] written with exactly [f] fraction digits. *)
Definition fixed_string (m : N) (f : nat) : jsstring :=
  let ds := padStart (S f) 48 (N_to_radix 10 m) in
  match f with
  | O => ds
  | _ => take (length ds - f) ds ++ "."%js ++ drop (length ds - f) ds
  end.

(** The smallest [n] with [p / q < 10 ^ n], for [0 < p / q]. *)
Fixpoint leading_zeros (fuel : nat) (p q : N) : nat :=
  match fuel with
  | O => O
  | S fl => if (p * 10 <? q)%N then S (leading_zeros fl (p * 10) q) else O
  end.
Definition decimal_exponent (p q : N) : Z :=
  if (q <=? p)%N then Z.of_nat (length (digits 10 (p / q)))
  else - Z.of_nat (leading_zeros 400 p q).

(** The [k]-digit decimal [s * 10 ^ (n - k)] nearest to [p / q] among those that
    read back as the double [f], if there is one. *)
Definition shortest_at (f : spec_float) (p q : N) (n : Z) (k : Z) : option N :=
  let '(p', q') := if n <=? k then ((p * Z.to_N (10 ^ (k - n)))%N, q)
                   else (p, (q * Z.to_N (10 ^ (n - k)))%N) in
  let lo := (p' / q')%N in
  let near := round_half_up p' q' in
  let far := if (near =? lo)%N then (lo + 1)%N else lo in
  if bool_decide (float_of_decimal near (n - k) = f) then Some near
  else if bool_decide (float_of_decimal far (n - k) = f) then Some far
  else None.

Fixpoint shortest_from (fuel : nat) (f : spec_float) (p q : N) (n k : Z) : N * Z :=
  match fuel with
  | O => (round_half_up p q, n)
  | S fl => match shortest_at f p q n k with
            | Some s => (s, n - k)
            | None => shortest_from fl f p q n (k + 1)
            end
  end.

(** The shortest significand and exponent; 17 digits always suffice. *)
Definition shortest (f : spec_float) (p q : N) : N * Z :=
  shortest_from 17 f p q (decimal_exponent p q) 1.

(** Number::toString for the digits [s] (no trailing zero) and [s * 10 ^ x]. *)
Definition format_number (s : N) (x : Z) : jsstring :=
  let all := N_to_radix 10 s in
  let ds := strip_end 48 all in
  let k := Z.of_nat (length ds) in
  let n := Z.of_nat (length all) + x in
  if (k <=? n) && (n <=? 21) then padEnd (Z.to_nat n) 48 ds
  else if (0 <? n) && (n <=? 21)
  then take (Z.to_nat n) ds ++ "."%js ++ drop (Z.to_nat n) ds
  else if (-6 <? n) && (n <=? 0)
  then "0."%js ++ replicate (Z.to_nat (- n)) 48%N ++ ds
  else let e := n - 1 in
       let es := (if e <? 0 then "-"%js else "+"%js) ++ N_to_radix 10 (Z.abs_N e) in
       match ds with
       | [d] => [d] ++ "e"%js ++ es
       | d :: ds' => [d] ++ "."%js ++ ds' ++ "e"%js ++ es
       | [] => []
       end.

(** [String(n)] *)
Definition num_to_string (n : num) : jsstring :=
  match n with
  | NFlt S754_nan => "NaN"%js
  | NFlt (S754_infinity s) => if s then "-Infinity"%js else "Infinity"%js
  | NFlt (S754_zero _) => "0"%js
  | NInt z =>
      if Z.abs z <=? 2 ^ 53 then Z_to_string z
      else let '(s, x) := shortest (SFabs (float_of_Z z)) (Z.abs_N z) 1 in
           (if z <? 0 then "-"%js else []) ++ format_number s x
  | NFlt f =>
      match num_magnitude n with
      | Some (sg, p, q) =>
          let '(s, x) := shortest (SFabs f) p q in
          (if sg : bool then "-"%js else []) ++ format_number s x
      | None => []
      end
  end.

(** [n.toFixed(f)] *)
Definition toFixed (n : num) (f : nat) : jsstring :=
  match num_magnitude n with
  | None => num_to_string n
  | Some (sg, p, q) =>
      if (10 ^ 21 * q <=? p)%N then num_to_string n
      else (if sg && negb (p =? 0)%N then "-"%js else [])
           ++ fixed_string (round_half_up (p * 10 ^ N.of_nat f) q) f
  end.

(** Thousands separators on a string of digits. *)
Fixpoint group3 (fuel : nat) (s : jsstring) : jsstring :=
  match fuel with
  | O => s
  | S fl => if (length s <=? 3)%nat then s
            else group3 fl (take (length s - 3) s) ++ ","%js ++ drop (length s - 3) s
  end.

(** [n.toLocaleString("en-US", { minimumFractionDigits, maximumFractionDigits })],
    the defaults being 0 and 3. *)
Definition toLocaleString (n : num) (mn mx : nat) : jsstring :=
  match num_magnitude n with
  | None => match n with
            | NFlt (S754_infinity s) => if s then "-∞"%js else "∞"%js
            | _ => "NaN"%js
            end
  | Some (sg, p, q) =>
      let m := round_half_up (p * 10 ^ N.of_nat mx) q in
      let ds := padStart (S mx) 48 (N_to_radix 10 m) in
      let ip := take (length ds - mx) ds in
      let fp := drop (length ds - mx) ds in
      let fp' := padEnd mn 48 (strip_end 48 fp) in
      (if sg : bool then "-"%js else []) ++ group3 (length ip) ip
      ++ match fp' with [] => [] | _ => "."%js ++ fp' end
  end.
