(* ===== verification/Utf8.v ===== *)
(** * [TextEncoder] and [TextDecoder]

    UTF-8 encoding of JavaScript strings and the decoder of the WHATWG Encoding
    Standard, with the round trip between them. Bytes are numbers below 256. *)
From S2P Require Import Prelude JsString JsStringFacts.
Local Open Scope N_scope.

Definition is_high (c : N) : bool := (55296 <=? c) && (c <=? 56319).
Definition is_low (c : N) : bool := (56320 <=? c) && (c <=? 57343).

(** Scalar values of a string; a lone surrogate becomes U+FFFD. *)
Fixpoint to_scalars (s : jsstring) : list N :=
  match s with
  | [] => []
  | c :: s1 =>
      if is_high c then
        match s1 with
        | d :: s2 => if is_low d
                     then (65536 + (c - 55296) * 1024 + (d - 56320)) :: to_scalars s2
                     else 65533 :: to_scalars s1
        | [] => [65533]
        end
      else if is_low c then 65533 :: to_scalars s1
      else c :: to_scalars s1
  end.

(** [s.isWellFormed()] for a sequence of 16-bit units. *)
Fixpoint well_formed (s : jsstring) : bool :=
  match s with
  | [] => true
  | c :: s1 =>
      if is_high c then
        match s1 with
        | d :: s2 => is_low d && well_formed s2
        | [] => false
        end
      else negb (is_low c) && (c <? 65536) && well_formed s1
  end.

Definition encode_scalar (c : N) : list N :=
  if c <? 128 then [c]
  else if c <? 2048 then [192 + c / 64; 128 + c mod 64]
  else if c <? 65536 then [224 + c / 4096; 128 + (c / 64) mod 64; 128 + c mod 64]
  else [240 + c / 262144; 128 + (c / 4096) mod 64; 128 + (c / 64) mod 64; 128 + c mod 64].

(** [new TextEncoder().encode(s)] *)
Definition utf8_encode (s : jsstring) : list N := concat (encode_scalar <$> to_scalars s).

Definition units_of_scalar (c : N) : jsstring :=
  if c <? 65536 then [c]
  else [55296 + (c - 65536) / 1024; 56320 + (c - 65536) mod 1024].

(** *** The decoder

    Code point so far, continuation bytes still needed, and the range the next
    one has to be in. *)
Record utf8_state := Utf8State {
  u_cp : N; u_needed : nat; u_lower : N; u_upper : N
}.
Definition utf8_start : utf8_state := Utf8State 0 0 128 191.

Definition utf8_lead (b : N) : list N * utf8_state :=
  if b <? 128 then ([b], utf8_start)
  else if (194 <=? b) && (b <=? 223) then ([], Utf8State (b mod 32) 1 128 191)
  else if (224 <=? b) && (b <=? 239) then
    ([], Utf8State (b mod 16) 2 (if b =? 224 then 160 else 128)
                                (if b =? 237 then 159 else 191))
  else if (240 <=? b) && (b <=? 244) then
    ([], Utf8State (b mod 8) 3 (if b =? 240 then 144 else 128)
                               (if b =? 244 then 143 else 191))
  else ([65533], utf8_start).

Definition utf8_step (st : utf8_state) (b : N) : list N * utf8_state :=
  match u_needed st with
  | O => utf8_lead b
  | S n =>
      if (u_lower st <=? b) && (b <=? u_upper st) then
        let cp := u_cp st * 64 + b mod 64 in
        match n with
        | O => ([cp], utf8_start)
        | _ => ([], Utf8State cp n 128 191)
        end
      else let '(out, st') := utf8_lead b in (65533 :: out, st')
  end.

Fixpoint utf8_scalars (st : utf8_state) (bs : list N) : list N :=
  match bs with
  | [] => match u_needed st with O => [] | _ => [65533] end
  | b :: bs' => let '(out, st') := utf8_step st b in out ++ utf8_scalars st' bs'
  end.

(** [new TextDecoder().decode(bs)]: a byte order mark is dropped, malformed
    sequences become U+FFFD. *)
Definition utf8_decode (bs : list N) : jsstring :=
  let bs' := if startsWith bs [239; 187; 191] then drop 3 bs else bs in
  concat (units_of_scalar <$> utf8_scalars utf8_start bs').

(** ** Round trip *)

Ltac Zify.zify_post_hook ::= Z.to_euclidean_division_equations.

Definition scalar (c : N) : Prop := c < 1114112 ∧ ¬ (55296 ≤ c ∧ c ≤ 57343).

Lemma utf8_scalars_app st b bs out st' :
  utf8_step st b = (out, st') → utf8_scalars st (b :: bs) = out ++ utf8_scalars st' bs.
Proof. simpl. by intros ->. Qed.

(** One continuation byte: the last one, or one with more to come. *)
Lemma utf8_step_last cp lo hi x :
  x < 64 → lo ≤ 128 + x → 128 + x ≤ hi →
  utf8_step (Utf8State cp 1 lo hi) (128 + x) = ([cp * 64 + x], utf8_start).
Proof.
  intros Hx Hlo Hhi. unfold utf8_step. simpl. bcase.
  replace ((128 + x) mod 64) with x by lia. done.
Qed.

Lemma utf8_step_more cp n lo hi x :
  x < 64 → lo ≤ 128 + x → 128 + x ≤ hi →
  utf8_step (Utf8State cp (S (S n)) lo hi) (128 + x)
  = ([], Utf8State (cp * 64 + x) (S n) 128 191).
Proof.
  intros Hx Hlo Hhi. unfold utf8_step. simpl. bcase.
  replace ((128 + x) mod 64) with x by lia. done.
Qed.

Lemma utf8_scalars_encode c bs :
  scalar c →
  utf8_scalars utf8_start (encode_scalar c ++ bs) = c :: utf8_scalars utf8_start bs.
Proof.
  intros [Hc Hs]. unfold encode_scalar.
  destruct (N.ltb_spec c 128); [|destruct (N.ltb_spec c 2048); [|destruct (N.ltb_spec c 65536)]];
    cbn [app]; (erewrite utf8_scalars_app; [|cbn; unfold utf8_lead; bcase; done]);
    cbn [app]; [done| | |].
  - erewrite utf8_scalars_app; [|apply utf8_step_last; lia]. cbn [app]. f_equal. lia.
  - erewrite utf8_scalars_app; [|apply utf8_step_more; repeat case_match; unb; lia]. cbn [app].
    erewrite utf8_scalars_app; [|apply utf8_step_last; lia]. cbn [app]. f_equal. lia.
  - erewrite utf8_scalars_app; [|apply utf8_step_more; repeat case_match; unb; lia]. cbn [app].
    erewrite utf8_scalars_app; [|apply utf8_step_more; lia]. cbn [app].
    erewrite utf8_scalars_app; [|apply utf8_step_last; lia]. cbn [app]. f_equal. lia.
Qed.

Lemma utf8_scalars_concat cs :
  Forall scalar cs → utf8_scalars utf8_start (concat (encode_scalar <$> cs)) = cs.
Proof.
  induction 1 as [|c cs Hc _ IH]; [done|].
  rewrite fmap_cons. cbn [concat]. by rewrite utf8_scalars_encode, IH.
Qed.

Lemma string_pair_ind (P : jsstring → Prop) :
  P [] → (∀ c, P [c]) → (∀ c d s, P s → P (d :: s) → P (c :: d :: s)) → ∀ s, P s.
Proof.
  intros H0 H1 H2 s. cut (P s ∧ ∀ c, P (c :: s)); [tauto|].
  induction s as [|d s [IH1 IH2]]; [eauto|]. split; [apply IH2|]. intros c. by apply H2.
Qed.

Lemma surrogate_pair c d :
  is_high c = true → is_low d = true →
  units_of_scalar (65536 + (c - 55296) * 1024 + (d - 56320)) = [c; d]
  ∧ scalar (65536 + (c - 55296) * 1024 + (d - 56320)).
Proof.
  unfold is_high, is_low, units_of_scalar, scalar. intros Hc Hd. unb. split; [|lia].
  bcase. f_equal; [lia|f_equal; lia].
Qed.

Lemma plain_unit c :
  is_high c = false → is_low c = false → c < 65536 → units_of_scalar c = [c] ∧ scalar c.
Proof.
  unfold units_of_scalar, scalar, is_high, is_low. rewrite !andb_false_iff.
  intros Hh Hl Hc. split; [by bcase|]. destruct Hh, Hl; unb; lia.
Qed.

Lemma to_scalars_wf s :
  well_formed s = true →
  Forall scalar (to_scalars s) ∧ concat (units_of_scalar <$> to_scalars s) = s.
Proof.
  induction s as [|c|c d s IH IH'] using string_pair_ind; [done| |]; cbn [well_formed to_scalars].
  - destruct (is_high c) eqn:Hh; [done|]. rewrite !andb_true_iff, negb_true_iff, N.ltb_lt.
    intros [[Hl Hc] _]. rewrite Hl. destruct (plain_unit c) as [Hu Hs]; [done..|].
    rewrite fmap_cons, Hu. auto.
  - destruct (is_high c) eqn:Hh.
    + rewrite andb_true_iff. intros [Hd Hw]. rewrite Hd.
      destruct (IH Hw) as [IHs IHc], (surrogate_pair c d Hh Hd) as [Hu Hs].
      split; [by constructor|]. rewrite fmap_cons, Hu. cbn [concat]. by rewrite IHc.
    + rewrite !andb_true_iff, negb_true_iff, N.ltb_lt. intros [[Hl Hc] Hw]. rewrite Hl.
      destruct (IH' Hw) as [IHs IHc], (plain_unit c) as [Hu Hs]; [done..|].
      split; [by constructor|]. rewrite fmap_cons, Hu. cbn [concat].
      cbn [to_scalars] in IHc. by rewrite IHc.
Qed.

(** Only U+FEFF has the byte order mark as its encoding's first bytes. *)
Lemma encode_scalar_bom c bs :
  scalar c → startsWith (encode_scalar c ++ bs) [239; 187; 191] = true → c = 65279.
Proof.
  intros [Hc Hs]. unfold encode_scalar.
  repeat (case_match; unb); cbn [app startsWith]; intros; unb; lia.
Qed.

(** [new TextDecoder().decode(new TextEncoder().encode(s))] is [s] when [s] is
    well-formed and has no byte order mark of its own. *)
Lemma utf8_roundtrip s :
  well_formed s = true → head s ≠ Some 65279 → utf8_decode (utf8_encode s) = s.
Proof.
  intros Hw Hb. destruct (to_scalars_wf s Hw) as [Hs Hc].
  unfold utf8_decode, utf8_encode.
  destruct (startsWith _ _) eqn:Hbom; [|by rewrite utf8_scalars_concat].
  exfalso. destruct (to_scalars s) as [|c cs] eqn:He; [by simplify_eq/=|].
  inversion Hs as [|? ? Hsc]; subst. apply (encode_scalar_bom c) in Hbom as ->; [|done].
  by apply Hb.
Qed.

Lemma encode_scalar_bytes c : scalar c → Forall (λ b, b < 256) (encode_scalar c).
Proof.
  intros [Hc Hs]. unfold encode_scalar.
  repeat (case_match; unb); repeat constructor; lia.
Qed.

Lemma well_formed_app s t :
  well_formed s = true → well_formed t = true → well_formed (s ++ t) = true.
Proof.
  intros Hs Ht. revert Hs. induction s as [|c|c d s IH IH'] using string_pair_ind; [done| |];
    cbn [well_formed app].
  - destruct (is_high c); [done|]. by rewrite andb_true_r, Ht, andb_true_r.
  - destruct (is_high c).
    + rewrite !andb_true_iff. naive_solver.
    + intros [H1 H2]%andb_true_iff. rewrite H1. by apply IH'.
Qed.

Lemma well_formed_ascii s : Forall (λ c, c < 128) s → well_formed s = true.
Proof.
  induction 1 as [|c s Hc _ IH]; [done|]. cbn [well_formed]. unfold is_high, is_low. bcase.
  rewrite IH, !andb_true_r. by bsolve || (apply andb_true_iff; split;
    [apply negb_true_iff; bsolve|bsolve]).
Qed.

(** Distinct well-formed strings have distinct encodings. *)
Lemma utf8_encode_inj s t :
  well_formed s = true → well_formed t = true → utf8_encode s = utf8_encode t → s = t.
Proof.
  intros Hs Ht E. destruct (to_scalars_wf s Hs) as [Fs Cs], (to_scalars_wf t Ht) as [Ft Ct].
  unfold utf8_encode in E. apply (f_equal (utf8_scalars utf8_start)) in E.
  rewrite !utf8_scalars_concat in E by done. by rewrite <-Cs, E.
Qed.
