(* ===== verification/JsNumberFacts.v ===== *)
(** * Facts on JavaScript numbers

    Integers up to [2 ^ 53] in absolute value are represented exactly, and their
    decimal representation reads back. *)
From Stdlib Require Import SpecFloat.
From S2P Require Import Prelude JsString JsStringFacts JsNumber.
Local Open Scope Z_scope.

Definition safe_int (z : Z) : Prop := Z.abs z ≤ 2 ^ 53.

Lemma digits2_pos_bound p :
  2 ^ (Zpos (digits2_pos p) - 1) ≤ Zpos p < 2 ^ Zpos (digits2_pos p).
Proof.
  induction p as [p IH|p IH|]; [| |done]; cbn [digits2_pos];
    rewrite Pos2Z.inj_succ; unfold Z.succ;
    replace (Zpos (digits2_pos p) + 1 - 1) with (Z.succ (Zpos (digits2_pos p) - 1)) by lia;
    rewrite Z.pow_succ_r by lia; rewrite Z.pow_add_r by lia;
    rewrite ?(Pos2Z.inj_xI p), ?(Pos2Z.inj_xO p); lia.
Qed.

Lemma digits2_pos_le p n : Zpos p < 2 ^ n → 0 ≤ n → Zpos (digits2_pos p) ≤ n.
Proof.
  intros Hp Hn. pose proof (digits2_pos_bound p) as [Hlo _].
  assert (Zpos (digits2_pos p) - 1 < n); [|lia].
  apply (Z.pow_lt_mono_r_iff 2); lia.
Qed.

Lemma iter_xO p d : Zpos (Pos.iter xO p d) = Zpos p * 2 ^ Zpos d.
Proof.
  induction d as [|d IH] using Pos.peano_ind; [simpl; lia|].
  rewrite Pos.iter_succ, Pos2Z.inj_xO, IH, Pos2Z.inj_succ, Z.pow_succ_r by lia. lia.
Qed.

Lemma digits2_iter_xO p d :
  Zpos (digits2_pos (Pos.iter xO p d)) = Zpos (digits2_pos p) + Zpos d.
Proof.
  induction d as [|d IH] using Pos.peano_ind; [simpl; lia|].
  rewrite Pos.iter_succ. cbn [digits2_pos]. lia.
Qed.

(** A mantissa of exactly 53 digits is not rounded. *)
Lemma binary_round_aux_exact s m e :
  Zpos (digits2_pos m) = 53 → -1074 ≤ e ≤ 971 →
  binary_round_aux 53 1024 s (Zpos m) e loc_Exact = S754_finite s m e.
Proof.
  intros Hd He. unfold binary_round_aux, shr_fexp, fexp, emin. cbn [Zdigits2]. rewrite Hd.
  replace (Z.max _ _ - e) with 0 by lia.
  cbn [shr shr_record_of_loc loc_of_shr_record shr_m round_nearest_even Zdigits2]. rewrite Hd.
  replace (Z.max _ _ - e) with 0 by lia. cbn [shr shr_m].
  by rewrite (proj2 (Z.leb_le e (1024 - 53))) by lia.
Qed.

Lemma binary_round_small s p :
  Zpos p < 2 ^ 53 →
  ∃ m e, binary_round 53 1024 s p 0 = S754_finite s m e
         ∧ e ≤ 0 ∧ Zpos m = Zpos p * 2 ^ (- e).
Proof.
  intros Hp. pose proof (digits2_pos_le p 53 Hp ltac:(lia)) as HD.
  unfold binary_round, fexp, emin, shl_align.
  replace (Z.max _ _ - 0) with (Zpos (digits2_pos p) - 53) by lia.
  destruct (Zpos (digits2_pos p) - 53) as [|?|d] eqn:E; [|lia|].
  - exists p, 0. split; [|lia]. apply binary_round_aux_exact; lia.
  - exists (Pos.iter xO p d), (Zneg d).
    replace (Z.max _ _) with (Zneg d) by lia.
    split; [|split; [lia|apply iter_xO]].
    apply binary_round_aux_exact; [rewrite digits2_iter_xO|]; lia.
Qed.

Lemma num_of_float_exact s p m e :
  e ≤ 0 → Zpos m = Zpos p * 2 ^ (- e) →
  num_of_float (S754_finite s m e) = NInt (signed s (Zpos p)).
Proof.
  intros He Hm. unfold num_of_float. destruct (Z.leb_spec 0 e).
  - assert (e = 0) as -> by lia. do 2 f_equal. rewrite Hm. simpl. lia.
  - rewrite Hm. assert (0 < 2 ^ (- e)) by lia.
    rewrite Z_mod_mult, Z.eqb_refl, Z_div_mult by lia. done.
Qed.

Lemma num_of_binary_round s p :
  Zpos p ≤ 2 ^ 53 → num_of_float (binary_round 53 1024 s p 0) = NInt (signed s (Zpos p)).
Proof.
  intros Hp. destruct (decide (Zpos p = 2 ^ 53)) as [E|].
  - assert (p = (2 ^ 53)%positive) as -> by lia. by destruct s; vm_compute.
  - destruct (binary_round_small s p) as (m & e & -> & He & Hm); [lia|].
    by apply num_of_float_exact.
Qed.

Lemma num_of_Z_safe z : safe_int z → num_of_Z z = NInt z.
Proof.
  unfold safe_int, num_of_Z, float_of_Z, binary_normalize. intros Hz.
  destruct z as [|p|p]; [done| |]; by rewrite num_of_binary_round by lia.
Qed.

(** Comparison of integers that are doubles. *)
Lemma SFcompare_eq_float f g :
  SFcompare f g = Some Eq → f = g ∨ ∃ s s', f = S754_zero s ∧ g = S754_zero s'.
Proof.
  destruct f as [s|[]| |[] m e], g as [s'|[]| |[] m' e']; simpl; try done; eauto; intros E; left.
  all: destruct (Z.compare_spec e e') as [->| |]; try done.
  all: f_equal; apply Pos.compare_eq; unfold Pos.compare.
  all: by destruct (Pos.compare_cont Eq m m').
Qed.

Lemma num_eqb_int h z :
  safe_int h → safe_int z → num_eqb (NInt h) (NInt z) = true → h = z.
Proof.
  intros Hh%num_of_Z_safe Hz%num_of_Z_safe. unfold num_eqb, num_cmp. simpl.
  destruct (SFcompare _ _) as [[]|] eqn:E; try done. intros _.
  unfold num_of_Z in *.
  apply SFcompare_eq_float in E as [E|([] & [] & E1 & E2)]; [congruence|..];
    rewrite E1 in Hh; rewrite E2 in Hz; simpl in *; congruence.
Qed.

(** Negating the double of a positive integer. *)
Lemma num_opp_float_of_Z p :
  Zpos p ≤ 2 ^ 53 → num_of_float (SFopp (float_of_Z (Zpos p))) = NInt (Zneg p).
Proof.
  intros Hp. destruct (decide (Zpos p = 2 ^ 53)) as [E|].
  - assert (p = (2 ^ 53)%positive) as -> by lia. by vm_compute.
  - unfold float_of_Z, binary_normalize.
    destruct (binary_round_small false p) as (m & e & -> & He & Hm); [lia|].
    cbn [SFopp negb]. by apply (num_of_float_exact true p).
Qed.

(** ** Reading back *)

Abbreviation all_digits := (Forall (λ c, is_digit c = true)).

Lemma take_drop_while_digits s :
  all_digits s → take_while is_digit s = s ∧ drop_while is_digit s = [].
Proof.
  induction 1 as [|c s Hc _ [IH1 IH2]]; [done|]. simpl. by rewrite Hc, IH1, IH2.
Qed.

Lemma digits_not_infinity s : all_digits s → startsWith s "Infinity"%js = false.
Proof.
  destruct 1 as [|c s Hc _]; [done|]. cbn [startsWith]. apply is_digit_spec in Hc.
  replace (73 =? c)%N with false by (symmetry; apply N.eqb_neq; lia). done.
Qed.

Lemma parse_unsigned_digits s :
  s ≠ [] → all_digits s →
  parse_unsigned s = Some (float_of_Z (Z.of_N (dec_value s))).
Proof.
  intros Hne Hs. unfold parse_unsigned. rewrite digits_not_infinity by done.
  destruct (take_drop_while_digits s Hs) as [-> ->]. cbn [parse_exponent length].
  rewrite app_nil_r, parse_radix10 by done. f_equal.
  unfold float_of_decimal. destruct (dec_value s) as [|p]; [done|].
  by rewrite Z.mul_1_r.
Qed.

(** A string of digits is read without its sign being looked for. *)
Lemma parseFloat_digits s :
  s ≠ [] → all_digits s → (dec_value s ≤ 2 ^ 53)%N →
  parseFloat s = NInt (Z.of_N (dec_value s)).
Proof.
  intros Hne Hs Hb. unfold parseFloat, trimStart.
  destruct s as [|c s]; [done|]. inversion Hs as [|? ? Hc ?]; subst.
  cbn [drop_while]. rewrite is_digit_not_ws by done.
  pose proof (proj1 (is_digit_spec c) Hc).
  replace (c =? 45)%N with false by (symmetry; apply N.eqb_neq; lia).
  replace (c =? 43)%N with false by (symmetry; apply N.eqb_neq; lia).
  rewrite parse_unsigned_digits by done.
  apply num_of_Z_safe. unfold safe_int. lia.
Qed.

Lemma parseFloat_minus s :
  parseFloat (45%N :: s)
  = match parse_unsigned s with None => NaN | Some f => num_of_float (SFopp f) end.
Proof. done. Qed.

Lemma parseFloat_print z : safe_int z → parseFloat (Z_to_string z) = NInt z.
Proof.
  unfold safe_int, Z_to_string. intros Hz. destruct (Z.ltb_spec z 0).
  - rewrite parseFloat_minus, parse_unsigned_digits;
      [|apply N_to_radix_nonnil|apply N_to_radix10_digits].
    rewrite dec_value_N_to_radix. destruct z as [|p|p]; [lia..|].
    apply num_opp_float_of_Z. lia.
  - rewrite parseFloat_digits;
      [|apply N_to_radix_nonnil|apply N_to_radix10_digits|];
      rewrite ?dec_value_N_to_radix; [f_equal|]; lia.
Qed.

Lemma num_to_string_safe z : safe_int z → num_to_string (NInt z) = Z_to_string z.
Proof. intros Hz. unfold num_to_string. by rewrite (proj2 (Z.leb_le _ _)). Qed.
