(* ===== verification/JsJson.v ===== *)
(** * Dynamic values and JSON

    Values of type [any] as the sources handle them: the result of
    [resp.json()], request bodies, stored strings. [JSON.stringify] and
    [JSON.parse] follow ECMA-262. *)
From S2P Require Import Prelude JsString JsNumber Utf8.

#[warnings="-register-all"]
Inductive jsval :=
| JUndef
| JNull
| JBool (b : bool)
| JNum (n : num)
| JStr (s : jsstring)
| JArr (l : list jsval)
| JObj (fs : list (jsstring * jsval)).

Definition is_undef (v : jsval) : bool := match v with JUndef => true | _ => false end.

(** [v === undefined || v === null] *)
Definition is_nullish (v : jsval) : bool :=
  match v with JUndef | JNull => true | _ => false end.

Definition truthy (v : jsval) : bool :=
  match v with
  | JUndef | JNull => false
  | JBool b => b
  | JNum n => num_truthy n
  | JStr s => negb (bool_decide (s = []))
  | JArr _ | JObj _ => true
  end.

(** [v || w] and [v ?? w] *)
Definition js_or (v w : jsval) : jsval := if truthy v then v else w.
Definition js_nullish (v w : jsval) : jsval := if is_nullish v then w else v.

Fixpoint obj_get (fs : list (jsstring * jsval)) (k : jsstring) : jsval :=
  match fs with
  | [] => JUndef
  | (k', v) :: fs' => if bool_decide (k' = k) then v else obj_get fs' k
  end.

Definition type_error {A} (msg : jsstring) : outcome A := Throw (JsErr "TypeError"%js msg).

(** [v.k]; of the built-in properties only [length] is read by the sources. *)
Definition get_prop (v : jsval) (k : jsstring) : outcome jsval :=
  match v with
  | JUndef => type_error ("Cannot read properties of undefined (reading '"%js ++ k ++ "')"%js)
  | JNull => type_error ("Cannot read properties of null (reading '"%js ++ k ++ "')"%js)
  | JObj fs => Ok (obj_get fs k)
  | JStr s => Ok (if bool_decide (k = "length"%js) then JNum (NInt (Z.of_nat (length s)))
                  else JUndef)
  | JArr l => Ok (if bool_decide (k = "length"%js) then JNum (NInt (Z.of_nat (length l)))
                  else JUndef)
  | _ => Ok JUndef
  end.

(** [v?.k] *)
Definition get_prop_opt (v : jsval) (k : jsstring) : outcome jsval :=
  if is_nullish v then Ok JUndef else get_prop v k.

(** [v?.k] does not throw. *)
Definition field (v : jsval) (k : jsstring) : jsval :=
  match get_prop_opt v k with Ok x => x | Throw _ => JUndef end.

(** [v === w]; two objects are never the same one here. *)
Definition strict_eq (v w : jsval) : bool :=
  match v, w with
  | JUndef, JUndef | JNull, JNull => true
  | JBool a, JBool b => Bool.eqb a b
  | JNum a, JNum b => num_eqb a b
  | JStr a, JStr b => bool_decide (a = b)
  | _, _ => false
  end.

(** [String(v)] *)
Fixpoint to_string (v : jsval) : jsstring :=
  match v with
  | JUndef => "undefined"%js
  | JNull => "null"%js
  | JBool b => if b then "true"%js else "false"%js
  | JNum n => num_to_string n
  | JStr s => s
  | JArr l => join_with ","%js (map (λ x, if is_nullish x then [] else to_string x) l)
  | JObj _ => "[object Object]"%js
  end.

(** [Number(s)]: white space, radix prefixes, an optional sign and a decimal
    literal that takes the whole string. *)
Definition scan_decimal (u : jsstring) : bool :=
  let r := drop_while is_digit u in
  let '(fp, r') := match r with
    | c :: r1 => if (c =? 46)%N then (take_while is_digit r1, drop_while is_digit r1)
                 else ([], r)
    | [] => ([], []) end in
  negb (bool_decide (take_while is_digit u ++ fp = []))
  && match r' with
     | [] => true
     | e :: s1 =>
         ((e =? 101) || (e =? 69))%N
         && let ds := match s1 with
              | c :: s2 => if ((c =? 45) || (c =? 43))%N then s2 else s1
              | [] => [] end in
            negb (bool_decide (ds = [])) && forallb is_digit ds
     end.

Definition string_to_number (s : jsstring) : num :=
  match trim s with
  | [] => NInt 0
  | c :: u =>
      let radix b t := match parse_radix b t with Some n => num_of_Z (Z.of_N n) | None => NaN end in
      match c, u with
      | 48%N, (120%N | 88%N) :: t => radix 16%N t
      | 48%N, (111%N | 79%N) :: t => radix 8%N t
      | 48%N, (98%N | 66%N) :: t => radix 2%N t
      | _, _ =>
          let v := if ((c =? 45) || (c =? 43))%N then u else c :: u in
          if bool_decide (v = "Infinity"%js) || scan_decimal v then parseFloat (c :: u) else NaN
      end
  end.

(** ToNumber *)
Definition to_number (v : jsval) : num :=
  match v with
  | JUndef => NaN
  | JNull => NInt 0
  | JBool b => NInt (if b then 1 else 0)
  | JNum n => n
  | _ => string_to_number (to_string v)
  end.

(** [v > n] for a number [n] *)
Definition js_gt (v : jsval) (n : num) : bool := num_ltb n (to_number v).

(** [BigInt(v)]; the messages are V8's. *)
Definition BigInt_of (v : jsval) : outcome Z :=
  match v with
  | JUndef => type_error "Cannot convert undefined to a BigInt"%js
  | JNull => type_error "Cannot convert null to a BigInt"%js
  | JBool b => Ok (if b then 1%Z else 0%Z)
  | JNum (NInt z) => Ok z
  | JNum n =>
      if num_eqb n (NInt 0) then Ok 0%Z
      else Throw (JsErr "RangeError"%js
             ("The number "%js ++ num_to_string n
              ++ " cannot be converted to a BigInt because it is not an integer"%js))
  | _ => BigInt (to_string v)
  end.

(** ** [JSON.stringify] *)

Definition u_escape (c : N) : jsstring := "\u"%js ++ padStart 4 48 (N_to_radix 16 c).

Definition escape_unit (c : N) : jsstring :=
  if (c =? 8)%N then "\b"%js
  else if (c =? 9)%N then "\t"%js
  else if (c =? 10)%N then "\n"%js
  else if (c =? 12)%N then "\f"%js
  else if (c =? 13)%N then "\r"%js
  else if (c =? 34)%N then [92; 34]%N
  else if (c =? 92)%N then "\\"%js
  else if ((c <? 32)%N || is_low c)%bool then u_escape c
  else [c].

Fixpoint json_escape (s : jsstring) : jsstring :=
  match s with
  | [] => []
  | c :: s1 =>
      if is_high c then
        match s1 with
        | d :: s2 => if is_low d then c :: d :: json_escape s2
                     else u_escape c ++ json_escape s1
        | [] => u_escape c
        end
      else escape_unit c ++ json_escape s1
  end.

Definition json_quote (s : jsstring) : jsstring := [34%N] ++ json_escape s ++ [34%N].

Definition json_number (n : num) : jsstring :=
  match num_magnitude n with Some _ => num_to_string n | None => "null"%js end.

Fixpoint json_ser (v : jsval) : jsstring :=
  match v with
  | JUndef | JNull => "null"%js
  | JBool b => if b then "true"%js else "false"%js
  | JNum n => json_number n
  | JStr s => json_quote s
  | JArr l => "["%js ++ join_with ","%js (map json_ser l) ++ "]"%js
  | JObj fs =>
      "{"%js
      ++ join_with ","%js
           (flat_map (λ '(k, x), if is_undef x then []
                                 else [json_quote k ++ ":"%js ++ json_ser x]) fs)
      ++ "}"%js
  end.

(** [JSON.stringify(v)]; [None] is [undefined]. *)
Definition JSON_stringify (v : jsval) : option jsstring :=
  if is_undef v then None else Some (json_ser v).

(** [JSON.stringify(v, null, n)]; [ind] is the current indentation. *)
Fixpoint json_pretty_at (n ind : nat) (v : jsval) : jsstring :=
  let nl k := 10%N :: replicate k 32%N in
  match v with
  | JArr [] => "[]"%js
  | JArr l =>
      "["%js ++ nl (ind + n)
      ++ join_with (","%js ++ nl (ind + n)) (map (json_pretty_at n (ind + n)) l)
      ++ nl ind ++ "]"%js
  | JObj fs =>
      match flat_map (λ '(k, x), if is_undef x then []
                                 else [json_quote k ++ ": "%js ++ json_pretty_at n (ind + n) x]) fs with
      | [] => "{}"%js
      | ms => "{"%js ++ nl (ind + n) ++ join_with (","%js ++ nl (ind + n)) ms ++ nl ind ++ "}"%js
      end
  | _ => json_ser v
  end.
Definition json_pretty (n : nat) (v : jsval) : jsstring := json_pretty_at n 0 v.

(** ** [JSON.parse] *)

Definition json_ws (c : N) : bool :=
  ((c =? 32) || (c =? 9) || (c =? 10) || (c =? 13))%N.
Definition skip_ws (s : jsstring) : jsstring := drop_while json_ws s.

(** An object's own string keys: array indices in ascending order, then the
    other keys in the order of their creation. *)
Definition array_index (k : jsstring) : option N :=
  n ← parse_radix 10 k;
  if ((n <? 4294967295)%N && bool_decide (N_to_radix 10 n = k))%bool then Some n else None.

Fixpoint obj_set (fs : list (jsstring * jsval)) (k : jsstring) (v : jsval) :
    list (jsstring * jsval) :=
  match fs with
  | [] => [(k, v)]
  | (k', v') :: fs' =>
      if bool_decide (k' = k) then (k, v) :: fs'
      else match array_index k, array_index k' with
      | Some i, Some j => if (i <? j)%N then (k, v) :: fs else (k', v') :: obj_set fs' k v
      | Some _, None => (k, v) :: fs
      | None, _ => (k', v') :: obj_set fs' k v
      end
  end.

Definition obj_of_entries (es : list (jsstring * jsval)) : list (jsstring * jsval) :=
  foldl (λ fs e, obj_set fs e.1 e.2) [] es.

Definition simple_escape (e : N) : option N :=
  if (e =? 34)%N then Some 34%N
  else if (e =? 92)%N then Some 92%N
  else if (e =? 47)%N then Some 47%N
  else if (e =? 98)%N then Some 8%N
  else if (e =? 102)%N then Some 12%N
  else if (e =? 110)%N then Some 10%N
  else if (e =? 114)%N then Some 13%N
  else if (e =? 116)%N then Some 9%N
  else None.

(** The characters of a string literal after its opening quote. *)
Fixpoint parse_string (s : jsstring) : option (jsstring * jsstring) :=
  match s with
  | [] => None
  | c :: s1 =>
      if (c =? 34)%N then Some ([], s1)
      else if (c =? 92)%N then
        match s1 with
        | [] => None
        | e :: s2 =>
            if (e =? 117)%N then
              match s2 with
              | h1 :: h2 :: h3 :: h4 :: s3 =>
                  u ← parse_radix 16 [h1; h2; h3; h4];
                  '(t, r) ← parse_string s3; Some (u :: t, r)
              | _ => None
              end
            else u ← simple_escape e; '(t, r) ← parse_string s2; Some (u :: t, r)
        end
      else if (c <? 32)%N then None
      else '(t, r) ← parse_string s1; Some (c :: t, r)
  end.

(** The longest prefix that is a JSON number, and the rest. *)
Definition scan_number (s : jsstring) : option (jsstring * jsstring) :=
  let '(sg, s1) := match s with
    | c :: s' => if (c =? 45)%N then ([c], s') else ([], s)
    | [] => ([], s) end in
  '(ip, s2) ← match s1 with
    | c :: s' => if (c =? 48)%N then Some ([c], s')
                 else if is_digit c
                 then Some (take_while is_digit s1, drop_while is_digit s1) else None
    | [] => None end;
  let '(fp, s3) := match s2 with
    | c :: s' => if ((c =? 46)%N && negb (bool_decide (take_while is_digit s' = [])))%bool
                 then (c :: take_while is_digit s', drop_while is_digit s') else ([], s2)
    | [] => ([], s2) end in
  let '(ep, s4) := match s3 with
    | c :: s' =>
        if ((c =? 101) || (c =? 69))%N then
          let '(es, s'') := match s' with
            | d :: t => if ((d =? 45) || (d =? 43))%N then ([d], t) else ([], s')
            | [] => ([], s') end in
          if bool_decide (take_while is_digit s'' = []) then ([], s3)
          else (c :: es ++ take_while is_digit s'', drop_while is_digit s'')
        else ([], s3)
    | [] => ([], s3) end in
  Some (sg ++ ip ++ fp ++ ep, s4).

Definition parse_scalar (s : jsstring) : option (jsval * jsstring) :=
  if startsWith s "true"%js then Some (JBool true, drop 4 s)
  else if startsWith s "false"%js then Some (JBool false, drop 5 s)
  else if startsWith s "null"%js then Some (JNull, drop 4 s)
  else '(l, r) ← scan_number s; Some (JNum (parseFloat l), r).

(** The rest of [s] after white space and the character [c]. *)
Definition expect (c : N) (s : jsstring) : option jsstring :=
  match skip_ws s with
  | d :: r => if (d =? c)%N then Some r else None
  | [] => None
  end.

(** A value, the elements of an array after a bracket, the members of an object
    after a brace. Every second call consumes a character. *)
Fixpoint parse_value (fuel : nat) (s : jsstring) : option (jsval * jsstring) :=
  match fuel with
  | O => None
  | S f =>
      match skip_ws s with
      | [] => None
      | c :: s1 =>
          if (c =? 34)%N then '(t, r) ← parse_string s1; Some (JStr t, r)
          else if (c =? 91)%N then
            match expect 93 s1 with
            | Some r => Some (JArr [], r)
            | None => '(l, r) ← parse_elems f s1; Some (JArr l, r)
            end
          else if (c =? 123)%N then
            match expect 125 s1 with
            | Some r => Some (JObj [], r)
            | None => '(es, r) ← parse_members f s1; Some (JObj (obj_of_entries es), r)
            end
          else parse_scalar (c :: s1)
      end
  end
with parse_elems (fuel : nat) (s : jsstring) : option (list jsval * jsstring) :=
  match fuel with
  | O => None
  | S f =>
      '(v, r) ← parse_value f s;
      match expect 44 r with
      | Some r1 => '(l, r2) ← parse_elems f r1; Some (v :: l, r2)
      | None => r1 ← expect 93 r; Some ([v], r1)
      end
  end
with parse_members (fuel : nat) (s : jsstring) :
    option (list (jsstring * jsval) * jsstring) :=
  match fuel with
  | O => None
  | S f =>
      s1 ← expect 34 s;
      '(k, r) ← parse_string s1;
      r1 ← expect 58 r;
      '(v, r2) ← parse_value f r1;
      match expect 44 r2 with
      | Some r3 => '(es, r4) ← parse_members f r3; Some ((k, v) :: es, r4)
      | None => r3 ← expect 125 r2; Some ([(k, v)], r3)
      end
  end.

(** [JSON.parse(s)]; no code reads the message of the error, which differs
    between engines. *)
Definition JSON_parse (s : jsstring) : outcome jsval :=
  match parse_value (2 * length s + 2) s with
  | Some (v, r) =>
      if bool_decide (skip_ws r = []) then Ok v
      else Throw (JsErr "SyntaxError"%js "Unexpected token in JSON"%js)
  | None => Throw (JsErr "SyntaxError"%js "Unexpected token in JSON"%js)
  end.
