(* ===== verification/JsJsonFacts.v ===== *)
(** * JSON round trip

    [JSON.parse] reads back what [JSON.stringify] prints, for values without
    [undefined], with numbers that are integers up to [2 ^ 53] and objects that
    have distinct keys, none of them an array index. *)
From S2P Require Import Prelude JsString JsStringFacts JsNumber JsNumberFacts Utf8.
From S2P Require Import JsJson.

Section jsval_ind.
Variable P : jsval → Prop.
Hypothesis HU : P JUndef.
Hypothesis HN : P JNull.
Hypothesis HB : ∀ b, P (JBool b).
Hypothesis HM : ∀ n, P (JNum n).
Hypothesis HS : ∀ s, P (JStr s).
Hypothesis HA : ∀ l, Forall P l → P (JArr l).
Hypothesis HO : ∀ fs, Forall (λ kv, P kv.2) fs → P (JObj fs).

Fixpoint jsval_rect' (v : jsval) : P v :=
  match v with
  | JUndef => HU
  | JNull => HN
  | JBool b => HB b
  | JNum n => HM n
  | JStr s => HS s
  | JArr l => HA l ((fix go l : Forall P l :=
      match l with
      | [] => Forall_nil_2 _
      | x :: l' => Forall_cons_2 _ _ _ (jsval_rect' x) (go l')
      end) l)
  | JObj fs => HO fs ((fix go fs : Forall (λ kv, P kv.2) fs :=
      match fs with
      | [] => Forall_nil_2 _
      | kv :: fs' =>
          Forall_cons_2 _ _ _
            (match kv as p return P p.2 with (_, x) => jsval_rect' x end) (go fs')
      end) fs)
  end.
End jsval_ind.

Definition utf16 (s : jsstring) : Prop := Forall (λ c, (c < 65536)%N) s.

(** The values the round trip is for, whose strings satisfy [P]. *)
Fixpoint json_with (P : jsstring → Prop) (v : jsval) : Prop :=
  match v with
  | JUndef => False
  | JNull | JBool _ => True
  | JNum n => match n with NInt z => safe_int z | NFlt _ => False end
  | JStr s => P s
  | JArr l => foldr (λ x, and (json_with P x)) True l
  | JObj fs => NoDup fs.*1
               ∧ foldr (λ '(k, x), and (P k ∧ array_index k = None ∧ json_with P x)) True fs
  end.

(** With strings of 16-bit units. *)
Abbreviation json_ok := (json_with utf16).

(** ** Strings *)

Lemma parse_string_u_escape c s t r :
  (c < 65536)%N → parse_string s = Some (t, r) →
  parse_string (u_escape c ++ s) = Some (c :: t, r).
Proof.
  intros Hc Hs. unfold u_escape.
  pose proof (length_padStart_radix 4 16 c ltac:(lia) ltac:(lia) Hc) as Hl.
  pose proof (parse_radix_pad 4 16 c ltac:(lia) ltac:(lia)) as Hp.
  destruct (padStart 4 48 (N_to_radix 16 c)) as [|h1 [|h2 [|h3 [|h4 [|??]]]]]; [done..| |done].
  cbn [app parse_string]. rewrite Hp, Hs. done.
Qed.

Lemma parse_string_plain c s t r :
  (32 ≤ c)%N → c ≠ 34%N → c ≠ 92%N → parse_string s = Some (t, r) →
  parse_string (c :: s) = Some (c :: t, r).
Proof.
  intros H1 H2 H3 Hs. cbn [parse_string].
  rewrite (proj2 (N.eqb_neq _ _) H2), (proj2 (N.eqb_neq _ _) H3), (proj2 (N.ltb_ge _ _) H1), Hs.
  done.
Qed.

Lemma is_high_range c : is_high c = true → (55296 ≤ c ≤ 56319)%N.
Proof. unfold is_high. intros. by unb. Qed.

Lemma is_low_range c : is_low c = true → (56320 ≤ c ≤ 57343)%N.
Proof. unfold is_low. intros. by unb. Qed.

Lemma parse_string_escape_unit c s t r :
  parse_string s = Some (t, r) →
  parse_string (escape_unit c ++ s) = Some (c :: t, r).
Proof.
  intros Hs. unfold escape_unit.
  repeat match goal with
  | |- context [(c =? ?k)%N] => destruct (N.eqb_spec c k); [subst; cbn; by rewrite Hs|]
  end.
  case_match eqn:E.
  - apply parse_string_u_escape; [|done].
    apply orb_true_iff in E as [E%N.ltb_lt|E%is_low_range]; lia.
  - unb. by apply parse_string_plain.
Qed.

Lemma parse_string_escape s rest :
  parse_string (json_escape s ++ 34%N :: rest) = Some (s, rest).
Proof.
  induction s as [|c|c d s IH IH'] using string_pair_ind; [done| |].
  - cbn [json_escape]. destruct (is_high c) eqn:Hh.
    + apply parse_string_u_escape; [apply is_high_range in Hh; lia|done].
    + rewrite app_nil_r. by apply parse_string_escape_unit.
  - set (t := d :: s) in *. cbn [json_escape].
    destruct (is_high c) eqn:Hh; [|rewrite <-(assoc_L (++)); by apply parse_string_escape_unit].
    apply is_high_range in Hh. subst t. cbv beta iota. destruct (is_low d) eqn:Hl.
    + cbn [app]. apply is_low_range in Hl.
      apply parse_string_plain; [lia..|]. apply parse_string_plain; [lia..|]. done.
    + rewrite <-(assoc_L (++)). apply parse_string_u_escape; [lia|done].
Qed.

(** ** Numbers *)

(** What follows a value inside a document. *)
Definition delim (rest : jsstring) : Prop :=
  match rest with [] => True | c :: _ => c = 44%N ∨ c = 93%N ∨ c = 125%N end.

Lemma delim_not_digit rest :
  delim rest → match rest with [] => True | x :: _ => is_digit x = false end.
Proof. destruct rest; [done|]. by intros [->|[->| ->]]. Qed.

Lemma N_to_radix10_zero : N_to_radix 10 0 = "0"%js.
Proof. done. Qed.

Lemma scan_number_print z rest :
  delim rest → scan_number (Z_to_string z ++ rest) = Some (Z_to_string z, rest).
Proof.
  intros Hr. pose proof (delim_not_digit rest Hr) as Hnd.
  assert (∀ n, ∃ c s, N_to_radix 10 n = c :: s ∧ c ≠ 45%N ∧
    (if (c =? 48)%N then Some ([c], s ++ rest)
     else if is_digit c then Some (take_while is_digit ((c :: s) ++ rest),
                                   drop_while is_digit ((c :: s) ++ rest)) else None)
    = Some (N_to_radix 10 n, rest)) as Hn.
  { intros n. destruct (decide (n = 0%N)) as [->|Hn]; [by exists 48%N, []|].
    destruct (N_to_radix10_head n Hn) as (c & s & E & H1 & H2).
    exists c, s. split_and!; [done|lia|].
    rewrite (proj2 (N.eqb_neq c 48)), (proj2 (is_digit_spec c)) by lia.
    destruct (take_drop_while_app is_digit (c :: s) rest) as [-> ->]; [|done|by rewrite E].
    rewrite <-E. apply N_to_radix10_digits. }
  destruct (Hn (Z.abs_N z)) as (c & s & E & Hc & Hi).
  unfold scan_number, Z_to_string. rewrite E in Hi |- *.
  destruct (z <? 0)%Z; cbn [app N.eqb Pos.eqb];
    [|rewrite (proj2 (N.eqb_neq c 45)) by done]; cbn [app] in Hi |- *; rewrite Hi;
    cbn [mbind option_bind]; destruct rest as [|x rest]; rewrite ?app_nil_r; try done;
    destruct Hr as [->|[->| ->]]; cbn; by rewrite ?app_nil_r.
Qed.

(** ** Values *)

(** Fuel the parser needs for a printed value. *)
Fixpoint need (v : jsval) : nat :=
  match v with
  | JArr l => S (sum_list_with (λ x, S (need x)) l)
  | JObj fs => S (sum_list_with (λ '(_, x), S (need x)) fs)
  | _ => 1
  end.

Lemma join_with_cons sep (x : jsstring) xs :
  join_with sep (x :: xs) = x ++ match xs with [] => [] | _ => sep ++ join_with sep xs end.
Proof. destruct xs; simpl; [by rewrite app_nil_r|done]. Qed.

Lemma Z_to_string_head z : ∃ c s, Z_to_string z = c :: s ∧ (45 ≤ c)%N ∧ (c ≤ 57)%N.
Proof.
  unfold Z_to_string. destruct (z <? 0)%Z; [eexists _, _; split; [reflexivity|lia]|].
  pose proof (N_to_radix10_digits (Z.abs_N z)) as Hd.
  destruct (N_to_radix 10 (Z.abs_N z)) as [|d s] eqn:E; [by destruct (N_to_radix_nonnil _ _ E)|].
  apply Forall_cons in Hd as [Hd%is_digit_spec _]. exists d, s. split; [done|lia].
Qed.

Lemma parse_scalar_number z rest :
  safe_int z → delim rest →
  parse_scalar (Z_to_string z ++ rest) = Some (JNum (NInt z), rest).
Proof.
  intros Hz Hr. unfold parse_scalar.
  assert (∀ p, p ≠ [] → Forall (λ c, 58 ≤ c)%N p →
               startsWith (Z_to_string z ++ rest) p = false) as Hs.
  { intros p Hp Ha. destruct Ha as [|c p Hc _]; [done|].
    destruct (Z_to_string_head z) as (d & s & -> & Hd1 & Hd2). cbn [app startsWith].
    by rewrite (proj2 (N.eqb_neq c d)) by lia. }
  rewrite !Hs by (done || (repeat constructor; lia)).
  rewrite scan_number_print by done. cbn [mbind option_bind]. by rewrite parseFloat_print.
Qed.

Lemma parse_value_number z f rest :
  safe_int z → delim rest →
  parse_value (S f) (Z_to_string z ++ rest) = Some (JNum (NInt z), rest).
Proof.
  intros Hz Hr. pose proof (parse_scalar_number z rest Hz Hr) as Hp.
  destruct (Z_to_string_head z) as (c & s & E & Hc1 & Hc2). rewrite E in Hp |- *.
  cbn [parse_value app] in *. unfold skip_ws. cbn [drop_while].
  replace (json_ws c) with false by (unfold json_ws; symmetry; bsolve).
  by rewrite !(proj2 (N.eqb_neq c _)) by lia.
Qed.

Lemma length_join_with (ss : list jsstring) :
  (sum_list_with (λ s, S (length s)) ss ≤ S (length (join_with ","%js ss)))%nat.
Proof.
  induction ss as [|s ss IH]; [simpl; lia|]. rewrite join_with_cons, length_app.
  destruct ss; simpl in *; lia.
Qed.

Lemma sum_list_with_le {A} (f g : A → nat) l :
  Forall (λ x, f x ≤ g x)%nat l → (sum_list_with f l ≤ sum_list_with g l)%nat.
Proof. induction 1; simpl; lia. Qed.

Lemma sum_list_with_map {A B} (f : B → nat) (g : A → B) l :
  sum_list_with f (map g l) = sum_list_with (λ x, f (g x)) l.
Proof. induction l; simpl; congruence. Qed.

Section printed.
Context (P : jsstring → Prop).

Lemma json_ok_arr l : json_with P (JArr l) ↔ Forall (json_with P) l.
Proof.
  cbn [json_with]. induction l as [|x l IH]; simpl; [by split|].
  rewrite IH, Forall_cons. done.
Qed.

Definition field_ok (kv : jsstring * jsval) : Prop :=
  P kv.1 ∧ array_index kv.1 = None ∧ json_with P kv.2.

Lemma json_ok_obj fs : json_with P (JObj fs) ↔ NoDup fs.*1 ∧ Forall field_ok fs.
Proof.
  cbn [json_with]. f_equiv. induction fs as [|[k x] fs IH]; simpl; [by split|].
  rewrite IH, Forall_cons. done.
Qed.

(** The first character of a printed value. *)
Lemma json_ser_head v :
  json_with P v → ∃ c s, json_ser v = c :: s ∧ json_ws c = false ∧ c ≠ 93%N.
Proof.
  destruct v as [| |[]|[z|]|s|l|fs]; cbn [json_with json_ser]; try done; intros Hok;
    try (eexists _, _; split; [reflexivity|done]).
  unfold json_number. cbn [num_magnitude]. rewrite num_to_string_safe by done.
  destruct (Z_to_string_head z) as (c & s & -> & Hc1 & Hc2).
  exists c, s. split_and!; [done| |lia]. unfold json_ws. bsolve.
Qed.

Lemma expect_cons c d s :
  json_ws d = false → expect c (d :: s) = if (d =? c)%N then Some s else None.
Proof. intros Hd. unfold expect, skip_ws. simpl. by rewrite Hd. Qed.

Lemma obj_set_fresh fs k v :
  k ∉ fs.*1 → array_index k = None → obj_set fs k v = fs ++ [(k, v)].
Proof.
  induction fs as [|[k' v'] fs IH]; simpl; [done|]. intros [Hk Hf]%not_elem_of_cons Hi.
  rewrite bool_decide_false by congruence. rewrite Hi, IH by done. done.
Qed.

Lemma obj_of_entries_id fs :
  NoDup fs.*1 → Forall field_ok fs → obj_of_entries fs = fs.
Proof.
  intros Hnd Hok. unfold obj_of_entries. pattern fs at 2. rewrite <-(app_nil_l fs).
  assert (NoDup (([] ++ fs).*1)) as Hnd' by done. revert Hnd'. clear Hnd.
  generalize (@nil (jsstring * jsval)) as acc.
  induction Hok as [|[k x] fs (_ & Hi & _) _ IH]; intros acc Hnd; simpl; [by rewrite app_nil_r|].
  rewrite fmap_app, fmap_cons in Hnd. simpl in *.
  rewrite obj_set_fresh; [|intros Hk; apply NoDup_app in Hnd as (_ & Hd & _);
    apply (Hd k Hk); by left|done].
  rewrite IH; rewrite <-(assoc_L (++)); [done|]. by rewrite fmap_app.
Qed.

(** Elements and members, given the round trip of their values. *)
Definition rt (v : jsval) : Prop :=
  json_with P v → ∀ f rest, (need v ≤ f)%nat → delim rest →
  parse_value f (json_ser v ++ rest) = Some (v, rest).

Lemma parse_elems_ser v l f rest :
  Forall rt (v :: l) → Forall (json_with P) (v :: l) →
  (sum_list_with (λ x, S (need x)) (v :: l) ≤ f)%nat →
  parse_elems f (join_with ","%js (map json_ser (v :: l)) ++ 93%N :: rest)
  = Some (v :: l, rest).
Proof.
  revert v f. induction l as [|w l IH]; intros v f Hrt Hok Hf;
    apply Forall_cons in Hrt as [Hv Hrt]; apply Forall_cons in Hok as [Hov Hok];
    (destruct f as [|f]; [simpl in Hf; lia|]); cbn [parse_elems];
    rewrite map_cons, join_with_cons, <-(assoc_L (++)); cbn [sum_list_with] in Hf.
  - rewrite app_nil_l, Hv by (done || lia || (simpl; tauto)). cbn [mbind option_bind].
    by rewrite !expect_cons.
  - cbn [map]. rewrite <-map_cons, <-(assoc_L (++)), Hv by (done || lia || (simpl; tauto)).
    cbn [mbind option_bind app]. rewrite expect_cons by done. cbn [N.eqb Pos.eqb].
    rewrite IH; [done|done|done|simpl in *; lia].
Qed.

Definition field_ser (kv : jsstring * jsval) : jsstring :=
  json_quote kv.1 ++ ":"%js ++ json_ser kv.2.

Lemma json_ser_obj fs :
  Forall field_ok fs →
  json_ser (JObj fs) = "{"%js ++ join_with ","%js (map field_ser fs) ++ "}"%js.
Proof.
  intros Hok. cbn [json_ser]. do 3 f_equal.
  induction Hok as [|[k x] fs (_ & _ & Hx) _ IH]; [done|]. simpl in *. rewrite <-IH.
  by destruct x.
Qed.

Lemma parse_members_ser kv fs f rest :
  Forall (λ kv, rt kv.2) (kv :: fs) → Forall field_ok (kv :: fs) →
  (sum_list_with (λ '(_, x), S (need x)) (kv :: fs) ≤ f)%nat →
  parse_members f (join_with ","%js (map field_ser (kv :: fs)) ++ 125%N :: rest)
  = Some (kv :: fs, rest).
Proof.
  revert kv f. induction fs as [|kv' fs IH]; intros [k v] f Hrt Hok Hf;
    apply Forall_cons in Hrt as [Hv Hrt]; apply Forall_cons in Hok as [(Hk & _ & Hov) Hok];
    (destruct f as [|f]; [simpl in Hf; lia|]); cbn [parse_members];
    rewrite map_cons, join_with_cons, <-(assoc_L (++)); cbn [sum_list_with] in Hf;
    unfold field_ser at 1, json_quote; rewrite <-!(assoc_L (++)); cbn [app fst snd] in *;
    rewrite expect_cons by done; cbn [N.eqb Pos.eqb mbind option_bind];
    rewrite parse_string_escape by done; cbn [mbind option_bind];
    rewrite expect_cons by done; cbn [N.eqb Pos.eqb mbind option_bind].
  - cbn [map app]. rewrite Hv by (done || lia || (simpl; tauto)). cbn [mbind option_bind].
    by rewrite !expect_cons.
  - cbn [map app]. rewrite <-map_cons, Hv by (done || lia || (simpl; tauto)).
    cbn [mbind option_bind]. rewrite expect_cons by done. cbn [N.eqb Pos.eqb].
    rewrite IH; [done|done|done|simpl in *; lia].
Qed.

Lemma json_roundtrip_at v : rt v.
Proof.
  induction v as [| |[]|[z|fl]|s|l IH|fs IH] using jsval_rect'; intros Hok f rest Hf Hr;
    (destruct f as [|f]; [simpl in Hf; lia|]); try done; try by destruct rest.
  - cbn [json_ser]. unfold json_number. cbn [num_magnitude].
    rewrite num_to_string_safe by done. by apply parse_value_number.
  - cbn [json_ser]. unfold json_quote. rewrite <-!(assoc_L (++)). cbn [parse_value app].
    cbn. by rewrite parse_string_escape.
  - apply json_ok_arr in Hok. cbn [json_ser]. rewrite <-!(assoc_L (++)). cbn [app].
    destruct l as [|x l]; [done|]. destruct (json_ser_head x) as (c & s & E & Hc & Hn).
    { by apply Forall_cons in Hok as [? _]. }
    pose proof (parse_elems_ser x l f rest IH Hok ltac:(simpl in *; lia)) as Hp.
    revert Hp. rewrite map_cons, join_with_cons, E. cbn [app]. cbn [parse_value]. intros Hp.
    unfold skip_ws at 1. cbn [drop_while json_ws N.eqb Pos.eqb orb].
    rewrite expect_cons, (proj2 (N.eqb_neq c 93)), Hp by done. done.
  - apply json_ok_obj in Hok as [Hnd Hok]. rewrite json_ser_obj by done.
    rewrite <-!(assoc_L (++)). cbn [app]. destruct fs as [|kv fs]; [done|].
    pose proof (parse_members_ser kv fs f rest IH Hok ltac:(simpl in *; lia)) as Hp.
    revert Hp. rewrite map_cons, join_with_cons. cbn [app field_ser json_quote].
    cbn [parse_value]. intros Hp.
    unfold skip_ws at 1. cbn [drop_while json_ws N.eqb Pos.eqb orb].
    rewrite expect_cons by done. cbn [N.eqb Pos.eqb]. rewrite Hp. cbn [mbind option_bind].
    by rewrite obj_of_entries_id.
Qed.

(** The fuel of [JSON.parse] is enough for what [JSON.stringify] prints. *)
Lemma need_le v : json_with P v → (need v ≤ length (json_ser v))%nat.
Proof.
  induction v as [| |[]|n|s|l IH|fs IH] using jsval_rect'; intros Hok.
  all: try (simpl; lia).
  - destruct (json_ser_head _ Hok) as (c & s & -> & _). simpl. lia.
  - apply json_ok_arr in Hok. cbn [json_ser need].
    rewrite !length_app. simpl. rewrite Nat.add_1_r.
    etransitivity; [|apply le_n_S, length_join_with]. apply le_n_S.
    rewrite sum_list_with_map. apply sum_list_with_le.
    rewrite Forall_forall in *. intros x Hx. apply le_n_S. auto.
  - apply json_ok_obj in Hok as [_ Hok]. rewrite json_ser_obj by done. cbn [need].
    rewrite !length_app. simpl. rewrite Nat.add_1_r.
    etransitivity; [|apply le_n_S, length_join_with]. apply le_n_S.
    rewrite sum_list_with_map. apply sum_list_with_le.
    rewrite Forall_forall in *. intros [k x] Hx. apply le_n_S.
    unfold field_ser. rewrite !length_app. destruct (Hok _ Hx) as (_ & _ & Hox).
    specialize (IH _ Hx Hox). simpl in *. lia.
Qed.

Lemma json_roundtrip v : json_with P v → JSON_parse (json_ser v) = Ok v.
Proof.
  intros Hok. unfold JSON_parse. pose proof (need_le v Hok).
  rewrite <-(app_nil_r (json_ser v)) at 2.
  rewrite (json_roundtrip_at v Hok) by (done || lia). done.
Qed.

Lemma json_ser_inj v w : json_with P v → json_with P w → json_ser v = json_ser w → v = w.
Proof.
  intros Hv Hw E. apply json_roundtrip in Hv, Hw. rewrite E in Hv. congruence.
Qed.
End printed.

(** ** What [JSON.stringify] prints is well-formed UTF-16 *)

Lemma u_escape_wf c : well_formed (u_escape c) = true.
Proof.
  apply well_formed_ascii. unfold u_escape. repeat (constructor; [lia|]).
  eapply Forall_impl; [apply (padStart_radix_chars 4 16 c); lia|].
  intros x (d & Hd & ->). unfold digit_char. destruct (N.ltb_spec d 10); lia.
Qed.

Lemma escape_unit_wf c :
  (c < 65536)%N → is_high c = false → well_formed (escape_unit c) = true.
Proof.
  intros Hc Hh. unfold escape_unit. repeat (case_match; [done|]).
  case_match eqn:E; [apply u_escape_wf|]. apply orb_false_iff in E as [_ Hl].
  cbn [well_formed]. by rewrite Hh, Hl, (proj2 (N.ltb_lt _ _) Hc).
Qed.

Lemma json_escape_wf s : utf16 s → well_formed (json_escape s) = true.
Proof.
  induction s as [|c|c d s IH IH'] using string_pair_ind; intros Hs; [done| |].
  - inversion Hs; subst. cbn [json_escape]. destruct (is_high c) eqn:E; [apply u_escape_wf|].
    rewrite app_nil_r. by apply escape_unit_wf.
  - inversion Hs as [|? ? Hc Hs']; subst. inversion Hs' as [|? ? _ Hs'']; subst.
    specialize (IH Hs''). specialize (IH' Hs').
    set (t := d :: s) in *. cbn [json_escape].
    destruct (is_high c) eqn:Hh; [|apply well_formed_app; [by apply escape_unit_wf|done]].
    subst t. cbv beta iota. destruct (is_low d) eqn:Hl.
    + cbn [well_formed]. by rewrite Hh, Hl.
    + apply well_formed_app; [apply u_escape_wf|done].
Qed.

Lemma json_quote_wf s : utf16 s → well_formed (json_quote s) = true.
Proof.
  intros Hs. unfold json_quote. apply well_formed_app; [done|].
  apply well_formed_app; [by apply json_escape_wf|done].
Qed.

Lemma join_with_wf (ss : list jsstring) :
  Forall (λ s, well_formed s = true) ss → well_formed (join_with ","%js ss) = true.
Proof.
  induction 1 as [|s ss Hs Hss IH]; [done|]. rewrite join_with_cons.
  apply well_formed_app; [done|]. destruct ss; [done|]. by apply well_formed_app.
Qed.

Lemma Z_to_string_chars z : Forall (λ c, 45 ≤ c ∧ c ≤ 57)%N (Z_to_string z).
Proof.
  unfold Z_to_string. pose proof (N_to_radix10_digits (Z.abs_N z)) as Hd.
  destruct (z <? 0)%Z; [constructor; [lia|]|]; (eapply Forall_impl; [exact Hd|]);
    intros c ?%is_digit_spec; lia.
Qed.

Lemma json_ser_wf v : json_ok v → well_formed (json_ser v) = true.
Proof.
  induction v as [| |[]|[z|?]|s|l IH|fs IH] using jsval_rect'; intros Hok; try done.
  - cbn [json_ser]. unfold json_number. cbn [num_magnitude].
    rewrite num_to_string_safe by done. apply well_formed_ascii.
    eapply Forall_impl; [apply Z_to_string_chars|]. simpl. lia.
  - by apply json_quote_wf.
  - apply json_ok_arr in Hok. cbn [json_ser]. apply well_formed_app; [done|].
    apply well_formed_app; [|done]. apply join_with_wf, Forall_fmap.
    rewrite Forall_forall in *. intros x Hx. simpl. auto.
  - apply json_ok_obj in Hok as [_ Hok]. rewrite (json_ser_obj utf16) by done.
    apply well_formed_app; [done|]. apply well_formed_app; [|done].
    apply join_with_wf, Forall_fmap. rewrite Forall_forall in *. intros [k x] Hx.
    destruct (Hok _ Hx) as (Hk & _ & Hox). unfold field_ser. simpl in *.
    apply well_formed_app; [by apply json_quote_wf|]. apply (well_formed_app ":"%js); [done|].
    by apply (IH (k, x)).
Qed.

(** [new TextEncoder().encode(JSON.stringify(v))] determines [v]. *)
Lemma json_bytes_inj v w :
  json_ok v → json_ok w → utf8_encode (json_ser v) = utf8_encode (json_ser w) → v = w.
Proof.
  intros Hv Hw E. apply (json_ser_inj utf16); [done..|].
  apply utf8_encode_inj; [by apply json_ser_wf..|done].
Qed.
