(* ===== verification/Bytes.v ===== *)
(** * Byte arrays

    A [Uint8Array] is a list of numbers below 256. The hexadecimal conversions
    that [address.ts], [transaction.ts], [hd_wallet.ts] and [vault.ts] each
    write out. *)
From S2P Require Import Prelude JsString JsStringFacts.
Local Open Scope N_scope.

Definition bytes := list N.
Definition is_byte (b : N) : Prop := b < 256.

(** [b.toString(16).padStart(2, "0")] *)
Definition byte_hex (b : N) : jsstring := padStart 2 48 (N_to_radix 16 b).

(** [Array.from(bs).map((b) => b.toString(16).padStart(2, "0")).join("")] *)
Definition bytesToHex (bs : bytes) : jsstring := join (byte_hex <$> bs).

(** An element of [new Uint8Array(...)] from the result of [parseInt]. *)
Definition to_uint8 (n : option Z) : N :=
  match n with Some z => Z.to_N (z mod 256) | None => 0 end.

(** [new Uint8Array(match ? match.map((byte) => parseInt(byte, 16)) : [])] for
    [match = s.match(/.{1,2}/g)] *)
Definition bytes_of_pairs (s : jsstring) : bytes :=
  (λ p, to_uint8 (parseInt 16 p)) <$> chunks2 s.

(** ** Hexadecimal digits *)

Definition hex_val (c : N) : N :=
  match digit_val c with Some d => d | None => 0 end.

Lemma is_hex_cases c :
  is_hex c = true ↔ (48 ≤ c ∧ c ≤ 57) ∨ (97 ≤ c ∧ c ≤ 102) ∨ (65 ≤ c ∧ c ≤ 70).
Proof. unfold is_hex, is_digit. rewrite !orb_true_iff, !andb_true_iff, !N.leb_le. tauto. Qed.

Lemma radix16_digit c :
  is_hex c = true → radix_digit 16 c = Some (hex_val c) ∧ hex_val c < 16.
Proof.
  rewrite is_hex_cases. intros Hc. unfold radix_digit, hex_val, digit_val.
  destruct Hc as [|[|]]; bcase; cbn [mbind option_bind]; bcase; split; done || lia.
Qed.

Lemma is_hex_char d : d < 16 → is_hex (digit_char d) = true.
Proof.
  intros Hd. apply is_hex_cases. unfold digit_char. destruct (N.ltb_spec d 10); lia.
Qed.

Lemma is_hex_not_ws c : is_hex c = true → is_ws c = false.
Proof. rewrite is_hex_cases. intros Hc. unfold is_ws. bsolve. Qed.

Lemma is_hex_not_line_end c : is_hex c = true → is_line_end c = false.
Proof. rewrite is_hex_cases. intros Hc. unfold is_line_end. bsolve. Qed.

(** [parseInt] of a pair of hexadecimal digits. *)
Lemma parseInt_pair a b :
  is_hex a = true → is_hex b = true →
  to_uint8 (parseInt 16 [a; b]) = 16 * hex_val a + hex_val b.
Proof.
  intros Ha Hb. unfold parseInt, trimStart. cbn [drop_while]. rewrite is_hex_not_ws by done.
  pose proof (proj1 (is_hex_cases a) Ha). pose proof (proj1 (is_hex_cases b) Hb).
  bcase. replace ((b =? 120) || (b =? 88)) with false by (symmetry; bsolve).
  rewrite andb_false_r. destruct (radix16_digit a Ha) as [Ea La], (radix16_digit b Hb) as [Eb Lb].
  cbn [take_while]. unfold is_radix_digit. rewrite Ea, Eb.
  rewrite !bool_decide_true by eauto. cbn [parse_radix mapM]. rewrite Ea, Eb.
  cbn. unfold digits_value. simpl. rewrite Z.mod_small by lia. lia.
Qed.

Lemma chunks2_pair a b s :
  is_hex a = true → is_hex b = true → chunks2 (a :: b :: s) = [a; b] :: chunks2 s.
Proof. intros Ha Hb. cbn [chunks2]. by rewrite !is_hex_not_line_end. Qed.

Lemma bytes_of_pairs_cons a b s :
  is_hex a = true → is_hex b = true →
  bytes_of_pairs (a :: b :: s) = (16 * hex_val a + hex_val b) :: bytes_of_pairs s.
Proof.
  intros Ha Hb. unfold bytes_of_pairs. by rewrite chunks2_pair, fmap_cons, parseInt_pair.
Qed.

(** ** Round trips *)

Lemma byte_hex_digits x :
  is_byte x →
  ∃ da db, byte_hex x = [digit_char da; digit_char db] ∧ da < 16 ∧ db < 16 ∧ x = 16 * da + db.
Proof.
  intros Hx. unfold byte_hex.
  pose proof (length_padStart_radix 2 16 x ltac:(lia) ltac:(lia) Hx) as Hl.
  pose proof (parse_radix_pad 2 16 x ltac:(lia) ltac:(lia)) as Hp.
  pose proof (padStart_radix_chars 2 16 x ltac:(lia) ltac:(lia)) as Hc.
  destruct (padStart 2 48 (N_to_radix 16 x)) as [|a [|b [|??]]]; [done..| |done].
  apply Forall_cons in Hc as [(da & Hda & ->) Hc].
  apply Forall_cons in Hc as [(db & Hdb & ->) _].
  exists da, db. split_and!; [done..|]. cbn [parse_radix mapM] in Hp.
  rewrite !radix_digit_char in Hp by lia.
  cbn in Hp. injection Hp as <-. unfold digits_value. simpl. lia.
Qed.

Lemma byte_hex_pair x :
  is_byte x →
  ∃ a b, byte_hex x = [a; b] ∧ is_hex a = true ∧ is_hex b = true
         ∧ 16 * hex_val a + hex_val b = x.
Proof.
  intros Hx. destruct (byte_hex_digits x Hx) as (da & db & -> & Ha & Hb & ->).
  exists (digit_char da), (digit_char db). unfold hex_val. rewrite !digit_val_char by lia.
  auto using is_hex_char.
Qed.

Lemma bytesToHex_cons x bs : bytesToHex (x :: bs) = byte_hex x ++ bytesToHex bs.
Proof. done. Qed.

Lemma bytes_of_pairs_hex bs : Forall is_byte bs → bytes_of_pairs (bytesToHex bs) = bs.
Proof.
  induction 1 as [|x bs Hx _ IH]; [done|]. rewrite bytesToHex_cons.
  destruct (byte_hex_pair x Hx) as (a & b & -> & Ha & Hb & E). cbn [app].
  by rewrite bytes_of_pairs_cons, IH, E.
Qed.

Lemma length_bytesToHex bs : Forall is_byte bs → length (bytesToHex bs) = (2 * length bs)%nat.
Proof.
  induction 1 as [|x bs Hx _ IH]; [done|]. rewrite bytesToHex_cons, length_app, IH.
  destruct (byte_hex_pair x Hx) as (a & b & -> & _). simpl. lia.
Qed.

Lemma bytesToHex_is_hex bs :
  Forall is_byte bs → Forall (λ c, is_hex c = true) (bytesToHex bs).
Proof.
  induction 1 as [|x bs Hx _ IH]; [constructor|]. rewrite bytesToHex_cons.
  destruct (byte_hex_pair x Hx) as (a & b & -> & Ha & Hb & _). by repeat constructor.
Qed.

(** The other direction: an even number of hexadecimal digits is read into
    bytes whose hexadecimal form is the lower-case string. *)
Lemma digit_char_hex_val c : is_hex c = true → digit_char (hex_val c) = ascii_lower c.
Proof.
  rewrite is_hex_cases. intros Hc. unfold hex_val, digit_val, digit_char, ascii_lower.
  destruct Hc as [|[|]]; bcase; lia.
Qed.

Lemma byte_hex_of_pair a b :
  is_hex a = true → is_hex b = true →
  byte_hex (16 * hex_val a + hex_val b) = [ascii_lower a; ascii_lower b].
Proof.
  intros Ha Hb. rewrite <-(digit_char_hex_val a), <-(digit_char_hex_val b) by done.
  destruct (radix16_digit a Ha) as [_ La], (radix16_digit b Hb) as [_ Lb].
  destruct (byte_hex_digits (16 * hex_val a + hex_val b)) as (da & db & -> & Hda & Hdb & E);
    [unfold is_byte; lia|].
  by assert (da = hex_val a ∧ db = hex_val b) as [-> ->] by lia.
Qed.

Lemma bytes_of_pairs_inv n s :
  Forall (λ c, is_hex c = true) s → length s = (2 * n)%nat →
  Forall is_byte (bytes_of_pairs s) ∧ length (bytes_of_pairs s) = n
  ∧ bytesToHex (bytes_of_pairs s) = ascii_lower <$> s.
Proof.
  revert s. induction n as [|n IH]; intros s Hs Hl; [by destruct s|].
  destruct s as [|a [|b s]]; [simpl in Hl; lia..|].
  apply Forall_cons in Hs as [Ha Hs]. apply Forall_cons in Hs as [Hb Hs].
  destruct (IH s Hs) as (IH1 & IH2 & IH3); [simpl in Hl; lia|].
  rewrite bytes_of_pairs_cons by done.
  destruct (radix16_digit a Ha) as [_ La], (radix16_digit b Hb) as [_ Lb]. split_and!.
  - constructor; [unfold is_byte; lia|done].
  - simpl. by rewrite IH2.
  - rewrite bytesToHex_cons, IH3, byte_hex_of_pair by done. done.
Qed.

Lemma bytesToHex_inj bs cs :
  Forall is_byte bs → Forall is_byte cs → bytesToHex bs = bytesToHex cs → bs = cs.
Proof.
  intros Hb Hc E. by rewrite <-(bytes_of_pairs_hex bs), E, bytes_of_pairs_hex.
Qed.
