(* ===== verification/Address.v ===== *)
(** * Addresses: [packages/sprax-wallet-core/src/address.ts]

    [AddressUtil] over the [bech32] package, which is the parameter [Bech32]
    with the documented laws [Bech32Laws]. *)
From S2P Require Import Prelude JsString JsStringFacts Utf8 Bytes.

(** ** The [bech32] package *)

Class Bech32 := {
  toWords : bytes → list N;
  fromWords : list N → outcome bytes;
  bech32_encode : jsstring → list N → outcome jsstring;
  bech32_decode : jsstring → outcome (jsstring * list N);
}.

(** A human-readable part in lower case. *)
Definition hrp_ok (p : jsstring) : Prop :=
  p ≠ [] ∧ Forall (λ c, 33 ≤ c ∧ c ≤ 126)%N p ∧ ascii_lower <$> p = p.

(** The characters of the data part: digits and lower-case letters. *)
Definition data_char (c : N) : bool :=
  (((48 <=? c) && (c <=? 57)) || ((97 <=? c) && (c <=? 122)))%N.

(** BIP-173 as the package documents it: words are a faithful encoding of bytes;
    a string of up to 90 characters is produced, made of the prefix, the
    separator and the data part; decoding inverts encoding, ignores the case of
    the whole string, and accepts only strings that encoding produces. *)
Class Bech32Laws (B : Bech32) : Prop := {
  fromWords_toWords bs : Forall is_byte bs → fromWords (toWords bs) = Ok bs;
  toWords_fromWords ws bs :
    fromWords ws = Ok bs → Forall is_byte bs ∧ toWords bs = ws;
  encode_fits p bs :
    hrp_ok p → Forall is_byte bs → (length p + 2 * length bs ≤ 80)%nat →
    is_ok (bech32_encode p (toWords bs)) = true;
  encode_shape p ws s :
    hrp_ok p → bech32_encode p ws = Ok s →
    ∃ d, s = p ++ "1"%js ++ d ∧ Forall (λ c, data_char c = true) d;
  decode_encode p ws s :
    hrp_ok p → bech32_encode p ws = Ok s → bech32_decode s = Ok (p, ws);
  encode_decode s p ws :
    bech32_decode s = Ok (p, ws) → bech32_encode p ws = Ok (ascii_lower <$> s);
}.

Module AddressUtil.

Definition SPRAX_HRP : jsstring := "sprax"%js.

Section util.
Context `{Bech32}.

Definition length_error {A} (n : nat) : outcome A :=
  throw ("Address must be exactly 20 bytes, got "%js ++ Z_to_string (Z.of_nat n)).

Definition toBech32 (rawBytes : bytes) : outcome jsstring :=
  if negb (length rawBytes =? 20)%nat then length_error (length rawBytes)
  else bech32_encode SPRAX_HRP (toWords rawBytes).

Definition toHex (rawBytes : bytes) : outcome jsstring :=
  if negb (length rawBytes =? 20)%nat then length_error (length rawBytes)
  else Ok ("0x"%js ++ bytesToHex rawBytes).

Definition parseToBytes (addressStr : jsstring) : outcome bytes :=
  let clean := trim addressStr in
  if startsWith clean "0x"%js || startsWith clean "0X"%js then
    let hex := slice_from clean 2 in
    if negb (length hex =? 40)%nat || negb (forallb is_hex hex && (length hex =? 40)%nat)
    then throw "Invalid 0x hex address: must be 40 hexadecimal characters"%js
    else Ok (bytes_of_pairs hex)
  else
    try_catch
      ('(prefix, words) ← bech32_decode clean;
       if negb (bool_decide (prefix = SPRAX_HRP)) then
         throw ("Invalid Bech32 prefix: expected '"%js ++ SPRAX_HRP
                ++ "', got '"%js ++ prefix ++ "'"%js)
       else
         bs ← fromWords words;
         if negb (length bs =? 20)%nat then
           throw ("Invalid address payload length: expected 20 bytes, got "%js
                  ++ Z_to_string (Z.of_nat (length bs)))
         else Ok bs)
      (λ e, throw ("Invalid address format: "%js ++ err_message e)).

Definition isValidAddress (addressStr : jsstring) : bool :=
  match parseToBytes addressStr with Ok _ => true | Throw _ => false end.
End util.
End AddressUtil.
Import AddressUtil.

(** ** Theorems *)

Section facts.
Context `{B : Bech32}.

(** A raw address: 20 bytes. *)
Definition raw_address (bs : bytes) : Prop := length bs = 20%nat ∧ Forall is_byte bs.

Lemma toHex_ok bs : raw_address bs → toHex bs = Ok ("0x"%js ++ bytesToHex bs).
Proof. intros [Hl _]. unfold toHex. by rewrite Hl. Qed.

(** The hexadecimal branch of [parseToBytes]. *)
Lemma parse_hex x s clean :
  trim clean = 48%N :: x :: s → x = 120%N ∨ x = 88%N →
  parseToBytes clean
  = if (length s =? 40)%nat && forallb is_hex s then Ok (bytes_of_pairs s)
    else throw "Invalid 0x hex address: must be 40 hexadecimal characters"%js.
Proof.
  intros Ht Hx. unfold parseToBytes. rewrite Ht, (slice_from_nat _ 2). change (drop 2 (48%N :: x :: s)) with s.
  replace (startsWith _ _ || startsWith _ _) with true
    by (symmetry; by destruct Hx as [->| ->], s).
  by destruct (length s =? 40)%nat, (forallb is_hex s).
Qed.

Lemma parse_hex_ok x s clean :
  trim clean = 48%N :: x :: s → x = 120%N ∨ x = 88%N →
  length s = 40%nat → Forall (λ c, is_hex c = true) s →
  parseToBytes clean = Ok (bytes_of_pairs s).
Proof.
  intros Ht Hx Hl Hs. rewrite (parse_hex x s) by done.
  by rewrite Hl, (proj2 (forallb_Forall_true _ _) Hs).
Qed.

Lemma ascii_lower_hex c : is_hex c = true → is_hex (ascii_lower c) = true.
Proof.
  rewrite !is_hex_cases. unfold ascii_lower. intros Hc.
  destruct ((65 <=? c) && (c <=? 90))%N eqn:E; [unb; lia|].
  apply andb_false_iff in E as [E|E]; unb; lia.
Qed.

Lemma ascii_lower_hex_inv c : is_hex (ascii_lower c) = true → is_hex c = true.
Proof.
  rewrite !is_hex_cases. unfold ascii_lower.
  destruct ((65 <=? c) && (c <=? 90))%N eqn:E; [unb; lia|lia].
Qed.

Lemma bytesToHex_lower bs :
  Forall is_byte bs → ascii_lower <$> bytesToHex bs = bytesToHex bs.
Proof.
  intros Hb. pose proof (bytesToHex_is_hex bs Hb) as Hh.
  destruct (bytes_of_pairs_inv (length bs) (bytesToHex bs)) as (_ & _ & E); [done| |].
  - by apply length_bytesToHex.
  - by rewrite <-E, bytes_of_pairs_hex.
Qed.

(** Reading hexadecimal digits in any case. *)
Lemma bytes_of_pairs_lower s bs :
  Forall is_byte bs → ascii_lower <$> s = bytesToHex bs →
  Forall (λ c, is_hex c = true) s ∧ length s = (2 * length bs)%nat ∧ bytes_of_pairs s = bs.
Proof.
  intros Hb E. assert (Forall (λ c, is_hex c = true) s) as Hs.
  { pose proof (bytesToHex_is_hex bs Hb) as Hh. rewrite <-E, Forall_fmap in Hh.
    eapply Forall_impl; [exact Hh|]. intros c. apply ascii_lower_hex_inv. }
  assert (length s = (2 * length bs)%nat) as Hl.
  { by rewrite <-length_bytesToHex, <-E, length_fmap. }
  split_and!; [done..|].
  destruct (bytes_of_pairs_inv (length bs) s Hs Hl) as (Hb' & _ & E').
  apply bytesToHex_inj; [done..|]. by rewrite E'.
Qed.

Lemma ascii_lower_48 c : ascii_lower c = 48%N → c = 48%N.
Proof. unfold ascii_lower. case_match; unb; lia. Qed.

Lemma ascii_lower_120 c : ascii_lower c = 120%N → c = 120%N ∨ c = 88%N.
Proof. unfold ascii_lower. case_match; unb; lia. Qed.

Lemma parse_hex_form bs s h :
  raw_address bs → toHex bs = Ok h → ascii_lower <$> trim s = h → parseToBytes s = Ok bs.
Proof.
  intros [Hl Hb] Hh E. rewrite toHex_ok in Hh by done. injection Hh as <-.
  destruct (trim s) as [|c [|x t]] eqn:Ht; [done..|].
  rewrite !fmap_cons in E. injection E as Hc Hx Et.
  apply ascii_lower_48 in Hc as ->. apply ascii_lower_120 in Hx.
  destruct (bytes_of_pairs_lower t bs Hb Et) as (Hs & Hlt & Hbs).
  rewrite (parse_hex_ok x t); [by rewrite Hbs|done..|by rewrite Hlt, Hl|done].
Qed.

Lemma parse_toHex bs : raw_address bs → parseToBytes ("0x"%js ++ bytesToHex bs) = Ok bs.
Proof.
  intros Hr. eapply parse_hex_form; [done|by apply toHex_ok|]. destruct Hr as [_ Hb].
  rewrite trim_id, fmap_app, bytesToHex_lower by
    (done || (repeat (constructor; [done|]); eapply Forall_impl;
              [by apply bytesToHex_is_hex|]; apply is_hex_not_ws)). done.
Qed.

Section laws.
Context `{L : !Bech32Laws B}.

Lemma hrp_sprax : hrp_ok SPRAX_HRP.
Proof. split_and!; [done| |done]. repeat constructor; lia. Qed.

Lemma toBech32_total bs : raw_address bs → ∃ s, toBech32 bs = Ok s.
Proof.
  intros [Hl Hb]. unfold toBech32. rewrite Hl. cbn [Nat.eqb negb].
  pose proof (encode_fits SPRAX_HRP bs hrp_sprax Hb) as Hf.
  destruct (bech32_encode _ _); [eauto|]. rewrite Hl in Hf. simpl in Hf.
  specialize (Hf ltac:(lia)). done.
Qed.

Lemma data_char_not_ws c : data_char c = true → is_ws c = false.
Proof.
  unfold data_char. rewrite orb_true_iff, !andb_true_iff, !N.leb_le. intros Hc.
  unfold is_ws. bsolve.
Qed.

(** What [toBech32] prints is neither changed by [trim] nor taken for a
    hexadecimal address. *)
Lemma toBech32_clean bs s :
  toBech32 bs = Ok s →
  trim s = s ∧ startsWith s "0x"%js = false ∧ startsWith s "0X"%js = false.
Proof.
  unfold toBech32. case_match; [done|]. intros Hs.
  destruct (encode_shape _ _ _ hrp_sprax Hs) as (d & -> & Hd). split; [|done].
  apply trim_id. repeat (constructor; [done|]).
  eapply Forall_impl; [exact Hd|]. apply data_char_not_ws.
Qed.

Lemma parse_toBech32 bs s :
  raw_address bs → toBech32 bs = Ok s → parseToBytes s = Ok bs.
Proof.
  intros Hr Hs. destruct (toBech32_clean bs s Hs) as (Ht & H1 & H2).
  destruct Hr as [Hl Hb]. unfold toBech32 in Hs. rewrite Hl in Hs.
  unfold parseToBytes. rewrite Ht, H1, H2. cbn [orb].
  rewrite (decode_encode _ _ _ hrp_sprax Hs). cbn [mbind outcome_bind].
  rewrite bool_decide_true, fromWords_toWords by done. cbn. by rewrite Hl.
Qed.

(** C29. Both printed forms of an address are read back: the Bech32 form as it is, the
    hexadecimal form in any case and with any white space around it. *)
Theorem address_read_back (bs : bytes) :
  raw_address bs →
  (∃ s, toBech32 bs = Ok s ∧ parseToBytes s = Ok bs)
  ∧ ∀ s h, toHex bs = Ok h → ascii_lower <$> trim s = h → parseToBytes s = Ok bs.
Proof.
  intros Hr. split; [|intros s h; by apply parse_hex_form].
  destruct (toBech32_total bs Hr) as [s Hs]. eauto using parse_toBech32.
Qed.

(** The Bech32 branch of [parseToBytes]. *)
Lemma parse_bech32_ok s bs :
  startsWith (trim s) "0x"%js || startsWith (trim s) "0X"%js = false →
  parseToBytes s = Ok bs →
  length bs = 20%nat ∧ ∃ ws, bech32_decode (trim s) = Ok (SPRAX_HRP, ws) ∧ fromWords ws = Ok bs.
Proof.
  intros Hp. unfold parseToBytes. rewrite Hp.
  destruct (bech32_decode (trim s)) as [[p ws]|e] eqn:Hd; [|done].
  cbn [mbind outcome_bind]. case_bool_decide as Hsp; [subst p|done]. cbn [negb].
  destruct (fromWords ws) as [cs|] eqn:Hw; [|done]. cbn [mbind outcome_bind].
  destruct (Nat.eqb_spec (length cs) 20); [|done]. cbn. intros [= <-]. eauto.
Qed.

Lemma hex_prefix_inv t :
  startsWith t "0x"%js || startsWith t "0X"%js = true →
  ∃ x s, t = 48%N :: x :: s ∧ (x = 120%N ∨ x = 88%N).
Proof.
  destruct t as [|c [|x s]]; cbn [startsWith]; rewrite ?orb_true_iff, ?andb_true_iff, ?N.eqb_eq;
    [by intros []|by intros [[_ ?]|[_ ?]]|].
  intros [(<- & <- & _)|(<- & <- & _)]; eauto.
Qed.

Lemma parse_canonical s bs :
  parseToBytes s = Ok bs →
  raw_address bs ∧
  (toHex bs = Ok (ascii_lower <$> trim s) ∨ toBech32 bs = Ok (ascii_lower <$> trim s)).
Proof.
  intros Hp.
  destruct (startsWith (trim s) "0x"%js || startsWith (trim s) "0X"%js) eqn:Hx.
  - destruct (hex_prefix_inv _ Hx) as (x & t & Ht & Hx'). rewrite (parse_hex x t) in Hp by done.
    destruct (Nat.eqb_spec (length t) 40) as [Hl|]; [|done].
    destruct (forallb is_hex t) eqn:Hf; [|done]. apply forallb_Forall_true in Hf.
    injection Hp as <-. destruct (bytes_of_pairs_inv 20 t Hf Hl) as (Hb & Hl' & E).
    split; [done|]. left. rewrite toHex_ok, E, Ht by done. by destruct Hx' as [->| ->].
  - destruct (parse_bech32_ok s bs Hx Hp) as (Hl & ws & Hd & Hw).
    destruct (toWords_fromWords ws bs Hw) as [Hb E]. split; [done|]. right.
    unfold toBech32. rewrite Hl, E. cbn. by apply encode_decode.
Qed.

Lemma parse_raw s bs : parseToBytes s = Ok bs → raw_address bs.
Proof. apply parse_canonical. Qed.

(** C12. Every accepted string denotes a raw address, and is up to case and
    surrounding white space the hexadecimal or the Bech32 form of it. *)
Theorem parseToBytes_canonical (s : jsstring) (bs : bytes) :
  parseToBytes s = Ok bs →
  raw_address bs ∧
  (toHex bs = Ok (ascii_lower <$> trim s) ∨ toBech32 bs = Ok (ascii_lower <$> trim s)).
Proof. apply parse_canonical. Qed.
End laws.
End facts.

(** ** An instance

    The data part without its checksum and with two words per byte: a codec that
    satisfies the laws and evaluates. *)
Module PlainBech32.
Local Open Scope N_scope.

Definition charset : jsstring := "qpzry9x8gf2tvdw0s3jn54khce6mua7l"%js.

Definition word_char (w : N) : N := default 0 (charset !! N.to_nat w).

Definition char_word (c : N) : option N :=
  '(i, _) ← list_find (λ d, d = c) charset; Some (N.of_nat i).

Definition to_words (bs : bytes) : list N := concat ((λ b, [b / 32; b mod 32]) <$> bs).

Fixpoint from_words (ws : list N) : outcome bytes :=
  match ws with
  | [] => Ok []
  | h :: l :: ws' =>
      if (h <? 8) && (l <? 32) then bs ← from_words ws'; Ok ((h * 32 + l) :: bs)
      else throw "Excess padding"%js
  | [_] => throw "Excess padding"%js
  end.

Definition encode (p : jsstring) (ws : list N) : outcome jsstring :=
  if forallb (λ w, w <? 32) ws
  then Ok ((ascii_lower <$> p) ++ "1"%js ++ (word_char <$> ws))
  else throw "Non 5-bit word"%js.

Definition decode (s : jsstring) : outcome (jsstring * list N) :=
  let t := ascii_lower <$> s in
  if negb (bool_decide (s = t ∨ s = ascii_upper <$> s)) then throw "Mixed-case string"%js
  else
    let r := reverse t in
    match drop_while (λ c, negb (c =? 49)) r with
    | [] | [_] => throw "Missing prefix"%js
    | _ :: p =>
        match mapM char_word (reverse (take_while (λ c, negb (c =? 49)) r)) with
        | Some ws => Ok (reverse p, ws)
        | None => throw "Unknown character"%js
        end
    end.

#[local] Instance plain_bech32 : Bech32 := {|
  toWords := to_words; fromWords := from_words;
  bech32_encode := encode; bech32_decode := decode |}.

(** The character set is a bijection on 5-bit words. *)
Lemma word_char_spec w :
  w < 32 → char_word (word_char w) = Some w ∧ data_char (word_char w) = true
           ∧ ascii_lower (word_char w) = word_char w ∧ word_char w <> 49.
Proof.
  intros Hw. assert (w ∈ N.of_nat <$> seq 0 32) as Hin.
  { apply list_elem_of_fmap. exists (N.to_nat w). rewrite elem_of_seq. lia. }
  assert (forallb (λ w, bool_decide (char_word (word_char w) = Some w)
    && data_char (word_char w) && (ascii_lower (word_char w) =? word_char w)
    && negb (word_char w =? 49)) (N.of_nat <$> seq 0 32) = true) as Hall by (by vm_compute).
  apply forallb_Forall_true in Hall. rewrite Forall_forall in Hall.
  specialize (Hall w Hin). cbv beta in Hall.
  rewrite !andb_true_iff, bool_decide_eq_true, negb_true_iff, N.eqb_eq, N.eqb_neq in Hall. tauto.
Qed.

Lemma char_word_spec c w : char_word c = Some w → w < 32 ∧ word_char w = c.
Proof.
  unfold char_word. destruct (list_find _ _) as [[i d]|] eqn:E; [|done].
  apply list_find_Some in E as (Hi & -> & _). intros [= <-].
  pose proof (lookup_lt_Some _ _ _ Hi) as Hlt. cbn in Hlt. split; [lia|].
  unfold word_char. rewrite Nat2N.id. exact (f_equal (default 0) Hi).
Qed.

Lemma mapM_char_word ws :
  Forall (λ w, w < 32) ws → mapM char_word (word_char <$> ws) = Some ws.
Proof.
  induction 1 as [|w ws Hw _ IH]; [done|]. rewrite fmap_cons. cbn [mapM].
  rewrite (proj1 (word_char_spec w Hw)). cbn [mbind option_bind]. by rewrite IH.
Qed.

Lemma mapM_char_word_inv s ws :
  mapM char_word s = Some ws → Forall (λ w, w < 32) ws ∧ s = word_char <$> ws.
Proof.
  intros H%mapM_Some. induction H as [|c w s ws Hc _ [IH1 ->]]; [done|].
  apply char_word_spec in Hc as [Hw <-]. by split; [constructor|].
Qed.

Lemma from_words_to_words bs : Forall is_byte bs → from_words (to_words bs) = Ok bs.
Proof.
  unfold is_byte. induction 1 as [|b bs Hb _ IH]; [done|].
  cbn [to_words fmap list_fmap concat app from_words]. fold (to_words bs).
  pose proof (N.div_mod b 32 ltac:(lia)). pose proof (N.mod_lt b 32 ltac:(lia)).
  assert (b / 32 < 8) by (apply N.Div0.div_lt_upper_bound; lia). bcase.
  rewrite IH. cbn. do 2 f_equal. lia.
Qed.

Lemma to_words_from_words (ws : jsstring) : ∀ bs,
  from_words ws = Ok bs → Forall is_byte bs ∧ to_words bs = ws.
Proof.
  induction ws as [|h|h l ws IH _] using string_pair_ind; intros bs E; [by simplify_eq/=|done|].
  cbn [from_words] in E. case_match eqn:Hc; [|done].
  destruct (from_words ws) as [cs|]; [|done]. simplify_eq/=.
  destruct (IH cs eq_refl) as [Hb <-]. unb. unfold is_byte in *.
  split; [constructor; [lia|done]|]. unfold to_words. rewrite fmap_cons. cbn [concat app].
  f_equal; [|f_equal].
  - rewrite N.add_comm, N.div_add by lia. rewrite N.div_small by lia. lia.
  - rewrite N.add_comm, N.Div0.mod_add. by apply N.mod_small.
Qed.

Lemma encode_inv p ws s :
  hrp_ok p → encode p ws = Ok s →
  s = p ++ "1"%js ++ (word_char <$> ws) ∧ Forall (λ w, w < 32) ws
  ∧ Forall (λ c, data_char c = true) (word_char <$> ws)
  ∧ ascii_lower <$> s = s
  ∧ Forall (λ c, negb (c =? 49) = true) (word_char <$> ws).
Proof.
  intros (_ & _ & Hp). unfold encode. destruct (forallb _ ws) eqn:Hw; [|done]. rewrite Hp.
  intros [= <-]. apply forallb_Forall_true in Hw.
  assert (Forall (λ w, w < 32) ws) as Hw'.
  { eapply Forall_impl; [exact Hw|]. intros w. apply N.ltb_lt. }
  split_and!; [done..| | |].
  - apply Forall_fmap. eapply Forall_impl; [exact Hw'|]. apply word_char_spec.
  - rewrite fmap_app, Hp, fmap_cons. change (ascii_lower 49) with 49.
    assert (ascii_lower <$> (word_char <$> ws) = word_char <$> ws) as ->; [|done].
    rewrite <-list_fmap_compose. apply list_fmap_ext. intros i w Hi. apply word_char_spec.
    by eapply Forall_lookup_1 in Hw'.
  - apply Forall_fmap. eapply Forall_impl; [exact Hw'|]. intros w Hlt.
    apply negb_true_iff, N.eqb_neq, word_char_spec, Hlt.
Qed.

Lemma decode_encode_plain p ws s :
  hrp_ok p → encode p ws = Ok s → decode s = Ok (p, ws).
Proof.
  intros Hp He. destruct (encode_inv p ws s Hp He) as (Hs & Hw & _ & Hl & H1).
  unfold decode. rewrite Hl, bool_decide_true by auto. cbn [negb]. rewrite Hs.
  rewrite !reverse_app, <-(assoc_L (++)). change (reverse "1"%js) with "1"%js. cbn [app].
  destruct (take_drop_while_app (λ c, negb (c =? 49)) (reverse (word_char <$> ws))
    (49 :: reverse p)) as [-> ->]; [by apply Forall_reverse|done|].
  rewrite reverse_involutive, mapM_char_word by done.
  destruct (reverse p) eqn:E.
  - apply (f_equal reverse) in E. rewrite reverse_involutive in E. by destruct Hp.
  - by rewrite <-E, reverse_involutive.
Qed.

Lemma encode_decode_plain s p ws :
  decode s = Ok (p, ws) → encode p ws = Ok (ascii_lower <$> s).
Proof.
  unfold decode. case_match; [done|]. set (r := reverse _).
  destruct (take_drop_while (λ c, negb (c =? 49)) r) as [Hr _].
  pose proof (drop_while_head (λ c, negb (c =? 49)) r) as Hh.
  destruct (drop_while _ r) as [|c [|d q]]; [done..|].
  destruct (mapM _ _) as [ws'|] eqn:Hm; [|done]. intros [= <- <-].
  apply mapM_char_word_inv in Hm as [Hw Hd]. unfold encode.
  rewrite (proj2 (forallb_Forall_true _ _))
    by (eapply Forall_impl; [exact Hw|]; intros w; apply N.ltb_lt).
  apply negb_false_iff, N.eqb_eq in Hh as ->. f_equal.
  assert (ascii_lower <$> s = reverse (d :: q) ++ "1"%js ++ (word_char <$> ws')) as E.
  { rewrite <-Hd, <-(reverse_involutive (ascii_lower <$> s)). fold r. rewrite <-Hr at 1.
    rewrite reverse_app, (reverse_cons (d :: q) 49), <-(assoc_L (++)). done. }
  pose proof (ascii_lower_idemp s) as Hid. rewrite E, !fmap_app in Hid.
  apply app_inj_1 in Hid as [-> _]; [done|]. by rewrite length_fmap.
Qed.

Lemma plain_bech32_laws : Bech32Laws plain_bech32.
Proof.
  split.
  - exact from_words_to_words.
  - exact to_words_from_words.
  - intros p bs Hp Hb _. simpl. unfold encode. rewrite (proj2 (forallb_Forall_true _ _)); [done|].
    induction Hb as [|b bs Hb _ IH]; [constructor|]. unfold to_words. rewrite fmap_cons.
    unfold is_byte in Hb. repeat constructor; [apply N.ltb_lt..|exact IH].
    + apply N.Div0.div_lt_upper_bound. lia.
    + apply N.mod_lt. lia.
  - intros p ws s Hp He. destruct (encode_inv p ws s Hp He) as (-> & _ & Hd & _).
    by exists (word_char <$> ws).
  - exact decode_encode_plain.
  - exact encode_decode_plain.
Qed.
End PlainBech32.

(** ** Witnesses *)

Lemma raw_address_bool bs :
  (length bs =? 20)%nat && forallb (λ b, b <? 256)%N bs = true → raw_address bs.
Proof.
  intros [Hl Hb]%andb_true_iff. split; [by apply Nat.eqb_eq|].
  apply forallb_Forall_true in Hb. eapply Forall_impl; [exact Hb|]. intros b. apply N.ltb_lt.
Qed.

Lemma address_read_back_witness :
  (∃ s, @toBech32 PlainBech32.plain_bech32 (N.of_nat <$> seq 100 20) = Ok s
        ∧ @parseToBytes PlainBech32.plain_bech32 s = Ok (N.of_nat <$> seq 100 20))
  ∧ @parseToBytes PlainBech32.plain_bech32 "  0X6465666768696a6B6C6D6E6F7071727374757677 "%js
    = Ok (N.of_nat <$> seq 100 20).
Proof.
  destruct (@address_read_back _ PlainBech32.plain_bech32_laws (N.of_nat <$> seq 100 20)) as [Hb Hh];
    [by apply raw_address_bool|].
  split; [exact Hb|]. by eapply Hh; [vm_compute|].
Defined.

Lemma parseToBytes_canonical_witness :
  raw_address (replicate 20 10%N).
Proof.
  apply (@parseToBytes_canonical _ PlainBech32.plain_bech32_laws
           "0x0A0A0A0a0a0a0a0a0a0a0a0a0a0a0a0a0a0a0a0a "%js).
  vm_compute. reflexivity.
Defined.
