(* ===== verification/Crypto.v ===== *)
(** * The cryptographic packages

    [@noble/hashes] and [@noble/curves] as a parameter, with what their
    documentation promises. *)
From S2P Require Import Prelude JsString JsStringFacts Bytes.

Class Crypto := {
  sha256 : bytes → bytes;
  (** [hmac(sha512, key, message)] *)
  hmac_sha512 : bytes → bytes → bytes;
  (** [pbkdf2(sha256, password, salt, { c, dkLen })] *)
  pbkdf2_sha256 : bytes → bytes → Z → Z → outcome bytes;
  ed25519_getPublicKey : bytes → outcome bytes;
  ed25519_sign : bytes → bytes → outcome bytes;
  ed25519_verify : bytes → bytes → bytes → bool;
  (** [secp256k1.getPublicKey(key, true)] *)
  secp256k1_getPublicKey : bytes → outcome bytes;
  secp256k1_signature : Type;
  secp256k1_sign : bytes → bytes → outcome secp256k1_signature;
  toCompactHex : secp256k1_signature → jsstring;
  secp256k1_verify : jsstring → bytes → bytes → bool;
}.

Definition byte_array (n : nat) (bs : bytes) : Prop := length bs = n ∧ Forall is_byte bs.

(** Digest and key sizes, totality of Ed25519 on 32-byte keys, and that a
    signature verifies under the public key of the private key that made it. *)
Class CryptoLaws (C : Crypto) : Prop := {
  sha256_size m : byte_array 32 (sha256 m);
  hmac_sha512_size k m : byte_array 64 (hmac_sha512 k m);
  pbkdf2_size p s c n k :
    pbkdf2_sha256 p s c n = Ok k → byte_array (Z.to_nat n) k;
  pbkdf2_total p s c : (1 ≤ c)%Z → is_ok (pbkdf2_sha256 p s c 32) = true;
  ed25519_public sk :
    byte_array 32 sk → ∃ pk, ed25519_getPublicKey sk = Ok pk ∧ byte_array 32 pk;
  ed25519_correct sk pk m :
    ed25519_getPublicKey sk = Ok pk →
    ∃ sig, ed25519_sign m sk = Ok sig ∧ byte_array 64 sig ∧ byte_array 32 pk
           ∧ ed25519_verify sig m pk = true;
  secp256k1_public sk pk :
    secp256k1_getPublicKey sk = Ok pk → byte_array 33 pk;
  secp256k1_correct sk pk h :
    secp256k1_getPublicKey sk = Ok pk →
    ∃ sig, secp256k1_sign h sk = Ok sig ∧ secp256k1_verify (toCompactHex sig) h pk = true;
}.

(** ** An instance that evaluates

    Sums in place of digests and the private key in place of the public one:
    enough structure for the laws. *)
Module PlainCrypto.
Local Open Scope N_scope.

Definition digest (n : nat) (m : bytes) : bytes :=
  (λ i, foldl (λ a b, (a * 31 + b) mod 256) (N.of_nat i mod 256) m) <$> seq 0 n.

Definition key32 (sk : bytes) : bool := (length sk =? 32)%nat && forallb (λ b, b <? 256) sk.

#[local] Instance plain_crypto : Crypto := {|
  sha256 := digest 32;
  hmac_sha512 := λ k m, digest 64 (k ++ m);
  pbkdf2_sha256 := λ p s c n,
    if (c <? 1)%Z then throw "PBKDF2: iterations (c) should be >= 1"%js
    else Ok (digest (Z.to_nat n) (p ++ s));
  ed25519_getPublicKey := λ sk, if key32 sk then Ok sk else throw "private key expected 32 bytes"%js;
  ed25519_sign := λ m sk, Ok (sk ++ digest 32 m);
  ed25519_verify := λ sig m pk, bool_decide (sig = pk ++ digest 32 m);
  secp256k1_getPublicKey := λ sk,
    if key32 sk then Ok (2 :: sk) else throw "private key expected 32 bytes"%js;
  secp256k1_signature := bytes;
  secp256k1_sign := λ h sk, Ok (sk ++ h);
  toCompactHex := bytesToHex;
  secp256k1_verify := λ sig h pk, bool_decide (sig = bytesToHex (drop 1 pk ++ h));
|}.

Lemma digest_size n m : byte_array n (digest n m).
Proof.
  unfold digest. split; [by rewrite length_fmap, length_seq|].
  apply Forall_fmap, Forall_forall. intros i _. unfold is_byte. simpl.
  assert (N.of_nat i mod 256 < 256) as Hi by (apply N.mod_lt; lia). revert Hi.
  generalize (N.of_nat i mod 256). induction m as [|b m IH]; intros a Ha; [done|].
  simpl. apply IH, N.mod_lt. lia.
Qed.

Lemma key32_spec sk : key32 sk = true ↔ byte_array 32 sk.
Proof.
  unfold key32, byte_array. rewrite andb_true_iff, Nat.eqb_eq, forallb_Forall_true.
  f_equiv. apply Forall_iff. intros b. unfold is_byte. by rewrite N.ltb_lt.
Qed.

Lemma plain_crypto_laws : CryptoLaws plain_crypto.
Proof.
  split; simpl.
  - apply digest_size.
  - intros. apply digest_size.
  - intros p s c n k. destruct (c <? 1)%Z; [done|]. intros [= <-]. apply digest_size.
  - intros p s c Hc. by rewrite (proj2 (Z.ltb_ge c 1)).
  - intros sk Hk. rewrite (proj2 (key32_spec sk)) by done. eauto.
  - intros sk pk m. destruct (key32 sk) eqn:E; [|done]. intros [= <-].
    apply key32_spec in E. destruct E as [Hl Hb], (digest_size 32 m) as [Hl' Hb'].
    eexists. split_and!; [done| |done|by apply bool_decide_true].
    split; [by rewrite length_app, Hl, Hl'|by apply Forall_app].
  - intros sk pk. destruct (key32 sk) eqn:E; [|done]. intros [= <-].
    apply key32_spec in E as [Hl Hb]. split; [simpl; by rewrite Hl|].
    constructor; [unfold is_byte; lia|done].
  - intros sk pk h. destruct (key32 sk); [|done]. intros [= <-].
    eexists. split; [done|]. by apply bool_decide_true.
Qed.
End PlainCrypto.
