(* ===== verification/WalletTypes.v ===== *)
(** * Data types of the wallet core: [packages/sprax-wallet-core/src/types.ts] *)
From S2P Require Import Prelude JsString JsNumber JsJson.

Inductive KeyAlgorithm := Ed25519 | Secp256k1.

#[global] Instance KeyAlgorithm_eq_dec : EqDecision KeyAlgorithm.
Proof. solve_decision. Defined.

(** The string value of the enum. *)
Definition KeyAlgorithm_string (a : KeyAlgorithm) : jsstring :=
  match a with Ed25519 => "Ed25519"%js | Secp256k1 => "Secp256k1"%js end.

Record Account := mkAccount {
  acc_index : Z;
  acc_name : jsstring;
  acc_addressBech32 : jsstring;
  acc_addressHex : jsstring;
  acc_publicKeyHex : jsstring;
  acc_algorithm : KeyAlgorithm;
  acc_path : jsstring;
}.

Record FiatEstimates := mkFiatEstimates {
  fiat_usd : jsstring;
  fiat_inr : jsstring;
  fiat_eur : jsstring;
  fiat_jpy : jsstring;
}.

(** [atto] is declared [string] and holds what the node sent. *)
Record Balance := mkBalance {
  bal_atto : jsval;
  bal_sprx : jsstring;
  bal_fiatEstimates : FiatEstimates;
}.

Record NetworkConfig := mkNetworkConfig {
  net_id : jsstring;
  net_name : jsstring;
  net_chainId : jsstring;
  net_rpcUrl : jsstring;
  net_p2pPort : Z;
  net_explorerUrl : option jsstring;
  net_isTestnet : bool;
}.

Record TxFee := mkTxFee {
  fee_amountAtto : jsstring;
  fee_gasLimit : Z;
}.

(** [nonce] is declared [number] and holds what the node sent. *)
Record SendTxRequest := mkSendTxRequest {
  req_fromAddress : jsstring;
  req_toAddress : jsstring;
  req_amountSprx : jsstring;
  req_nonce : jsval;
  req_fee : option TxFee;
  req_memo : option jsstring;
  req_timeoutHeight : option Z;
}.

Record TxMessage := mkTxMessage {
  msg_type : jsstring;
  msg_to : jsstring;
  msg_amount : jsstring;
}.

Record TxBody := mkTxBody {
  body_chainId : jsstring;
  body_sender : jsstring;
  body_nonce : jsval;
  body_messages : list TxMessage;
  body_fee_amount : jsstring;
  body_fee_gas_limit : Z;
  body_memo : jsstring;
  body_timeout_height : Z;
}.

Record SignedTransaction := mkSignedTransaction {
  stx_body : TxBody;
  stx_keyType : jsstring;
  stx_publicKey : jsstring;
  stx_signature : jsstring;
}.

(** Receipt fields are what the node sent, with the defaults of the client. *)
Record TxReceipt := mkTxReceipt {
  rcpt_txHash : jsval;
  rcpt_blockHeight : jsval;
  rcpt_success : jsval;
  rcpt_gasUsed : jsval;
  rcpt_logs : jsval;
}.

Inductive TxDirection := Inbound | Outbound.
Inductive TxHistoryStatus := TxConfirmed | TxPending | TxFailed.

(** No code makes or reads one. *)
Record TxHistoryItem := mkTxHistoryItem {
  hist_txHash : jsstring;
  hist_direction : TxDirection;
  hist_counterparty : jsstring;
  hist_amountSprx : jsstring;
  hist_timestampUnixSecs : num;
  hist_status : TxHistoryStatus;
  hist_blockHeight : option num;
  hist_feePaidSprx : jsstring;
}.

Record EncryptedVault := mkEncryptedVault {
  vault_version : Z;
  vault_cipherTextHex : jsstring;
  vault_saltHex : jsstring;
  vault_ivHex : jsstring;
  vault_kdfIterations : Z;
  vault_accounts : list Account;
}.
