(* ===== verification/Transaction.v ===== *)
(** * Transactions: [packages/sprax-wallet-core/src/transaction.ts]

    [TransactionBuilder]: amounts, canonical sign bytes, offline signing. *)
From S2P Require Import Prelude JsString JsStringFacts JsNumber JsNumberFacts Utf8.
From S2P Require Import JsJson JsJsonFacts Bytes Address Crypto WalletTypes.
Import AddressUtil.

Module TransactionBuilder.

Definition ATTO_PER_SPRX : Z := 10 ^ 18.

Definition sprxToAtto (sprxStr : jsstring) : outcome Z :=
  let parts := split_on 46 (trim sprxStr) in
  if (2 <? length parts)%nat then
    throw ("Invalid SPRX decimal amount format: "%js ++ sprxStr)
  else
    let p0 := default [] (parts !! 0%nat) in
    w ← BigInt (if bool_decide (p0 = []) then "0"%js else p0);
    let whole := (w * ATTO_PER_SPRX)%Z in
    fraction ← match parts with
      | [_; p1] => BigInt (slice (padEnd 18 48 p1) 0 18)
      | _ => Ok 0%Z
      end;
    Ok (whole + fraction)%Z.

(** [BigInt] division and remainder truncate. *)
Definition attoToSprx (atto : Z) : jsstring :=
  let whole := Z.quot atto ATTO_PER_SPRX in
  let rem := Z.rem atto ATTO_PER_SPRX in
  if (rem =? 0)%Z then Z_to_string whole
  else
    let remStr := strip_end 48 (padStart 18 48 (Z_to_string rem)) in
    Z_to_string whole ++ "."%js ++ remStr.

Definition defaultFee : TxFee := mkTxFee "500000000000000"%js 200000.

Section builder.
Context `{Bech32}.

(** [canonicalObj]: the object that is serialized and signed. *)
Definition canonicalObj (chainId : jsstring) (fee : TxFee) (memo amount to : jsstring)
    (nonce : jsval) (sender : jsstring) (timeoutHeight : Z) : jsval :=
  JObj [("chain_id"%js, JStr chainId);
        ("fee"%js, JObj [("amount"%js, JStr (fee_amountAtto fee));
                         ("gas_limit"%js, JNum (NInt (fee_gasLimit fee)))]);
        ("memo"%js, JStr memo);
        ("messages"%js, JArr [JObj [("Transfer"%js,
           JObj [("amount"%js, JStr amount); ("to"%js, JStr to)])]]);
        ("nonce"%js, nonce);
        ("sender"%js, JStr sender);
        ("timeout_height"%js, JNum (NInt timeoutHeight))].

Definition getSignBytes (req : SendTxRequest) (chainId : jsstring) : outcome bytes :=
  if negb (isValidAddress (req_fromAddress req)) then
    throw ("Invalid sender address: "%js ++ req_fromAddress req)
  else if negb (isValidAddress (req_toAddress req)) then
    throw ("Invalid recipient address: "%js ++ req_toAddress req)
  else
    attoAmount ← sprxToAtto (req_amountSprx req);
    if (attoAmount <=? 0)%Z then
      throw "Transaction amount must be strictly greater than 0"%js
    else
      let fee := default defaultFee (req_fee req) in
      toBytes ← parseToBytes (req_toAddress req);
      to ← toHex toBytes;
      fromBytes ← parseToBytes (req_fromAddress req);
      sender ← toHex fromBytes;
      let jsonStr := json_ser (canonicalObj chainId fee (default [] (req_memo req))
        (Z_to_string attoAmount) to (req_nonce req) sender
        (default 0%Z (req_timeoutHeight req))) in
      Ok (utf8_encode jsonStr).

Context `{Crypto}.

(** The signature and public key in hexadecimal, by algorithm. *)
Definition sign_with (algorithm : KeyAlgorithm) (signBytes privateKey : bytes) :
    outcome (jsstring * jsstring) :=
  match algorithm with
  | Ed25519 =>
      pubKey ← ed25519_getPublicKey privateKey;
      sig ← ed25519_sign signBytes privateKey;
      Ok (bytesToHex pubKey, bytesToHex sig)
  | Secp256k1 =>
      pubKey ← secp256k1_getPublicKey privateKey;
      sig ← secp256k1_sign (sha256 signBytes) privateKey;
      Ok (bytesToHex pubKey, toCompactHex sig)
  end.

Definition sign (req : SendTxRequest) (chainId : jsstring) (privateKey : bytes)
    (algorithm : KeyAlgorithm) : outcome SignedTransaction :=
  signBytes ← getSignBytes req chainId;
  let fee := default defaultFee (req_fee req) in
  attoAmount ← sprxToAtto (req_amountSprx req);
  '(publicKeyHex, signatureHex) ← sign_with algorithm signBytes privateKey;
  fromBytes ← parseToBytes (req_fromAddress req);
  sender ← toBech32 fromBytes;
  toBytes ← parseToBytes (req_toAddress req);
  to ← toBech32 toBytes;
  Ok {|
    stx_body := {|
      body_chainId := chainId;
      body_sender := sender;
      body_nonce := req_nonce req;
      body_messages := [{| msg_type := "Transfer"%js; msg_to := to;
                           msg_amount := Z_to_string attoAmount |}];
      body_fee_amount := fee_amountAtto fee;
      body_fee_gas_limit := fee_gasLimit fee;
      body_memo := default [] (req_memo req);
      body_timeout_height := default 0%Z (req_timeoutHeight req) |};
    stx_keyType := KeyAlgorithm_string algorithm;
    stx_publicKey := "0x"%js ++ publicKeyHex;
    stx_signature := "0x"%js ++ signatureHex |}.
End builder.

End TransactionBuilder.
Import TransactionBuilder.

(** ** Amounts *)

Abbreviation all_digits := (Forall (λ c, is_digit c = true)).

Lemma digits_no_dot s : all_digits s → Forall (λ c, c ≠ 46%N) s.
Proof. intros Hs. eapply Forall_impl; [exact Hs|]. by intros c Hc ->. Qed.

Lemma trim_amount w f :
  all_digits w → all_digits f → trim (w ++ "."%js ++ f) = w ++ "."%js ++ f.
Proof.
  intros Hw Hf. apply trim_id. apply Forall_app. split; [|constructor; [done|]];
    (eapply Forall_impl; [eassumption|]); apply is_digit_not_ws.
Qed.

(** The whole part, which may be missing. *)
Lemma BigInt_whole w :
  all_digits w →
  BigInt (if bool_decide (w = []) then "0"%js else w) = Ok (Z.of_N (dec_value w)).
Proof. intros Hw. case_bool_decide as E; [by subst|by apply BigInt_digits]. Qed.

Lemma padEnd_18_digits f : all_digits f → all_digits (padEnd 18 48 f).
Proof. intros Hf. apply Forall_app. split; [done|]. by apply Forall_replicate. Qed.

Lemma length_padEnd n c s : length (padEnd n c s) = (length s `max` n)%nat.
Proof. unfold padEnd. rewrite length_app, length_replicate. lia. Qed.

(** The fraction: the first 18 digits, padded with zeros. *)
Lemma BigInt_fraction f :
  all_digits f →
  BigInt (slice (padEnd 18 48 f) 0 18) = Ok (Z.of_N (dec_value (take 18 (padEnd 18 48 f)))).
Proof.
  intros Hf. rewrite (slice_0 _ 18). apply BigInt_digits.
  - by apply Forall_take, padEnd_18_digits.
  - intros E. apply (f_equal length) in E. rewrite length_take, length_padEnd in E. cbn [length] in E. lia.
Qed.

Local Open Scope N_scope.

(** The truncated decimal value of [w.f] in units of [10 ^ -18]. *)
Lemma fraction_value w f :
  all_digits f →
  dec_value w * 10 ^ 18 + dec_value (take 18 (padEnd 18 48 f))
  = dec_value (w ++ f) * 10 ^ 18 / 10 ^ N.of_nat (length f).
Proof.
  intros Hf. rewrite dec_value_app. unfold padEnd.
  destruct (decide (length f ≤ 18)%nat) as [Hl|Hl].
  - rewrite take_ge by (rewrite length_app, length_replicate; lia).
    rewrite dec_value_app, dec_value_zeros, length_replicate.
    replace (10 ^ 18) with (10 ^ N.of_nat (18 - length f) * 10 ^ N.of_nat (length f))
      by (rewrite <-N.pow_add_r; f_equal; lia).
    symmetry. rewrite N.mul_assoc, N.div_mul by (apply N.pow_nonzero; lia). lia.
  - replace (18 - length f)%nat with 0%nat by lia. rewrite app_nil_r.
    rewrite <-(take_drop 18 f) at 3. rewrite dec_value_app, length_drop.
    set (k := N.of_nat (length f - 18)).
    replace (N.of_nat (length f)) with (k + 18) by lia. rewrite N.pow_add_r.
    rewrite N.Div0.div_mul_cancel_r by (apply N.pow_nonzero; lia).
    set (d1 := dec_value (take 18 f)). set (d2 := dec_value (drop 18 f)).
    replace (_ + (d1 * 10 ^ k + d2)) with (d2 + (dec_value w * 10 ^ 18 + d1) * 10 ^ k) by ring.
    rewrite N.div_add by (apply N.pow_nonzero; lia).
    rewrite N.div_small; [lia|]. subst d2.
    replace k with (N.of_nat (length (drop 18 f))) by (rewrite length_drop; lia).
    by apply dec_value_bound, Forall_drop.
Qed.

Lemma sprxToAtto_dot w f :
  all_digits w → all_digits f →
  sprxToAtto (w ++ "."%js ++ f)
  = Ok (Z.of_N (dec_value w * 10 ^ 18 + dec_value (take 18 (padEnd 18 48 f)))).
Proof.
  intros Hw Hf. unfold sprxToAtto. rewrite trim_amount by done. cbn [app].
  rewrite split_on_app, split_on_nosep by auto using digits_no_dot.
  cbn [length Nat.ltb Nat.leb lookup list_lookup default from_option id].
  rewrite BigInt_whole by done. cbn [mbind outcome_bind].
  rewrite BigInt_fraction by done. cbn [mbind outcome_bind].
  unfold ATTO_PER_SPRX. f_equal. lia.
Qed.

Lemma sprxToAtto_whole w :
  all_digits w → sprxToAtto w = Ok (Z.of_N (dec_value w * 10 ^ 18)).
Proof.
  intros Hw. unfold sprxToAtto. rewrite trim_digits by done.
  rewrite split_on_nosep by auto using digits_no_dot.
  cbn [length Nat.ltb Nat.leb lookup list_lookup default from_option id].
  rewrite BigInt_whole by done. cbn [mbind outcome_bind]. unfold ATTO_PER_SPRX. f_equal. lia.
Qed.

(** C21. A decimal amount [w.f] (either part possibly empty) is converted to the
    number of atto-SPRX obtained by truncating it after the 18th decimal. *)
Theorem sprxToAtto_decimal (w f : jsstring) :
  all_digits w → all_digits f →
  sprxToAtto (w ++ "."%js ++ f)
  = Ok (Z.of_N (dec_value (w ++ f) * 10 ^ 18 / 10 ^ N.of_nat (length f))).
Proof. intros Hw Hf. by rewrite sprxToAtto_dot, fraction_value. Qed.

Lemma sprxToAtto_decimal_witness :
  sprxToAtto "12.3456789012345678909"%js = Ok 12345678901234567890%Z.
Proof.
  refine (eq_trans (sprxToAtto_decimal "12"%js "3456789012345678909"%js _ _) _);
    [by repeat constructor..|vm_compute; reflexivity].
Defined.

(** The digits of [attoToSprx] after the point. *)
Definition frac_digits (r : N) : jsstring := strip_end 48 (padStart 18 48 (N_to_radix 10 r)).

Lemma frac_digits_spec r :
  r < 10 ^ 18 →
  all_digits (frac_digits r) ∧ padEnd 18 48 (frac_digits r) = padStart 18 48 (N_to_radix 10 r).
Proof.
  intros Hr. unfold frac_digits, strip_end. set (p := padStart 18 48 _).
  assert (all_digits p) as Hp.
  { apply Forall_app. split; [by apply Forall_replicate|apply N_to_radix10_digits]. }
  assert (length p = 18%nat) as Hl by (apply length_padStart_radix; [lia..|done]).
  destruct (drop_while_end_split (λ d, d =? 48) p) as (k & E & Hk).
  split; [by rewrite E, Forall_app in Hp; destruct Hp|].
  assert (k = replicate (length k) 48) as Hk'.
  { symmetry. apply replicate_as_Forall. split; [done|]. eapply Forall_impl; [exact Hk|].
    intros c. rewrite N.eqb_eq. done. }
  unfold padEnd. rewrite E at 3. f_equal. rewrite Hk'. f_equal.
  apply (f_equal length) in E. rewrite length_app in E. lia.
Qed.

Lemma attoToSprx_nonneg a :
  (0 ≤ a)%Z →
  attoToSprx a
  = let q := Z.to_N (a / 10 ^ 18) in let r := Z.to_N (a mod 10 ^ 18) in
    N_to_radix 10 q ++ (if r =? 0 then [] else "."%js ++ frac_digits r).
Proof.
  intros Ha. unfold attoToSprx, ATTO_PER_SPRX.
  rewrite Z.quot_div_nonneg, Z.rem_mod_nonneg by lia.
  pose proof (Z.div_pos a (10 ^ 18) Ha ltac:(lia)).
  pose proof (Z.mod_pos_bound a (10 ^ 18) ltac:(lia)).
  assert (∀ z, (0 ≤ z)%Z → Z_to_string z = N_to_radix 10 (Z.to_N z)) as Hp.
  { intros z Hz. unfold Z_to_string. rewrite (proj2 (Z.ltb_ge _ _)) by lia. f_equal. lia. }
  rewrite !Hp by lia. unfold frac_digits.
  destruct (Z.eqb_spec (a mod 10 ^ 18) 0), (N.eqb_spec (Z.to_N (a mod 10 ^ 18)) 0);
    rewrite ?app_nil_r; done || lia.
Qed.

Lemma attoToSprx_roundtrip_aux a : (0 ≤ a)%Z → sprxToAtto (attoToSprx a) = Ok a.
Proof.
  intros Ha. rewrite attoToSprx_nonneg by done. cbv zeta.
  pose proof (Z.div_mod a (10 ^ 18) ltac:(lia)). pose proof (Z.div_pos a (10 ^ 18) Ha ltac:(lia)).
  pose proof (Z.mod_pos_bound a (10 ^ 18) ltac:(lia)).
  destruct (N.eqb_spec (Z.to_N (a mod 10 ^ 18)) 0).
  - rewrite app_nil_r, sprxToAtto_whole, dec_value_N_to_radix by apply N_to_radix10_digits.
    f_equal. lia.
  - destruct (frac_digits_spec (Z.to_N (a mod 10 ^ 18))) as [Hf E]; [lia|].
    rewrite sprxToAtto_dot, E, dec_value_N_to_radix by (done || apply N_to_radix10_digits).
    rewrite take_ge.
    + unfold padStart. rewrite dec_value_app, dec_value_zeros, dec_value_N_to_radix.
      f_equal. lia.
    + rewrite length_padStart_radix; [lia..|]. change (N.of_nat 18) with 18. lia.
Qed.

(** C11. Printing an amount and reading it back gives the same amount. *)
Theorem attoToSprx_roundtrip (a : Z) : (0 ≤ a)%Z → sprxToAtto (attoToSprx a) = Ok a.
Proof. apply attoToSprx_roundtrip_aux. Qed.

Lemma attoToSprx_roundtrip_witness :
  attoToSprx 1500000000000000001 = "1.500000000000000001"%js
  ∧ sprxToAtto (attoToSprx 1500000000000000001) = Ok 1500000000000000001%Z.
Proof. split; [vm_compute; reflexivity|]. apply attoToSprx_roundtrip. lia. Defined.

Lemma BigInt_minus w :
  all_digits w → w ≠ [] → BigInt (45 :: w) = Ok (- Z.of_N (dec_value w))%Z.
Proof.
  intros Hw Hn. unfold BigInt, string_to_bigint.
  rewrite trim_id by (constructor; [done|]; eapply Forall_impl; [exact Hw|]; apply is_digit_not_ws).
  cbn [N.eqb Pos.eqb]. by rewrite parse_radix10.
Qed.

(** Only the whole part gets the sign of a negative amount. *)
Lemma sprxToAtto_minus w f :
  all_digits w → w ≠ [] → all_digits f →
  sprxToAtto ("-"%js ++ w ++ "."%js ++ f)
  = Ok (- Z.of_N (dec_value w * 10 ^ 18) + Z.of_N (dec_value (take 18 (padEnd 18 48 f))))%Z.
Proof.
  intros Hw Hn Hf. unfold sprxToAtto.
  rewrite trim_id by (constructor; [done|]; apply Forall_app; split; [|constructor; [done|]];
    (eapply Forall_impl; [eassumption|]); apply is_digit_not_ws).
  change ("-"%js ++ w ++ "."%js ++ f) with ((45 :: w) ++ 46 :: f).
  rewrite split_on_app, split_on_nosep by (constructor || idtac; auto using digits_no_dot; done).
  cbn [length Nat.ltb Nat.leb lookup list_lookup default from_option id].
  rewrite bool_decide_false, BigInt_minus by done. cbn [mbind outcome_bind].
  rewrite BigInt_fraction by done. cbn [mbind outcome_bind].
  unfold ATTO_PER_SPRX. f_equal. lia.
Qed.
