(* ===== verification/TransactionFacts.v ===== *)
(** * Theorems on sign bytes and signing

    When [getSignBytes] succeeds, what the sign bytes determine, and that a
    signed transaction carries what was signed. *)
From S2P Require Import Prelude JsString JsStringFacts JsNumber JsNumberFacts Utf8.
From S2P Require Import JsJson JsJsonFacts Bytes Address Crypto WalletTypes.
From S2P Require Import Transaction.
Import AddressUtil TransactionBuilder.

Section sign_bytes.
Context `{B : Bech32} `{L : !Bech32Laws B}.

Lemma isValidAddress_Ok s : isValidAddress s = true ↔ ∃ bs, parseToBytes s = Ok bs.
Proof. unfold isValidAddress. destruct (parseToBytes s); naive_solver. Qed.

(** The object [getSignBytes] serializes for a request with a positive amount
    and addresses that parse. *)
Definition signed_object (req : SendTxRequest) (chainId : jsstring) (atto : Z)
    (from to : bytes) : jsval :=
  canonicalObj chainId (default defaultFee (req_fee req)) (default [] (req_memo req))
    (Z_to_string atto) ("0x"%js ++ bytesToHex to) (req_nonce req)
    ("0x"%js ++ bytesToHex from) (default 0%Z (req_timeoutHeight req)).

Lemma getSignBytes_inv req chainId sb :
  getSignBytes req chainId = Ok sb ↔
  ∃ from to atto,
    parseToBytes (req_fromAddress req) = Ok from ∧ parseToBytes (req_toAddress req) = Ok to
    ∧ sprxToAtto (req_amountSprx req) = Ok atto ∧ (0 < atto)%Z
    ∧ sb = utf8_encode (json_ser (signed_object req chainId atto from to)).
Proof.
  unfold getSignBytes, isValidAddress, signed_object.
  destruct (parseToBytes (req_fromAddress req)) as [from|] eqn:Hf; [|naive_solver].
  destruct (parseToBytes (req_toAddress req)) as [to|] eqn:Ht; [|naive_solver].
  destruct (sprxToAtto _) as [a|]; [|naive_solver]. cbn [negb mbind outcome_bind].
  destruct (Z.leb_spec a 0); [naive_solver lia|].
  rewrite (toHex_ok to), (toHex_ok from) by eauto using parse_raw. cbn [mbind outcome_bind].
  naive_solver.
Qed.

(** C20. [getSignBytes] succeeds exactly on requests between two valid addresses
    for an amount that converts to a positive number of atto-SPRX. *)
Theorem getSignBytes_total (req : SendTxRequest) (chainId : jsstring) :
  is_ok (getSignBytes req chainId) = true ↔
  isValidAddress (req_fromAddress req) = true ∧ isValidAddress (req_toAddress req) = true
  ∧ ∃ atto, sprxToAtto (req_amountSprx req) = Ok atto ∧ (0 < atto)%Z.
Proof.
  rewrite !isValidAddress_Ok. split.
  - destruct (getSignBytes req chainId) as [sb|] eqn:E; [|done].
    apply getSignBytes_inv in E. naive_solver.
  - intros ((from & Hf) & (to & Ht) & atto & Ha & Hp).
    by rewrite (proj2 (getSignBytes_inv req chainId _)) by eauto 10.
Qed.

(** Requests whose strings are UTF-16 and whose numbers are exact. *)
Definition exact_request (req : SendTxRequest) (chainId : jsstring) : Prop :=
  utf16 chainId ∧ utf16 (default [] (req_memo req))
  ∧ utf16 (fee_amountAtto (default defaultFee (req_fee req)))
  ∧ safe_int (fee_gasLimit (default defaultFee (req_fee req)))
  ∧ safe_int (default 0%Z (req_timeoutHeight req)) ∧ json_ok (req_nonce req).

Lemma utf16_small s : Forall (λ c, c < 128)%N s → utf16 s.
Proof. intros Hs. eapply Forall_impl; [exact Hs|]. simpl. lia. Qed.

Lemma utf16_hex bs : Forall is_byte bs → utf16 ("0x"%js ++ bytesToHex bs).
Proof.
  intros Hb. apply utf16_small. repeat (constructor; [lia|]).
  eapply Forall_impl; [by apply bytesToHex_is_hex|]. intros c ?%is_hex_cases. lia.
Qed.

Lemma utf16_Z z : utf16 (Z_to_string z).
Proof. apply utf16_small. eapply Forall_impl; [apply Z_to_string_chars|]. simpl. lia. Qed.

Lemma signed_object_ok req chainId atto from to :
  exact_request req chainId → Forall is_byte from → Forall is_byte to →
  json_ok (signed_object req chainId atto from to).
Proof.
  intros (H1 & H2 & H3 & H4 & H5 & H6) Hf Ht.
  pose proof (utf16_hex from Hf). pose proof (utf16_hex to Ht). pose proof (utf16_Z atto).
  cbn [json_with signed_object canonicalObj foldr].
  split_and!; done || (by apply (bool_decide_unpack _); vm_compute) || (by apply utf16_small; repeat constructor).
Qed.

(** C1. The sign bytes determine the transaction: two requests with the same sign
    bytes are for the same chain, sender, recipient, amount, nonce, fee, memo and
    timeout. A signature cannot be reused for another transfer or chain. *)
Theorem getSignBytes_inj (r1 r2 : SendTxRequest) (c1 c2 : jsstring) (sb : bytes) :
  exact_request r1 c1 → exact_request r2 c2 →
  getSignBytes r1 c1 = Ok sb → getSignBytes r2 c2 = Ok sb →
  c1 = c2 ∧ req_nonce r1 = req_nonce r2
  ∧ parseToBytes (req_fromAddress r1) = parseToBytes (req_fromAddress r2)
  ∧ parseToBytes (req_toAddress r1) = parseToBytes (req_toAddress r2)
  ∧ sprxToAtto (req_amountSprx r1) = sprxToAtto (req_amountSprx r2)
  ∧ default defaultFee (req_fee r1) = default defaultFee (req_fee r2)
  ∧ default [] (req_memo r1) = default [] (req_memo r2)
  ∧ default 0%Z (req_timeoutHeight r1) = default 0%Z (req_timeoutHeight r2).
Proof.
  intros He1 He2 (f1 & t1 & a1 & Hf1 & Ht1 & Ha1 & _ & E1)%getSignBytes_inv
    (f2 & t2 & a2 & Hf2 & Ht2 & Ha2 & _ & E2)%getSignBytes_inv.
  destruct (parse_raw _ _ Hf1) as [_ Bf1], (parse_raw _ _ Ht1) as [_ Bt1],
    (parse_raw _ _ Hf2) as [_ Bf2], (parse_raw _ _ Ht2) as [_ Bt2].
  rewrite E1 in E2. apply json_bytes_inj in E2; [|by apply signed_object_ok..].
  unfold signed_object, canonicalObj in E2. injection E2 as Hc Hfa Hg Hm Ha Ht Hn Hs Hto.
  apply Z_to_string_inj in Ha. apply bytesToHex_inj in Ht, Hs; [|done..].
  rewrite Hf1, Ht1, Ha1, Hf2, Ht2, Ha2, Hs, Ht, Ha. split_and!; try done.
  destruct (default defaultFee (req_fee r1)), (default defaultFee (req_fee r2)). simpl in *.
  congruence.
Qed.

Context `{C : Crypto}.

(** [sign] on a request it accepts. *)
Lemma sign_inv req chainId sk alg tx :
  sign req chainId sk alg = Ok tx →
  ∃ from to atto sender recipient pk sig,
    parseToBytes (req_fromAddress req) = Ok from ∧ parseToBytes (req_toAddress req) = Ok to
    ∧ sprxToAtto (req_amountSprx req) = Ok atto ∧ (0 < atto)%Z
    ∧ toBech32 from = Ok sender ∧ toBech32 to = Ok recipient
    ∧ sign_with alg (utf8_encode (json_ser (signed_object req chainId atto from to))) sk
      = Ok (pk, sig)
    ∧ tx = mkSignedTransaction
        (mkTxBody chainId sender (req_nonce req)
           [mkTxMessage "Transfer"%js recipient (Z_to_string atto)]
           (fee_amountAtto (default defaultFee (req_fee req)))
           (fee_gasLimit (default defaultFee (req_fee req)))
           (default [] (req_memo req)) (default 0%Z (req_timeoutHeight req)))
        (KeyAlgorithm_string alg) ("0x"%js ++ pk) ("0x"%js ++ sig).
Proof.
  unfold sign. destruct (getSignBytes req chainId) as [sb|] eqn:Hsb; [|done].
  apply getSignBytes_inv in Hsb as (from & to & atto & Hf & Ht & Ha & Hp & ->).
  rewrite Hf, Ht, Ha. cbn [mbind outcome_bind].
  destruct (sign_with _ _ _) as [[pk sig]|] eqn:Hw; [|done]. cbn [mbind outcome_bind].
  destruct (toBech32 from) as [sender|] eqn:Hs; [|done]. cbn [mbind outcome_bind].
  destruct (toBech32 to) as [recipient|] eqn:Hr; [|done]. cbn [mbind outcome_bind].
  intros [= <-]. exists from, to, atto, sender, recipient, pk, sig. done.
Qed.

(** The request a node reads off the body of a signed transaction. *)
Definition request_of_body (b : TxBody) : outcome SendTxRequest :=
  match body_messages b with
  | [m] =>
      atto ← BigInt (msg_amount m);
      Ok (mkSendTxRequest (body_sender b) (msg_to m) (attoToSprx atto) (body_nonce b)
            (Some (mkTxFee (body_fee_amount b) (body_fee_gas_limit b)))
            (Some (body_memo b)) (Some (body_timeout_height b)))
  | _ => throw "one message expected"%js
  end.

(** C2. A signed transaction carries what was signed: the request read off its
    body has the sign bytes of the request that was signed. *)
Theorem sign_body_consistent (req : SendTxRequest) (chainId : jsstring) (sk : bytes)
    (alg : KeyAlgorithm) (tx : SignedTransaction) :
  sign req chainId sk alg = Ok tx →
  ∃ req', request_of_body (stx_body tx) = Ok req'
          ∧ is_ok (getSignBytes req chainId) = true
          ∧ getSignBytes req' (body_chainId (stx_body tx)) = getSignBytes req chainId.
Proof.
  intros (from & to & atto & sender & rcpt & pk & sig & Hf & Ht & Ha & Hp & Hs & Hr & _ & ->)%sign_inv.
  cbn [stx_body request_of_body body_messages msg_amount]. rewrite BigInt_print.
  eexists. split; [done|].
  rewrite (proj2 (getSignBytes_inv req chainId _)) by eauto 10. split; [done|].
  apply getSignBytes_inv. exists from, to, atto. cbn.
  rewrite (parse_toBech32 from sender), (parse_toBech32 to rcpt) by eauto using parse_raw.
  rewrite attoToSprx_roundtrip_aux by lia. by split_and!.
Qed.

Context `{CL : !CryptoLaws C}.

(** The bytes of a ["0x..."] field. *)
Definition field_bytes (s : jsstring) : bytes := bytes_of_pairs (drop 2 s).

Lemma drop_0x s : drop 2 ("0x"%js ++ s) = s.
Proof. done. Qed.

Lemma sign_of_parts req chainId sk alg sb pk sig :
  getSignBytes req chainId = Ok sb → sign_with alg sb sk = Ok (pk, sig) →
  ∃ tx, sign req chainId sk alg = Ok tx ∧ stx_publicKey tx = "0x"%js ++ pk
        ∧ stx_signature tx = "0x"%js ++ sig.
Proof.
  intros Hsb Hw. unfold sign. rewrite Hsb. cbn [mbind outcome_bind].
  apply getSignBytes_inv in Hsb as (from & to & atto & Hf & Ht & Ha & _ & _).
  rewrite Ha. cbn [mbind outcome_bind]. rewrite Hw. cbn [mbind outcome_bind].
  rewrite Hf, Ht. cbn [mbind outcome_bind].
  destruct (toBech32_total from) as [s ->]; [by eapply parse_raw|].
  destruct (toBech32_total to) as [r ->]; [by eapply parse_raw|].
  cbn [mbind outcome_bind]. eauto.
Qed.

(** C3. With a 32-byte key every acceptable request is signed, and the published
    signature verifies for its sign bytes under the published public key
    (Ed25519). *)
Theorem sign_ed25519_verifies (req : SendTxRequest) (chainId : jsstring) (sk sb : bytes) :
  byte_array 32 sk → getSignBytes req chainId = Ok sb →
  ∃ tx, sign req chainId sk Ed25519 = Ok tx
        ∧ ed25519_verify (field_bytes (stx_signature tx)) sb (field_bytes (stx_publicKey tx))
          = true.
Proof.
  intros Hk Hsb. destruct (ed25519_public sk Hk) as (pk & Hpk & _).
  destruct (ed25519_correct sk pk sb Hpk) as (sig & Hs & [_ Bs] & [_ Bp] & Hv).
  destruct (sign_of_parts req chainId sk Ed25519 sb (bytesToHex pk) (bytesToHex sig) Hsb)
    as (tx & Htx & E1 & E2).
  - simpl. by rewrite Hpk, Hs.
  - exists tx. split; [done|]. rewrite E1, E2. unfold field_bytes.
    by rewrite !drop_0x, !bytes_of_pairs_hex.
Qed.

(** C13. A Secp256k1 signature verifies for the SHA-256 digest of the sign bytes
    under the published public key. *)
Theorem sign_secp256k1_verifies (req : SendTxRequest) (chainId : jsstring) (sk sb : bytes)
    (tx : SignedTransaction) :
  getSignBytes req chainId = Ok sb → sign req chainId sk Secp256k1 = Ok tx →
  secp256k1_verify (drop 2 (stx_signature tx)) (sha256 sb) (field_bytes (stx_publicKey tx))
  = true.
Proof.
  intros Hsb Htx. destruct (sign_with Secp256k1 sb sk) as [[pk sig]|e] eqn:Hw.
  - destruct (sign_of_parts _ _ _ _ _ _ _ Hsb Hw) as (tx' & Htx' & E1 & E2).
    rewrite Htx in Htx'. injection Htx' as <-. rewrite E1, E2. simpl in Hw.
    destruct (secp256k1_getPublicKey sk) as [pkb|] eqn:Hpk; [|done]. simpl in Hw.
    destruct (secp256k1_correct sk pkb (sha256 sb) Hpk) as (s & Hs & Hv).
    rewrite Hs in Hw. injection Hw as <- <-. unfold field_bytes. rewrite !drop_0x.
    destruct (secp256k1_public sk pkb Hpk) as [_ Bp]. by rewrite bytes_of_pairs_hex.
  - unfold sign in Htx. rewrite Hsb in Htx. cbn [mbind outcome_bind] in Htx.
    destruct (sprxToAtto _); [|done]. cbn [mbind outcome_bind] in Htx. by rewrite Hw in Htx.
Qed.
End sign_bytes.

(** ** Witnesses *)

Section witnesses.
#[local] Existing Instances PlainBech32.plain_bech32 PlainBech32.plain_bech32_laws
  PlainCrypto.plain_crypto PlainCrypto.plain_crypto_laws.

Lemma utf16_bool s : forallb (λ c, c <? 65536)%N s = true → utf16 s.
Proof.
  intros Hs%forallb_Forall_true. eapply Forall_impl; [exact Hs|]. intros c. apply N.ltb_lt.
Qed.

Definition example_request : SendTxRequest :=
  mkSendTxRequest "0x00112233445566778899aabbccddeeff00112233"%js
    "0xFFEEDDCCBBAA99887766554433221100FFEEDDCC"%js " 10.5 "%js (JNum (NInt 7))
    None (Some "rent"%js) None.

Definition example_sign_bytes : bytes :=
  match getSignBytes example_request "sprax-1"%js with Ok sb => sb | Throw _ => [] end.

Lemma example_exact : exact_request example_request "sprax-1"%js.
Proof.
  split_and!; (by apply utf16_bool) || (cbn; unfold safe_int; lia).
Qed.

Lemma getSignBytes_inj_witness : "sprax-1"%js = "sprax-1"%js.
Proof.
  apply (getSignBytes_inj example_request example_request _ _ example_sign_bytes);
    [exact example_exact|exact example_exact|vm_compute; reflexivity..].
Defined.

Lemma getSignBytes_total_witness : is_ok (getSignBytes example_request "sprax-1"%js) = true.
Proof.
  apply (getSignBytes_total example_request "sprax-1"%js).
  split_and!; [vm_compute; reflexivity..|].
  exists 10500000000000000000%Z. split; [vm_compute; reflexivity|lia].
Defined.

Definition example_tx (alg : KeyAlgorithm) : SignedTransaction :=
  match sign example_request "sprax-1"%js (replicate 32 9%N) alg with
  | Ok tx => tx
  | Throw _ => mkSignedTransaction (mkTxBody [] [] JUndef [] [] 0 [] 0) [] [] []
  end.

Lemma sign_body_consistent_witness :
  ∃ req', request_of_body (stx_body (example_tx Ed25519)) = Ok req'
    ∧ is_ok (getSignBytes example_request "sprax-1"%js) = true
    ∧ getSignBytes req' (body_chainId (stx_body (example_tx Ed25519)))
      = getSignBytes example_request "sprax-1"%js.
Proof.
  apply (sign_body_consistent example_request "sprax-1"%js (replicate 32 9%N) Ed25519).
  vm_compute. reflexivity.
Defined.

Lemma sign_ed25519_verifies_witness :
  ∃ tx, sign example_request "sprax-1"%js (replicate 32 9%N) Ed25519 = Ok tx
        ∧ ed25519_verify (field_bytes (stx_signature tx)) example_sign_bytes
            (field_bytes (stx_publicKey tx)) = true.
Proof.
  apply sign_ed25519_verifies; [|vm_compute; reflexivity].
  apply PlainCrypto.key32_spec. vm_compute. reflexivity.
Defined.

Lemma sign_secp256k1_verifies_witness :
  secp256k1_verify (drop 2 (stx_signature (example_tx Secp256k1))) (sha256 example_sign_bytes)
    (field_bytes (stx_publicKey (example_tx Secp256k1))) = true.
Proof.
  apply (sign_secp256k1_verifies example_request "sprax-1"%js (replicate 32 9%N));
    vm_compute; reflexivity.
Defined.
End witnesses.
