(* ===== verification/HdWallet.v ===== *)
(** * Mnemonics and key derivation

    [packages/sprax-wallet-core/src/mnemonic.ts] ([MnemonicUtil]) and
    [packages/sprax-wallet-core/src/hd_wallet.ts] ([HDWallet]). *)
From S2P Require Import Prelude JsString JsStringFacts Utf8 Bytes Address Crypto.
From S2P Require Import WalletTypes.
Import AddressUtil.

(** ** The [bip39] package

    [generateMnemonic] gets the random bytes the package draws. *)
Class Bip39 := {
  generateMnemonic : Z → bytes → jsstring;
  validateMnemonic : jsstring → bool;
  mnemonicToSeedSync : jsstring → jsstring → bytes;
}.

(** A phrase in the normal form the package prints. *)
Definition normal_phrase (m : jsstring) : Prop :=
  trim m = m ∧ is_ascii m = true ∧ ascii_lower <$> m = m.

(** Generated phrases have three words per 32 bits of entropy, separated by
    single spaces, in lower case, and pass the checksum; seeds have 64 bytes. *)
Class Bip39Laws (P : Bip39) : Prop := {
  generate_words strength r :
    strength = 128%Z ∨ strength = 256%Z →
    length (split_ws (generateMnemonic strength r)) = Z.to_nat (strength / 32 * 3);
  generate_normal strength r :
    strength = 128%Z ∨ strength = 256%Z → normal_phrase (generateMnemonic strength r);
  generate_valid strength r :
    strength = 128%Z ∨ strength = 256%Z →
    validateMnemonic (generateMnemonic strength r) = true;
  seed_size m p : byte_array 64 (mnemonicToSeedSync m p);
}.

Module MnemonicUtil.
Section mnemonic.
Context `{UnicodeCase} `{Bip39}.

Inductive WordCount := Words12 | Words24.

Definition generate (random : bytes) (wordCount : WordCount) : jsstring :=
  let strength := match wordCount with Words12 => 128%Z | Words24 => 256%Z end in
  generateMnemonic strength random.

Definition validate (mnemonic : jsstring) : bool :=
  let trimmed := toLowerCase (trim mnemonic) in
  let words := split_ws trimmed in
  if negb (length words =? 12)%nat && negb (length words =? 24)%nat then false
  else validateMnemonic trimmed.

Definition toSeed (mnemonic passphrase : jsstring) : outcome bytes :=
  if negb (validate mnemonic) then
    throw "Invalid BIP-39 mnemonic phrase or checksum failure"%js
  else Ok (mnemonicToSeedSync (toLowerCase (trim mnemonic)) passphrase).
End mnemonic.
End MnemonicUtil.

Module HDWallet.
Local Open Scope Z_scope.

Definition SPRAX_COIN_TYPE : Z := 9999.
Definition DEFAULT_DERIVATION_PATH : jsstring :=
  "m/44'/"%js ++ Z_to_string SPRAX_COIN_TYPE ++ "'/0'/0"%js.

(** The private field of the class. *)
Record HDWallet := mkHDWallet { seed : bytes }.

Definition new_HDWallet (s : bytes) : outcome HDWallet :=
  if negb (length s =? 64)%nat then
    throw ("HD wallet seed must be 64 bytes, got "%js ++ Z_to_string (Z.of_nat (length s)))
  else Ok (mkHDWallet s).

(** [a | b] on numbers: both operands and the result are 32-bit integers. *)
Definition to_int32 (z : Z) : Z :=
  let u := z mod 2 ^ 32 in if u <? 2 ^ 31 then u else u - 2 ^ 32.
Definition bit_or (a b : Z) : Z := to_int32 (Z.lor (to_int32 a) (to_int32 b)).

(** The four bytes [setUint32(0, z, false)] writes. *)
Definition uint32_be (z : Z) : bytes :=
  let u := Z.to_N (z mod 2 ^ 32) in
  [(u / 16777216) mod 256; (u / 65536) mod 256; (u / 256) mod 256; u mod 256]%N.

(** [a.set(b, offset)] on typed arrays. *)
Definition typed_set (a b : bytes) (offset : nat) : bytes :=
  take offset a ++ b ++ drop (offset + length b) a.

Section wallet.
Context `{Bech32} `{Crypto}.

Definition deriveMasterKey (w : HDWallet) (saltKey : jsstring) : bytes * bytes :=
  let I := hmac_sha512 (utf8_encode saltKey) (seed w) in
  (slice I 0 32, slice I 32 64).

(** The message of the child HMAC. *)
Definition child_data (master_key : bytes) (index : Z) : bytes :=
  let indexData := uint32_be (bit_or 2147483648 index) in
  typed_set (typed_set (replicate 37 0%N) master_key 1) indexData 33.

Definition child_key (w : HDWallet) (saltKey : jsstring) (index : Z) : bytes :=
  let '(key, chainCode) := deriveMasterKey w saltKey in
  let childI := hmac_sha512 chainCode (child_data key index) in
  slice childI 0 32.

Definition default_name (index : Z) : jsstring := "Account "%js ++ Z_to_string (index + 1).

Definition deriveAccount (w : HDWallet) (index : Z) (name : option jsstring) :
    outcome (Account * bytes) :=
  let path := DEFAULT_DERIVATION_PATH ++ "/"%js ++ Z_to_string index in
  let privateKey := child_key w "ed25519 seed"%js index in
  publicKey ← ed25519_getPublicKey privateKey;
  let rawAddress := slice (sha256 publicKey) 0 20 in
  addressBech32 ← toBech32 rawAddress;
  addressHex ← toHex rawAddress;
  Ok ({| acc_index := index; acc_name := default (default_name index) name;
         acc_addressBech32 := addressBech32; acc_addressHex := addressHex;
         acc_publicKeyHex := bytesToHex publicKey; acc_algorithm := Ed25519;
         acc_path := path |}, privateKey).

Definition deriveSecp256k1Account (w : HDWallet) (index : Z) (name : option jsstring) :
    outcome (Account * bytes) :=
  let path := "m/44'/60'/0'/0/"%js ++ Z_to_string index in
  let privateKey := child_key w "Bitcoin seed"%js index in
  publicKey ← secp256k1_getPublicKey privateKey;
  let rawAddress := slice (sha256 publicKey) 0 20 in
  addressBech32 ← toBech32 rawAddress;
  addressHex ← toHex rawAddress;
  Ok ({| acc_index := index; acc_name := default (default_name index) name;
         acc_addressBech32 := addressBech32; acc_addressHex := addressHex;
         acc_publicKeyHex := bytesToHex publicKey; acc_algorithm := Secp256k1;
         acc_path := path |}, privateKey).

Context `{UnicodeCase} `{Bip39}.

Definition fromMnemonic (mnemonic passphrase : jsstring) : outcome HDWallet :=
  s ← MnemonicUtil.toSeed mnemonic passphrase;
  new_HDWallet s.
End wallet.
End HDWallet.
Import HDWallet.

(** ** Mnemonics *)

Section mnemonic_facts.
Context `{U : UnicodeCase} `{P : Bip39} `{PL : !Bip39Laws P}.

Lemma new_HDWallet_ok s : length s = 64%nat → new_HDWallet s = Ok (mkHDWallet s).
Proof. intros Hs. unfold new_HDWallet. by rewrite Hs. Qed.

Lemma fromMnemonic_spec m p :
  fromMnemonic m p
  = if MnemonicUtil.validate m
    then Ok (mkHDWallet (mnemonicToSeedSync (toLowerCase (trim m)) p))
    else throw "Invalid BIP-39 mnemonic phrase or checksum failure"%js.
Proof.
  unfold fromMnemonic, MnemonicUtil.toSeed. destruct (MnemonicUtil.validate m); [|done].
  cbn [negb mbind outcome_bind]. apply new_HDWallet_ok, seed_size.
Qed.

Lemma generate_validates random n :
  MnemonicUtil.validate (MnemonicUtil.generate random n) = true.
Proof.
  unfold MnemonicUtil.validate, MnemonicUtil.generate.
  set (st := match n with MnemonicUtil.Words12 => _ | _ => _ end).
  assert (st = 128%Z ∨ st = 256%Z) as Hst by (subst st; destruct n; auto).
  destruct (generate_normal st random Hst) as (Ht & Ha & Hl).
  rewrite Ht. unfold toLowerCase. rewrite Ha, Hl, generate_words, generate_valid by done.
  by destruct Hst as [->| ->].
Qed.

(** A freshly generated phrase is accepted and opens a wallet with a 64-byte
    seed. *)
Lemma generate_opens_wallet (random : bytes) (n : MnemonicUtil.WordCount) (p : jsstring) :
  MnemonicUtil.validate (MnemonicUtil.generate random n) = true
  ∧ ∃ w, fromMnemonic (MnemonicUtil.generate random n) p = Ok w ∧ byte_array 64 (seed w).
Proof.
  pose proof (generate_validates random n) as Hv.
  split; [done|]. rewrite fromMnemonic_spec, Hv. eexists. split; [done|]. apply seed_size.
Qed.

(** Surrounding white space and the case of an ASCII phrase do not matter:
    the same phrase written differently opens the same wallet. *)
Lemma fromMnemonic_normalized (m m' p : jsstring) :
  is_ascii (trim m) = true → is_ascii (trim m') = true →
  ascii_lower <$> trim m = ascii_lower <$> trim m' → fromMnemonic m p = fromMnemonic m' p.
Proof.
  intros Hm Hm' E. rewrite !fromMnemonic_spec. unfold MnemonicUtil.validate, toLowerCase.
  by rewrite Hm, Hm', E.
Qed.
End mnemonic_facts.

(** ** Derivation *)

Lemma byte_array_slice n bs (i j : nat) :
  byte_array n bs → (i ≤ j)%nat → (j ≤ n)%nat →
  byte_array (j - i) (slice bs (Z.of_nat i) (Z.of_nat j)).
Proof.
  intros [Hl Hb] Hi Hj. rewrite slice_nat by lia. split.
  - rewrite length_take, length_drop. lia.
  - by apply Forall_take, Forall_drop.
Qed.

Lemma uint32_be_bytes z : byte_array 4 (uint32_be z).
Proof.
  split; [done|]. unfold uint32_be, is_byte. repeat constructor; apply N.mod_lt; lia.
Qed.

Lemma child_data_layout key index :
  length key = 32%nat →
  child_data key index = 0%N :: key ++ uint32_be (bit_or 2147483648 index).
Proof.
  intros Hk. unfold child_data. set (d := uint32_be _).
  assert (typed_set (replicate 37 0%N) key 1 = 0%N :: key ++ replicate 4 0%N) as ->.
  { unfold typed_set. rewrite Hk. done. }
  assert (length d = 4%nat) as Hd by apply uint32_be_bytes.
  unfold typed_set. rewrite Hd.
  change (take 33 (0%N :: key ++ replicate 4 0%N)) with (0%N :: take 32 (key ++ replicate 4 0%N)).
  rewrite take_app_length' by done.
  change (drop (33 + 4) (0%N :: key ++ replicate 4 0%N)) with (drop 36 (key ++ replicate 4 0%N)).
  rewrite drop_ge by (rewrite length_app, Hk; simpl; lia). by rewrite app_nil_r.
Qed.

Section derive_facts.
Context `{B : Bech32} `{L : !Bech32Laws B} `{C : Crypto} `{CL : !CryptoLaws C}.

Lemma master_key_size w salt :
  byte_array 32 (deriveMasterKey w salt).1 ∧ byte_array 32 (deriveMasterKey w salt).2.
Proof.
  unfold deriveMasterKey. simpl. pose proof (hmac_sha512_size (utf8_encode salt) (seed w)) as Hs.
  split; [apply (byte_array_slice 64 _ 0 32)|apply (byte_array_slice 64 _ 32 64)]; done || lia.
Qed.

Lemma child_key_size w salt index : byte_array 32 (child_key w salt index).
Proof.
  unfold child_key. destruct (deriveMasterKey w salt) as [k c].
  apply (byte_array_slice 64 _ 0 32); [apply hmac_sha512_size|lia..].
Qed.

Lemma pub_address_raw pk : raw_address (slice (sha256 pk) 0 20).
Proof. apply (byte_array_slice 32 _ 0 20); [apply sha256_size|lia..]. Qed.

(** What an account says about its key: both addresses are those of the first 20
    bytes of the digest of the public key. *)
Definition account_of_key (a : Account) (pk : bytes) : Prop :=
  acc_publicKeyHex a = bytesToHex pk
  ∧ parseToBytes (acc_addressBech32 a) = Ok (slice (sha256 pk) 0 20)
  ∧ parseToBytes (acc_addressHex a) = Ok (slice (sha256 pk) 0 20)
  ∧ toBech32 (slice (sha256 pk) 0 20) = Ok (acc_addressBech32 a).

Lemma addresses_of_key pk :
  ∃ b h, toBech32 (slice (sha256 pk) 0 20) = Ok b ∧ toHex (slice (sha256 pk) 0 20) = Ok h
         ∧ parseToBytes b = Ok (slice (sha256 pk) 0 20)
         ∧ parseToBytes h = Ok (slice (sha256 pk) 0 20).
Proof.
  pose proof (pub_address_raw pk) as Hr. set (r := slice (sha256 pk) 0 20) in *.
  destruct (toBech32_total r Hr) as [b Hb]. exists b, ("0x"%js ++ bytesToHex r).
  split_and!; [done|by apply toHex_ok|by apply parse_toBech32|by apply parse_toHex].
Qed.

Lemma deriveAccount_spec w index name :
  ∃ a pk, deriveAccount w index name = Ok (a, child_key w "ed25519 seed"%js index)
    ∧ ed25519_getPublicKey (child_key w "ed25519 seed"%js index) = Ok pk
    ∧ acc_index a = index ∧ acc_algorithm a = Ed25519 ∧ account_of_key a pk.
Proof.
  destruct (ed25519_public _ (child_key_size w "ed25519 seed"%js index)) as (pk & Hpk & _).
  destruct (addresses_of_key pk) as (b & h & Hb & Hh & Pb & Ph).
  unfold deriveAccount. rewrite Hpk. cbn [mbind outcome_bind]. rewrite Hb, Hh.
  cbn [mbind outcome_bind]. eexists _, pk. by split_and!.
Qed.


(** The same for Secp256k1 accounts, when the child key is a valid scalar. *)
Lemma deriveSecp256k1Account_sound (w : HDWallet) (index : Z) (name : option jsstring)
    (pk : bytes) :
  secp256k1_getPublicKey (child_key w "Bitcoin seed"%js index) = Ok pk →
  ∃ a, deriveSecp256k1Account w index name = Ok (a, child_key w "Bitcoin seed"%js index)
    ∧ acc_algorithm a = Secp256k1 ∧ account_of_key a pk.
Proof.
  intros Hpk. destruct (addresses_of_key pk) as (b & h & Hb & Hh & Pb & Ph).
  unfold deriveSecp256k1Account. rewrite Hpk. cbn [mbind outcome_bind]. rewrite Hb, Hh.
  cbn [mbind outcome_bind]. eexists. by split_and!.
Qed.
End derive_facts.

(** ** Account indices *)

Section index_facts.
Local Open Scope Z_scope.

Lemma lor_minus_pow2 n v : 0 ≤ n → Z.lor (- 2 ^ n) v = - 2 ^ n + v mod 2 ^ n.
Proof.
  intros Hn. assert (∀ k, 0 ≤ k → Z.testbit (- 2 ^ n) k = (n <=? k)) as Hb.
  { intros k Hk. rewrite Z.bits_opp by lia. rewrite <-Z.ones_equiv.
    destruct (Z.leb_spec n k); [by rewrite Z.ones_spec_high by lia|].
    by rewrite Z.ones_spec_low by lia. }
  rewrite Z.add_nocarry_lxor, Z.lxor_lor; apply Z.bits_inj'; intros k Hk;
    rewrite ?Z.lor_spec, ?Z.land_spec, ?Z.bits_0, Hb by done; destruct (Z.leb_spec n k);
    cbn [orb andb]; rewrite ?Z.mod_pow2_bits_high, ?Z.mod_pow2_bits_low by lia; done.
Qed.

Lemma to_int32_mod z :
  to_int32 z mod 2 ^ 32 = z mod 2 ^ 32 ∧ to_int32 z mod 2 ^ 31 = z mod 2 ^ 31.
Proof.
  unfold to_int32. change (2 ^ 31) with 2147483648. change (2 ^ 32) with 4294967296.
  destruct (Z.ltb_spec (z mod 4294967296) 2147483648); Z.to_euclidean_division_equations; lia.
Qed.

(** The word that is written: the hardened bit and the low 31 bits of the index. *)
Lemma bit_or_index i : bit_or 2147483648 i mod 2 ^ 32 = 2 ^ 31 + i mod 2 ^ 31.
Proof.
  unfold bit_or. rewrite (proj1 (to_int32_mod _)).
  change (to_int32 2147483648) with (- 2 ^ 31).
  rewrite lor_minus_pow2, (proj2 (to_int32_mod i)) by lia.
  change (2 ^ 31) with 2147483648. change (2 ^ 32) with 4294967296.
  Z.to_euclidean_division_equations. lia.
Qed.

Lemma uint32_be_mod a b : a mod 2 ^ 32 = b mod 2 ^ 32 → uint32_be a = uint32_be b.
Proof. unfold uint32_be. by intros ->. Qed.

Lemma be32_value (u : N) :
  (u < 4294967296)%N →
  (u = (((u / 16777216) mod 256 * 256 + (u / 65536) mod 256) * 256 + (u / 256) mod 256) * 256
      + u mod 256)%N.
Proof.
  intros Hu. change 16777216%N with (256 * 256 * 256)%N. change 65536%N with (256 * 256)%N.
  rewrite <-!N.Div0.div_div.
  pose proof (N.div_mod u 256 ltac:(lia)) as H0.
  pose proof (N.div_mod (u / 256) 256 ltac:(lia)) as H1.
  pose proof (N.div_mod (u / 256 / 256) 256 ltac:(lia)) as H2.
  assert (u / 256 / 256 / 256 < 256)%N as H3.
  { rewrite !N.Div0.div_div. apply N.Div0.div_lt_upper_bound. lia. }
  rewrite (N.mod_small _ 256 H3). lia.
Qed.

Lemma uint32_be_inj a b : uint32_be a = uint32_be b → a mod 2 ^ 32 = b mod 2 ^ 32.
Proof.
  unfold uint32_be. intros E.
  pose proof (Z.mod_pos_bound a (2 ^ 32) ltac:(lia)).
  pose proof (Z.mod_pos_bound b (2 ^ 32) ltac:(lia)).
  assert (Z.to_N (a mod 2 ^ 32) = Z.to_N (b mod 2 ^ 32)); [|lia].
  set (u := Z.to_N (a mod 2 ^ 32)) in *. set (v := Z.to_N (b mod 2 ^ 32)) in *.
  assert (u < 4294967296 ∧ v < 4294967296)%N as [Hu Hv] by lia. clearbody u v.
  injection E as E3 E2 E1 E0. rewrite (be32_value u), (be32_value v) by done. congruence.
Qed.

Lemma child_data_inj key i j :
  length key = 32%nat → 0 ≤ i < 2 ^ 31 → 0 ≤ j < 2 ^ 31 →
  child_data key i = child_data key j → i = j.
Proof.
  intros Hk Hi Hj. rewrite !child_data_layout by done. intros [= E%(inj _)].
  apply uint32_be_inj in E. rewrite !bit_or_index, !Z.mod_small in E by lia. lia.
Qed.

Lemma child_data_period key i : length key = 32%nat → child_data key (i + 2 ^ 31) = child_data key i.
Proof.
  intros Hk. rewrite !child_data_layout by done. do 2 f_equal. apply uint32_be_mod.
  rewrite !bit_or_index. rewrite <-Z.add_mod_idemp_r, Z_mod_same_full, Z.add_0_r by lia. done.
Qed.
End index_facts.

Section index_theorems.
Context `{C : Crypto} `{CL : !CryptoLaws C}.
Local Open Scope Z_scope.

(** Distinct account indices below [2 ^ 31] derive from distinct HMAC
    messages under the same chain code. *)
Lemma derive_index_distinct (w : HDWallet) (salt : jsstring) (i j : Z) :
  0 ≤ i < 2 ^ 31 → 0 ≤ j < 2 ^ 31 → i ≠ j →
  child_data (deriveMasterKey w salt).1 i ≠ child_data (deriveMasterKey w salt).1 j.
Proof.
  intros Hi Hj Hne E. apply Hne. eapply child_data_inj; [|done..].
  apply (master_key_size w salt).
Qed.

(** Beyond that the index wraps: index [i + 2 ^ 31] derives the private key of
    index [i] under another account name and path. *)
Lemma derive_index_wraps (w : HDWallet) (salt : jsstring) (i : Z) :
  child_key w salt (i + 2 ^ 31) = child_key w salt i.
Proof.
  unfold child_key. destruct (deriveMasterKey w salt) as [k c] eqn:E.
  rewrite child_data_period; [done|]. pose proof (master_key_size w salt) as [[Hl _] _].
  by rewrite E in Hl.
Qed.
End index_theorems.

(** ** Witnesses *)

(** A word list of one word and a zero seed. *)
Module PlainBip39.
Definition phrase (n : nat) : jsstring := join_with " "%js (replicate n "zoo"%js).

#[local] Instance plain_bip39 : Bip39 := {|
  generateMnemonic := λ strength _, phrase (Z.to_nat (strength / 32 * 3));
  validateMnemonic := λ m, bool_decide (m = phrase 12 ∨ m = phrase 24);
  mnemonicToSeedSync := λ m p, replicate 64 0%N;
|}.

Lemma plain_bip39_laws : Bip39Laws plain_bip39.
Proof.
  split.
  - intros s r [->| ->]; vm_compute; reflexivity.
  - intros s r [->| ->]; split_and!; vm_compute; reflexivity.
  - intros s r [->| ->]; vm_compute; reflexivity.
  - intros m p. split; [done|]. apply (Forall_replicate (λ b, (b < 256)%N)). lia.
Qed.
End PlainBip39.

Section hd_witnesses.
#[local] Existing Instances ascii_case PlainBech32.plain_bech32 PlainBech32.plain_bech32_laws
  PlainCrypto.plain_crypto PlainCrypto.plain_crypto_laws
  PlainBip39.plain_bip39 PlainBip39.plain_bip39_laws.

Definition example_wallet : HDWallet := mkHDWallet (replicate 64 1%N).


End hd_witnesses.
