(* ===== verification/Vault.v ===== *)
(** * The encrypted vault: [packages/sprax-wallet-core/src/vault.ts]

    [WalletVault.encrypt] and [WalletVault.decrypt]. The awaits of these
    functions touch no shared state, so they are functions to [outcome]. *)
From S2P Require Import Prelude JsString JsStringFacts Utf8 Bytes Address Crypto.
From S2P Require Import WalletTypes HdWallet.
Import AddressUtil HDWallet.

(** [crypto.subtle] with AES-GCM: [importKey] followed by [encrypt] or
    [decrypt]. *)
Class SubtleCrypto := {
  importKey : bytes → outcome bytes;
  aes_gcm_encrypt : bytes → bytes → bytes → outcome bytes;
  aes_gcm_decrypt : bytes → bytes → bytes → outcome bytes;
}.

(** 256-bit keys are imported; encryption under a 96-bit initialization vector
    succeeds and decryption inverts it. *)
Class SubtleLaws (S : SubtleCrypto) : Prop := {
  importKey_32 k : byte_array 32 k → importKey k = Ok k;
  aes_encrypt_ok k iv p :
    byte_array 32 k → byte_array 12 iv → Forall is_byte p →
    ∃ c, aes_gcm_encrypt k iv p = Ok c ∧ Forall is_byte c ∧ aes_gcm_decrypt k iv c = Ok p;
}.

Module WalletVault.

Definition DEFAULT_ITERATIONS : Z := 100000.

Definition bytesToHex : bytes → jsstring := Bytes.bytesToHex.

Definition hexToBytes (hex : jsstring) : bytes :=
  let clean := if startsWith hex "0x"%js then slice_from hex 2 else hex in
  bytes_of_pairs clean.

Section vault.
Context `{Bech32} `{Crypto} `{UnicodeCase} `{Bip39} `{SubtleCrypto}.

(** The loop that derives the accounts [i], [i + 1], ... *)
Fixpoint derive_accounts (w : HDWallet) (i : Z) (n : nat) : outcome (list Account) :=
  match n with
  | O => Ok []
  | S n' =>
      '(account, _) ← deriveAccount w i None;
      accounts ← derive_accounts w (i + 1) n';
      Ok (account :: accounts)
  end.

(** [salt] and [iv] are the random bytes drawn, whichever source provides them;
    [subtle] tells whether [crypto.subtle] is available. *)
Definition encrypt (subtle : bool) (salt iv : bytes) (mnemonic password : jsstring)
    (accountCount : nat) : outcome EncryptedVault :=
  derivedKey ← pbkdf2_sha256 (utf8_encode password) salt DEFAULT_ITERATIONS 32;
  wallet ← fromMnemonic mnemonic [];
  accounts ← derive_accounts wallet 0 accountCount;
  let plaintext := utf8_encode mnemonic in
  cipherBytes ←
    (if subtle then
       cryptoKey ← importKey derivedKey;
       aes_gcm_encrypt cryptoKey iv plaintext
     else
       throw "Cryptographic environment error: WebCrypto SubtleCrypto is required for AES-256-GCM vault encryption"%js);
  Ok {| vault_version := 1; vault_cipherTextHex := bytesToHex cipherBytes;
        vault_saltHex := bytesToHex salt; vault_ivHex := bytesToHex iv;
        vault_kdfIterations := DEFAULT_ITERATIONS; vault_accounts := accounts |}.

Definition decrypt (subtle : bool) (vault : EncryptedVault) (password : jsstring) :
    outcome jsstring :=
  let salt := hexToBytes (vault_saltHex vault) in
  let iv := hexToBytes (vault_ivHex vault) in
  let cipherBytes := hexToBytes (vault_cipherTextHex vault) in
  derivedKey ← pbkdf2_sha256 (utf8_encode password) salt (vault_kdfIterations vault) 32;
  decryptedBytes ←
    (if subtle then
       try_catch
         (cryptoKey ← importKey derivedKey;
          aes_gcm_decrypt cryptoKey iv cipherBytes)
         (λ _, throw "Incorrect password or corrupted wallet vault"%js)
     else
       throw "Cryptographic environment error: WebCrypto SubtleCrypto is required for AES-256-GCM vault decryption"%js);
  Ok (utf8_decode decryptedBytes).
End vault.
End WalletVault.
Import WalletVault.

(** ** Theorems *)

Lemma hexToBytes_bytesToHex bs : Forall is_byte bs → hexToBytes (bytesToHex bs) = bs.
Proof.
  intros Hb. unfold hexToBytes, bytesToHex.
  assert (startsWith (Bytes.bytesToHex bs) "0x"%js = false) as ->.
  { pose proof (bytesToHex_is_hex bs Hb) as Hh.
    destruct (Bytes.bytesToHex bs) as [|a [|b s]]; [done|cbn [startsWith]; by rewrite andb_false_r|].
    apply Forall_cons in Hh as [_ [Hh _]%Forall_cons]. apply is_hex_cases in Hh.
    cbn [startsWith]. rewrite (proj2 (N.eqb_neq 120 b)) by lia. by rewrite andb_false_r. }
  by apply bytes_of_pairs_hex.
Qed.

Lemma utf8_encode_bytes s : well_formed s = true → Forall is_byte (utf8_encode s).
Proof.
  intros Hs. destruct (to_scalars_wf s Hs) as [Hsc _]. unfold utf8_encode.
  apply Forall_concat, Forall_fmap. eapply Forall_impl; [exact Hsc|].
  intros c. apply encode_scalar_bytes.
Qed.

Section vault_facts.
Context `{B : Bech32} `{L : !Bech32Laws B} `{C : Crypto} `{CL : !CryptoLaws C}.
Context `{U : UnicodeCase} `{P : Bip39} `{PL : !Bip39Laws P}.
Context `{S : SubtleCrypto} `{SL : !SubtleLaws S}.

(** The accounts cached in the vault are the first accounts of the wallet. *)
Lemma derive_accounts_spec w n i :
  ∃ accounts, derive_accounts w i n = Ok accounts ∧ length accounts = n
    ∧ ∀ k a, accounts !! k = Some a →
             ∃ sk, deriveAccount w (i + Z.of_nat k) None = Ok (a, sk).
Proof.
  revert i. induction n as [|n IH]; intros i; [by exists []|].
  destruct (deriveAccount_spec w i None) as (a & pk & Hd & _).
  destruct (IH (i + 1)%Z) as (accs & Ha & Hl & Hk). exists (a :: accs).
  cbn [derive_accounts]. rewrite Hd. cbn [mbind outcome_bind]. rewrite Ha.
  split_and!; [done|simpl; by rewrite Hl|].
  intros [|k] a' E; simpl in E.
  - simplify_eq. rewrite Z.add_0_r. by eexists.
  - destruct (Hk k a' E) as [sk Hsk]. exists sk. rewrite <-Hsk. f_equal. lia.
Qed.

(** C10. Encryption succeeds for every valid phrase, and decryption with the same
    password gives the phrase back, character by character. *)
Theorem vault_roundtrip (salt iv : bytes) (m password : jsstring) (n : nat) :
  byte_array 16 salt → byte_array 12 iv → MnemonicUtil.validate m = true →
  well_formed m = true → head m ≠ Some 65279%N →
  ∃ v, encrypt true salt iv m password n = Ok v ∧ decrypt true v password = Ok m.
Proof.
  intros [_ Hsalt] [Hli Hiv] Hv Hw Hbom. unfold encrypt.
  pose proof (pbkdf2_total (utf8_encode password) salt DEFAULT_ITERATIONS ltac:(done)) as Hk.
  destruct (pbkdf2_sha256 _ _ _ _) as [key|] eqn:Ek; [|done]. cbn [mbind outcome_bind].
  rewrite fromMnemonic_spec, Hv. cbn [mbind outcome_bind].
  destruct (derive_accounts_spec (mkHDWallet (mnemonicToSeedSync (toLowerCase (trim m)) [])) n 0)
    as (accs & -> & _). cbn [mbind outcome_bind].
  pose proof (pbkdf2_size _ _ _ _ _ Ek) as Hkey. rewrite importKey_32 by done.
  cbn [mbind outcome_bind].
  destruct (aes_encrypt_ok key iv (utf8_encode m)) as (c & Ec & Hc & Ed);
    [done|done|by apply utf8_encode_bytes|].
  rewrite Ec. cbn [mbind outcome_bind]. eexists. split; [done|].
  unfold decrypt. cbn [vault_saltHex vault_ivHex vault_cipherTextHex vault_kdfIterations].
  rewrite !hexToBytes_bytesToHex by done. rewrite Ek. cbn [mbind outcome_bind].
  rewrite importKey_32 by done. cbn [mbind outcome_bind]. rewrite Ed. cbn.
  by rewrite utf8_roundtrip.
Qed.

(** What is stored: the vault's accounts are the accounts [0 .. n-1] of the
    phrase's wallet, without their private keys, and it keeps the salt, the
    initialization vector and the iteration count it was made with. *)
Lemma vault_contents (subtle : bool) (salt iv : bytes) (m password : jsstring) (n : nat)
    (v : EncryptedVault) :
  encrypt subtle salt iv m password n = Ok v →
  ∃ w, fromMnemonic m [] = Ok w
  ∧ length (vault_accounts v) = n
  ∧ (∀ k a, vault_accounts v !! k = Some a →
            ∃ sk, deriveAccount w (Z.of_nat k) None = Ok (a, sk))
  ∧ vault_saltHex v = bytesToHex salt ∧ vault_ivHex v = bytesToHex iv
  ∧ vault_kdfIterations v = DEFAULT_ITERATIONS ∧ subtle = true.
Proof.
  unfold encrypt. destruct (pbkdf2_sha256 _ _ _ _); [|done]. cbn [mbind outcome_bind].
  destruct (fromMnemonic m []) as [w|] eqn:Ew; [|done]. cbn [mbind outcome_bind].
  destruct (derive_accounts_spec w n 0) as (accs & -> & Hl & Hk). cbn [mbind outcome_bind].
  destruct subtle; [|done]. destruct (importKey _); [|done]. cbn [mbind outcome_bind].
  destruct (aes_gcm_encrypt _ _ _); [|done]. cbn [mbind outcome_bind]. intros [= <-].
  exists w. by split_and!.
Qed.

(** When the cipher rejects the derived key or the ciphertext, whatever its
    error, [decrypt] reports an incorrect password or a corrupted vault. *)
Lemma decrypt_rejected (v : EncryptedVault) (password : jsstring) (key : bytes) (e : jserr) :
  pbkdf2_sha256 (utf8_encode password) (hexToBytes (vault_saltHex v)) (vault_kdfIterations v) 32
  = Ok key →
  aes_gcm_decrypt key (hexToBytes (vault_ivHex v)) (hexToBytes (vault_cipherTextHex v)) = Throw e →
  decrypt true v password = throw "Incorrect password or corrupted wallet vault"%js.
Proof.
  intros Hk He. unfold decrypt. rewrite Hk. cbn [mbind outcome_bind].
  rewrite importKey_32 by exact (pbkdf2_size _ _ _ _ _ Hk). cbn [mbind outcome_bind]. by rewrite He.
Qed.
End vault_facts.

(** ** Witnesses *)

(** A cipher that prefixes the plaintext with the key. *)
Module PlainSubtle.
#[local] Instance plain_subtle : SubtleCrypto := {|
  importKey := λ k, if (length k =? 32)%nat then Ok k else throw "Invalid key length"%js;
  aes_gcm_encrypt := λ k iv p, Ok (k ++ p);
  aes_gcm_decrypt := λ k iv c,
    if bool_decide (take (length k) c = k) then Ok (drop (length k) c)
    else Throw (JsErr "OperationError"%js []);
|}.

Lemma plain_subtle_laws : SubtleLaws plain_subtle.
Proof.
  split.
  - intros k [Hl _]. simpl. by rewrite Hl.
  - intros k iv p [Hl Hb] _ Hp. exists (k ++ p). simpl. split_and!; [done|by apply Forall_app|].
    by rewrite take_app_length, bool_decide_true, drop_app_length.
Qed.
End PlainSubtle.

Section vault_witnesses.
#[local] Existing Instances ascii_case PlainBech32.plain_bech32 PlainBech32.plain_bech32_laws
  PlainCrypto.plain_crypto PlainCrypto.plain_crypto_laws
  PlainBip39.plain_bip39 PlainBip39.plain_bip39_laws
  PlainSubtle.plain_subtle PlainSubtle.plain_subtle_laws.

Definition example_vault : EncryptedVault :=
  match encrypt true (replicate 16 1%N) (replicate 12 2%N) (PlainBip39.phrase 12)
          "correct horse"%js 2 with
  | Ok v => v
  | Throw _ => mkEncryptedVault 0 [] [] [] 0 []
  end.

Lemma vault_roundtrip_witness :
  ∃ v, encrypt true (replicate 16 1%N) (replicate 12 2%N) (PlainBip39.phrase 12)
         "correct horse"%js 2 = Ok v
       ∧ decrypt true v "correct horse"%js = Ok (PlainBip39.phrase 12).
Proof.
  apply vault_roundtrip; try (vm_compute; reflexivity).
  - split; [done|]. apply (Forall_replicate (λ b, (b < 256)%N)). lia.
  - split; [done|]. apply (Forall_replicate (λ b, (b < 256)%N)). lia.
  - vm_compute. congruence.
Defined.

End vault_witnesses.
