(* ===== verification/Async.v ===== *)
(** * Asynchronous code

    An [async] function is a [cmd]: it reads and writes a shared state, and
    suspends at every [await]. What it awaits is a response of the network (or
    nothing, for a promise that is already settled); other code may run before
    it resumes. [run] executes one function alone against a given sequence of
    responses; [advance] executes it up to its next suspension, which is the
    unit of interleaving of the step relations of the components. *)
From S2P Require Import Prelude JsString JsNumber JsJson.

(** ** [fetch] *)

Record fetch_request := mkRequest {
  rq_url : jsstring;
  rq_method : jsstring;
  rq_headers : list (jsstring * jsstring);
  rq_body : option jsstring;
}.

#[global] Instance fetch_request_eq_dec : EqDecision fetch_request.
Proof. solve_decision. Defined.

(** [resp.json()] and [resp.text()] settle to what the body holds. *)
Record response := mkResponse {
  rs_status : Z;
  rs_statusText : jsstring;
  rs_json : outcome jsval;
  rs_text : outcome jsstring;
}.

(** [resp.ok] *)
Definition rs_ok (r : response) : bool := (200 <=? rs_status r)%Z && (rs_status r <=? 299)%Z.

Definition get_request (url : jsstring) : fetch_request := mkRequest url "GET"%js [] None.

(** ** Commands *)

Inductive cmd (S A : Type) :=
| Ret (a : A)
| Raise (e : jserr)
| Read (k : S → cmd S A)
| Write (f : S → S) (k : cmd S A)
| Fetch (rq : fetch_request) (k : outcome response → cmd S A)
| Yield (k : cmd S A).
Arguments Ret {S A} a.
Arguments Raise {S A} e.
Arguments Read {S A} k.
Arguments Write {S A} f k.
Arguments Fetch {S A} rq k.
Arguments Yield {S A} k.

#[global] Instance cmd_ret {S} : MRet (cmd S) := @Ret S.
#[global] Instance cmd_bind {S} : MBind (cmd S) := λ A B f,
  fix go (c : cmd S A) : cmd S B :=
    match c with
    | Ret a => f a
    | Raise e => Raise e
    | Read k => Read (λ s, go (k s))
    | Write g k => Write g (go k)
    | Fetch rq k => Fetch rq (λ r, go (k r))
    | Yield k => Yield (go k)
    end.

(** [try { c } catch (e) { h e }] *)
Fixpoint catch {S A} (c : cmd S A) (h : jserr → cmd S A) : cmd S A :=
  match c with
  | Ret a => Ret a
  | Raise e => h e
  | Read k => Read (λ s, catch (k s) h)
  | Write g k => Write g (catch k h)
  | Fetch rq k => Fetch rq (λ r, catch (k r) h)
  | Yield k => Yield (catch k h)
  end.

(** [try { c } finally { f }] for a cleanup [f] that only writes the state. *)
Fixpoint finally {S A} (c : cmd S A) (f : S → S) : cmd S A :=
  match c with
  | Ret a => Write f (Ret a)
  | Raise e => Write f (Raise e)
  | Read k => Read (λ s, finally (k s) f)
  | Write g k => Write g (finally k f)
  | Fetch rq k => Fetch rq (λ r, finally (k r) f)
  | Yield k => Yield (finally k f)
  end.

(** A synchronous computation that may throw. *)
Definition lift {S A} (m : outcome A) : cmd S A :=
  match m with Ok a => Ret a | Throw e => Raise e end.

Definition write {S} (f : S → S) : cmd S unit := Write f (Ret tt).
Definition get {S} : cmd S S := Read Ret.

(** [throw new Error(msg)] *)
Definition throw_error {S A} (msg : jsstring) : cmd S A := Raise (JsErr "Error"%js msg).

(** [await fetch(...)] and [await resp.json()], [await resp.text()] *)
Definition fetch {S} (rq : fetch_request) : cmd S response := Fetch rq lift.
Definition json {S} (r : response) : cmd S jsval := Yield (lift (rs_json r)).
Definition text {S} (r : response) : cmd S jsstring := Yield (lift (rs_text r)).

(** ** Execution *)

(** The state after a command that runs alone, its result, and the requests it
    made; [None] when it awaits more responses than given. *)
Fixpoint run {S A} (c : cmd S A) (s : S) (rs : list (outcome response)) :
    option (outcome A * S * list fetch_request) :=
  match c with
  | Ret a => Some (Ok a, s, [])
  | Raise e => Some (Throw e, s, [])
  | Read k => run (k s) s rs
  | Write f k => run k (f s) rs
  | Fetch rq k =>
      match rs with
      | [] => None
      | r :: rs' => '(o, s', rqs) ← run (k r) s rs'; Some (o, s', rq :: rqs)
      end
  | Yield k => run k s rs
  end.

(** Where a command stops when it runs up to its next [await]. *)
Inductive stop (S A : Type) :=
| Finished (o : outcome A)
| Awaiting (rq : fetch_request) (k : outcome response → cmd S A)
| Yielded (k : cmd S A).
Arguments Finished {S A} o.
Arguments Awaiting {S A} rq k.
Arguments Yielded {S A} k.

Fixpoint advance {S A} (c : cmd S A) (s : S) : S * stop S A :=
  match c with
  | Ret a => (s, Finished (Ok a))
  | Raise e => (s, Finished (Throw e))
  | Read k => advance (k s) s
  | Write f k => advance k (f s)
  | Fetch rq k => (s, Awaiting rq k)
  | Yield k => (s, Yielded k)
  end.

(** ** Running applications

    The state, and the commands that await something. *)
Record world (S : Type) := mkWorld { state : S; tasks : list (stop S unit) }.
Arguments mkWorld {S} state tasks.
Arguments state {S} w : rename.
Arguments tasks {S} w : rename.

(** Run a command up to its next [await]. *)
Definition start {S} (c : cmd S unit) (w : world S) : world S :=
  let '(st', s) := advance c (state w) in
  mkWorld st' match s with Finished _ => tasks w | _ => tasks w ++ [s] end.

Definition remove_at {A} (i : nat) (l : list A) : list A := take i l ++ drop (S i) l.

(** A command on a part of the state. *)
Fixpoint zoom {S T A} (part : S → T) (upd : (T → T) → S → S) (c : cmd T A) : cmd S A :=
  match c with
  | Ret a => Ret a
  | Raise e => Raise e
  | Read k => Read (λ s, zoom part upd (k (part s)))
  | Write f k => Write (upd f) (zoom part upd k)
  | Fetch rq k => Fetch rq (λ r, zoom part upd (k r))
  | Yield k => Yield (zoom part upd k)
  end.

(** ** Facts *)

Section facts.
Context {S A : Type}.

(** A command wrapped in a handler that never raises does not reject. *)
Fixpoint never_raises (c : cmd S A) : Prop :=
  match c with
  | Ret _ => True
  | Raise _ => False
  | Read k => ∀ s, never_raises (k s)
  | Write _ k => never_raises k
  | Fetch _ k => ∀ r, never_raises (k r)
  | Yield k => never_raises k
  end.

Lemma never_raises_catch (c : cmd S A) h :
  (∀ e, never_raises (h e)) → never_raises (catch c h).
Proof. intros Hh. induction c; simpl; auto. Qed.

Lemma run_never_raises (c : cmd S A) s rs o s' rqs :
  never_raises c → run c s rs = Some (o, s', rqs) → is_ok o = true.
Proof.
  revert s rs rqs. induction c as [a|e|k IH|f k IH|rq k IH|k IH]; simpl; intros s rs rqs Hn;
    try (by intros [= <- <- <-]); eauto; try done.
  destruct rs as [|r rs]; [done|].
  destruct (run (k r) s rs) as [[[o' s''] rqs']|] eqn:E; [|done].
  intros [= <- <- <-]. by eapply IH.
Qed.
End facts.

Lemma never_raises_bind {S A B} (c : cmd S A) (f : A → cmd S B) :
  never_raises c → (∀ a, never_raises (f a)) → never_raises (c ≫= f).
Proof. intros Hc Hf. induction c; cbn in *; naive_solver. Qed.

Lemma never_raises_lift {S A B} (m : outcome A) (f : A → cmd S B) :
  is_ok m = true → (∀ a, never_raises (f a)) → never_raises (lift m ≫= f).
Proof. intros Hm Hf. destruct m; [apply Hf|done]. Qed.

(** The result and the final state of a command that runs alone. *)
Definition eval {S A} (c : cmd S A) (s : S) (rs : list (outcome response)) :
    option (outcome A * S) := fst <$> run c s rs.

Lemma eval_ret {S A} (a : A) (s : S) rs : eval (Ret a) s rs = Some (Ok a, s).
Proof. done. Qed.

Lemma eval_read {S A} (k : S → cmd S A) s rs : eval (Read k) s rs = eval (k s) s rs.
Proof. done. Qed.

Lemma eval_write {S A} (f : S → S) (c : cmd S A) s rs : eval (Write f c) s rs = eval c (f s) rs.
Proof. done. Qed.

Lemma eval_yield {S A} (c : cmd S A) s rs : eval (Yield c) s rs = eval c s rs.
Proof. done. Qed.

Lemma eval_fetch {S A} rq (k : outcome response → cmd S A) s r rs :
  eval (Fetch rq k) s (r :: rs) = eval (k r) s rs.
Proof. unfold eval. simpl. by destruct (run (k r) s rs) as [[[o s'] rqs]|]. Qed.

(** A command that ends without a request does so whatever the responses. *)
Lemma run_nil {S A} (c : cmd S A) s rs o s' :
  run c s [] = Some (o, s', []) → run c s rs = Some (o, s', []).
Proof. revert s. induction c; cbn; intros s; auto; done. Qed.

Lemma run_bind_last {S A B} (c : cmd S A) (f : A → cmd S B) s rs a s' o s'' rqs :
  run c s rs = Some (Ok a, s', rqs) → run (f a) s' [] = Some (o, s'', []) →
  run (c ≫= f) s rs = Some (o, s'', rqs).
Proof.
  intros Hc Hf. revert s rs rqs Hc. unfold mbind, cmd_bind.
  induction c as [x|e|k IH|g c IH|rq k IH|c IH]; cbn; intros s rs rqs Hc; auto.
  - injection Hc as -> -> <-. by apply run_nil.
  - done.
  - destruct rs as [|r rs]; [done|].
    destruct (run (k r) s rs) as [[[o2 s2] rqs2]|] eqn:E; [|done].
    injection Hc as -> -> <-. by rewrite (IH r _ _ _ E).
Qed.

Lemma eval_bind_last {S A B} (c : cmd S A) (f : A → cmd S B) s rs a s' o s'' :
  eval c s rs = Some (Ok a, s') → run (f a) s' [] = Some (o, s'', []) →
  eval (c ≫= f) s rs = Some (o, s'').
Proof.
  unfold eval. intros Hc Hf. apply fmap_Some in Hc as ([[o1 s1] rqs] & Hc & E).
  simplify_eq/=. by erewrite run_bind_last.
Qed.

(** A command on a part of the state, run alone. *)
Lemma eval_zoom {S T A} (part : S → T) (upd : (T → T) → S → S) (c : cmd T A) s rs o t :
  (∀ f s, part (upd f s) = f (part s)) →
  (∀ f g s, upd g (upd f s) = upd (λ t, g (f t)) s) → (∀ s, upd (λ t, t) s = s) →
  (∀ f g s, f (part s) = g (part s) → upd f s = upd g s) →
  eval c (part s) rs = Some (o, t) → eval (zoom part upd c) s rs = Some (o, upd (λ _, t) s).
Proof.
  intros Hp Hu Hi He. unfold eval. intros Hc. apply fmap_Some in Hc as ([[o1 t1] rqs] & Hc & E).
  simplify_eq/=.
  enough (run (zoom part upd c) s rs = Some (o1, upd (λ _, t1) s, rqs)) as -> by done.
  revert s rs rqs Hc.
  induction c as [x|e|k IH|g c IH|rq k IH|c IH]; cbn; intros s rs rqs Hc; auto.
  - injection Hc as -> <- <-. rewrite (He _ (λ t, t)) by done. by rewrite Hi.
  - injection Hc as -> <- <-. rewrite (He _ (λ t, t)) by done. by rewrite Hi.
  - rewrite <- Hp in Hc. rewrite (IH _ _ _ Hc). by rewrite Hu.
  - destruct rs as [|r rs]; [done|].
    destruct (run (k r) (part s) rs) as [[[o2 s2] rqs2]|] eqn:E; [|done].
    injection Hc as -> -> <-. by rewrite (IH r _ _ _ E).
Qed.

(** The requests of a command, whatever the responses. *)
Fixpoint requests_only {S A} (P : fetch_request → Prop) (c : cmd S A) : Prop :=
  match c with
  | Ret _ | Raise _ => True
  | Read k => ∀ s, requests_only P (k s)
  | Write _ k => requests_only P k
  | Fetch rq k => P rq ∧ ∀ r, requests_only P (k r)
  | Yield k => requests_only P k
  end.

(** At most [n] requests that satisfy [q], whatever the responses. *)
Fixpoint at_most {S A} (q : fetch_request → bool) (n : nat) (c : cmd S A) : Prop :=
  match c with
  | Ret _ | Raise _ => True
  | Read k => ∀ s, at_most q n (k s)
  | Write _ k => at_most q n k
  | Fetch rq k =>
      if q rq then match n with O => False | S m => ∀ r, at_most q m (k r) end
      else ∀ r, at_most q n (k r)
  | Yield k => at_most q n k
  end.

Section requests.
Context {S : Type}.

Lemma requests_only_bind {A B} P (c : cmd S A) (f : A → cmd S B) :
  requests_only P c → (∀ a, requests_only P (f a)) → requests_only P (c ≫= f).
Proof. intros Hc Hf. induction c; cbn in *; naive_solver. Qed.

Lemma requests_only_lift {A B} P (m : outcome A) (f : A → cmd S B) :
  (∀ a, m = Ok a → requests_only P (f a)) → requests_only P (lift m ≫= f).
Proof. intros Hf. destruct m; cbn; eauto. Qed.

Lemma requests_only_catch {A} P (c : cmd S A) h :
  requests_only P c → (∀ e, requests_only P (h e)) → requests_only P (catch c h).
Proof. intros Hc Hh. induction c; cbn in *; naive_solver. Qed.

Lemma requests_only_finally {A} P (c : cmd S A) f :
  requests_only P c → requests_only P (finally c f).
Proof. intros Hc. induction c; cbn in *; naive_solver. Qed.

Lemma requests_only_impl {A} (P Q : fetch_request → Prop) (c : cmd S A) :
  (∀ rq, P rq → Q rq) → requests_only P c → requests_only Q c.
Proof. intros Hpq Hc. induction c; cbn in *; naive_solver. Qed.

Lemma at_most_0 {A} q (c : cmd S A) : requests_only (λ rq, q rq = false) c ↔ at_most q 0 c.
Proof.
  induction c as [a|e|k IH|f k IH|rq k IH|k IH]; cbn; try done.
  - by setoid_rewrite IH.
  - destruct (q rq); setoid_rewrite IH; naive_solver.
Qed.

Lemma at_most_mono {A} q n m (c : cmd S A) : (n ≤ m)%nat → at_most q n c → at_most q m c.
Proof.
  revert n m. induction c as [a|e|k IH|f k IH|rq k IH|k IH]; cbn; intros n m Hle; eauto.
  destruct (q rq); [|eauto]. destruct n as [|n]; [done|]. destruct m as [|m]; [lia|].
  intros Hk r. eapply IH; [|apply Hk]. lia.
Qed.

Lemma at_most_bind {A B} q n m (c : cmd S A) (f : A → cmd S B) :
  at_most q n c → (∀ a, at_most q m (f a)) → at_most q (n + m) (c ≫= f).
Proof.
  intros Hc Hf. revert n Hc.
  induction c as [a|e|k IH|g k IH|rq k IH|k IH]; cbn; intros n Hc; eauto.
  - eapply at_most_mono; [|apply Hf]. lia.
  - destruct (q rq); [|eauto]. destruct n as [|n]; [done|]. cbn. eauto.
Qed.

Lemma at_most_catch {A} q n (c : cmd S A) h :
  at_most q n c → (∀ e, at_most q 0 (h e)) → at_most q n (catch c h).
Proof.
  intros Hc Hh. revert n Hc.
  induction c as [a|e|k IH|g k IH|rq k IH|k IH]; cbn; intros n Hc; eauto.
  - eapply at_most_mono; [|apply Hh]. lia.
  - destruct (q rq); [|eauto]. destruct n as [|n]; [done|]. eauto.
Qed.

Lemma at_most_finally {A} q n (c : cmd S A) f : at_most q n c → at_most q n (finally c f).
Proof.
  revert n. induction c as [a|e|k IH|g k IH|rq k IH|k IH]; cbn; intros n Hc; eauto.
  destruct (q rq); [|eauto]. destruct n as [|n]; [done|]. eauto.
Qed.

Lemma at_most_lift {A} q n (m : outcome A) : at_most q n (lift m : cmd S A).
Proof. by destruct m. Qed.
End requests.

(** ** Running up to the next suspension *)

Lemma advance_bind {S A B} (c : cmd S A) (f : A → cmd S B) s :
  advance (c ≫= f) s =
  match advance c s with
  | (s', Finished (Ok a)) => advance (f a) s'
  | (s', Finished (Throw e)) => (s', Finished (Throw e))
  | (s', Awaiting rq k) => (s', Awaiting rq (λ r, k r ≫= f))
  | (s', Yielded k) => (s', Yielded (k ≫= f))
  end.
Proof. revert s. induction c; intros s; cbn; auto. Qed.

Lemma advance_catch {S A} (c : cmd S A) h s :
  advance (catch c h) s =
  match advance c s with
  | (s', Finished (Ok a)) => (s', Finished (Ok a))
  | (s', Finished (Throw e)) => advance (h e) s'
  | (s', Awaiting rq k) => (s', Awaiting rq (λ r, catch (k r) h))
  | (s', Yielded k) => (s', Yielded (catch k h))
  end.
Proof. revert s. induction c; intros s; cbn; auto. Qed.

Lemma advance_finally {S A} (c : cmd S A) f s :
  advance (finally c f) s =
  match advance c s with
  | (s', Finished o) => (f s', Finished o)
  | (s', Awaiting rq k) => (s', Awaiting rq (λ r, finally (k r) f))
  | (s', Yielded k) => (s', Yielded (finally k f))
  end.
Proof. revert s. induction c; intros s; cbn; auto. Qed.

(** ** Running to the end *)

Lemma run_finally {S A} (c : cmd S A) f s rs :
  run (finally c f) s rs = '(o, s', rqs) ← run c s rs; Some (o, f s', rqs).
Proof.
  revert s rs. induction c as [a|e|k IH|g k IH|rq k IH|k IH]; cbn; intros s rs; auto.
  destruct rs as [|r rs]; [done|]. rewrite IH. by destruct (run (k r) s rs) as [[[o s'] rqs]|].
Qed.

Lemma run_bind_throw {S A B} (c : cmd S A) (f : A → cmd S B) s rs e s' rqs :
  run c s rs = Some (Throw e, s', rqs) → run (c ≫= f) s rs = Some (Throw e, s', rqs).
Proof.
  revert s rs rqs. induction c as [a|e'|k IH|g k IH|rq k IH|k IH]; cbn; intros s rs rqs Hr; eauto.
  - done.
  - by injection Hr as -> -> <-.
  - destruct rs as [|r rs]; [done|]. destruct (run (k r) s rs) as [[[o s1] rqs1]|] eqn:E; [|done].
    injection Hr as -> -> <-. by rewrite (IH r s rs _ E).
Qed.

Lemma run_catch_write {S} (c : cmd S unit) h s rs e s' rqs :
  run c s rs = Some (Throw e, s', rqs) →
  run (catch c (λ e, write (h e))) s rs = Some (Ok tt, h e s', rqs).
Proof.
  revert s rs rqs. induction c as [a|e'|k IH|g k IH|rq k IH|k IH]; cbn; intros s rs rqs Hr; eauto.
  - done.
  - by injection Hr as -> -> <-.
  - destruct rs as [|r rs]; [done|]. destruct (run (k r) s rs) as [[[o s1] rqs1]|] eqn:E; [|done].
    injection Hr as -> -> <-. by rewrite (IH r s rs _ E).
Qed.

Lemma run_total {S A} n (c : cmd S A) s rs :
  at_most (λ _, true) n c → (n ≤ length rs)%nat → is_Some (run c s rs).
Proof.
  revert n s rs. induction c as [a|e|k IH|g k IH|rq k IH|k IH]; cbn; intros n s rs Hc Hn; eauto.
  destruct n as [|n]; [done|]. destruct rs as [|r rs]; cbn in Hn; [lia|].
  destruct (IH r n s rs (Hc r) ltac:(lia)) as [[[o s'] rqs] ->]. by eexists.
Qed.

Lemma run_requests {S A} n (c : cmd S A) s rs o s' rqs :
  at_most (λ _, true) n c → run c s rs = Some (o, s', rqs) → (length rqs ≤ n)%nat.
Proof.
  revert n s rs rqs. induction c as [a|e|k IH|g k IH|rq k IH|k IH]; cbn; intros n s rs rqs Hc Hr; eauto.
  - injection Hr as _ _ <-. cbn. lia.
  - injection Hr as _ _ <-. cbn. lia.
  - destruct n as [|n]; [done|]. destruct rs as [|r rs]; [done|].
    destruct (run (k r) s rs) as [[[o1 s1] rqs1]|] eqn:E; [|done]. injection Hr as -> -> <-. cbn.
    apply le_n_S. eapply IH; [apply Hc|exact E].
Qed.

(** ** Invariants of the state

    What a command does when the responses to its requests satisfy [T]: every write
    preserves [I], and what it returns satisfies [Q]. *)
Section invariants.
Context {S : Type} (T : fetch_request → outcome response → Prop) (I : S → Prop).

Fixpoint ensures {A} (Q : A → Prop) (c : cmd S A) : Prop :=
  match c with
  | Ret a => Q a
  | Raise _ => True
  | Read k => ∀ s, I s → ensures Q (k s)
  | Write f k => (∀ s, I s → I (f s)) ∧ ensures Q k
  | Fetch rq k => ∀ r, T rq r → ensures Q (k r)
  | Yield k => ensures Q k
  end.

Definition preserves {A} (c : cmd S A) : Prop := ensures (λ _, True) c.

Definition stop_preserves {A} (st : stop S A) : Prop :=
  match st with
  | Finished _ => True
  | Awaiting rq k => ∀ r, T rq r → preserves (k r)
  | Yielded k => preserves k
  end.

Lemma ensures_bind {A B} Q R (c : cmd S A) (f : A → cmd S B) :
  ensures Q c → (∀ a, Q a → ensures R (f a)) → ensures R (c ≫= f).
Proof. intros Hc Hf. induction c; cbn in *; naive_solver. Qed.

Lemma ensures_weaken {A} (Q R : A → Prop) (c : cmd S A) :
  (∀ a, Q a → R a) → ensures Q c → ensures R c.
Proof. intros HQ Hc. induction c; cbn in *; naive_solver. Qed.

Lemma ensures_lift {A B} R (m : outcome A) (f : A → cmd S B) :
  (∀ a, m = Ok a → ensures R (f a)) → ensures R (lift m ≫= f).
Proof. intros Hf. destruct m; cbn; eauto. Qed.

Lemma ensures_catch {A} Q (c : cmd S A) h :
  ensures Q c → (∀ e, ensures Q (h e)) → ensures Q (catch c h).
Proof. intros Hc Hh. induction c; cbn in *; naive_solver. Qed.

Lemma ensures_finally {A} Q (c : cmd S A) f :
  ensures Q c → (∀ s, I s → I (f s)) → ensures Q (finally c f).
Proof. intros Hc Hf. induction c; cbn in *; naive_solver. Qed.

Lemma ensures_preserves {A} Q (c : cmd S A) : ensures Q c → preserves c.
Proof. intros Hc. unfold preserves. induction c; cbn in *; naive_solver. Qed.

Lemma preserves_bind {A B} (c : cmd S A) (f : A → cmd S B) :
  preserves c → (∀ a, preserves (f a)) → preserves (c ≫= f).
Proof. intros Hc Hf. eapply ensures_bind; [exact Hc|]. intros a _. apply Hf. Qed.

Lemma preserves_lift {A B} (m : outcome A) (f : A → cmd S B) :
  (∀ a, m = Ok a → preserves (f a)) → preserves (lift m ≫= f).
Proof. apply ensures_lift. Qed.

Lemma preserves_catch {A} (c : cmd S A) h :
  preserves c → (∀ e, preserves (h e)) → preserves (catch c h).
Proof. apply ensures_catch. Qed.

Lemma preserves_finally {A} (c : cmd S A) f :
  preserves c → (∀ s, I s → I (f s)) → preserves (finally c f).
Proof. apply ensures_finally. Qed.

Lemma preserves_write f : (∀ s, I s → I (f s)) → preserves (write f).
Proof. by split. Qed.

Lemma advance_preserves {A} (c : cmd S A) s :
  preserves c → I s → I (advance c s).1 ∧ stop_preserves (advance c s).2.
Proof.
  unfold preserves. revert s.
  induction c as [a|e|k IH|f k IH|rq k IH|k IH]; cbn; intros s Hc Hs; auto.
  destruct Hc as [Hf Hk]. apply IH; auto.
Qed.

Lemma run_ensures {A} Q (c : cmd S A) s rs o s' rqs :
  (∀ rq r, T rq r) → ensures Q c → I s → run c s rs = Some (o, s', rqs) → I s'.
Proof.
  intros HT. revert s rs rqs.
  induction c as [a|e|k IH|f k IH|rq k IH|k IH]; cbn; intros s rs rqs Hc Hs Hr.
  - by injection Hr as _ <- _.
  - by injection Hr as _ <- _.
  - eauto.
  - destruct Hc as [Hf Hk]. eauto.
  - destruct rs as [|r rs]; [done|]. destruct (run (k r) s rs) as [[[o1 s1] rqs1]|] eqn:E; [|done].
    injection Hr as -> -> _. eauto.
  - eauto.
Qed.

(** A world whose state satisfies [I] and whose tasks preserve it. *)
Definition world_keeps (w : world S) : Prop := I (state w) ∧ Forall stop_preserves (tasks w).

Lemma start_keeps c w : preserves c → world_keeps w → world_keeps (start c w).
Proof.
  intros Hc [Hs Ht]. unfold start. destruct (advance_preserves c (state w) Hc Hs) as [Hs' Hp].
  destruct (advance c (state w)) as [s' st]. split; [done|]. cbn.
  destruct st; [done|apply Forall_app; split; [done|by constructor]..].
Qed.

Lemma remove_keeps i w :
  world_keeps w → world_keeps (mkWorld (state w) (remove_at i (tasks w))).
Proof.
  intros [Hs Ht]. split; [done|]. cbn. unfold remove_at. apply Forall_app. split.
  - by apply Forall_take.
  - by apply Forall_drop.
Qed.

Lemma respond_keeps i rq k r w :
  tasks w !! i = Some (Awaiting rq k) → T rq r → world_keeps w →
  world_keeps (start (k r) (mkWorld (state w) (remove_at i (tasks w)))).
Proof.
  intros Hi Hr Hw. apply start_keeps; [|by apply remove_keeps].
  destruct Hw as [_ Ht]. by apply (Forall_lookup_1 _ _ _ _ Ht Hi).
Qed.

Lemma resume_keeps i k w :
  tasks w !! i = Some (Yielded k) → world_keeps w →
  world_keeps (start k (mkWorld (state w) (remove_at i (tasks w)))).
Proof.
  intros Hi Hw. apply start_keeps; [|by apply remove_keeps].
  destruct Hw as [_ Ht]. by apply (Forall_lookup_1 _ _ _ _ Ht Hi).
Qed.

(** A command without writes. *)
Fixpoint pure_state {A} (c : cmd S A) : Prop :=
  match c with
  | Ret _ | Raise _ => True
  | Read k => ∀ s, pure_state (k s)
  | Write _ _ => False
  | Fetch _ k => ∀ r, pure_state (k r)
  | Yield k => pure_state k
  end.

Lemma pure_preserves {A} (c : cmd S A) : pure_state c → preserves c.
Proof. intros Hc. unfold preserves. induction c; cbn in *; naive_solver. Qed.
End invariants.

(** Responses of servers that may do anything. *)
Definition any_response (rq : fetch_request) (r : outcome response) : Prop := True.
