(* ===== verification/Client.v ===== *)
(** * The node client: [packages/sprax-wallet-core/src/client.ts]

    [SpraxClient] over [fetch]. *)
From S2P Require Import Prelude JsString JsStringFacts JsNumber JsNumberFacts Utf8.
From S2P Require Import JsJson JsJsonFacts Async WalletTypes Transaction.
Import TransactionBuilder.

(** [NETWORKS] *)
Module NETWORKS.
Definition local : NetworkConfig :=
  mkNetworkConfig "local"%js "Local Devnet"%js "sprax-devnet-1"%js
    "http://127.0.0.1:26657"%js 26656 None true.
Definition testnet : NetworkConfig :=
  mkNetworkConfig "testnet"%js "SPRX Public Testnet"%js "sprax-testnet-1"%js
    "https://rpc.testnet.sprax.io"%js 26656 (Some "https://explorer.testnet.sprax.io"%js) true.
Definition mainnet : NetworkConfig :=
  mkNetworkConfig "mainnet"%js "SPRX Mainnet"%js "sprax-1"%js
    "https://rpc.sprax.io"%js 26656 (Some "https://explorer.sprax.io"%js) false.

Definition entries : list (jsstring * NetworkConfig) :=
  [("local"%js, local); ("testnet"%js, testnet); ("mainnet"%js, mainnet)].

(** [NETWORKS[k]] *)
Definition get (k : jsstring) : option NetworkConfig :=
  '(_, e) ← list_find (λ e, e.1 = k) entries; Some e.2.
End NETWORKS.

(** The JSON form of a signed transaction. *)
Definition TxMessage_json (m : TxMessage) : jsval :=
  JObj [("type"%js, JStr (msg_type m)); ("to"%js, JStr (msg_to m));
        ("amount"%js, JStr (msg_amount m))].

Definition SignedTransaction_json (tx : SignedTransaction) : jsval :=
  let b := stx_body tx in
  JObj [("body"%js,
         JObj [("chainId"%js, JStr (body_chainId b)); ("sender"%js, JStr (body_sender b));
               ("nonce"%js, body_nonce b);
               ("messages"%js, JArr (TxMessage_json <$> body_messages b));
               ("fee"%js, JObj [("amount"%js, JStr (body_fee_amount b));
                                ("gas_limit"%js, JNum (NInt (body_fee_gas_limit b)))]);
               ("memo"%js, JStr (body_memo b));
               ("timeout_height"%js, JNum (NInt (body_timeout_height b)))]);
        ("keyType"%js, JStr (stx_keyType tx));
        ("publicKey"%js, JStr (stx_publicKey tx));
        ("signature"%js, JStr (stx_signature tx))].

Module SpraxClient.

Record SpraxClient := mkSpraxClient { network : NetworkConfig }.

Definition new_SpraxClient (n : option NetworkConfig) : SpraxClient :=
  mkSpraxClient (default NETWORKS.local n).
Definition getNetwork (c : SpraxClient) : NetworkConfig := network c.
Definition setNetwork (n : NetworkConfig) (c : SpraxClient) : SpraxClient := mkSpraxClient n.

(** The balance reported when the node cannot be asked. *)
Definition offline_balance : Balance :=
  mkBalance (JStr "0"%js) "0"%js
    (mkFiatEstimates "0.00"%js "0.00"%js "0.00"%js "0"%js).

Definition fiat_estimates (sprx : num) : FiatEstimates :=
  mkFiatEstimates (toFixed (num_mul sprx (lit 45 (-1))) 2)
    (toFixed (num_mul sprx (NInt 375)) 2) (toFixed (num_mul sprx (lit 415 (-2))) 2)
    (toFixed (num_mul sprx (NInt 650)) 0).

Section client.
Context {S : Type}.

Definition getBalance (c : SpraxClient) (address : jsstring) : cmd S Balance :=
  catch
    (resp ← fetch (get_request (net_rpcUrl (network c) ++ "/accounts/"%js ++ address
                                ++ "/balance"%js));
     if negb (rs_ok resp) then
       throw_error ("HTTP "%js ++ Z_to_string (rs_status resp) ++ ": "%js ++ rs_statusText resp)
     else
       data ← json resp;
       balance ← lift (get_prop data "balance_atto"%js);
       let attoStr := js_or balance (JStr "0"%js) in
       atto ← lift (BigInt_of attoStr);
       let sprxStr := attoToSprx atto in
       let sprxFloat := parseFloat sprxStr in
       Ret (mkBalance attoStr sprxStr (fiat_estimates sprxFloat)))
    (λ _, Ret offline_balance).

Definition getAccountNonce (c : SpraxClient) (address : jsstring) : cmd S jsval :=
  catch
    (resp ← fetch (get_request (net_rpcUrl (network c) ++ "/accounts/"%js ++ address
                                ++ "/nonce"%js));
     if negb (rs_ok resp) then Ret (JNum (NInt 0))
     else
       data ← json resp;
       nonce ← lift (get_prop data "nonce"%js);
       Ret (js_or nonce (JNum (NInt 0))))
    (λ _, Ret (JNum (NInt 0))).

Definition broadcastTransaction (c : SpraxClient) (signedTx : SignedTransaction) :
    cmd S jsval :=
  resp ← fetch (mkRequest (net_rpcUrl (network c) ++ "/txs/broadcast"%js) "POST"%js
                  [("Content-Type"%js, "application/json"%js)]
                  (JSON_stringify (SignedTransaction_json signedTx)));
  if negb (rs_ok resp) then
    errText ← text resp;
    throw_error ("Transaction broadcast failed: "%js ++ errText)
  else
    data ← json resp;
    lift (get_prop data "tx_hash"%js).

Definition getTransactionReceipt (c : SpraxClient) (txHash : jsstring) :
    cmd S (option TxReceipt) :=
  catch
    (resp ← fetch (get_request (net_rpcUrl (network c) ++ "/txs/"%js ++ txHash));
     if negb (rs_ok resp) then Ret None
     else
       data ← json resp;
       hash ← lift (get_prop data "hash"%js);
       height ← lift (get_prop data "height"%js);
       receipt ← lift (get_prop data "receipt"%js);
       success ← lift (get_prop_opt receipt "success"%js);
       gas_used ← lift (get_prop_opt receipt "gas_used"%js);
       logs ← lift (get_prop_opt receipt "logs"%js);
       Ret (Some (mkTxReceipt hash height (js_nullish success (JBool true))
                    (js_nullish gas_used (JNum (NInt 21000))) (js_nullish logs (JArr [])))))
    (λ _, Ret None).
End client.
End SpraxClient.
Import SpraxClient.

(** ** Theorems *)

Section client_facts.
Context {S : Type}.

(** The client keeps no state of its own besides the network. *)
Lemma getBalance_pure c a : pure_state (getBalance (S:=S) c a).
Proof.
  intros [r|e]; [|done]. cbn. destruct (rs_ok r); [|done]. cbn.
  destruct (rs_json r) as [d|]; [|done]. cbn. destruct (get_prop d _); [|done]. cbn.
  by destruct (BigInt_of _).
Qed.

Lemma getAccountNonce_pure c a : pure_state (getAccountNonce (S:=S) c a).
Proof.
  intros [r|e]; [|done]. cbn. destruct (rs_ok r); [|done]. cbn.
  destruct (rs_json r) as [d|]; [|done]. cbn. by destruct (get_prop d _).
Qed.

Lemma broadcastTransaction_pure c tx : pure_state (broadcastTransaction (S:=S) c tx).
Proof.
  intros [r|e]; [|done]. cbn. destruct (rs_ok r); cbn; [|by destruct (rs_text r)].
  destruct (rs_json r) as [d|]; [|done]. cbn. by destruct (get_prop d _).
Qed.

(** The queries of the client never reject, whatever the node answers: a
    failing node shows as an empty balance, nonce 0 and no receipt. *)
Lemma queries_never_raise (c : SpraxClient) (a : jsstring) :
  never_raises (getBalance c a : cmd S _) ∧ never_raises (getAccountNonce c a : cmd S _)
  ∧ never_raises (getTransactionReceipt c a : cmd S _).
Proof. split_and!; by apply never_raises_catch. Qed.


(** An unreachable node is not told apart from an account without
    transactions or funds: the nonce is 0 and the balance empty. *)
Lemma offline_is_zero (c : SpraxClient) (a : jsstring) (s : S) (e : jserr) :
  (∃ rqs, run (getAccountNonce c a) s [Throw e] = Some (Ok (JNum (NInt 0)), s, rqs))
  ∧ (∃ rqs, run (getBalance c a) s [Throw e] = Some (Ok offline_balance, s, rqs)).
Proof. split; eexists; reflexivity. Qed.

(** [broadcastTransaction] makes one request, a POST of the transaction's
    JSON; a response outside 200-299 raises its text, any other resolves to its
    [tx_hash]. *)
Lemma broadcast_once (c : SpraxClient) (tx : SignedTransaction) (s : S) (r : response) :
  run (broadcastTransaction c tx) s [Ok r]
  = Some (if rs_ok r then data ← rs_json r; get_prop data "tx_hash"%js
          else t ← rs_text r; throw ("Transaction broadcast failed: "%js ++ t),
          s,
          [mkRequest (net_rpcUrl (network c) ++ "/txs/broadcast"%js) "POST"%js
             [("Content-Type"%js, "application/json"%js)]
             (Some (json_ser (SignedTransaction_json tx)))]).
Proof.
  unfold broadcastTransaction. simpl. destruct (rs_ok r); simpl.
  - destruct (rs_json r) as [d|]; [|done]. simpl. by destruct (get_prop d _).
  - by destruct (rs_text r).
Qed.
End client_facts.

