(* ===== verification/Formatters.v ===== *)
(** * Explorer formatters: [apps/explorer-ui/src/utils/formatters.ts]

    What depends on the host (the current time, its locale and time zone, the
    logarithm of its mathematics library) is the parameter [Host]. *)
From S2P Require Import Prelude JsString JsStringFacts JsNumber JsNumberFacts JsJson Bytes.

Class Host := {
  math_log : num → num;
  (** [new Date(t).toLocaleString("en-US", ...)] with a time zone name *)
  date_toLocaleString : num → jsstring;
  (** [new Date(v).getTime()] *)
  date_parse : jsval → num;
  (** [n.toLocaleString(undefined, { minimumFractionDigits, maximumFractionDigits })] *)
  host_toLocaleString : num → nat → nat → jsstring;
}.

(** A host with an invariant locale. *)
Definition plain_host : Host := {|
  math_log n := n;
  date_toLocaleString := num_to_string;
  date_parse := to_number;
  host_toLocaleString := toLocaleString;
|}.

Module Formatters.

Inductive Currency := USD | INR | EUR | GBP | JPY.

Record FiatRate := mkFiatRate { symbol : jsstring; prefix : jsstring; rate : num }.

Definition FIAT_RATES (c : Currency) : FiatRate :=
  match c with
  | USD => mkFiatRate "USD"%js "$"%js (lit 125 (-2))
  | INR => mkFiatRate "INR"%js "₹"%js (lit 10450 (-2))
  | EUR => mkFiatRate "EUR"%js "€"%js (lit 115 (-2))
  | GBP => mkFiatRate "GBP"%js "£"%js (lit 98 (-2))
  | JPY => mkFiatRate "JPY"%js "¥"%js (NInt 195)
  end.

Definition truncate (h : jsstring) (start end_ : Z) : jsstring :=
  if (Z.of_nat (length h) <=? start + end_ + 3)%Z then h
  else slice h 0 start ++ "..."%js ++ slice_from h (- end_).

(** The same for any value: arrays have the properties that strings are used for. *)
Definition truncate_value (name : jsstring) (v : jsval) (start end_ : Z) : outcome jsval :=
  if negb (truthy v) then Ok (JStr [])
  else
    match v with
    | JStr h => Ok (JStr (truncate h start end_))
    | JArr l =>
        Ok (if (Z.of_nat (length l) <=? start + end_ + 3)%Z then v
            else JStr (to_string (JArr (slice l 0 start)) ++ "..."%js
                       ++ to_string (JArr (slice_from l (- end_)))))
    | _ => type_error (name ++ ".slice is not a function"%js)
    end.

Definition truncateHash (hash : jsval) (start end_ : Z) : outcome jsval :=
  truncate_value "hash"%js hash start end_.
Definition truncateAddress (address : jsval) (start end_ : Z) : outcome jsval :=
  truncate_value "address"%js address start end_.

(** [string | number | undefined | null] *)
Inductive Amount := Missing | AString (s : jsstring) | ANumber (n : num).

(** What is neither a string nor missing is converted to a number. *)
Definition amount_of (v : jsval) : Amount :=
  match v with
  | JUndef | JNull => Missing
  | JStr s => AString s
  | _ => ANumber (to_number v)
  end.

Definition remove_commas (s : jsstring) : jsstring := filter (λ c, c ≠ 44%N) s.

Definition formatAmount (val : Amount) (maxDecimals : nat) : jsstring :=
  match val with
  | Missing | AString [] => "0"%js
  | AString s =>
      let num := parseFloat (remove_commas s) in
      if isNaN num then s else toLocaleString num 0 maxDecimals
  | ANumber n => if isNaN n then num_to_string n else toLocaleString n 0 maxDecimals
  end.

(** [s.replace(/ SPRX/i, "")]: the first occurrence, in any case. *)
Fixpoint remove_sprx (s : jsstring) : jsstring :=
  if startsWith (ascii_upper <$> s) " SPRX"%js then drop 5 s
  else match s with [] => [] | c :: s' => c :: remove_sprx s' end.

(** [FIAT_RATES[currency] || FIAT_RATES.USD] for whatever string was stored. *)
Definition Currency_of (s : jsstring) : Currency :=
  if bool_decide (s = "INR"%js) then INR else if bool_decide (s = "EUR"%js) then EUR
  else if bool_decide (s = "GBP"%js) then GBP else if bool_decide (s = "JPY"%js) then JPY else USD.

Definition formatFiat (sprxAmount : Amount) (currency : Currency) : jsstring :=
  let go (num : num) :=
    if isNaN num then "-"%js
    else
      let rateConfig := FIAT_RATES currency in
      prefix rateConfig ++ toLocaleString (num_mul num (rate rateConfig)) 2 2 in
  match sprxAmount with
  | Missing | AString [] => "-"%js
  | AString s => go (parseFloat (remove_sprx (remove_commas s)))
  | ANumber n => go n
  end.

(** [Math.floor(n)] as an integer; [None] for NaN and infinities. *)
Definition floor (n : num) : option Z :=
  '(sg, p, q) ← num_magnitude n;
  Some ((if sg : bool then - Z.of_N p else Z.of_N p) / Z.of_N q)%Z.

Definition num_floor (n : num) : num := from_option num_of_Z n (floor n).

Definition formatTimestamp `{Host} (unixSecs : jsval) : jsstring :=
  if negb (truthy unixSecs) then "-"%js
  else date_toLocaleString (num_mul (to_number unixSecs) (NInt 1000)).

(** [now] is [Date.now()]. *)
Definition formatTimeAgo (now : Z) (unixSecs : jsval) : jsstring :=
  if negb (truthy unixSecs) then "-"%js
  else
    let nowSecs := num_of_Z (now / 1000) in
    let diffSecs := num_max (NInt 0) (num_sub nowSecs (to_number unixSecs)) in
    if num_ltb diffSecs (NInt 5) then "just now"%js
    else if num_ltb diffSecs (NInt 60) then num_to_string diffSecs ++ "s ago"%js
    else
      let mins := num_floor (num_div diffSecs (NInt 60)) in
      if num_ltb mins (NInt 60) then num_to_string mins ++ "m ago"%js
      else
        let hours := num_floor (num_div mins (NInt 60)) in
        if num_ltb hours (NInt 24) then num_to_string hours ++ "h ago"%js
        else
          let days := num_floor (num_div hours (NInt 24)) in
          num_to_string days ++ "d ago"%js.

Definition sizes : list jsstring := ["B"%js; "KB"%js; "MB"%js; "GB"%js].

Definition formatBytes `{Host} (bytes : jsval) : jsstring :=
  if strict_eq bytes (JNum (NInt 0)) then "0 B"%js
  else
    let n := to_number bytes in
    let i := floor (num_div (math_log n) (math_log (NInt 1024))) in
    let pow := match i with
      | Some i => if (0 <=? i)%Z then num_of_Z (1024 ^ i) else num_div (NInt 1) (num_of_Z (1024 ^ (- i)))
      | None => NaN end in
    let size := match i with
      | Some i => if (0 <=? i)%Z then default "undefined"%js (sizes !! Z.to_nat i)
                  else "undefined"%js
      | None => "undefined"%js end in
    num_to_string (parseFloat (toFixed (num_div n pow) 2)) ++ " "%js ++ size.

Definition formatNumber (num : option num) : jsstring :=
  match num with None => "0"%js | Some n => toLocaleString n 0 3 end.

Inductive QueryType := QHeight | QTxHash | QBlockHash | QAddress | QValidator | QUnknown.

#[global] Instance QueryType_eq_dec : EqDecision QueryType.
Proof. solve_decision. Defined.

(** [/^\d+$/.test(s)] and [/^[0-9a-fA-F]{n}$/.test(s)] *)
Definition is_decimal (s : jsstring) : bool := negb (bool_decide (s = [])) && forallb is_digit s.
Definition is_hex_of (n : nat) (s : jsstring) : bool := (length s =? n)%nat && forallb is_hex s.

(** [s.startsWith("0x") ? s.slice(2) : s] *)
Definition strip_0x (s : jsstring) : jsstring :=
  if startsWith s "0x"%js then slice_from s 2 else s.

(** [/^0x[0-9a-fA-F]{40}$/.test(s)] *)
Definition is_hex_address (s : jsstring) : bool :=
  startsWith s "0x"%js && is_hex_of 40 (drop 2 s).

Definition parseSearchQuery `{UnicodeCase} (query : jsstring) : QueryType * jsstring :=
  let clean := trim query in
  if bool_decide (clean = []) then (QUnknown, [])
  else if is_decimal clean then (QHeight, clean)
  else if is_hex_of 64 (strip_0x clean) then
    (QTxHash, if startsWith clean "0x"%js then clean else "0x"%js ++ clean)
  else if startsWith (toLowerCase clean) "sprax1"%js && (38 <=? length clean)%nat then
    (QAddress, clean)
  else if is_hex_address clean then (QAddress, clean)
  else if (2 <? length clean)%nat then (QValidator, clean)
  else (QUnknown, clean).

(** [navigator.clipboard.writeText] when present settles as given; otherwise the
    result of [document.execCommand("copy")], which may throw. *)
Definition copyToClipboard (writeText : option (outcome unit)) (execCommand : outcome bool) :
    bool :=
  match writeText with
  | Some (Ok _) => true
  | Some (Throw _) => false
  | None => match execCommand with Ok success => success | Throw _ => false end
  end.
End Formatters.
Import Formatters.

(** ** Theorems *)

(** A shortened hash or address keeps its first [start] and last [end]
    characters, is shorter than the original, and everything else is left as it
    is. *)
Lemma truncate_spec (h : jsstring) (start end_ : nat) :
  (0 < end_)%nat →
  truncate h (Z.of_nat start) (Z.of_nat end_)
  = (if (length h <=? start + end_ + 3)%nat then h
     else take start h ++ "..."%js ++ drop (length h - end_) h)
  ∧ (length (truncate h (Z.of_nat start) (Z.of_nat end_)) ≤ length h)%nat.
Proof.
  intros He. assert (truncate h (Z.of_nat start) (Z.of_nat end_)
    = if (length h <=? start + end_ + 3)%nat then h
      else take start h ++ "..."%js ++ drop (length h - end_) h) as E.
  { unfold truncate. rewrite slice_0, slice_from_neg by done.
    destruct (Nat.leb_spec (length h) (start + end_ + 3)), (Z.leb_spec (Z.of_nat (length h))
      (Z.of_nat start + Z.of_nat end_ + 3)); done || lia. }
  split; [done|]. rewrite E. destruct (Nat.leb_spec (length h) (start + end_ + 3)); [done|].
  rewrite !length_app, length_take, length_drop. simpl. lia.
Qed.

(** A hash of 64 hexadecimal digits, possibly with a prefix. *)
Lemma strip_0x_spec s :
  (startsWith s "0x"%js = true ∧ s = "0x"%js ++ strip_0x s)
  ∨ (startsWith s "0x"%js = false ∧ strip_0x s = s).
Proof.
  unfold strip_0x. destruct (startsWith s "0x"%js) eqn:E; [left|by right].
  split; [done|]. destruct s as [|a [|b s]]; cbn [startsWith] in E;
    [done|by rewrite andb_false_r in E|].
  apply andb_true_iff in E as [<-%N.eqb_eq [<-%N.eqb_eq _]%andb_true_iff].
  by rewrite (slice_from_nat _ 2).
Qed.

Section query.
Context `{U : UnicodeCase}.

(** A query is taken for a transaction hash exactly when its trimmed form is
    64 hexadecimal digits, with or without the prefix, and not a decimal number;
    the value passed on always has the prefix. *)
Lemma parseSearchQuery_hash (q v : jsstring) :
  parseSearchQuery q = (QTxHash, v) ↔
  is_decimal (trim q) = false
  ∧ ∃ hex, is_hex_of 64 hex = true ∧ v = "0x"%js ++ hex
           ∧ (trim q = v ∨ (trim q = hex ∧ startsWith hex "0x"%js = false)).
Proof.
  unfold parseSearchQuery. set (c := trim q).
  destruct (bool_decide (c = [])) eqn:E0.
  { apply bool_decide_eq_true in E0. rewrite E0. split; [done|].
    intros (_ & hex & Hh & -> & [?|[<- _]]); [done|]. done. }
  destruct (is_decimal c) eqn:Ed; [split; [done|by intros [? _]]|].
  destruct (is_hex_of 64 (strip_0x c)) eqn:Eh.
  - destruct (strip_0x_spec c) as [[Hp Hc]|[Hp Hc]]; rewrite Hp; split.
    + intros [= <-]. split; [done|]. exists (strip_0x c). auto.
    + intros (_ & hex & Hh & -> & [H|[H Hn]]); [by rewrite H|]. congruence.
    + intros [= <-]. split; [done|]. exists c. rewrite Hc in Eh. auto.
    + intros (_ & hex & Hh & -> & [H|[H Hn]]); [by rewrite H, startsWith_app in Hp|]. by rewrite H.
  - split.
    + repeat (case_match; try done).
    + intros (_ & hex & Hh & -> & H). exfalso.
      destruct (strip_0x_spec c) as [[Hp Hc]|[Hp Hc]]; destruct H as [H|[H Hn]].
      * rewrite Hc in H. by simplify_list_eq; congruence.
      * congruence.
      * by rewrite H, startsWith_app in Hp.
      * congruence.
Qed.

(** A hash of 64 decimal digits is taken for a block height. *)
Lemma parseSearchQuery_decimal_hash (h : jsstring) :
  is_hex_of 64 h = true → forallb is_digit h = true → parseSearchQuery h = (QHeight, h).
Proof.
  intros Hh Hd. assert (trim h = h) as Ht
    by (by apply trim_digits, forallb_Forall_true).
  unfold parseSearchQuery. rewrite Ht. unfold is_decimal.
  destruct h as [|c h]; [done|]. by rewrite Hd.
Qed.
End query.

