(* ===== verification/View.v ===== *)
(** * Rendered views

    What a component returns: a tree of elements with the attributes that matter
    for behaviour (the values of controls, what is disabled or required, where
    links go) and the event handlers; styling is left out. [E] is the type of
    events of the component. *)
From S2P Require Import Prelude JsString JsNumber.

Inductive handler (E : Type) :=
| OnClick (e : E)
| OnChange (f : jsstring → E)
| OnSubmit (e : E)
| OnKeyDown (f : jsstring → option E)
| OnMouseEnter (e : E)
| OnMouseLeave (e : E)
| StopPropagation.
Arguments OnClick {E} e.
Arguments OnChange {E} f.
Arguments OnSubmit {E} e.
Arguments OnKeyDown {E} f.
Arguments OnMouseEnter {E} e.
Arguments OnMouseLeave {E} e.
Arguments StopPropagation {E}.

#[warnings="-register-all"]
Inductive view (E : Type) :=
| Text (s : jsstring)
| El (tag : jsstring) (attrs : list (jsstring * jsstring)) (on : list (handler E))
     (children : list (view E)).
Arguments Text {E} s.
Arguments El {E} tag attrs on children.

Section views.
Context {E : Type}.

(** [{b && v}] *)
Definition when (b : bool) (v : view E) : list (view E) := if b then [v] else [].

Definition div (children : list (view E)) : view E := El "div"%js [] [] children.
Definition span (children : list (view E)) : view E := El "span"%js [] [] children.
Definition p (children : list (view E)) : view E := El "p"%js [] [] children.
Definition heading (n : jsstring) (s : jsstring) : view E := El n [] [] [Text s].

Definition disabled_attr (b : bool) : list (jsstring * jsstring) :=
  if b then [("disabled"%js, []%N)] else [].

Definition button (disabled : bool) (e : E) (children : list (view E)) : view E :=
  El "button"%js (disabled_attr disabled) [OnClick e] children.

Definition input (attrs : list (jsstring * jsstring)) (value : jsstring) (f : jsstring → E) :
    view E :=
  El "input"%js (attrs ++ [("value"%js, value)]) [OnChange f] [].

Definition option_el (value label : jsstring) : view E :=
  El "option"%js [("value"%js, value)] [] [Text label].

Definition select (value : jsstring) (f : jsstring → E) (options : list (jsstring * jsstring)) :
    view E :=
  El "select"%js [("value"%js, value)] [OnChange f]
    ((λ '(v, l), option_el v l) <$> options).

Definition is_disabled (attrs : list (jsstring * jsstring)) : bool :=
  existsb (λ a, bool_decide (a.1 = "disabled"%js)) attrs.

(** Whether a submit button of the tree is disabled, which blocks the form. *)
Fixpoint submit_disabled (v : view E) : bool :=
  match v with
  | Text _ => false
  | El tag attrs _ children =>
      (bool_decide (tag = "button"%js) && existsb (λ a, bool_decide (a = ("type"%js, "submit"%js))) attrs
       && is_disabled attrs)
      || existsb submit_disabled children
  end.

(** A required control of the tree that is empty, which blocks the form. *)
Fixpoint required_empty (v : view E) : bool :=
  match v with
  | Text _ => false
  | El _ attrs _ children =>
      (existsb (λ a, bool_decide (a.1 = "required"%js)) attrs
       && existsb (λ a, bool_decide (a = ("value"%js, []))) attrs)
      || existsb required_empty children
  end.

(** The values a select offers. *)
Definition option_values (children : list (view E)) : list jsstring :=
  omap (λ c, match c with
             | El _ attrs _ _ =>
                 '(_, a) ← list_find (λ a, a.1 = "value"%js) attrs; Some a.2
             | Text _ => None end) children.

(** ** What the user can do *)

Inductive action :=
| Do (e : E)
| Type_in (f : jsstring → E)
| Choose (f : jsstring → E) (options : list jsstring)
| Press (f : jsstring → option E).

(** The actions of one handler of an element. *)
Definition handler_actions (tag : jsstring) (attrs : list (jsstring * jsstring))
    (children : list (view E)) (h : handler E) : list action :=
  match h with
  | OnClick e => if is_disabled attrs then [] else [Do e]
  | OnChange f =>
      if is_disabled attrs then []
      else if bool_decide (tag = "select"%js) then [Choose f (option_values children)]
      else [Type_in f]
  | OnSubmit e =>
      if existsb submit_disabled children || existsb required_empty children then []
      else [Do e]
  | OnKeyDown f => [Press f]
  | OnMouseEnter e | OnMouseLeave e => [Do e]
  | StopPropagation => []
  end.

Fixpoint actions (v : view E) : list action :=
  match v with
  | Text _ => []
  | El tag attrs on children =>
      flat_map (handler_actions tag attrs children) on ++ flat_map actions children
  end.

Definition gives (a : action) (e : E) : Prop :=
  match a with
  | Do e' => e = e'
  | Type_in f => ∃ x, e = f x
  | Choose f xs => ∃ x, x ∈ xs ∧ e = f x
  | Press f => ∃ k, f k = Some e
  end.

(** The user can cause the event [e] in the view [v]. *)
Definition fires (v : view E) (e : E) : Prop := Exists (λ a, gives a e) (actions v).

(** The text a view shows. *)
Fixpoint text_of (v : view E) : jsstring :=
  match v with
  | Text s => s
  | El _ _ _ children => concat (map text_of children)
  end.
End views.

Arguments action : clear implicits.

(** ** Markup

    A JSX expression without dynamic values is a list of views: conditions and [map]
    give no, one or several of them. *)
Abbreviation html E := (list (view E)).

Section markup.
Context {E : Type}.

Definition htxt (s : jsstring) : html E := [Text s].
Definition hnone : html E := [].
Definition hel (tag : jsstring) (attrs : list (jsstring * jsstring)) (on : list (handler E))
    (l : list (html E)) : html E := [El tag attrs on (concat l)].
Definition hdiv : list (html E) → html E := hel "div"%js [] [].
Definition hspan : list (html E) → html E := hel "span"%js [] [].
Definition hp : list (html E) → html E := hel "p"%js [] [].
Definition hwhen (b : bool) (l : html E) : html E := if b then l else [].
Definition heach {A} (l : list A) (f : A → html E) : html E := concat (f <$> l).
Definition heach_i {A} (l : list A) (f : nat → A → html E) : html E := concat (imap f l).
End markup.

Section map.
Context {E F : Type} (f : E → F).

Definition map_handler (h : handler E) : handler F :=
  match h with
  | OnClick e => OnClick (f e)
  | OnChange g => OnChange (λ x, f (g x))
  | OnSubmit e => OnSubmit (f e)
  | OnKeyDown g => OnKeyDown (λ k, f <$> g k)
  | OnMouseEnter e => OnMouseEnter (f e)
  | OnMouseLeave e => OnMouseLeave (f e)
  | StopPropagation => StopPropagation
  end.

(** A child component's view inside its parent. *)
Fixpoint map_view (v : view E) : view F :=
  match v with
  | Text s => Text s
  | El tag attrs on children => El tag attrs (map_handler <$> on) (map map_view children)
  end.
End map.

(** ** Inverting [fires] *)

Section fires_facts.
Context {E : Type}.
Implicit Types (e : E) (v : view E).

Lemma fires_Text s e : ¬ fires (Text s) e.
Proof. inversion 1. Qed.

Lemma Exists_flat_map {A B} (P : B → Prop) (f : A → list B) l :
  Exists P (flat_map f l) ↔ Exists (λ x, Exists P (f x)) l.
Proof.
  induction l as [|x l IH]; simpl; [split; inversion 1|].
  by rewrite Exists_app, Exists_cons, IH.
Qed.

Lemma fires_El tag attrs on children e :
  fires (El tag attrs on children) e ↔
  Exists (λ h, Exists (λ a, gives a e) (handler_actions tag attrs children h)) on
  ∨ Exists (λ v, fires v e) children.
Proof. unfold fires. cbn [actions]. by rewrite Exists_app, !Exists_flat_map. Qed.
End fires_facts.

Lemma is_disabled_attr b : is_disabled (disabled_attr b) = b.
Proof. by destruct b. Qed.

(** Case analysis on a hypothesis [fires v e] for a concrete view [v]. *)
Ltac fires_inv H :=
  match type of H with
  | fires (Text _) _ => by apply fires_Text in H
  | fires _ _ => apply fires_El in H as [H|H]; fires_inv H
  | Exists _ (_ ++ _) => apply Exists_app in H as [H|H]; fires_inv H
  | Exists _ (_ :: _) => apply Exists_cons in H as [H|H]; fires_inv H
  | Exists _ [] => by apply Exists_nil in H
  | Exists _ (when _ _) => unfold when in H; fires_inv H
  | Exists _ (if ?b then _ else _) =>
      let v := eval vm_compute in b in
      match v with
      | true => change b with true in H; cbv iota in H
      | false => change b with false in H; cbv iota in H
      | _ => destruct b eqn:?
      end; fires_inv H
  | gives _ _ => cbn [gives] in H
  | _ => first [progress cbn [handler_actions fires gives] in H; fires_inv H | idtac]
  end.
