(* ===== verification/Render.v ===== *)
(** * Rendering dynamic values

    The JSX of components that show values of type [any]: a child may be text, an
    element or a value, and reading a property of [undefined] or showing an object
    throws. *)
From stdpp Require Import gmap.
From S2P Require Import Prelude JsString JsNumber JsJson Formatters View.

(** [localStorage] *)
Definition Storage := gmap jsstring jsstring.
Definition getItem (storage : Storage) (k : jsstring) : option jsstring := storage !! k.

(** What a JSX expression evaluates to. *)
Abbreviation jsx E := (outcome (list (view E))).

Section jsx.
Context {E : Type}.

Definition txt (s : jsstring) : jsx E := Ok [Text s].
Definition none : jsx E := Ok [].

(** Children in order: the first that throws ends the render. *)
Fixpoint children (l : list (jsx E)) : jsx E :=
  match l with
  | [] => Ok []
  | r :: l' => vs ← r; ws ← children l'; Ok (vs ++ ws)
  end.

Definition el (tag : jsstring) (attrs : list (jsstring * jsstring)) (on : list (handler E))
    (l : list (jsx E)) : jsx E :=
  cs ← children l; Ok [El tag attrs on cs].

Definition jdiv (l : list (jsx E)) : jsx E := el "div"%js [] [] l.
Definition jspan (l : list (jsx E)) : jsx E := el "span"%js [] [] l.
Definition jp (l : list (jsx E)) : jsx E := el "p"%js [] [] l.
Definition jh (n s : jsstring) : jsx E := el n [] [] [txt s].
Definition jbutton (disabled : bool) (e : E) (l : list (jsx E)) : jsx E :=
  el "button"%js (disabled_attr disabled) [OnClick e] l.
Definition static (v : view E) : jsx E := Ok [v].

(** [{b && child}] for a boolean *)
Definition jwhen (b : bool) (r : jsx E) : jsx E := if b then r else Ok [].

(** [{v}]: a value as a child. *)
Fixpoint child (v : jsval) : jsx E :=
  match v with
  | JUndef | JNull | JBool _ => Ok []
  | JNum n => Ok [Text (num_to_string n)]
  | JStr s => Ok [Text s]
  | JArr l => (fix go l := match l with
                           | [] => Ok []
                           | x :: l' => vs ← child x; ws ← go l'; Ok (vs ++ ws)
                           end) l
  | JObj _ => throw "Objects are not valid as a React child"%js
  end.

(** [{v.k}] *)
Definition show (v : jsval) (k : jsstring) : jsx E := x ← get_prop v k; child x.

(** [{l.map((x, i) => ...)}] for an array, which is all a non-empty value has the
    method of. *)
Definition each_of (l : list jsval) (f : nat → jsval → jsx E) : jsx E := children (imap f l).

(** The same for a list that is written out in the source. *)
Definition jeach {A} (l : list A) (f : A → jsx E) : jsx E := children (f <$> l).
Definition jeach_i {A} (l : list A) (f : nat → A → jsx E) : jsx E := children (imap f l).

Definition map_over (name : jsstring) (v : jsval) (f : nat → jsval → jsx E) : jsx E :=
  match v with
  | JArr l => each_of l f
  | JUndef => type_error "Cannot read properties of undefined (reading 'map')"%js
  | JNull => type_error "Cannot read properties of null (reading 'map')"%js
  | _ => type_error (name ++ ".map is not a function"%js)
  end.
End jsx.

(** A child component's view inside its parent. *)
Definition map_jsx {E F} (f : E → F) (r : jsx E) : jsx F := vs ← r; Ok (map (map_view f) vs).

(** [l.filter(f)], where [f] may throw *)
Fixpoint keep {A} (f : A → outcome bool) (l : list A) : outcome (list A) :=
  match l with
  | [] => Ok []
  | x :: l' => b ← f x; rest ← keep f l'; Ok (if b : bool then x :: rest else rest)
  end.

(** ** Methods of dynamic values *)

(** The array a method of arrays is called on. *)
Definition as_array (v : jsval) (method : jsstring) : outcome (list jsval) :=
  match v with
  | JArr l => Ok l
  | JUndef => type_error ("Cannot read properties of undefined (reading '"%js ++ method ++ "')"%js)
  | JNull => type_error ("Cannot read properties of null (reading '"%js ++ method ++ "')"%js)
  | _ => type_error (method ++ " is not a function"%js)
  end.

(** [v.join(sep)]: missing elements are empty. *)
Definition join_of (v : jsval) (sep : jsstring) : outcome jsstring :=
  l ← as_array v "join"%js;
  Ok (join_with sep ((λ x, if is_nullish x then [] else to_string x) <$> l)).

(** The string a method of strings is called on. *)
Definition as_string (v : jsval) (method : jsstring) : outcome jsstring :=
  match v with
  | JStr s => Ok s
  | JUndef => type_error ("Cannot read properties of undefined (reading '"%js ++ method ++ "')"%js)
  | JNull => type_error ("Cannot read properties of null (reading '"%js ++ method ++ "')"%js)
  | _ => type_error (method ++ " is not a function"%js)
  end.

(** [v.k] as the receiver of a method of strings. *)
Definition string_prop (v : jsval) (k method : jsstring) : outcome jsstring :=
  x ← get_prop v k; as_string x method.

(** [v.toLocaleString()] *)
Fixpoint locale_string `{Host} (v : jsval) : outcome jsstring :=
  match v with
  | JUndef => type_error "Cannot read properties of undefined (reading 'toLocaleString')"%js
  | JNull => type_error "Cannot read properties of null (reading 'toLocaleString')"%js
  | JNum n => Ok (host_toLocaleString n 0 3)
  | JArr l =>
      ss ← (fix go l := match l with
                        | [] => Ok []
                        | x :: l' =>
                            s ← (if is_nullish x then Ok [] else locale_string x);
                            rest ← go l'; Ok (s :: rest)
                        end) l;
      Ok (join_with ","%js ss)
  | _ => Ok (to_string v)
  end.

(** [v.toFixed(d)] *)
Definition to_fixed (v : jsval) (d : nat) : outcome jsstring :=
  match v with
  | JNum n => Ok (toFixed n d)
  | JUndef => type_error "Cannot read properties of undefined (reading 'toFixed')"%js
  | JNull => type_error "Cannot read properties of null (reading 'toFixed')"%js
  | _ => type_error "toFixed is not a function"%js
  end.

(** [v.k.toLocaleString()] and [v.k.toFixed(d)] *)
Definition locale_prop `{Host} (v : jsval) (k : jsstring) : outcome jsstring :=
  x ← get_prop v k; locale_string x.
Definition fixed_prop (v : jsval) (k : jsstring) (d : nat) : outcome jsstring :=
  x ← get_prop v k; to_fixed x d.

(** A dynamic attribute: [undefined], [null] and booleans leave it out. *)
Definition attr_of (k : jsstring) (v : jsval) : list (jsstring * jsstring) :=
  match v with
  | JUndef | JNull | JBool _ => []
  | _ => [(k, to_string v)]
  end.

(** [Object.values(v)] *)
Definition Object_values (v : jsval) : outcome (list jsval) :=
  match v with
  | JUndef | JNull => type_error "Cannot convert undefined or null to object"%js
  | JObj fs => Ok fs.*2
  | JArr l => Ok l
  | JStr s => Ok ((λ c, JStr [c]) <$> s)
  | _ => Ok []
  end.

(** [{ ...v, [k]: x }] *)
Definition own_entries (v : jsval) : list (jsstring * jsval) :=
  match v with
  | JObj fs => fs
  | JArr l => imap (λ i x, (Z_to_string (Z.of_nat i), x)) l
  | JStr s => imap (λ i c, (Z_to_string (Z.of_nat i), JStr [c])) s
  | _ => []
  end.
Definition spread_with (v : jsval) (k : jsstring) (x : jsval) : jsval :=
  JObj (obj_set (own_entries v) k x).

(** ** Rendering that succeeds *)

Lemma children_ok {E} (l : list (jsx E)) :
  Forall (λ r, is_ok r = true) l → is_ok (children l) = true.
Proof.
  induction 1 as [|r l Hr _ IH]; [done|]. cbn. destruct r as [vs|]; [|done]. cbn.
  by destruct (children l).
Qed.

Lemma el_ok {E} tag attrs on (l : list (jsx E)) :
  Forall (λ r, is_ok r = true) l → is_ok (el tag attrs on l) = true.
Proof. intros Hl%children_ok. unfold el. by destruct (children l). Qed.

Lemma jwhen_ok {E} b (r : jsx E) : is_ok r = true → is_ok (jwhen b r) = true.
Proof. by destruct b. Qed.

Lemma bind_ok {A B} (m : outcome A) (f : A → outcome B) :
  is_ok m = true → (∀ a, m = Ok a → is_ok (f a) = true) → is_ok (m ≫= f) = true.
Proof. destruct m; cbn; auto. Qed.

Lemma each_of_ok {E} (l : list jsval) (f : nat → jsval → jsx E) :
  Forall (λ x, ∀ i, is_ok (f i x) = true) l → is_ok (each_of l f) = true.
Proof.
  intros Hl. apply children_ok. unfold each_of. revert f Hl.
  induction l as [|x l IH]; intros f Hl; [constructor|].
  apply Forall_cons in Hl as [Hx Hl]. rewrite imap_cons. constructor; [apply Hx|].
  apply IH. eapply Forall_impl; [done|]. intros y Hy i. apply Hy.
Qed.

Lemma jeach_ok {E A} (l : list A) (f : A → jsx E) :
  (∀ x, is_ok (f x) = true) → is_ok (jeach l f) = true.
Proof. intros Hf. apply children_ok. apply Forall_forall. intros r (x & -> & _)%list_elem_of_fmap. apply Hf. Qed.

Lemma as_string_ok v m : (∃ s, v = JStr s) → is_ok (as_string v m) = true.
Proof. by intros [s ->]. Qed.
