(* ===== verification/Onboarding.v ===== *)
(** * Onboarding: [apps/web-wallet/src/components/WalletOnboarding.tsx]

    Creating or importing a recovery phrase and choosing the vault password. *)
From S2P Require Import Prelude JsString JsStringFacts JsNumber Bytes Crypto View HdWallet.

Module WalletOnboarding.

Inductive Step := Choose_ | Create | Verify | Import_ | Password.

#[global] Instance Step_eq_dec : EqDecision Step.
Proof. solve_decision. Defined.

(** The component's state hooks, with their setters. *)
Record State := mkState {
  step : Step;
  generatedMnemonic : jsstring;
  importInput : jsstring;
  password : jsstring;
  confirmPassword : jsstring;
  verificationIndex : nat;
  verificationInput : jsstring;
  errorMessage : jsstring;
}.
Definition set_step (x : Step) (st : State) : State :=
  mkState x (generatedMnemonic st) (importInput st) (password st) (confirmPassword st)
    (verificationIndex st) (verificationInput st) (errorMessage st).
Definition set_generatedMnemonic (x : jsstring) (st : State) : State :=
  mkState (step st) x (importInput st) (password st) (confirmPassword st)
    (verificationIndex st) (verificationInput st) (errorMessage st).
Definition set_importInput (x : jsstring) (st : State) : State :=
  mkState (step st) (generatedMnemonic st) x (password st) (confirmPassword st)
    (verificationIndex st) (verificationInput st) (errorMessage st).
Definition set_password (x : jsstring) (st : State) : State :=
  mkState (step st) (generatedMnemonic st) (importInput st) x (confirmPassword st)
    (verificationIndex st) (verificationInput st) (errorMessage st).
Definition set_confirmPassword (x : jsstring) (st : State) : State :=
  mkState (step st) (generatedMnemonic st) (importInput st) (password st) x
    (verificationIndex st) (verificationInput st) (errorMessage st).
Definition set_verificationIndex (x : nat) (st : State) : State :=
  mkState (step st) (generatedMnemonic st) (importInput st) (password st)
    (confirmPassword st) x (verificationInput st) (errorMessage st).
Definition set_verificationInput (x : jsstring) (st : State) : State :=
  mkState (step st) (generatedMnemonic st) (importInput st) (password st)
    (confirmPassword st) (verificationIndex st) x (errorMessage st).
Definition set_errorMessage (x : jsstring) (st : State) : State :=
  mkState (step st) (generatedMnemonic st) (importInput st) (password st)
    (confirmPassword st) (verificationIndex st) (verificationInput st) x.

Definition init : State := mkState Choose_ [] [] [] [] 0 [] [].

(** Events of the view. [StartCreate] carries the randomness its handler draws:
    the bytes for the phrase and [Math.floor(Math.random() * 12)]. *)
Inductive Event :=
| StartCreate (random : bytes) (index : nat)
| StartImport
| VerifyStep
| CheckWord
| ImportMnemonic
| CompletePassword
| TypeVerification (s : jsstring)
| TypeImport (s : jsstring)
| TypePassword (s : jsstring)
| TypeConfirm (s : jsstring).

Section onboarding.
Context `{UnicodeCase} `{Bip39}.

Definition handleStartCreate (random : bytes) (index : nat) (st : State) : State :=
  let mnemonic := MnemonicUtil.generate random MnemonicUtil.Words12 in
  set_step Create (set_verificationIndex index (set_generatedMnemonic mnemonic st)).

Definition handleVerifyStep (st : State) : State := set_step Verify st.

Definition handleCheckWord (st : State) : State :=
  let words := split_on 32 (generatedMnemonic st) in
  if negb (bool_decide (Some (toLowerCase (trim (verificationInput st)))
                        = words !! verificationIndex st))
  then set_errorMessage ("Incorrect word for #"%js
         ++ Z_to_string (Z.of_nat (verificationIndex st) + 1)
         ++ ". Please review your backup."%js) st
  else set_step Password (set_errorMessage [] st).

(** The state, and the call to [onVaultCreated] when it is made. *)
Definition handleCompletePassword (st : State) : State * option (jsstring * jsstring) :=
  if (length (password st) <? 8)%nat then
    (set_errorMessage "Password must be at least 8 characters long."%js st, None)
  else if negb (bool_decide (password st = confirmPassword st)) then
    (set_errorMessage "Passwords do not match."%js st, None)
  else
    let mnemonicToSave :=
      if bool_decide (generatedMnemonic st = []) then toLowerCase (trim (importInput st))
      else generatedMnemonic st in
    (st, Some (mnemonicToSave, password st)).

Definition handleImportMnemonic (st : State) : State :=
  if negb (MnemonicUtil.validate (importInput st)) then
    set_errorMessage "Invalid 12 or 24-word BIP-39 mnemonic phrase."%js st
  else set_step Password (set_errorMessage [] st).

Definition handle (e : Event) (st : State) : State * option (jsstring * jsstring) :=
  match e with
  | StartCreate random index => (handleStartCreate random index st, None)
  | StartImport => (set_step Import_ st, None)
  | VerifyStep => (handleVerifyStep st, None)
  | CheckWord => (handleCheckWord st, None)
  | ImportMnemonic => (handleImportMnemonic st, None)
  | CompletePassword => handleCompletePassword st
  | TypeVerification s => (set_verificationInput s st, None)
  | TypeImport s => (set_importInput s st, None)
  | TypePassword s => (set_password s st, None)
  | TypeConfirm s => (set_confirmPassword s st, None)
  end.
End onboarding.

(** [{errorMessage && <p>{errorMessage}</p>}] *)
Definition error_view (st : State) : list (view Event) :=
  when (negb (bool_decide (errorMessage st = []))) (p [Text (errorMessage st)]).

Definition number_word (i : nat) (word : jsstring) : view Event :=
  div [span [Text (Z_to_string (Z.of_nat i + 1) ++ "."%js)]; span [Text word]].

Definition choose_view (random : bytes) (index : nat) : view Event :=
  div [heading "h1"%js "Welcome to SPRX"%js;
       p [Text "Secure, non-custodial decentralized gateway to the SPRX Protocol."%js];
       button false (StartCreate random index) [Text "+ Create New Wallet"%js];
       button false StartImport [Text "Import Existing Seed"%js]].

Definition create_view (st : State) : view Event :=
  div [heading "h2"%js "Secret Recovery Phrase"%js;
       p [Text "⚠️ Write down these 12 words in order and store them in a secure offline location. Never share them with anyone."%js];
       div (imap number_word (split_on 32 (generatedMnemonic st)));
       button false VerifyStep [Text "I Have Saved My Seed Phrase →"%js]].

Definition verify_view (st : State) : view Event :=
  let n := Z_to_string (Z.of_nat (verificationIndex st) + 1) in
  div ([heading "h2"%js "Verify Backup"%js;
        p [Text "Confirm your backup by typing word "%js;
           El "strong"%js [] [] [Text ("#"%js ++ n)];
           Text " from your recovery phrase."%js]]
       ++ error_view st
       ++ [input [("type"%js, "text"%js); ("placeholder"%js, "Word #"%js ++ n)]
             (verificationInput st) TypeVerification;
           button false CheckWord [Text "Verify & Proceed"%js]]).

Definition import_view (st : State) : view Event :=
  div ([heading "h2"%js "Import Secret Phrase"%js;
        p [Text "Enter your 12 or 24-word recovery phrase separated by spaces."%js]]
       ++ error_view st
       ++ [El "textarea"%js [("rows"%js, "4"%js); ("placeholder"%js, "abandon abandon abandon..."%js);
                             ("value"%js, importInput st)] [OnChange TypeImport] [];
           button false ImportMnemonic [Text "Import Wallet"%js]]).

Definition password_view (st : State) : view Event :=
  El "form"%js [] [OnSubmit CompletePassword]
    ([heading "h2"%js "Set Master Vault Password"%js;
      p [Text "This password will encrypt your recovery phrase in your local browser vault."%js]]
     ++ error_view st
     ++ [input [("type"%js, "password"%js); ("placeholder"%js, "New Password (min 8 chars)"%js);
                ("required"%js, [])] (password st) TypePassword;
         input [("type"%js, "password"%js); ("placeholder"%js, "Confirm Password"%js);
                ("required"%js, [])] (confirmPassword st) TypeConfirm;
         El "button"%js [("type"%js, "submit"%js)] [] [Text "Create Encrypted Vault"%js]]).

(** The component, given the randomness a click on "Create" would draw. *)
Definition render (random : bytes) (index : nat) (st : State) : view Event :=
  div match step st with
      | Choose_ => [choose_view random index]
      | Create => [create_view st]
      | Verify => [verify_view st]
      | Import_ => [import_view st]
      | Password => [password_view st]
      end.
End WalletOnboarding.
Import WalletOnboarding.

(** ** Reachable states *)

Section onboarding_facts.
Context `{U : UnicodeCase} `{P : Bip39}.

(** One event that the rendered view offers. *)
Inductive onboarding_step : State → State → Prop :=
| Onboarding_step random index e st :
    (index < 12)%nat → fires (render random index st) e →
    onboarding_step st (handle e st).1.

Definition reachable (st : State) : Prop := rtc onboarding_step init st.


(** What each step of the dialogue guarantees about the phrase. *)
Definition phrase_ok (st : State) : Prop :=
  match step st with
  | Choose_ | Import_ => generatedMnemonic st = []
  | Create | Verify =>
      ∃ r, generatedMnemonic st = MnemonicUtil.generate r MnemonicUtil.Words12
  | Password =>
      ((∃ r, generatedMnemonic st = MnemonicUtil.generate r MnemonicUtil.Words12)
       ∧ Some (toLowerCase (trim (verificationInput st)))
         = split_on 32 (generatedMnemonic st) !! verificationIndex st)
      ∨ (generatedMnemonic st = [] ∧ MnemonicUtil.validate (importInput st) = true)
  end.

Lemma number_word_quiet ws e : ¬ Exists (λ v, fires v e) (imap number_word ws).
Proof.
  rewrite Exists_exists. intros (v & Hv & Hf). apply elem_of_lookup_imap in Hv as (i & w & -> & _).
  unfold number_word, div, span in Hf. fires_inv Hf.
Qed.

Lemma error_quiet st e : ¬ Exists (λ v, fires v e) (error_view st).
Proof. unfold error_view, p. intros Hf. fires_inv Hf. Qed.

(** The events each step offers. *)
Definition offered (st : State) (e : Event) : Prop :=
  match step st, e with
  | Choose_, (StartCreate _ _ | StartImport) | Create, VerifyStep
  | Verify, (TypeVerification _ | CheckWord) | Import_, (TypeImport _ | ImportMnemonic)
  | Password, (TypePassword _ | TypeConfirm _ | CompletePassword) => True
  | _, _ => False
  end.

Lemma fires_offered random index st e : fires (render random index st) e → offered st e.
Proof.
  unfold render, offered, div. intros Hf.
  destruct (step st); unfold choose_view, create_view, verify_view, import_view, password_view,
    div, heading, p, button, input in Hf; fires_inv Hf;
    first [by subst e | by apply number_word_quiet in Hf | by apply error_quiet in Hf
          | by destruct Hf as [? ->]].
Qed.

Lemma phrase_ok_step st st' : onboarding_step st st' → phrase_ok st → phrase_ok st'.
Proof.
  destruct 1 as [r i e st Hi Hf]. apply fires_offered in Hf. unfold phrase_ok, offered in *.
  destruct (step st) eqn:Hs, e; try done; simpl; rewrite ?Hs; eauto.
  - unfold handleCheckWord. destruct (bool_decide _) eqn:Hw; simpl; rewrite ?Hs; [|done].
    apply bool_decide_eq_true in Hw. by left.
  - unfold handleImportMnemonic. destruct (MnemonicUtil.validate _) eqn:Hv; simpl; rewrite ?Hs; eauto.
  - unfold handleCompletePassword. destruct (_ <? _)%nat; [|destruct (negb _)]; simpl; by rewrite Hs.
Qed.

Lemma reachable_phrase_ok st : reachable st → phrase_ok st.
Proof.
  intros Hr. unfold reachable in Hr. remember init as st0 eqn:E.
  assert (phrase_ok st0) as H0 by (by subst). clear E.
  induction Hr as [|st1 st2 st3 H12 _ IH]; eauto using phrase_ok_step.
Qed.

Context `{PL : !Bip39Laws P}.

Lemma generate_nonnil r n : MnemonicUtil.generate r n ≠ [].
Proof.
  intros E. unfold MnemonicUtil.generate in E.
  set (st := match n with MnemonicUtil.Words12 => _ | _ => _ end) in E.
  assert (st = 128%Z ∨ st = 256%Z) as Hst by (subst st; destruct n; auto).
  pose proof (generate_words st r Hst) as Hw. rewrite E in Hw. simpl in Hw.
  destruct Hst as [H|H]; rewrite H in Hw; vm_compute in Hw; congruence.
Qed.

Lemma validate_normal m :
  is_ascii (trim m) = true → MnemonicUtil.validate (toLowerCase (trim m)) = MnemonicUtil.validate m.
Proof.
  intros Ha. unfold MnemonicUtil.validate, toLowerCase. rewrite Ha.
  rewrite trim_fmap, trim_idemp by apply is_ws_lower.
  by rewrite is_ascii_lower, ascii_lower_idemp.
Qed.

Lemma handleCompletePassword_call st st' m pw :
  handleCompletePassword st = (st', Some (m, pw)) →
  (8 ≤ length pw)%nat ∧ pw = password st ∧ pw = confirmPassword st
  ∧ m = if bool_decide (generatedMnemonic st = []) then toLowerCase (trim (importInput st))
        else generatedMnemonic st.
Proof.
  unfold handleCompletePassword. destruct (Nat.ltb_spec (length (password st)) 8); [done|].
  destruct (bool_decide _) eqn:Hp; [|done]. apply bool_decide_eq_true in Hp. simpl.
  intros [= <- <- <-]. done.
Qed.

(** C22. Whatever the user does, a vault is only ever created from a valid phrase
    and a password of at least 8 characters that was typed twice; when the phrase
    was generated, the user has retyped the word of it that was asked for. *)
Theorem onboarding_creates_valid (st st' : State) (random : bytes) (index : nat)
    (m pw : jsstring) :
  reachable st → fires (render random index st) CompletePassword →
  is_ascii (trim (importInput st)) = true →
  handle CompletePassword st = (st', Some (m, pw)) →
  MnemonicUtil.validate m = true ∧ (8 ≤ length pw)%nat ∧ pw = confirmPassword st
  ∧ (generatedMnemonic st ≠ [] →
     Some (toLowerCase (trim (verificationInput st))) = split_on 32 m !! verificationIndex st).
Proof.
  intros Hr Hf Ha Hc. apply fires_offered in Hf. unfold offered in Hf.
  apply reachable_phrase_ok in Hr. unfold phrase_ok in Hr.
  destruct (step st); try done. destruct (handleCompletePassword_call _ _ _ _ Hc) as (H8 & _ & Hp & ->).
  destruct Hr as [[[r Hg] Hw]|[Hg Hv]].
  - rewrite Hg in Hw |- *. rewrite bool_decide_false by apply generate_nonnil.
    split_and!; [by apply generate_validates|done|done|done].
  - rewrite bool_decide_true by done. split_and!; [by rewrite validate_normal|done..].
Qed.
End onboarding_facts.

(** ** Witness *)

Section onboarding_witness.
#[local] Existing Instances ascii_case PlainBip39.plain_bip39 PlainBip39.plain_bip39_laws.

Definition typed_password : State :=
  mkState Password [] (PlainBip39.phrase 12) "hunter2hunter2"%js "hunter2hunter2"%js 0 [] [].

Lemma typed_password_reachable : reachable typed_password.
Proof.
  assert (∀ st e, fires (render [] 0 st) e → onboarding_step st (handle e st).1) as Hstep
    by (intros; eapply Onboarding_step; [|done]; lia).
  assert (∀ (v : view Event) (a : action Event) e, a ∈ actions v → gives a e → fires v e) as Hf.
  { intros v a e Ha Hg. apply Exists_exists. eauto. }
  eapply rtc_l; [apply (Hstep init StartImport); apply (Hf _ (Do StartImport)); [set_solver|done]|].
  eapply rtc_l; [apply (Hstep _ (TypeImport (PlainBip39.phrase 12)));
    apply (Hf _ (Type_in TypeImport)); [set_solver|by eexists]|].
  eapply rtc_l; [apply (Hstep _ ImportMnemonic); apply (Hf _ (Do ImportMnemonic)); [set_solver|done]|].
  eapply rtc_l; [apply (Hstep _ (TypePassword "hunter2hunter2"%js));
    apply (Hf _ (Type_in TypePassword)); [set_solver|by eexists]|].
  eapply rtc_l; [apply (Hstep _ (TypeConfirm "hunter2hunter2"%js));
    apply (Hf _ (Type_in TypeConfirm)); [set_solver|by eexists]|].
  vm_compute. apply rtc_refl.
Qed.

Lemma onboarding_creates_valid_witness :
  MnemonicUtil.validate (PlainBip39.phrase 12) = true.
Proof.
  apply (onboarding_creates_valid typed_password typed_password [] 0 _ "hunter2hunter2"%js).
  - exact typed_password_reachable.
  - apply Exists_exists. exists (Do CompletePassword). split; [|done].
    vm_compute. left.
  - vm_compute. reflexivity.
  - vm_compute. reflexivity.
Defined.
End onboarding_witness.
