(* ===== verification/SendModal.v ===== *)
(** * Sending: [apps/web-wallet/src/components/SendModal.tsx]

    The form, and [handleSend]: check, fetch the nonce, sign offline, broadcast. *)
From S2P Require Import Prelude JsString JsStringFacts JsNumber JsNumberFacts.
From S2P Require Import JsJson JsJsonFacts Bytes Address Crypto WalletTypes.
From S2P Require Import Transaction TransactionFacts Async Client View.
Import AddressUtil TransactionBuilder SpraxClient.

Module SendModal.

(** The component's state hooks, with their setters. *)
Record State := mkState {
  recipient : jsstring;
  amount : jsstring;
  memo : jsstring;
  isSubmitting : bool;
  errorMessage : jsstring;
}.
Definition set_recipient (x : jsstring) (st : State) : State :=
  mkState x (amount st) (memo st) (isSubmitting st) (errorMessage st).
Definition set_amount (x : jsstring) (st : State) : State :=
  mkState (recipient st) x (memo st) (isSubmitting st) (errorMessage st).
Definition set_memo (x : jsstring) (st : State) : State :=
  mkState (recipient st) (amount st) x (isSubmitting st) (errorMessage st).
Definition set_isSubmitting (x : bool) (st : State) : State :=
  mkState (recipient st) (amount st) (memo st) x (errorMessage st).
Definition set_errorMessage (x : jsstring) (st : State) : State :=
  mkState (recipient st) (amount st) (memo st) (isSubmitting st) x.

Definition init : State := mkState [] [] [] false [].

Record Props := mkProps {
  account : Account;
  network : NetworkConfig;
  privateKey : bytes;
}.

Inductive Event :=
| Close
| Submit
| TypeRecipient (s : jsstring)
| TypeAmount (s : jsstring)
| TypeMemo (s : jsstring).

(** [parsedAmount <= 0] *)
Definition not_positive (n : num) : bool := num_leb n (NInt 0).

Section send.
Context `{Bech32} `{Crypto}.

Definition isValidRecipient (st : State) : bool :=
  (0 <? length (recipient st))%nat && isValidAddress (recipient st).

(** The handler of the form, with the state and the properties of the render it
    belongs to. The application's state is [S]; [upd] updates the modal's state
    in it, [onSuccess] and [onClose] are the callbacks. *)
Definition handleSend {S} (upd : (State → State) → S → S) (onSuccess : jsval → cmd S unit)
    (onClose : S → S) (pr : Props) (st : State) : cmd S unit :=
  let client := new_SpraxClient (Some (network pr)) in
  _ ← write (upd (set_errorMessage []));
  if negb (isValidRecipient st) then
    write (upd (set_errorMessage
      "Please enter a valid SPRX Bech32 (sprax1...) or Hex (0x...) address."%js))
  else
    finally
      (catch
         (let parsedAmount := parseFloat (amount st) in
          if isNaN parsedAmount || not_positive parsedAmount then
            write (upd (set_errorMessage "Amount must be a positive decimal number."%js))
          else
            _ ← write (upd (set_isSubmitting true));
            nonce ← getAccountNonce client (acc_addressBech32 (account pr));
            signedTx ← lift (sign
              (mkSendTxRequest (acc_addressBech32 (account pr)) (recipient st) (amount st) nonce
                 None (Some (memo st)) None)
              (net_chainId (network pr)) (privateKey pr) (acc_algorithm (account pr)));
            txHash ← broadcastTransaction client signedTx;
            _ ← onSuccess txHash;
            write onClose)
         (λ err, write (upd (set_errorMessage
            (if bool_decide (err_message err = []) then "Failed to broadcast transaction"%js
             else err_message err)))))
      (upd (set_isSubmitting false)).

(** The other handlers. *)
Definition handle_input (e : Event) (st : State) : State :=
  match e with
  | TypeRecipient s => set_recipient s st
  | TypeAmount s => set_amount s st
  | TypeMemo s => set_memo s st
  | Close | Submit => st
  end.
End send.

Definition field (label : jsstring) (control : view Event) : view Event :=
  div [El "label"%js [] [] [Text label]; control].

Definition render (st : State) : view Event :=
  div [div (
    [div [heading "h2"%js "Send SPRX"%js; button false Close [Text "✕"%js]]]
    ++ when (negb (bool_decide (errorMessage st = []))) (div [Text (errorMessage st)])
    ++ [El "form"%js [] [OnSubmit Submit]
          [field "Recipient Address"%js
             (input [("type"%js, "text"%js); ("placeholder"%js, "sprax1... or 0x..."%js);
                     ("required"%js, [])] (recipient st) TypeRecipient);
           field "Amount (SPRX)"%js
             (input [("type"%js, "number"%js); ("step"%js, "any"%js);
                     ("placeholder"%js, "0.00"%js); ("required"%js, [])] (amount st) TypeAmount);
           field "Memo (Optional)"%js
             (input [("type"%js, "text"%js); ("placeholder"%js, "Optional message"%js)]
                (memo st) TypeMemo);
           div [span [Text "Network Fee:"%js]; span [Text "0.0005 SPRX (≈ $0.002)"%js]];
           El "button"%js ([("type"%js, "submit"%js)] ++ disabled_attr (isSubmitting st)) []
             [Text (if isSubmitting st then "Signing & Broadcasting..."%js
                    else "Sign & Submit Transaction"%js)]]])].
End SendModal.
Import SendModal.


(** ** Theorems *)

(** The two requests of a transfer. *)
Definition nonce_request (pr : Props) : fetch_request :=
  get_request (net_rpcUrl (network pr) ++ "/accounts/"%js ++ acc_addressBech32 (account pr)
               ++ "/nonce"%js).

Definition broadcast_request (pr : Props) (tx : SignedTransaction) : fetch_request :=
  mkRequest (net_rpcUrl (network pr) ++ "/txs/broadcast"%js) "POST"%js
    [("Content-Type"%js, "application/json"%js)] (Some (json_ser (SignedTransaction_json tx))).

Definition is_post (rq : fetch_request) : bool := bool_decide (rq_method rq = "POST"%js).

Section send_facts.
Context `{B : Bech32} `{L : !Bech32Laws B} `{C : Crypto}.
Context {S : Type} (upd : (State → State) → S → S) (onSuccess : jsval → cmd S unit)
  (onClose : S → S).
Hypothesis success_quiet : ∀ h, requests_only (λ _, False) (onSuccess h).

(** What the user typed, in the form of the transfer that is sent. *)
Definition as_typed (pr : Props) (st : State) (tx : SignedTransaction) : Prop :=
  ∃ m to atto, body_messages (stx_body tx) = [m]
    ∧ parseToBytes (recipient st) = Ok to ∧ parseToBytes (msg_to m) = Ok to
    ∧ sprxToAtto (amount st) = Ok atto ∧ msg_amount m = Z_to_string atto ∧ (0 < atto)%Z
    ∧ body_memo (stx_body tx) = memo st ∧ body_chainId (stx_body tx) = net_chainId (network pr)
    ∧ parseToBytes (body_sender (stx_body tx)) = parseToBytes (acc_addressBech32 (account pr)).

Lemma sign_as_typed pr st nonce tx :
  sign (mkSendTxRequest (acc_addressBech32 (account pr)) (recipient st) (amount st) nonce
          None (Some (memo st)) None)
    (net_chainId (network pr)) (privateKey pr) (acc_algorithm (account pr)) = Ok tx →
  as_typed pr st tx.
Proof.
  intros (from & to & atto & sender & rcpt & pk & sig & Hf & Ht & Ha & Hp & Hs & Hr & _ & ->)%sign_inv.
  cbn in *. eexists _, to, atto. split_and!; try done; cbn.
  - apply parse_toBech32; [by eapply parse_raw|done].
  - rewrite Hf. apply parse_toBech32; [by eapply parse_raw|done].
Qed.

Lemma nonce_requests P (pr : Props) :
  P (nonce_request pr) →
  requests_only P (getAccountNonce (S:=S) (new_SpraxClient (Some (network pr)))
                     (acc_addressBech32 (account pr))).
Proof.
  intros Hp. split; [done|]. intros [r|e]; [|done]. cbn. destruct (rs_ok r); [|done]. cbn.
  destruct (rs_json r) as [d|]; [|done]. cbn. by destruct (get_prop d _).
Qed.

Lemma broadcast_requests P (pr : Props) tx :
  P (broadcast_request pr tx) →
  requests_only P (broadcastTransaction (S:=S) (new_SpraxClient (Some (network pr))) tx).
Proof.
  intros Hp. split; [done|]. intros [r|e]; [|done]. cbn. destruct (rs_ok r); cbn.
  - destruct (rs_json r) as [d|]; [|done]. cbn. by destruct (get_prop d _).
  - by destruct (rs_text r).
Qed.


(** C28. [handleSend] posts at most once, whatever the node answers. *)
Theorem send_at_most_once (pr : Props) (st : State) :
  at_most is_post 1 (handleSend upd onSuccess onClose pr st).
Proof.
  unfold handleSend. apply (at_most_bind _ 0 1); [done|]. intros _.
  destruct (negb _); [done|]. apply at_most_finally, at_most_catch; [|done].
  destruct (_ || _); [done|]. apply (at_most_bind _ 0 1); [done|]. intros _.
  apply (at_most_bind _ 0 1); [by apply at_most_0, nonce_requests|]. intros nonce.
  apply (at_most_bind _ 0 1); [apply at_most_lift|]. intros tx.
  apply (at_most_bind _ 1 0); [|intros h; apply (at_most_bind _ 0 0); [|done]].
  - unfold broadcastTransaction. apply (at_most_bind _ 1 0); [by intros []|].
    intros r. destruct (rs_ok r); cbn.
    + destruct (rs_json r) as [d|]; [|done]. cbn. apply at_most_lift.
    + by destruct (rs_text r).
  - apply at_most_0. eapply requests_only_impl; [|apply success_quiet]. done.
Qed.
End send_facts.

(** The form can only be submitted when no transfer is being processed and both
    required fields are filled in. *)
Lemma fires_submit st :
  fires (render st) Submit →
  isSubmitting st = false ∧ recipient st ≠ [] ∧ amount st ≠ [].
Proof.
  intros Hf. unfold fires in Hf.
  destruct st as [[|r rs] [|a am] m [] [|e es]]; vm_compute in Hf;
    repeat (apply Exists_cons in Hf as [Hf|Hf]; [try done; try (by destruct Hf)|]);
    by apply Exists_nil in Hf || done.
Qed.

Section in_flight.
Context `{B : Bech32} `{C : Crypto}.
Context {S : Type} (upd : (State → State) → S → S) (onSuccess : jsval → cmd S unit)
  (onClose : S → S).

(** A valid form suspends on the nonce query, marked as submitting. *)
Lemma handleSend_suspends pr st s :
  isValidRecipient st = true →
  isNaN (parseFloat (amount st)) || not_positive (parseFloat (amount st)) = false →
  ∃ k, advance (handleSend upd onSuccess onClose pr st) s
       = (upd (set_isSubmitting true) (upd (set_errorMessage []) s),
          Awaiting (nonce_request pr) k)
  ∧ ∀ e s' tx,
      sign (mkSendTxRequest (acc_addressBech32 (account pr)) (recipient st) (amount st)
              (JNum (NInt 0)) None (Some (memo st)) None)
        (net_chainId (network pr)) (privateKey pr) (acc_algorithm (account pr)) = Ok tx →
      ∃ k', advance (k (Throw e)) s' = (s', Awaiting (broadcast_request pr tx) k').
Proof.
  intros Hr Ha. unfold handleSend. rewrite Hr, Ha. cbn -[sign]. eexists. split; [done|].
  intros e s' tx Htx. cbn -[sign]. rewrite Htx. cbn. eauto.
Qed.

(** Every other submission finishes at once. *)
Lemma handleSend_finishes pr st s :
  isValidRecipient st
  && negb (isNaN (parseFloat (amount st)) || not_positive (parseFloat (amount st))) = false →
  ∃ s', advance (handleSend upd onSuccess onClose pr st) s = (s', Finished (Ok tt)).
Proof.
  unfold handleSend. destruct (isValidRecipient st); cbn [negb andb]; [|eexists; reflexivity].
  intros ->%negb_false_iff. eexists. reflexivity.
Qed.
End in_flight.


(** ** Witnesses *)

Section send_witnesses.
#[local] Existing Instances PlainBech32.plain_bech32 PlainBech32.plain_bech32_laws
  PlainCrypto.plain_crypto.

Definition example_account : Account :=
  mkAccount 0 "Account 1"%js "0x00112233445566778899aabbccddeeff00112233"%js
    "0x00112233445566778899aabbccddeeff00112233"%js [] Ed25519 [].
Definition example_props : Props :=
  mkProps example_account NETWORKS.testnet (replicate 32 9%N).
Definition example_form : State :=
  mkState "0xFFEEDDCCBBAA99887766554433221100FFEEDDCC"%js "10.5"%js "rent"%js false [].


Lemma send_at_most_once_witness :
  at_most is_post 1 (handleSend (S:=State) id (λ _, Ret tt) id example_props example_form).
Proof. apply send_at_most_once. done. Defined.

End send_witnesses.
