(* ===== verification/WalletApp.v ===== *)
(** * The web wallet: [apps/web-wallet/src/App.tsx] and its panels

    [WalletDashboard.tsx], [ReceiveModal.tsx] and the composition in [App]: which
    component is mounted, the callbacks between them, timers and the requests in
    flight. *)
From S2P Require Import Prelude JsString JsStringFacts JsNumber JsJson Bytes Address Crypto.
From S2P Require Import WalletTypes HdWallet Vault Transaction Async Client View.
From S2P Require Import Onboarding SendModal.
Import AddressUtil HDWallet SpraxClient.

(** ** [WalletDashboard] *)
Module WalletDashboard.

Inductive Currency := Usd | Inr | Eur | Jpy.

(** The component's state hooks, with their setters. *)
Record State := mkState {
  balance : Balance;
  selectedCurrency : Currency;
  copied : bool;
  isLoading : bool;
}.
Definition set_balance (x : Balance) (st : State) : State :=
  mkState x (selectedCurrency st) (copied st) (isLoading st).
Definition set_selectedCurrency (x : Currency) (st : State) : State :=
  mkState (balance st) x (copied st) (isLoading st).
Definition set_copied (x : bool) (st : State) : State :=
  mkState (balance st) (selectedCurrency st) x (isLoading st).
Definition set_isLoading (x : bool) (st : State) : State :=
  mkState (balance st) (selectedCurrency st) (copied st) x.

Definition init : State := mkState offline_balance Usd false false.

Inductive Event := Lock | CopyAddress | OpenSend | OpenReceive | SelectCurrency (s : jsstring).

Definition Currency_value (c : Currency) : jsstring :=
  match c with Usd => "usd"%js | Inr => "inr"%js | Eur => "eur"%js | Jpy => "jpy"%js end.

(** [e.target.value as any], for the values the select offers. *)
Definition Currency_of (s : jsstring) : option Currency :=
  snd <$> list_find (λ c, Currency_value c = s) [Usd; Inr; Eur; Jpy].

Definition currencySymbols (c : Currency) : jsstring :=
  match c with Usd => "$"%js | Inr => "₹"%js | Eur => "€"%js | Jpy => "¥"%js end.

Definition fiat (c : Currency) (f : FiatEstimates) : jsstring :=
  match c with
  | Usd => fiat_usd f | Inr => fiat_inr f | Eur => fiat_eur f | Jpy => fiat_jpy f
  end.

(** [fetchBalance] of a render for [account] and [network]. *)
Definition fetchBalance {S} (upd : (State → State) → S → S) (account : Account)
    (network : NetworkConfig) : cmd S unit :=
  let client := new_SpraxClient (Some network) in
  _ ← write (upd (set_isLoading true));
  finally
    (bal ← getBalance client (acc_addressBech32 account);
     write (upd (set_balance bal)))
    (upd (set_isLoading false)).

Definition render (account : Account) (network : NetworkConfig) (st : State) : view Event :=
  div [
    div [div [span [Text (net_name network)]]; button false Lock [Text "Lock Vault"%js]];
    div [heading "h3"%js (acc_name account);
         El "div"%js [] [OnClick CopyAddress]
           [span [Text (slice (acc_addressBech32 account) 0 10); Text "..."%js;
                  Text (slice_from (acc_addressBech32 account) (-6))];
            span [Text (if copied st then "✓ Copied"%js else "Copy"%js)]]];
    div [span [Text "Total Balance"%js];
         El "h1"%js [] [] [Text (bal_sprx (balance st)); Text " "%js; span [Text "SPRX"%js]];
         div [span [Text "≈ "%js; Text (currencySymbols (selectedCurrency st));
                    Text (fiat (selectedCurrency st) (bal_fiatEstimates (balance st)))];
              select (Currency_value (selectedCurrency st)) SelectCurrency
                [("usd"%js, "USD"%js); ("inr"%js, "INR"%js); ("eur"%js, "EUR"%js);
                 ("jpy"%js, "JPY"%js)]]];
    div [button false OpenSend [Text "↑ Send"%js];
         button false OpenReceive [Text "↓ Receive"%js]]].
End WalletDashboard.

(** ** [ReceiveModal] *)
Module ReceiveModal.

(** The component's state hooks, with their setters. *)
Record State := mkState {
  copied : bool;
  amount : jsstring;
}.
Definition set_copied (x : bool) (st : State) : State :=
  mkState x (amount st).
Definition set_amount (x : jsstring) (st : State) : State :=
  mkState (copied st) x.

Definition init : State := mkState false [].

Inductive Event := Close | CopyToClipboard | TypeAmount (s : jsstring).

Definition paymentUri (account : Account) (st : State) : jsstring :=
  if bool_decide (amount st = []) then "sprax:"%js ++ acc_addressBech32 account
  else "sprax:"%js ++ acc_addressBech32 account ++ "?amount="%js ++ amount st.

Definition render (account : Account) (st : State) : view Event :=
  div [div [
    div [heading "h2"%js "Receive SPRX"%js; button false Close [Text "✕"%js]];
    div [div [Text "QR Code: "%js; Text (slice (paymentUri account st) 0 32); Text "..."%js]];
    div [Text (acc_addressBech32 account)];
    div [El "label"%js [] [] [Text "Requested Amount (Optional):"%js];
         input [("type"%js, "number"%js); ("placeholder"%js, "0.00 SPRX"%js)] (amount st)
           TypeAmount];
    button false CopyToClipboard
      [Text (if copied st then "✓ Address Copied!"%js else "Copy Address"%js)]]].
End ReceiveModal.

(** ** [App] *)
Module App.

(** Callbacks given to [setTimeout]; a panel's callback names the instance of
    the panel it belongs to. *)
Inductive Timer := ClearStatus | DashUncopy (id : nat) | ReceiveUncopy (id : nat).

(** A mounted dashboard: its state, the dependencies its effect last ran with,
    and the account and network its interval queries. *)
Record Dashboard := mkDashboard {
  dash_state : WalletDashboard.State;
  dash_deps : jsstring * jsstring;
  dash_interval : Account * NetworkConfig;
}.

(** The hooks of [App] and the state of the mounted children, which is kept by
    instance: what a closure of an unmounted instance sets is dropped. [timers],
    [alerts] and [clipboard] are the browser's. *)
Record State := mkState {
  network : NetworkConfig;
  account : option Account;
  privateKey : option bytes;
  vault : option EncryptedVault;
  isSendOpen : bool;
  isReceiveOpen : bool;
  statusMessage : option jsstring;
  onboarding : option WalletOnboarding.State;
  send : option (nat * SendModal.State);
  receive : option (nat * ReceiveModal.State);
  dashboard : option (nat * Dashboard);
  nextId : nat;
  timers : list Timer;
  alerts : list jsstring;
  clipboard : option jsstring;
}.
Definition set_network (x : NetworkConfig) (st : State) : State :=
  mkState x (account st) (privateKey st) (vault st) (isSendOpen st) (isReceiveOpen st)
    (statusMessage st) (onboarding st) (send st) (receive st) (dashboard st) (nextId st)
    (timers st) (alerts st) (clipboard st).
Definition set_account (x : option Account) (st : State) : State :=
  mkState (network st) x (privateKey st) (vault st) (isSendOpen st) (isReceiveOpen st)
    (statusMessage st) (onboarding st) (send st) (receive st) (dashboard st) (nextId st)
    (timers st) (alerts st) (clipboard st).
Definition set_privateKey (x : option bytes) (st : State) : State :=
  mkState (network st) (account st) x (vault st) (isSendOpen st) (isReceiveOpen st)
    (statusMessage st) (onboarding st) (send st) (receive st) (dashboard st) (nextId st)
    (timers st) (alerts st) (clipboard st).
Definition set_vault (x : option EncryptedVault) (st : State) : State :=
  mkState (network st) (account st) (privateKey st) x (isSendOpen st) (isReceiveOpen st)
    (statusMessage st) (onboarding st) (send st) (receive st) (dashboard st) (nextId st)
    (timers st) (alerts st) (clipboard st).
Definition set_isSendOpen (x : bool) (st : State) : State :=
  mkState (network st) (account st) (privateKey st) (vault st) x (isReceiveOpen st)
    (statusMessage st) (onboarding st) (send st) (receive st) (dashboard st) (nextId st)
    (timers st) (alerts st) (clipboard st).
Definition set_isReceiveOpen (x : bool) (st : State) : State :=
  mkState (network st) (account st) (privateKey st) (vault st) (isSendOpen st) x
    (statusMessage st) (onboarding st) (send st) (receive st) (dashboard st) (nextId st)
    (timers st) (alerts st) (clipboard st).
Definition set_statusMessage (x : option jsstring) (st : State) : State :=
  mkState (network st) (account st) (privateKey st) (vault st) (isSendOpen st)
    (isReceiveOpen st) x (onboarding st) (send st) (receive st) (dashboard st) (nextId st)
    (timers st) (alerts st) (clipboard st).
Definition set_onboarding (x : option WalletOnboarding.State) (st : State) : State :=
  mkState (network st) (account st) (privateKey st) (vault st) (isSendOpen st)
    (isReceiveOpen st) (statusMessage st) x (send st) (receive st) (dashboard st)
    (nextId st) (timers st) (alerts st) (clipboard st).
Definition set_send (x : option (nat * SendModal.State)) (st : State) : State :=
  mkState (network st) (account st) (privateKey st) (vault st) (isSendOpen st)
    (isReceiveOpen st) (statusMessage st) (onboarding st) x (receive st) (dashboard st)
    (nextId st) (timers st) (alerts st) (clipboard st).
Definition set_receive (x : option (nat * ReceiveModal.State)) (st : State) : State :=
  mkState (network st) (account st) (privateKey st) (vault st) (isSendOpen st)
    (isReceiveOpen st) (statusMessage st) (onboarding st) (send st) x (dashboard st)
    (nextId st) (timers st) (alerts st) (clipboard st).
Definition set_dashboard (x : option (nat * Dashboard)) (st : State) : State :=
  mkState (network st) (account st) (privateKey st) (vault st) (isSendOpen st)
    (isReceiveOpen st) (statusMessage st) (onboarding st) (send st) (receive st) x
    (nextId st) (timers st) (alerts st) (clipboard st).
Definition set_nextId (x : nat) (st : State) : State :=
  mkState (network st) (account st) (privateKey st) (vault st) (isSendOpen st)
    (isReceiveOpen st) (statusMessage st) (onboarding st) (send st) (receive st)
    (dashboard st) x (timers st) (alerts st) (clipboard st).
Definition set_timers (x : list Timer) (st : State) : State :=
  mkState (network st) (account st) (privateKey st) (vault st) (isSendOpen st)
    (isReceiveOpen st) (statusMessage st) (onboarding st) (send st) (receive st)
    (dashboard st) (nextId st) x (alerts st) (clipboard st).
Definition set_alerts (x : list jsstring) (st : State) : State :=
  mkState (network st) (account st) (privateKey st) (vault st) (isSendOpen st)
    (isReceiveOpen st) (statusMessage st) (onboarding st) (send st) (receive st)
    (dashboard st) (nextId st) (timers st) x (clipboard st).
Definition set_clipboard (x : option jsstring) (st : State) : State :=
  mkState (network st) (account st) (privateKey st) (vault st) (isSendOpen st)
    (isReceiveOpen st) (statusMessage st) (onboarding st) (send st) (receive st)
    (dashboard st) (nextId st) (timers st) (alerts st) x.

Definition init : State :=
  mkState NETWORKS.local None None None false false None (Some WalletOnboarding.init)
    None None None 0 [] [] None.

(** Updates of a child's state from a closure of its instance [id]. *)
Definition upd_instance {A} (id : nat) (f : A → A) (o : option (nat * A)) : option (nat * A) :=
  '(i, a) ← o; Some (i, if (i =? id)%nat then f a else a).

Definition upd_send (id : nat) (f : SendModal.State → SendModal.State) (st : State) : State :=
  set_send (upd_instance id f (send st)) st.
Definition upd_receive (id : nat) (f : ReceiveModal.State → ReceiveModal.State) (st : State) :
    State :=
  set_receive (upd_instance id f (receive st)) st.
Definition upd_dash (id : nat) (f : WalletDashboard.State → WalletDashboard.State) (st : State) :
    State :=
  set_dashboard (upd_instance id (λ d, mkDashboard (f (dash_state d)) (dash_deps d)
                                         (dash_interval d)) (dashboard st)) st.
Definition upd_onboarding (f : WalletOnboarding.State → WalletOnboarding.State) (st : State) :
    State :=
  set_onboarding (f <$> onboarding st) st.

Definition setTimeout (t : Timer) (st : State) : State := set_timers (timers st ++ [t]) st.

Definition fire_timer (t : Timer) (st : State) : State :=
  match t with
  | ClearStatus => set_statusMessage None st
  | DashUncopy id => upd_dash id (WalletDashboard.set_copied false) st
  | ReceiveUncopy id => upd_receive id (ReceiveModal.set_copied false) st
  end.

Definition alert (msg : jsstring) (st : State) : State := set_alerts (alerts st ++ [msg]) st.

(** [txHash.slice(0, 10)], interpolated in a template. *)
Definition hash_prefix (txHash : jsval) : outcome jsstring :=
  match txHash with
  | JStr s => Ok (slice s 0 10)
  | JArr l => Ok (to_string (JArr (slice l 0 10)))
  | JUndef => type_error "Cannot read properties of undefined (reading 'slice')"%js
  | JNull => type_error "Cannot read properties of null (reading 'slice')"%js
  | _ => type_error "txHash.slice is not a function"%js
  end.

Section app.
Context `{Bech32} `{Crypto} `{UnicodeCase} `{Bip39} `{SubtleCrypto}.

(** [handleVaultCreated]; [subtle], [salt] and [iv] are what the environment and
    its random source provide to [WalletVault.encrypt]. The setters of one
    synchronous stretch are one batched update. *)
Definition handleVaultCreated (subtle : bool) (salt iv : bytes) (mnemonic password : jsstring) :
    cmd State unit :=
  catch
    (wallet ← lift (fromMnemonic mnemonic []);
     '(derivedAccount, derivedPrivKey) ← lift (deriveAccount wallet 0 None);
     encryptedVault ← Yield (lift (WalletVault.encrypt subtle salt iv mnemonic password 1));
     write (λ st, setTimeout ClearStatus
       (set_statusMessage (Some "Wallet created and encrypted successfully!"%js)
       (set_vault (Some encryptedVault)
       (set_privateKey (Some derivedPrivKey)
       (set_account (Some derivedAccount) st))))))
    (λ err, write (alert ("Error initializing wallet: "%js ++ err_message err))).

Definition handleLockWallet (st : State) : State :=
  set_account None (set_privateKey None st).

(** The [onChange] of the network selector. *)
Definition selectNetwork (value : jsstring) (st : State) : State :=
  set_network (default NETWORKS.local (NETWORKS.get value)) st.

(** The callbacks given to [SendModal]. *)
Definition onSendClose (st : State) : State := set_isSendOpen false st.
Definition onSendSuccess (txHash : jsval) : cmd State unit :=
  _ ← write (set_isSendOpen false);
  prefix ← lift (hash_prefix txHash);
  write (λ st, setTimeout ClearStatus
    (set_statusMessage (Some ("Transaction submitted: "%js ++ prefix ++ "..."%js)) st)).

(** *** Mounting

    After every update React mounts and unmounts the children the new state asks
    for, and runs the dashboard's effect when its dependencies changed. *)
Definition mount {A} (wanted : bool) (fresh : A) (o : option (nat * A)) (id : nat) :
    option (nat * A) :=
  if wanted then match o with Some x => Some x | None => Some (id, fresh) end else None.

Definition dash_dependencies (a : Account) (n : NetworkConfig) : jsstring * jsstring :=
  (acc_addressBech32 a, net_id n).

(** The effect: a query and an interval for the account and network of this
    render, replacing the previous interval. *)
Definition dash_effect (id : nat) (a : Account) (st : State) : State * option (cmd State unit) :=
  match dashboard st with
  | None =>
      (set_dashboard (Some (id, mkDashboard WalletDashboard.init
         (dash_dependencies a (network st)) (a, network st))) st,
       Some (WalletDashboard.fetchBalance (upd_dash id) a (network st)))
  | Some (i, d) =>
      if bool_decide (dash_deps d = dash_dependencies a (network st)) then (st, None)
      else
        (set_dashboard (Some (i, mkDashboard (dash_state d)
           (dash_dependencies a (network st)) (a, network st))) st,
         Some (WalletDashboard.fetchBalance (upd_dash i) a (network st)))
  end.

(** The committed state and the effect to run. *)
Definition commit (st : State) : State * option (cmd State unit) :=
  let id := nextId st in
  let wantSend := isSendOpen st && bool_decide (is_Some (account st))
                  && bool_decide (is_Some (privateKey st)) in
  let wantReceive := isReceiveOpen st && bool_decide (is_Some (account st)) in
  let st1 := set_nextId (S id)
    (set_send (mount wantSend SendModal.init (send st) id)
    (set_receive (mount wantReceive ReceiveModal.init (receive st) id) st)) in
  match account st with
  | None =>
      (set_dashboard None
         (set_onboarding (Some (default WalletOnboarding.init (onboarding st))) st1), None)
  | Some a => dash_effect id a (set_onboarding None st1)
  end.

(** *** Events *)

Inductive Event :=
| SelectNetwork (s : jsstring)
| OnOnboarding (e : WalletOnboarding.Event)
| OnDashboard (e : WalletDashboard.Event)
| OnSend (e : SendModal.Event)
| OnReceive (e : ReceiveModal.Event).

(** The handler an event runs. *)
Definition handler (subtle : bool) (salt iv : bytes) (e : Event) (st : State) : cmd State unit :=
  match e with
  | SelectNetwork s => write (selectNetwork s)
  | OnOnboarding oe =>
      match onboarding st with
      | None => Ret tt
      | Some o =>
          let '(o', call) := WalletOnboarding.handle oe o in
          _ ← write (upd_onboarding (λ _, o'));
          match call with
          | None => Ret tt
          | Some (m, pw) => handleVaultCreated subtle salt iv m pw
          end
      end
  | OnDashboard de =>
      match dashboard st, account st with
      | Some (id, d), Some a =>
          match de with
          | WalletDashboard.Lock => write handleLockWallet
          | WalletDashboard.CopyAddress =>
              write (λ st, setTimeout (DashUncopy id)
                (upd_dash id (WalletDashboard.set_copied true)
                (set_clipboard (Some (acc_addressBech32 a)) st)))
          | WalletDashboard.OpenSend => write (set_isSendOpen true)
          | WalletDashboard.OpenReceive => write (set_isReceiveOpen true)
          | WalletDashboard.SelectCurrency s =>
              match WalletDashboard.Currency_of s with
              | Some c => write (upd_dash id (WalletDashboard.set_selectedCurrency c))
              | None => Ret tt
              end
          end
      | _, _ => Ret tt
      end
  | OnSend se =>
      match send st, account st, privateKey st with
      | Some (id, s), Some a, Some k =>
          match se with
          | SendModal.Close => write onSendClose
          | SendModal.Submit =>
              SendModal.handleSend (upd_send id) onSendSuccess onSendClose
                (SendModal.mkProps a (network st) k) s
          | _ => write (upd_send id (SendModal.handle_input se))
          end
      | _, _, _ => Ret tt
      end
  | OnReceive re =>
      match receive st, account st with
      | Some (id, _), Some a =>
          match re with
          | ReceiveModal.Close => write (set_isReceiveOpen false)
          | ReceiveModal.CopyToClipboard =>
              write (λ st, setTimeout (ReceiveUncopy id)
                (upd_receive id (ReceiveModal.set_copied true)
                (set_clipboard (Some (acc_addressBech32 a)) st)))
          | ReceiveModal.TypeAmount s => write (upd_receive id (ReceiveModal.set_amount s))
          end
      | _, _ => Ret tt
      end
  end.

(** [random] and [index] are what a click on "Create New Wallet" would draw. *)
Definition render (random : bytes) (index : nat) (st : State) : view Event :=
  div ([El "header"%js [] []
          [div [div [Text "S"%js]; span [Text "SPRX Wallet"%js]];
           select (net_id (network st)) SelectNetwork
             [("local"%js, "Local Devnet (26657)"%js); ("testnet"%js, "Public Testnet"%js);
              ("mainnet"%js, "SPRX Mainnet"%js)]]]
       ++ match statusMessage st with Some m => when (negb (bool_decide (m = []))) (div [Text m]) | None => [] end
       ++ [El "main"%js [] []
             match account st with
             | None =>
                 match onboarding st with
                 | Some o => [map_view OnOnboarding (WalletOnboarding.render random index o)]
                 | None => []
                 end
             | Some a =>
                 match dashboard st with
                 | Some (_, d) =>
                     [map_view OnDashboard (WalletDashboard.render a (network st) (dash_state d))]
                 | None => []
                 end
             end]
       ++ match send st with
          | Some (_, s) => [map_view OnSend (SendModal.render s)]
          | None => []
          end
       ++ match receive st, account st with
          | Some (_, r), Some a => [map_view OnReceive (ReceiveModal.render a r)]
          | _, _ => []
          end).

(** *** The running application *)

Definition World := world State.

(** Commit the state and run the effect. *)
Definition settle (w : World) : World :=
  let '(st', eff) := commit (state w) in
  match eff with
  | None => mkWorld st' (tasks w)
  | Some c => start c (mkWorld st' (tasks w))
  end.

Inductive step : World → World → Prop :=
| Step_event random index subtle salt iv e w :
    fires (render random index (state w)) e → (index < 12)%nat →
    step w (settle (start (handler subtle salt iv e (state w)) w))
| Step_response i rq k r w :
    tasks w !! i = Some (Awaiting rq k) →
    step w (settle (start (k r) (mkWorld (state w) (remove_at i (tasks w)))))
| Step_yield i k w :
    tasks w !! i = Some (Yielded k) →
    step w (settle (start k (mkWorld (state w) (remove_at i (tasks w)))))
| Step_timer i t w :
    timers (state w) !! i = Some t →
    step w (settle (mkWorld (fire_timer t (set_timers (remove_at i (timers (state w))) (state w)))
                      (tasks w)))
| Step_interval id d w :
    dashboard (state w) = Some (id, d) →
    step w (settle (start (WalletDashboard.fetchBalance (upd_dash id)
                             (dash_interval d).1 (dash_interval d).2) w)).

Definition reachable (w : World) : Prop := rtc step (mkWorld init []) w.
End app.
End App.

