(* ===== verification/WalletAppFacts.v ===== *)
(** * Theorems on the web wallet

    Invariants of every reachable state, by induction on the steps of the running
    application: handlers, responses, timers and intervals in any order. *)
From S2P Require Import Prelude JsString JsStringFacts JsNumber JsJson Bytes Address Crypto.
From S2P Require Import WalletTypes HdWallet Vault Transaction TransactionFacts Async Client View.
From S2P Require Import Onboarding SendModal WalletApp.
Import AddressUtil HDWallet SpraxClient App.

Section app_facts.
Context `{B : Bech32} `{L : !Bech32Laws B} `{C : Crypto} `{CL : !CryptoLaws C}.
Context `{U : UnicodeCase} `{P : Bip39} `{SC : SubtleCrypto}.

(** The account and the private key come and go together, and belong to each
    other. *)
Definition key_ok (st : State) : Prop :=
  match account st with
  | None => privateKey st = None
  | Some a => ∃ sk pk, privateKey st = Some sk ∧ byte_array 32 sk
                ∧ ed25519_getPublicKey sk = Ok pk ∧ acc_algorithm a = Ed25519
                ∧ account_of_key a pk
  end.

(** Updates that leave both alone. *)
Definition keeps_key (f : State → State) : Prop :=
  ∀ st, account (f st) = account st ∧ privateKey (f st) = privateKey st.

Lemma keeps_key_ok f : keeps_key f → ∀ st, key_ok st → key_ok (f st).
Proof. intros Hf st. unfold key_ok. by destruct (Hf st) as [-> ->]. Qed.

Lemma handleSend_preserves id pr s :
  preserves any_response key_ok (SendModal.handleSend (upd_send id) onSendSuccess onSendClose pr s).
Proof.
  assert (∀ f, keeps_key (upd_send id f)) as Hu by done.
  unfold SendModal.handleSend. apply preserves_bind; [by apply preserves_write, keeps_key_ok|].
  intros _. destruct (negb _); [by apply preserves_write, keeps_key_ok|].
  apply preserves_finally; [|by apply keeps_key_ok].
  apply preserves_catch; [|intros e; by apply preserves_write, keeps_key_ok].
  destruct (_ || _); [by apply preserves_write, keeps_key_ok|].
  apply preserves_bind; [by apply preserves_write, keeps_key_ok|]. intros _.
  apply preserves_bind; [apply pure_preserves, getAccountNonce_pure|]. intros nonce.
  apply preserves_lift. intros tx _.
  apply preserves_bind; [apply pure_preserves, broadcastTransaction_pure|]. intros h.
  apply preserves_bind; [|by intros _; apply preserves_write, keeps_key_ok].
  unfold onSendSuccess. apply preserves_bind; [by apply preserves_write, keeps_key_ok|]. intros _.
  apply preserves_lift. intros x _. by apply preserves_write, keeps_key_ok.
Qed.

Lemma handleVaultCreated_preserves subtle salt iv m pw :
  preserves any_response key_ok (handleVaultCreated subtle salt iv m pw).
Proof.
  apply preserves_catch; [|intros e; by apply preserves_write, keeps_key_ok].
  apply preserves_lift. intros w _. apply preserves_lift. intros [a sk] Hd.
  apply preserves_bind; [by destruct (WalletVault.encrypt _ _ _ _ _ _)|]. intros v.
  apply preserves_write. intros st _. unfold key_ok. cbn.
  destruct (deriveAccount_spec w 0 None) as (a' & pk & Hd' & Hpk & _ & Ha & Hk).
  rewrite Hd in Hd'. injection Hd' as -> ->. exists (child_key w "ed25519 seed"%js 0), pk.
  split_and!; try done; [apply child_key_size|apply Hk..].
Qed.

Lemma fetchBalance_preserves id a n :
  preserves any_response key_ok (WalletDashboard.fetchBalance (upd_dash id) a n).
Proof.
  apply preserves_bind; [by apply preserves_write, keeps_key_ok|]. intros _.
  apply preserves_finally; [|by apply keeps_key_ok].
  apply preserves_bind; [apply pure_preserves, getBalance_pure|]. intros b.
  by apply preserves_write, keeps_key_ok.
Qed.

Lemma handler_preserves subtle salt iv e st : preserves any_response key_ok (handler subtle salt iv e st).
Proof.
  destruct e as [s|oe|de|se|re]; cbn [handler].
  - by apply preserves_write, keeps_key_ok.
  - destruct (onboarding st) as [o|]; [|done].
    destruct (WalletOnboarding.handle oe o) as [o' [[m pw]|]];
      (apply preserves_bind; [by apply preserves_write, keeps_key_ok|]; intros _); [|done].
    apply handleVaultCreated_preserves.
  - destruct (dashboard st) as [[id d]|], (account st) as [a|]; try done.
    destruct de; try (by apply preserves_write, keeps_key_ok).
    + by apply preserves_write.
    + destruct (WalletDashboard.Currency_of s); [|done]. by apply preserves_write, keeps_key_ok.
  - destruct (send st) as [[id s]|], (account st) as [a|], (privateKey st) as [k|]; try done.
    destruct se; try (by apply preserves_write, keeps_key_ok). apply handleSend_preserves.
  - destruct (receive st) as [[id s]|], (account st) as [a|]; try done.
    destruct re; by apply preserves_write, keeps_key_ok.
Qed.

(** In a committed state the send form is only mounted for an unlocked wallet. *)
Definition send_ok (st : State) : Prop := is_Some (send st) → is_Some (account st).

Lemma fetchBalance_send_ok id a n :
  preserves any_response send_ok (WalletDashboard.fetchBalance (upd_dash id) a n).
Proof.
  apply preserves_bind; [by apply preserves_write|]. intros _.
  apply preserves_finally; [|done].
  apply preserves_bind; [apply pure_preserves, getBalance_pure|]. intros b.
  by apply preserves_write.
Qed.

Definition world_ok : World → Prop := world_keeps any_response key_ok.

(** Committing leaves the key alone; its effect is a balance query. *)
Lemma commit_spec st :
  account (commit st).1 = account st ∧ privateKey (commit st).1 = privateKey st
  ∧ send_ok (commit st).1
  ∧ match (commit st).2 with
    | None => True
    | Some c => ∃ id a n, c = WalletDashboard.fetchBalance (upd_dash id) a n
    end.
Proof.
  unfold commit, send_ok, dash_effect. destruct (account st) as [a|] eqn:Ha; cbn.
  - destruct (dashboard st) as [[i d]|]; cbn; [case_bool_decide; cbn|]; rewrite ?Ha; eauto 10.
  - rewrite Ha. rewrite andb_false_r. cbn. split_and!; [done..| |done]. by intros [? ?].
Qed.

Lemma settle_ok w : world_ok w → world_ok (settle w) ∧ send_ok (state (settle w)).
Proof.
  intros [Hk Ht]. unfold settle. destruct (commit_spec (state w)) as (Ha & Hp & Hs & He).
  destruct (commit (state w)) as [st' [c|]]; cbn in *.
  - destruct He as (id & a & n & ->).
    assert (world_ok (mkWorld st' (tasks w))) as Hw.
    { split; [|done]. unfold key_ok. cbn. by rewrite Ha, Hp. }
    split; [by apply start_keeps; [apply fetchBalance_preserves|]|].
    unfold start. cbn.
    pose proof (advance_preserves any_response send_ok _ _ (fetchBalance_send_ok id a n) Hs) as [Hs' _].
    by destruct (advance _ _) as [st'' ?].
  - split; [|done]. split; [|done]. unfold key_ok. cbn. by rewrite Ha, Hp.
Qed.

Lemma step_ok w w' : App.step w w' → world_ok w → world_ok w' ∧ send_ok (state w').
Proof.
  destruct 1 as [r i subtle salt iv e w _ _|i rq k r w Ht|i k w Ht|i t w Ht|id d w Hd];
    intros Hw; apply settle_ok.
  - apply start_keeps; [apply handler_preserves|done].
  - by eapply respond_keeps.
  - by apply resume_keeps.
  - destruct Hw as [Hk Hts]. split; [|done]. cbn. apply keeps_key_ok; [by destruct t|done].
  - apply start_keeps; [apply fetchBalance_preserves|done].
Qed.

Lemma reachable_ok w : reachable w → world_ok w ∧ send_ok (state w).
Proof.
  unfold reachable. intros Hr.
  cut (∀ w0, rtc App.step w0 w → world_ok w0 ∧ send_ok (state w0) → world_ok w ∧ send_ok (state w)).
  { intros Hc. apply (Hc _ Hr). split; [|by intros [? ?]]. split; [done|]. constructor. }
  clear Hr. induction 1 as [|w1 w2 w3 H12 _ IH]; [done|]. intros [Hw _].
  apply IH. by eapply step_ok.
Qed.

(** C9. In every reachable state of the wallet, whatever the order of clicks,
    responses and timers: a locked wallet holds no private key; an unlocked one
    holds the key its account was derived from, with the account's two addresses
    and public key those of that key; and the send form is only there while it is
    unlocked. *)
Theorem wallet_key_invariant (w : World) :
  reachable w →
  match account (state w) with
  | None => privateKey (state w) = None ∧ send (state w) = None
  | Some a => ∃ sk pk, privateKey (state w) = Some sk ∧ byte_array 32 sk
                ∧ ed25519_getPublicKey sk = Ok pk ∧ account_of_key a pk
  end.
Proof.
  intros [[Hk _] Hs]%reachable_ok. unfold key_ok, send_ok in *.
  destruct (account (state w)) as [a|].
  - destruct Hk as (sk & pk & Hk & Hb & Hp & _ & Ha). exists sk, pk. by split_and!; try apply Ha.
  - split; [done|]. destruct (send (state w)); [|done]. by destruct Hs as [? ?].
Qed.

(** Locking the wallet takes the account and the key away and closes the send
    and receive panels and the dashboard; the onboarding screen is shown. *)
Lemma lock_clears (st : State) :
  let st' := (commit (handleLockWallet st)).1 in
  account st' = None ∧ privateKey st' = None ∧ send st' = None ∧ receive st' = None
  ∧ dashboard st' = None ∧ is_Some (onboarding st').
Proof.
  cbn. unfold commit. cbn. rewrite !andb_false_r. by split_and!.
Qed.


(** A balance that arrives late is shown as that of the network selected in
    the meantime: the continuation of a query for [n] stores its answer in the
    dashboard whatever the network of the state it resumes in. *)
Lemma late_balance_shown (id : nat) (a : Account) (n : NetworkConfig) (st : State) :
  ∃ k rq st1, advance (WalletDashboard.fetchBalance (upd_dash id) a n) st = (st1, Awaiting rq k)
  ∧ rq_url rq = net_rpcUrl n ++ "/accounts/"%js ++ acc_addressBech32 a ++ "/balance"%js
  ∧ ∀ r b st' d, run (getBalance (new_SpraxClient (Some n)) (acc_addressBech32 a)) st' [Ok r]
                 = Some (Ok b, st', [rq]) →
      dashboard st' = Some (id, d) →
      ∃ st'' d', run (k (Ok r)) st' [] = Some (Ok tt, st'', [])
        ∧ dashboard st'' = Some (id, d') ∧ WalletDashboard.balance (dash_state d') = b
        ∧ network st'' = network st'.
Proof.
  eexists _, _, _. split; [reflexivity|]. split; [reflexivity|].
  intros r b st' d Hb Hd. cbn in Hb |- *.
  assert (∃ d', dashboard (upd_dash id (WalletDashboard.set_isLoading false)
      (upd_dash id (WalletDashboard.set_balance b) st')) = Some (id, d')
      ∧ WalletDashboard.balance (dash_state d') = b) as (d' & E1 & E2).
  { cbn. rewrite Hd. cbn. rewrite !Nat.eqb_refl. by eexists. }
  destruct (rs_ok r); cbn in Hb |- *; [|injection Hb as <-; by eexists _, d'].
  destruct (rs_json r) as [j|]; cbn in Hb |- *; [|injection Hb as <-; by eexists _, d'].
  destruct (get_prop j _) as [v|]; cbn in Hb |- *; [|injection Hb as <-; by eexists _, d'].
  destruct (BigInt_of _) as [z|]; cbn in Hb |- *; injection Hb as <-; by eexists _, d'.
Qed.
End app_facts.

(** ** Witnesses *)

Section app_witnesses.
#[local] Existing Instances ascii_case PlainBech32.plain_bech32 PlainBech32.plain_bech32_laws
  PlainCrypto.plain_crypto PlainCrypto.plain_crypto_laws PlainBip39.plain_bip39
  PlainSubtle.plain_subtle.

Definition example_tx0 : SignedTransaction :=
  match TransactionBuilder.sign
    (mkSendTxRequest (acc_addressBech32 example_account) (SendModal.recipient example_form)
       (SendModal.amount example_form) (JNum (NInt 0)) None (Some (SendModal.memo example_form))
       None)
    (net_chainId NETWORKS.testnet) (replicate 32 9%N) Ed25519 with
  | Ok tx => tx
  | Throw _ => mkSignedTransaction (mkTxBody [] [] JUndef [] [] 0 [] 0) [] [] []
  end.

(** The world after importing a phrase and choosing a password. *)
Definition perform (e : Event) (w : World) : World :=
  settle (start (handler true (replicate 16 1%N) (replicate 12 2%N) e (state w)) w).

Definition import_events : list Event :=
  OnOnboarding <$> [WalletOnboarding.StartImport;
                    WalletOnboarding.TypeImport (PlainBip39.phrase 12);
                    WalletOnboarding.ImportMnemonic;
                    WalletOnboarding.TypePassword "hunter2hunter2"%js;
                    WalletOnboarding.TypeConfirm "hunter2hunter2"%js;
                    WalletOnboarding.CompletePassword].

Definition submitted_world : World :=
  foldl (λ w e, perform e w) (mkWorld App.init []) import_events.

(** Resume the first task, which has nothing to wait for. *)
Definition resume (w : World) : World :=
  match tasks w with
  | Yielded k :: ts => settle (start k (mkWorld (state w) ts))
  | _ => w
  end.

Definition unlocked_world : World := resume submitted_world.

Definition is_unlocked (w : World) : bool := bool_decide (is_Some (account (state w))).

(** The user performs the [i]-th action the view offers. *)
Lemma perform_step i a e w :
  actions (render [] 0 (state w)) !! i = Some a → gives a e → App.step w (perform e w).
Proof.
  intros Ha Hg. apply (Step_event [] 0); [|lia]. apply Exists_exists. exists a.
  split; [|done]. by eapply list_elem_of_lookup_2.
Qed.

Lemma perform_do i e w w' :
  actions (render [] 0 (state w)) !! i = Some (Do e) →
  rtc App.step (perform e w) w' → rtc App.step w w'.
Proof. intros Ha. apply rtc_l. by eapply perform_step. Qed.

Lemma perform_type i f x w w' :
  actions (render [] 0 (state w)) !! i = Some (Type_in f) →
  rtc App.step (perform (f x) w) w' → rtc App.step w w'.
Proof. intros Ha. apply rtc_l. eapply perform_step; [done|]. by exists x. Qed.

Lemma submitted_reachable : reachable submitted_world.
Proof.
  unfold submitted_world, import_events. cbn [fmap list_fmap foldl].
  eapply (perform_do 2); [vm_compute; reflexivity|].
  eapply (perform_type 1 _ (PlainBip39.phrase 12)); [vm_compute; reflexivity|].
  eapply (perform_do 2); [vm_compute; reflexivity|].
  eapply (perform_type 1 _ "hunter2hunter2"%js); [vm_compute; reflexivity|].
  eapply (perform_type 2 _ "hunter2hunter2"%js); [vm_compute; reflexivity|].
  eapply (perform_do 1); [vm_compute; reflexivity|].
  apply rtc_refl.
Qed.

Lemma resume_reachable w : reachable w → reachable (resume w).
Proof.
  intros Hr. unfold resume. destruct (tasks w) as [|[| |k] ts] eqn:E; [done..|].
  eapply rtc_r; [exact Hr|]. pose proof (Step_yield 0 k w) as Hs.
  rewrite E in Hs. by apply Hs.
Qed.

Lemma unlocked_reachable : reachable unlocked_world.
Proof. apply resume_reachable, submitted_reachable. Qed.

Lemma wallet_key_invariant_witness :
  match account (state unlocked_world) with
  | None => privateKey (state unlocked_world) = None ∧ send (state unlocked_world) = None
  | Some a => ∃ sk pk, privateKey (state unlocked_world) = Some sk ∧ byte_array 32 sk
                ∧ ed25519_getPublicKey sk = Ok pk ∧ account_of_key a pk
  end ∧ is_unlocked unlocked_world = true.
Proof.
  split; [exact (wallet_key_invariant unlocked_world unlocked_reachable)|].
  vm_compute. reflexivity.
Defined.

End app_witnesses.
