(* ===== verification/MockData.v ===== *)
(** * Fallback data of the explorer: [apps/explorer-ui/src/services/mockData.ts]

    The objects the explorer shows when neither the indexer nor a node answers.
    [loaded] is the value of [Date.now()] when the module was loaded. *)
From S2P Require Import Prelude JsString JsNumber JsJson.

Module MockData.

Definition MOCK_GENESIS_VALIDATORS : list jsval :=
  [
    JObj [("operator_address"%js, JStr "spraxvaloper1q8x9y7w6e5r4t3y2u1i0o9p8a7s6d5f4g3h2j1"%js);
          ("moniker"%js, JStr "SPRX Core Genesis Alpha"%js);
          ("voting_power"%js, JNum (NInt 3500000));
          ("voting_power_percentage"%js, JNum (lit 350 (-1)));
          ("tokens"%js, JStr "3,500,000 SPRX"%js);
          ("commission_rate"%js, JNum (lit 5 (-2)));
          ("status"%js, JStr "Active"%js);
          ("is_tombstoned"%js, JBool false);
          ("missed_blocks_count"%js, JNum (NInt 0));
          ("uptime_percentage"%js, JNum (lit 9998 (-2)));
          ("blocks_proposed_count"%js, JNum (NInt 48920))];
    JObj [("operator_address"%js, JStr "spraxvaloper1a2s3d4f5g6h7j8k9l0z1x2c3v4b5n6m7q8w9e0"%js);
          ("moniker"%js, JStr "Global Real-World X Node"%js);
          ("voting_power"%js, JNum (NInt 2800000));
          ("voting_power_percentage"%js, JNum (lit 280 (-1)));
          ("tokens"%js, JStr "2,800,000 SPRX"%js);
          ("commission_rate"%js, JNum (lit 4 (-2)));
          ("status"%js, JStr "Active"%js);
          ("is_tombstoned"%js, JBool false);
          ("missed_blocks_count"%js, JNum (NInt 1));
          ("uptime_percentage"%js, JNum (lit 9995 (-2)));
          ("blocks_proposed_count"%js, JNum (NInt 39150))];
    JObj [("operator_address"%js, JStr "spraxvaloper1z9y8x7w6v5u4t3s2r1q0p9o8n7m6l5k4j3h2g1"%js);
          ("moniker"%js, JStr "Nexus Staking Labs"%js);
          ("voting_power"%js, JNum (NInt 1900000));
          ("voting_power_percentage"%js, JNum (lit 190 (-1)));
          ("tokens"%js, JStr "1,900,000 SPRX"%js);
          ("commission_rate"%js, JNum (lit 5 (-2)));
          ("status"%js, JStr "Active"%js);
          ("is_tombstoned"%js, JBool false);
          ("missed_blocks_count"%js, JNum (NInt 3));
          ("uptime_percentage"%js, JNum (lit 9989 (-2)));
          ("blocks_proposed_count"%js, JNum (NInt 26400))];
    JObj [("operator_address"%js, JStr "spraxvaloper1m0n9b8v7c6x5z4l3k2j1h0g9f8d7s6a5q4w3e2"%js);
          ("moniker"%js, JStr "Hyperion Validator"%js);
          ("voting_power"%js, JNum (NInt 1200000));
          ("voting_power_percentage"%js, JNum (lit 120 (-1)));
          ("tokens"%js, JStr "1,200,000 SPRX"%js);
          ("commission_rate"%js, JNum (lit 8 (-2)));
          ("status"%js, JStr "Active"%js);
          ("is_tombstoned"%js, JBool false);
          ("missed_blocks_count"%js, JNum (NInt 6));
          ("uptime_percentage"%js, JNum (lit 9972 (-2)));
          ("blocks_proposed_count"%js, JNum (NInt 16800))];
    JObj [("operator_address"%js, JStr "spraxvaloper1p1o2i3u4y5t6r7e8w9q0a1s2d3f4g5h6j7k8l9"%js);
          ("moniker"%js, JStr "Antares Infrastructure"%js);
          ("voting_power"%js, JNum (NInt 600000));
          ("voting_power_percentage"%js, JNum (lit 60 (-1)));
          ("tokens"%js, JStr "600,000 SPRX"%js);
          ("commission_rate"%js, JNum (lit 10 (-2)));
          ("status"%js, JStr "Active"%js);
          ("is_tombstoned"%js, JBool false);
          ("missed_blocks_count"%js, JNum (NInt 12));
          ("uptime_percentage"%js, JNum (lit 9945 (-2)));
          ("blocks_proposed_count"%js, JNum (NInt 8400))]].

Definition str_field (v : jsval) (k : jsstring) : jsstring :=
  match v with JObj fs => match obj_get fs k with JStr s => s | _ => [] end | _ => [] end.

Definition int (z : Z) : jsval := JNum (NInt z).

Definition mock_block (loaded : Z) (i : nat) : jsval :=
  let iz := Z.of_nat i in
  let height := (8245920 - iz)%Z in
  let now := (loaded / 1000 - iz * 2)%Z in
  let proposer := str_field (nth (i mod length MOCK_GENESIS_VALIDATORS) MOCK_GENESIS_VALIDATORS JUndef)
                    "operator_address"%js in
  JObj [("height"%js, int height);
        ("hash"%js, JStr ("0x7f8a9b2c3d4e5f60718293a4b5c6d7e8f901a2b3c4d5e6f708192a3b4c5d6e7"%js
                          ++ Z_to_string (iz mod 10)));
        ("parent_hash"%js, JStr ("0x6e7d8c9b0a1f2e3d4c5b6a708192a3b4c5d6e7f8091a2b3c4d5e6f708192a3b"%js
                                 ++ Z_to_string ((iz + 1) mod 10)));
        ("chain_id"%js, JStr "sprax-mainnet-1"%js);
        ("timestamp_unix_secs"%js, int now);
        ("proposer"%js, JStr proposer);
        ("txs_count"%js, int ((iz * 7 + 3) mod 18 + 1));
        ("txs_root"%js, JStr "0x11223344556677889900aabbccddeeff00112233445566778899aabbccddeeff"%js);
        ("state_root"%js, JStr "0xabcdef0123456789abcdef0123456789abcdef0123456789abcdef0123456789"%js);
        ("gas_used"%js, int (145000 + iz * 12500));
        ("block_size_bytes"%js, int (4200 + iz * 350))].

Definition MOCK_GENESIS_BLOCKS (loaded : Z) : list jsval := mock_block loaded <$> seq 0 20.

Definition tx_types : list jsstring :=
  ["Transfer"%js; "Delegate"%js; "ContractCall"%js; "Transfer"%js; "Undelegate"%js; "Transfer"%js].
Definition tx_senders : list jsstring :=
  ["sprax1sdtpz05x2r7d70u428v2ff3rtyj49z65a380gr"%js;
   "sprax1q8x9y7w6e5r4t3y2u1i0o9p8a7s6d5f4g3h2j1"%js;
   "sprax1a2s3d4f5g6h7j8k9l0z1x2c3v4b5n6m7q8w9e0"%js].
Definition tx_recipients : list jsstring :=
  ["sprax1z9y8x7w6v5u4t3s2r1q0p9o8n7m6l5k4j3h2g1"%js;
   "sprax1m0n9b8v7c6x5z4l3k2j1h0g9f8d7s6a5q4w3e2"%js;
   "sprax14hj2tavq8fpesdwxxcu44rty3hh90vhujrvcmstl4zr3txmfvw9syh7p89"%js].

Definition mock_tx (loaded : Z) (i : nat) : jsval :=
  let iz := Z.of_nat i in
  let height := (8245920 - iz / 2)%Z in
  let now := (loaded / 1000 - iz * 3)%Z in
  let msgType := nth (i mod 6) tx_types [] in
  JObj [("tx_hash"%js, JStr ("0x89abcdef0123456789abcdef0123456789abcdef0123456789abcdef01234567"%js
                             ++ padStart 2 48 (N_to_radix 16 (N.of_nat i))));
        ("block_height"%js, int height);
        ("block_hash"%js, JStr ("0x7f8a9b2c3d4e5f60718293a4b5c6d7e8f901a2b3c4d5e6f708192a3b4c5d6e7"%js
                                ++ Z_to_string (iz mod 10)));
        ("sender"%js, JStr (nth (i mod 3) tx_senders []));
        ("recipient"%js, if bool_decide (msgType = "Transfer"%js)
                         then JStr (nth (i mod 3) tx_recipients []) else JNull);
        ("message_type"%js, JStr msgType);
        ("amount"%js, JStr (toFixed (num_mul (NInt (iz + 1)) (lit 245 (-1))) 2 ++ " SPRX"%js));
        ("fee_amount"%js, JStr "0.0005 SPRX"%js);
        ("nonce"%js, int (iz + 1));
        ("memo"%js, JStr (if (iz mod 3 =? 0)%Z then "SPRX Settlement"%js else []));
        ("success"%js, JBool (negb (i =? 7)%nat));
        ("gas_used"%js, int (if bool_decide (msgType = "ContractCall"%js) then 85000 else 21000));
        ("timestamp_unix_secs"%js, int now)].

Definition MOCK_GENESIS_TXS (loaded : Z) : list jsval := mock_tx loaded <$> seq 0 30.

Definition MOCK_GENESIS_STATS : jsval :=
  JObj [("chain_id"%js, JStr "sprax-mainnet-1"%js);
        ("latest_height"%js, JNum (NInt 8245920));
        ("latest_block_hash"%js, JStr "0x7f8a9b2c3d4e5f60718293a4b5c6d7e8f901a2b3c4d5e6f708192a3b4c5d6e70"%js);
        ("total_transactions"%js, JNum (NInt 14852910));
        ("total_accounts"%js, JNum (NInt 342180));
        ("active_validators_count"%js, JNum (NInt 100));
        ("total_bonded_tokens"%js, JStr "420,000,000 SPRX"%js);
        ("avg_block_time_seconds"%js, JNum (lit 15 (-1)));
        ("current_tps"%js, JNum (lit 12405 (-1)));
        ("latest_state_root"%js, JStr "0xabcdef0123456789abcdef0123456789abcdef0123456789abcdef0123456789"%js)].

Definition MOCK_GENESIS_CONTRACTS : list jsval :=
  [
    JObj [("address"%js, JStr "sprax14hj2tavq8fpesdwxxcu44rty3hh90vhujrvcmstl4zr3txmfvw9syh7p89"%js);
          ("creator"%js, JStr "sprax1sdtpz05x2r7d70u428v2ff3rtyj49z65a380gr"%js);
          ("created_height"%js, JNum (NInt 124000));
          ("bytecode_size"%js, JNum (NInt 48200));
          ("tx_count"%js, JNum (NInt 894000));
          ("verified"%js, JBool true);
          ("compiler_version"%js, JStr "cosmwasm-rust:1.80.0"%js);
          ("abi"%js, JStr (json_pretty 2 (JObj [("contract"%js, JStr "CW20-RealWorldUSD"%js);
            ("standard"%js, JStr "SXS-20"%js);
            ("decimals"%js, JNum (NInt 6));
            ("symbol"%js, JStr "sUSD"%js)])));
          ("source_code"%js, JStr "// CW20 Standard Token Implementation for RealWorld USD on SPRX
use cosmwasm_std::{entry_point, Binary, Deps, DepsMut, Env, MessageInfo, Response, StdResult};
use cw20_base::contract::{execute as cw20_execute, instantiate as cw20_instantiate, query as cw20_query};
use cw20_base::msg::{ExecuteMsg, InstantiateMsg, QueryMsg};

#[entry_point]
pub fn instantiate(deps: DepsMut, env: Env, info: MessageInfo, msg: InstantiateMsg) -> StdResult<Response> {
    cw20_instantiate(deps, env, info, msg)
}

#[entry_point]
pub fn execute(deps: DepsMut, env: Env, info: MessageInfo, msg: ExecuteMsg) -> StdResult<Response> {
    cw20_execute(deps, env, info, msg)
}"%js)];
    JObj [("address"%js, JStr "sprax1v8x7y6w5e4r3t2y1u0i9o8p7a6s5d4f3g2h1j0k9l8z7x6c5v4b3n2m1q0"%js);
          ("creator"%js, JStr "sprax1sdtpz05x2r7d70u428v2ff3rtyj49z65a380gr"%js);
          ("created_height"%js, JNum (NInt 245000));
          ("bytecode_size"%js, JNum (NInt 64100));
          ("tx_count"%js, JNum (NInt 412000));
          ("verified"%js, JBool true);
          ("compiler_version"%js, JStr "cosmwasm-rust:1.80.0"%js);
          ("abi"%js, JStr (json_pretty 2 (JObj [("contract"%js, JStr "MultiPartyEscrowRWA"%js);
            ("standard"%js, JStr "SXS-Escrow"%js)])))];
    JObj [("address"%js, JStr "sprax1k9l8z7x6c5v4b3n2m1q0w9e8r7t6y5u4i3o2p1a0s9d8f7g6h5j4k3l2z1"%js);
          ("creator"%js, JStr "sprax1sdtpz05x2r7d70u428v2ff3rtyj49z65a380gr"%js);
          ("created_height"%js, JNum (NInt 520000));
          ("bytecode_size"%js, JNum (NInt 38900));
          ("tx_count"%js, JNum (NInt 154000));
          ("verified"%js, JBool true);
          ("compiler_version"%js, JStr "cosmwasm-rust:1.80.0"%js);
          ("abi"%js, JStr (json_pretty 2 (JObj [("contract"%js, JStr "OnChainGovernanceTreasury"%js);
            ("standard"%js, JStr "SXS-Gov"%js)])))]].

Definition MOCK_ECOSYSTEM_PROJECTS : list jsval :=
  [
    JObj [("id"%js, JStr "sprax-swap"%js);
          ("name"%js, JStr "SpraxSwap DEX"%js);
          ("tagline"%js, JStr "Ultra-low latency AMM and Orderbook Hybrid"%js);
          ("description"%js, JStr "Next-generation decentralized exchange with concentrated liquidity, sub-second settlement, and native multi-asset fee routing."%js);
          ("category"%js, JStr "DeFi"%js);
          ("stage"%js, JStr "Mainnet"%js);
          ("verified"%js, JBool true);
          ("website"%js, JStr "https://swap.sprax.network"%js);
          ("github"%js, JStr "https://github.com/sprax-chain/sprax-swap"%js);
          ("metrics"%js, JObj [("label"%js, JStr "24h Volume"%js);
            ("value"%js, JStr "$4.2M"%js)])];
    JObj [("id"%js, JStr "sprax-rwa-settlement"%js);
          ("name"%js, JStr "SPRX Settlement Rails"%js);
          ("tagline"%js, JStr "Institutional Real-World Asset Tokenization & Settlement"%js);
          ("description"%js, JStr "Compliant digital bond, real estate, and invoice tokenization infrastructure with automated dividend distribution and legal escrow anchors."%js);
          ("category"%js, JStr "RWA & Payments"%js);
          ("stage"%js, JStr "Mainnet"%js);
          ("verified"%js, JBool true);
          ("website"%js, JStr "https://rwa.sprax.network"%js);
          ("metrics"%js, JObj [("label"%js, JStr "Total Asset Value"%js);
            ("value"%js, JStr "$18.5M"%js)])];
    JObj [("id"%js, JStr "sprax-wallet-mobile"%js);
          ("name"%js, JStr "SPRX Mobile & Web Wallet"%js);
          ("tagline"%js, JStr "Non-custodial, multi-currency HD wallet suite"%js);
          ("description"%js, JStr "Hardware-grade key security, BIP-39 mnemonic recovery, biometric signing, fiat conversions, and seamless dApp connect."%js);
          ("category"%js, JStr "Wallets"%js);
          ("stage"%js, JStr "Mainnet"%js);
          ("verified"%js, JBool true);
          ("website"%js, JStr "https://wallet.sprax.network"%js);
          ("github"%js, JStr "https://github.com/sprax-chain/sprax/tree/main/apps/mobile-wallet"%js);
          ("metrics"%js, JObj [("label"%js, JStr "Active Users"%js);
            ("value"%js, JStr "85K+"%js)])];
    JObj [("id"%js, JStr "sprax-perp"%js);
          ("name"%js, JStr "SpraxPerp Perpetual Futures"%js);
          ("tagline"%js, JStr "Zero-slippage synthetic perps with on-chain oracles"%js);
          ("description"%js, JStr "High-frequency decentralized perpetual contracts powered by real-time oracle price aggregation and sub-second CometBFT finality."%js);
          ("category"%js, JStr "DeFi"%js);
          ("stage"%js, JStr "Mainnet"%js);
          ("verified"%js, JBool true);
          ("website"%js, JStr "https://perps.sprax.network"%js);
          ("metrics"%js, JObj [("label"%js, JStr "Open Interest"%js);
            ("value"%js, JStr "$8.9M"%js)])];
    JObj [("id"%js, JStr "sprax-depin-node"%js);
          ("name"%js, JStr "SPRX DePIN Sensor Mesh"%js);
          ("tagline"%js, JStr "Verifiable IoT and energy telemetry on-chain"%js);
          ("description"%js, JStr "Lightweight cryptographic attestation nodes for decentralized physical infrastructure networks and real-world sensor streams."%js);
          ("category"%js, JStr "Enterprise"%js);
          ("stage"%js, JStr "Testnet"%js);
          ("verified"%js, JBool true);
          ("website"%js, JStr "https://depin.sprax.network"%js);
          ("metrics"%js, JObj [("label"%js, JStr "Active Nodes"%js);
            ("value"%js, JStr "1,420"%js)])];
    JObj [("id"%js, JStr "sprax-id-credentials"%js);
          ("name"%js, JStr "SPRX Identity & SXS-Credentials"%js);
          ("tagline"%js, JStr "Sovereign verifiable credentials and KYC abstractions"%js);
          ("description"%js, JStr "Privacy-preserving zero-knowledge identity assertions for compliant institutional DeFi and enterprise access control."%js);
          ("category"%js, JStr "Gaming & Identity"%js);
          ("stage"%js, JStr "In Development"%js);
          ("verified"%js, JBool true);
          ("website"%js, JStr "https://id.sprax.network"%js);
          ("metrics"%js, JObj [("label"%js, JStr "Credentials Issued"%js);
            ("value"%js, JStr "32K"%js)])];
    JObj [("id"%js, JStr "sprax-indexer-api"%js);
          ("name"%js, JStr "SPRX Graph Indexer"%js);
          ("tagline"%js, JStr "Real-time GraphQL and REST indexing layer"%js);
          ("description"%js, JStr "High-throughput block indexing engine providing sub-10ms query response times for enterprise dApps and analytics dashboards."%js);
          ("category"%js, JStr "Infrastructure"%js);
          ("stage"%js, JStr "Mainnet"%js);
          ("verified"%js, JBool true);
          ("website"%js, JStr "https://indexer.sprax.network"%js);
          ("github"%js, JStr "https://github.com/sprax-chain/sprax/tree/main/crates/sprax-indexer"%js);
          ("metrics"%js, JObj [("label"%js, JStr "Avg Query Latency"%js);
            ("value"%js, JStr "8ms"%js)])]].

Definition MOCK_MARKET_ASSETS : list jsval :=
  [
    JObj [("id"%js, JStr "sprx"%js);
          ("symbol"%js, JStr "SPRX"%js);
          ("name"%js, JStr "SPRX Native"%js);
          ("priceUsd"%js, JNum (lit 148 (-2)));
          ("change24h"%js, JNum (lit 684 (-2)));
          ("high24h"%js, JNum (lit 154 (-2)));
          ("low24h"%js, JNum (lit 136 (-2)));
          ("volume24hUsd"%js, JNum (NInt 8450200));
          ("marketCapUsd"%js, JNum (NInt 1480000000));
          ("circulatingSupply"%js, JStr "1,000,000,000 SPRX"%js);
          ("sparkline"%js, JArr [JNum (lit 136 (-2)); JNum (lit 138 (-2)); JNum (lit 141 (-2)); JNum (lit 139 (-2)); JNum (lit 144 (-2)); JNum (lit 146 (-2)); JNum (lit 148 (-2))]);
          ("category"%js, JStr "Native"%js)];
    JObj [("id"%js, JStr "susd"%js);
          ("symbol"%js, JStr "sUSD"%js);
          ("name"%js, JStr "SPRX Real-World USD"%js);
          ("priceUsd"%js, JNum (lit 100 (-2)));
          ("change24h"%js, JNum (lit 2 (-2)));
          ("high24h"%js, JNum (lit 1002 (-3)));
          ("low24h"%js, JNum (lit 998 (-3)));
          ("volume24hUsd"%js, JNum (NInt 12400000));
          ("marketCapUsd"%js, JNum (NInt 45000000));
          ("circulatingSupply"%js, JStr "45,000,000 sUSD"%js);
          ("sparkline"%js, JArr [JNum (lit 100 (-2)); JNum (lit 100 (-2)); JNum (lit 1001 (-3)); JNum (lit 999 (-3)); JNum (lit 100 (-2)); JNum (lit 100 (-2)); JNum (lit 100 (-2))]);
          ("category"%js, JStr "Stable Asset"%js)];
    JObj [("id"%js, JStr "sprax-swap-token"%js);
          ("name"%js, JStr "SpraxSwap Governance"%js);
          ("symbol"%js, JStr "SSWAP"%js);
          ("priceUsd"%js, JNum (lit 62 (-2)));
          ("change24h"%js, JNum (lit 415 (-2)));
          ("high24h"%js, JNum (lit 65 (-2)));
          ("low24h"%js, JNum (lit 58 (-2)));
          ("volume24hUsd"%js, JNum (NInt 1820000));
          ("marketCapUsd"%js, JNum (NInt 18600000));
          ("circulatingSupply"%js, JStr "30,000,000 SSWAP"%js);
          ("sparkline"%js, JArr [JNum (lit 58 (-2)); JNum (lit 59 (-2)); JNum (lit 60 (-2)); JNum (lit 61 (-2)); JNum (lit 60 (-2)); JNum (lit 63 (-2)); JNum (lit 62 (-2))]);
          ("category"%js, JStr "DeFi"%js)];
    JObj [("id"%js, JStr "sprax-rwa-bond"%js);
          ("name"%js, JStr "SPRX Treasury Yield Bond"%js);
          ("symbol"%js, JStr "sTBOND"%js);
          ("priceUsd"%js, JNum (lit 10420 (-2)));
          ("change24h"%js, JNum (lit 12 (-2)));
          ("high24h"%js, JNum (lit 10425 (-2)));
          ("low24h"%js, JNum (lit 10410 (-2)));
          ("volume24hUsd"%js, JNum (NInt 3100000));
          ("marketCapUsd"%js, JNum (NInt 25000000));
          ("circulatingSupply"%js, JStr "240,000 sTBOND"%js);
          ("sparkline"%js, JArr [JNum (lit 10410 (-2)); JNum (lit 10412 (-2)); JNum (lit 10415 (-2)); JNum (lit 10418 (-2)); JNum (lit 10419 (-2)); JNum (lit 10420 (-2)); JNum (lit 10420 (-2))]);
          ("category"%js, JStr "RWA"%js)]].

Definition MOCK_SIPS : list jsval :=
  [
    JObj [("id"%js, JNum (NInt 1));
          ("sipNumber"%js, JStr "SIP-001"%js);
          ("title"%js, JStr "CometBFT Consensus & Dynamic Weighted Round-Robin Proposer Selection"%js);
          ("author"%js, JStr "SPRX Core Engineering Guild"%js);
          ("status"%js, JStr "Final"%js);
          ("category"%js, JStr "Consensus"%js);
          ("createdDate"%js, JStr "2026-01-15"%js);
          ("summary"%js, JStr "Formalizes Byzantine Fault Tolerant state-machine replication with deterministic round-robin proposer election prioritizing validator voting power and 1.5s block finality."%js);
          ("motivation"%js, JStr "Guarantees mathematical safety under 1/3 Byzantine adversarial thresholds and eliminates selfish proposing attacks."%js);
          ("specification"%js, JStr "Proposer priority increases by validator voting power at each step. The highest priority validator proposes block H."%js);
          ("rationale"%js, JStr "Battle-tested across Cosmos and CometBFT ecosystems, ensuring deterministic low-latency settlement."%js)];
    JObj [("id"%js, JNum (NInt 2));
          ("sipNumber"%js, JStr "SIP-002"%js);
          ("title"%js, JStr "CosmWasm Actor-Model WASM Virtual Machine (sprax-wasm)"%js);
          ("author"%js, JStr "SPRX Virtual Machine Working Group"%js);
          ("status"%js, JStr "Final"%js);
          ("category"%js, JStr "Execution"%js);
          ("createdDate"%js, JStr "2026-02-10"%js);
          ("summary"%js, JStr "Defines deterministic WebAssembly execution runtime with strict step-wise gas metering, memory boundaries, and non-reentrancy call stack guards."%js);
          ("motivation"%js, JStr "Enables secure, high-performance Rust smart contracts without the vulnerabilities inherent in EVM reentrancy and unchecked overflow."%js);
          ("specification"%js, JStr "Contracts export instantiate, execute, and query handlers. Sandboxed KV state isolation prevents cross-contract tampering."%js);
          ("rationale"%js, JStr "Rust compile-time safety and WASM isolation ensure enterprise-grade stability for complex financial logic."%js)];
    JObj [("id"%js, JNum (NInt 3));
          ("sipNumber"%js, JStr "SIP-003"%js);
          ("title"%js, JStr "Decoupled Universal Multi-Currency Presentation Layer"%js);
          ("author"%js, JStr "SPRX UX Architecture Team"%js);
          ("status"%js, JStr "Final"%js);
          ("category"%js, JStr "Standards"%js);
          ("createdDate"%js, JStr "2026-03-05"%js);
          ("summary"%js, JStr "Standardizes decentralized oracle price feed consumption in wallets and explorers to display balances in USD, INR, EUR, GBP, and JPY without contaminating chain state."%js);
          ("motivation"%js, JStr "Bridges blockchain precision with tangible real-world accounting for global users."%js);
          ("specification"%js, JStr "All consensus operations compute in 18-decimal atto-SPRX. Presentation layers query authenticated off-chain feeds."%js);
          ("rationale"%js, JStr "Keeps consensus strictly deterministic and free from off-chain oracle dependency inside the execution block cycle."%js)];
    JObj [("id"%js, JNum (NInt 4));
          ("sipNumber"%js, JStr "SIP-004"%js);
          ("title"%js, JStr "SXS-20 & SXS-721 Real-World Extensible Asset Standards"%js);
          ("author"%js, JStr "SPRX Standards Committee"%js);
          ("status"%js, JStr "Review"%js);
          ("category"%js, JStr "Standards"%js);
          ("createdDate"%js, JStr "2026-05-20"%js);
          ("summary"%js, JStr "Extensible smart contract specifications for fungible tokens, real-world asset collateral, and multi-signature regulatory escrow."%js);
          ("motivation"%js, JStr "Provides standard interfaces for institutional token issuance, automated dividend payouts, and KYC assertion checks."%js);
          ("specification"%js, JStr "Standard message interfaces for Transfer, Approve, MintWithMetadata, and EscrowDeposit."%js);
          ("rationale"%js, JStr "Unifies dApp interoperability across DeFi and real-world asset settlement platforms."%js)];
    JObj [("id"%js, JNum (NInt 5));
          ("sipNumber"%js, JStr "SIP-005"%js);
          ("title"%js, JStr "Dual-Tier Storage Architecture: Jellyfish Merkle Trie & Redb Block Log"%js);
          ("author"%js, JStr "SPRX Core Storage Team"%js);
          ("status"%js, JStr "Accepted"%js);
          ("category"%js, JStr "Core"%js);
          ("createdDate"%js, JStr "2026-06-12"%js);
          ("summary"%js, JStr "Implements memory-efficient pure-Rust state persistence using Redb and sparse Merkle state roots for instantaneous snapshot sync."%js);
          ("motivation"%js, JStr "Eliminates heavy C++ database dependencies while guaranteeing crash consistency and sub-millisecond state reads."%js);
          ("specification"%js, JStr "Separates state KV store from append-only raw block logs with automated WAL checkpointing."%js);
          ("rationale"%js, JStr "Reduces validator memory footprint by 45% compared to legacy storage models."%js)]].

Definition MOCK_GOVERNANCE_PROPOSALS : list jsval :=
  [
    JObj [("id"%js, JNum (NInt 12));
          ("title"%js, JStr "Parameter Update: Reduce Minimum Validator Self-Stake to 500 SPRX"%js);
          ("description"%js, JStr "Proposal to adjust network staking parameters to encourage broader validator decentralization across global regional nodes."%js);
          ("proposer"%js, JStr "sprax1sdtpz05x2r7d70u428v2ff3rtyj49z65a380gr"%js);
          ("status"%js, JStr "Voting"%js);
          ("category"%js, JStr "ParameterChange"%js);
          ("totalDeposit"%js, JStr "1,000 SPRX"%js);
          ("minDepositRequired"%js, JStr "1,000 SPRX"%js);
          ("votingEndTime"%js, JStr "2026-08-28 18:00 UTC"%js);
          ("votes"%js, JObj [("yes"%js, JNum (lit 784 (-1)));
            ("no"%js, JNum (lit 121 (-1)));
            ("noWithVeto"%js, JNum (lit 15 (-1)));
            ("abstain"%js, JNum (lit 80 (-1)))]);
          ("quorumMet"%js, JBool true);
          ("timelockDelayHours"%js, JNum (NInt 48))];
    JObj [("id"%js, JNum (NInt 11));
          ("title"%js, JStr "Ecosystem Grant: Funding for Open-Source Python & Go SPRX Client SDKs"%js);
          ("description"%js, JStr "Disburse 50,000 SPRX from Community Pool to developer collective for building production-grade Python and Go client SDKs."%js);
          ("proposer"%js, JStr "sprax1q8x9y7w6e5r4t3y2u1i0o9p8a7s6d5f4g3h2j1"%js);
          ("status"%js, JStr "Passed"%js);
          ("category"%js, JStr "CommunityPoolSpend"%js);
          ("totalDeposit"%js, JStr "1,000 SPRX"%js);
          ("minDepositRequired"%js, JStr "1,000 SPRX"%js);
          ("votingEndTime"%js, JStr "2026-08-14 12:00 UTC"%js);
          ("votes"%js, JObj [("yes"%js, JNum (lit 942 (-1)));
            ("no"%js, JNum (lit 31 (-1)));
            ("noWithVeto"%js, JNum (lit 2 (-1)));
            ("abstain"%js, JNum (lit 25 (-1)))]);
          ("quorumMet"%js, JBool true);
          ("timelockDelayHours"%js, JNum (NInt 24))]].

Definition MOCK_RESEARCH_PAPERS : list jsval :=
  [
    JObj [("id"%js, JStr "sprx-consensus-math"%js);
          ("title"%js, JStr "Formal Liveness & Safety Guarantees of BFT-PoS Under Partial Asynchrony"%js);
          ("authors"%js, JArr [JStr "SPRX Protocol Research Group"%js; JStr "Dr. A. Verma"%js; JStr "K. Thorne"%js]);
          ("date"%js, JStr "2026-04-18"%js);
          ("category"%js, JStr "Consensus"%js);
          ("abstract"%js, JStr "We prove mathematical safety invariants of the SPRX CometBFT consensus engine under network partitions and Byzantine equivocation, establishing optimal 1.5s block finality with minimal message complexity."%js);
          ("readingMinutes"%js, JNum (NInt 14))];
    JObj [("id"%js, JStr "sprx-rwa-framework"%js);
          ("title"%js, JStr "Deterministic Settlement Rails for Real-World Asset Tokenization"%js);
          ("authors"%js, JArr [JStr "Institutional DeFi Lab"%js; JStr "SPRX Legal Architecture Guild"%js]);
          ("date"%js, JStr "2026-06-02"%js);
          ("category"%js, JStr "RWA Legal Rails"%js);
          ("abstract"%js, JStr "A comprehensive framework integrating cryptographic on-chain state commitments with off-chain legal custodianship, automated dividend distribution, and multi-jurisdictional compliance."%js);
          ("readingMinutes"%js, JNum (NInt 22))];
    JObj [("id"%js, JStr "sprx-storage-jmt"%js);
          ("title"%js, JStr "Jellyfish Sparse Merkle Trees & Memory-Mapped State Persistence in Rust"%js);
          ("authors"%js, JArr [JStr "SPRX Storage Engineering Team"%js]);
          ("date"%js, JStr "2026-07-20"%js);
          ("category"%js, JStr "State Storage"%js);
          ("abstract"%js, JStr "Analyzing the performance characteristics of sparse Merkle commitment schemes combined with memory-mapped embedded key-value stores for high-throughput Layer-1 execution engines."%js);
          ("readingMinutes"%js, JNum (NInt 16))]].

End MockData.
