(* ===== verification/Types.v ===== *)
(** * Interfaces of JSON values

    A TypeScript interface as a description of values that can be checked. *)
From S2P Require Import Prelude JsString JsNumber JsJson.

#[warnings="-register-all"]
Inductive ty :=
| TAny
| TUndef
| TNull
| TBool
| TNum
| TStr
| TEnum (values : list jsstring)
| TOr (a b : ty)
| TArr (t : ty)
| TRecord (t : ty)
| TObj (fields : list (jsstring * bool * ty)).

(** A required and an optional field. *)
Definition req (k : jsstring) (t : ty) : jsstring * bool * ty := (k, false, t).
Definition opt (k : jsstring) (t : ty) : jsstring * bool * ty := (k, true, t).

Fixpoint conforms (t : ty) (v : jsval) : bool :=
  match t, v with
  | TAny, _ => true
  | TUndef, JUndef | TNull, JNull | TBool, JBool _ | TNum, JNum _ | TStr, JStr _ => true
  | TEnum values, JStr s => bool_decide (s ∈ values)
  | TOr a b, _ => conforms a v || conforms b v
  | TArr t', JArr l => forallb (conforms t') l
  | TRecord t', JObj fs => forallb (λ kv, conforms t' kv.2) fs
  | TObj fields, JObj fs =>
      forallb (λ f, let '(k, optional, t') := f in
                    let x := obj_get fs k in
                    if is_undef x then optional || conforms t' x else conforms t' x) fields
  | _, _ => false
  end.

(** The same type with any string for an enumerated one. *)
Fixpoint loose (t : ty) : ty :=
  match t with
  | TEnum _ => TStr
  | TOr a b => TOr (loose a) (loose b)
  | TArr t' => TArr (loose t')
  | TRecord t' => TRecord (loose t')
  | TObj fields => TObj (map (λ f, let '(k, optional, t') := f in (k, optional, loose t')) fields)
  | _ => t
  end.
