(* ===== verification/RenderTyped.v ===== *)
(** * Rendering typed values

    A component that shows values of their declared types does not throw. *)
From stdpp Require Import gmap.
From S2P Require Import Prelude JsString JsNumber JsJson Formatters View Render Types.

(** ** Properties of typed values *)

Fixpoint field_ty (fields : list (jsstring * bool * ty)) (k : jsstring) : option (bool * ty) :=
  match fields with
  | [] => None
  | (k', o, t) :: fields' => if bool_decide (k' = k) then Some (o, t) else field_ty fields' k
  end.

(** A property of an optional or nullable value. *)
Definition opt_typed (t : ty) (v : jsval) : Prop := is_nullish v = true ∨ conforms t v = true.

Lemma field_ty_elem fields k o t : field_ty fields k = Some (o, t) → (k, o, t) ∈ fields.
Proof.
  induction fields as [|[[k' o'] t'] fields IH]; cbn; [done|].
  case_bool_decide as E; [|by right; apply IH].
  intros [= -> ->]. subst. by left.
Qed.

Lemma typed_prop fields v k o t :
  conforms (TObj fields) v = true → field_ty fields k = Some (o, t) →
  ∃ x, get_prop v k = Ok x ∧ (conforms t x = true ∨ (o = true ∧ x = JUndef)).
Proof.
  intros Hv Hk%field_ty_elem. destruct v as [| | | | | |fs]; try done. cbn in Hv.
  rewrite forallb_forall in Hv. apply list_elem_of_In in Hk. specialize (Hv _ Hk). cbn in Hv.
  exists (obj_get fs k). split; [done|]. destruct (obj_get fs k); cbn in Hv; auto.
  apply orb_true_iff in Hv as [->|?]; auto.
Qed.

Lemma req_prop fields v k t :
  conforms (TObj fields) v = true → field_ty fields k = Some (false, t) →
  ∃ x, get_prop v k = Ok x ∧ conforms t x = true.
Proof. intros Hv Hk. destruct (typed_prop _ _ _ _ _ Hv Hk) as (x & Hx & [?|[? _]]); [eauto|done]. Qed.

Lemma typed_not_nullish fields v : conforms (TObj fields) v = true → is_nullish v = false.
Proof. by destruct v. Qed.

Lemma typed_truthy fields v : conforms (TObj fields) v = true → truthy v = true.
Proof. by destruct v. Qed.

Lemma typed_array t v : conforms (TArr t) v = true → ∃ l, v = JArr l ∧ Forall (λ x, conforms t x = true) l.
Proof.
  destruct v as [| | | | |l|]; try done. cbn. intros Hl. exists l. split; [done|].
  apply Forall_forall. intros x Hx%list_elem_of_In. rewrite forallb_forall in Hl. auto.
Qed.

Lemma field_typed fields v k o t :
  opt_typed (TObj fields) v → field_ty fields k = Some (o, t) → opt_typed t (field v k).
Proof.
  intros [Hv|Hv] Hk.
  - left. unfold field, get_prop_opt. by rewrite Hv.
  - destruct (typed_prop _ _ _ _ _ Hv Hk) as (x & Hx & Ht). unfold field, get_prop_opt.
    rewrite (typed_not_nullish _ _ Hv), Hx. destruct Ht as [Ht|[_ ->]]; [by right|by left].
Qed.

(** ** Children *)

(** The types whose values can be shown. *)
Fixpoint renderable (t : ty) : bool :=
  match t with
  | TUndef | TNull | TBool | TNum | TStr | TEnum _ => true
  | TOr a b => renderable a && renderable b
  | TArr t' => renderable t'
  | TAny | TRecord _ | TObj _ => false
  end.

Lemma child_ok {E} t v : renderable t = true → conforms t v = true → is_ok (child (E := E) v) = true.
Proof.
  revert v. induction t as [| | | | | | |a IHa b IHb|t IH|t IH|fields]; intros v Hr Hv; try done;
    try (by destruct v).
  - cbn in Hr, Hv. apply andb_true_iff in Hr as [Ha Hb]. apply orb_true_iff in Hv as [Hv|Hv]; auto.
  - apply typed_array in Hv as (l & -> & Hl). cbn in Hr |- *.
    induction Hl as [|x l Hx _ IHl]; [done|]. specialize (IH x Hr Hx).
    destruct (child x); [|done]. cbn. destruct (_ l); [done|]. done.
Qed.

Lemma child_nullish {E} v : is_nullish v = true → is_ok (child (E := E) v) = true.
Proof. by destruct v. Qed.

Lemma child_opt_ok {E} t v : renderable t = true → opt_typed t v → is_ok (child (E := E) v) = true.
Proof. intros Hr [Hv|Hv]; [by apply child_nullish|by eapply child_ok]. Qed.

Lemma child_or_ok {E} t v w :
  renderable t = true → opt_typed t v → is_ok (child (E := E) w) = true →
  is_ok (child (E := E) (js_or v w)) = true.
Proof. intros Hr Hv Hw. unfold js_or. destruct (truthy v); [by eapply child_opt_ok|done]. Qed.

Lemma child_nullish_ok {E} t v w :
  renderable t = true → opt_typed t v → is_ok (child (E := E) w) = true →
  is_ok (child (E := E) (js_nullish v w)) = true.
Proof. intros Hr Hv Hw. unfold js_nullish. destruct (is_nullish v); [done|by eapply child_opt_ok]. Qed.

Lemma show_ok {E} fields v k o t :
  conforms (TObj fields) v = true → field_ty fields k = Some (o, t) → renderable t = true →
  is_ok (show (E := E) v k) = true.
Proof.
  intros Hv Hk Hr. destruct (typed_prop _ _ _ _ _ Hv Hk) as (x & Hx & Ht). unfold show. rewrite Hx. cbn.
  destruct Ht as [Ht|[_ ->]]; [by eapply child_ok|done].
Qed.

(** Reading a property of an object, whatever it holds. *)
Lemma prop_bind_ok {B} fields v k (f : jsval → outcome B) :
  conforms (TObj fields) v = true → (∀ x, get_prop v k = Ok x → is_ok (f x) = true) →
  is_ok (get_prop v k ≫= f) = true.
Proof. intros Hv Hf. destruct v; try done. cbn. by apply Hf. Qed.

Lemma map_over_ok {E} name t v (f : nat → jsval → jsx E) :
  conforms (TArr t) v = true → (∀ i x, conforms t x = true → is_ok (f i x) = true) →
  is_ok (map_over name v f) = true.
Proof.
  intros (l & -> & Hl)%typed_array Hf. apply each_of_ok. eapply Forall_impl; [done|]. naive_solver.
Qed.

Lemma locale_string_num `{Host} v : conforms TNum v = true → is_ok (locale_string v) = true.
Proof. by destruct v. Qed.
