(* ===== verification/Offers.v ===== *)
(** * What views offer

    [good P r]: the render [r] succeeds, and the handlers of its views only cause
    events that satisfy [P]. *)
From stdpp Require Import gmap.
From S2P Require Import Prelude JsString JsNumber JsJson JsJsonFacts Formatters View Render Types RenderTyped.

(** ** Views *)

Section sound.
Context {E : Type} (P : E → Prop).

(** A handler that only causes events of [P]. *)
Definition handler_all (h : handler E) : Prop :=
  match h with
  | OnClick e | OnSubmit e | OnMouseEnter e | OnMouseLeave e => P e
  | OnChange f => ∀ s, P (f s)
  | OnKeyDown f => ∀ k e, f k = Some e → P e
  | StopPropagation => True
  end.

Fixpoint sound (v : view E) : Prop :=
  match v with
  | Text _ => True
  | El _ _ on l => Forall handler_all on ∧ foldr (λ v, and (sound v)) True l
  end.

Lemma sound_El tag attrs on l :
  sound (El tag attrs on l) ↔ Forall handler_all on ∧ Forall sound l.
Proof.
  cbn. enough (foldr (λ v, and (sound v)) True l ↔ Forall sound l) as -> by done.
  induction l as [|v l IH]; [by split; [constructor|]|]. cbn. by rewrite IH, Forall_cons.
Qed.

Lemma handler_gives tag attrs children h e :
  handler_all h → Exists (λ a, gives a e) (handler_actions tag attrs children h) → P e.
Proof.
  intros Hh He. destruct h; cbn in *; repeat case_match; apply Exists_exists in He as (a & Ha & Hg);
    try (by apply not_elem_of_nil in Ha); apply list_elem_of_singleton in Ha as ->; cbn in Hg; naive_solver.
Qed.

Lemma sound_fires v e : sound v → fires v e → P e.
Proof.
  revert v. fix IH 1. intros [s|tag attrs on l]; [by intros _ ?%fires_Text|].
  intros [Ho Hl] [He|He]%fires_El.
  - apply Exists_exists in He as (h & Hh & He). eapply handler_gives; [|exact He]. by eapply Forall_forall.
  - induction l as [|v l IHl]; [by apply Exists_nil in He|]. destruct Hl as [Hv Hl].
    apply Exists_cons in He as [He|He]; [by apply (IH v)|by apply IHl].
Qed.

Lemma sound_all l e : Forall sound l → Exists (λ v, fires v e) l → P e.
Proof. intros Hl (v & Hv & He)%Exists_exists. rewrite Forall_forall in Hl. eapply sound_fires; eauto. Qed.

(** Any view, for a condition that always holds. *)
Lemma sound_any v : (∀ e, P e) → sound v.
Proof.
  intros HP. revert v. fix IH 1. intros [s|tag attrs on l]; [done|]. split.
  - apply Forall_true. intros []; cbn; auto.
  - induction l as [|v l IHl]; [done|]. split; [apply IH|apply IHl].
Qed.

(** ** Markup *)

Lemma sound_htxt s : Forall sound (htxt s).
Proof. by repeat constructor. Qed.

Lemma sound_hel tag attrs on l :
  Forall handler_all on → Forall (Forall sound) l → Forall sound (hel tag attrs on l).
Proof.
  intros Ho Hl. constructor; [|constructor]. apply sound_El. split; [done|]. by apply Forall_concat.
Qed.

Lemma sound_hwhen b l : Forall sound l → Forall sound (hwhen b l).
Proof. by destruct b. Qed.

Lemma sound_heach {A} (l : list A) f : (∀ x, Forall sound (f x)) → Forall sound (heach l f).
Proof. intros Hf. apply Forall_concat, Forall_fmap, Forall_true. intros x. apply Hf. Qed.

Lemma sound_heach_in {A} (l : list A) f :
  Forall (λ x, Forall sound (f x)) l → Forall sound (heach l f).
Proof. intros Hl. by apply Forall_concat, Forall_fmap. Qed.

Lemma sound_heach_i {A} (l : list A) f : (∀ i x, Forall sound (f i x)) → Forall sound (heach_i l f).
Proof.
  intros Hf. apply Forall_concat. revert f Hf. induction l as [|x l IH]; intros f Hf; [constructor|].
  rewrite imap_cons. constructor; [apply Hf|]. apply IH. intros i y. apply Hf.
Qed.
End sound.

Lemma sound_map {E F} (f : E → F) (P : F → Prop) v : sound (λ e, P (f e)) v → sound P (map_view f v).
Proof.
  revert v. fix IH 1. intros [s|tag attrs on l]; [done|]. intros [Ho Hl]. split.
  - apply Forall_fmap. eapply Forall_impl; [exact Ho|]. intros [] Hh; cbn in *; try done.
    intros k e' (e & He & ->)%fmap_Some. by eapply Hh.
  - clear Ho. induction l as [|v l IHl]; [done|]. destruct Hl as [Hv Hl]. split; [by apply IH|by apply IHl].
Qed.

Lemma sound_fmap {E F} (f : E → F) (P : F → Prop) l :
  Forall (sound (λ e, P (f e))) l → Forall (sound P) (map_view f <$> l).
Proof. intros Hl. apply Forall_fmap. eapply Forall_impl; [exact Hl|]. intros v. apply sound_map. Qed.

(** A component whose events all satisfy [P]. *)
Lemma sound_local {E F} (f : E → F) (P : F → Prop) l :
  (∀ e, P (f e)) → Forall (sound P) (map_view f <$> l).
Proof. intros Hf. apply sound_fmap, Forall_true. intros v. by apply sound_any. Qed.

Lemma sound_impl {E} (P Q : E → Prop) v : (∀ e, P e → Q e) → sound P v → sound Q v.
Proof.
  intros Hpq. revert v. fix IH 1. intros [s|tag attrs on l]; [done|]. intros [Ho Hl]. split.
  - eapply Forall_impl; [exact Ho|]. intros []; cbn; eauto.
  - clear Ho. induction l as [|v l IHl]; [done|]. destruct Hl as [Hv Hl]. split; [by apply IH|by apply IHl].
Qed.

(** ** Renders *)

Section good.
Context {E : Type} (P : E → Prop).

Definition good (r : jsx E) : Prop := ∃ vs, r = Ok vs ∧ Forall (sound P) vs.

Lemma good_Ok vs : Forall (sound P) vs → good (Ok vs).
Proof. by exists vs. Qed.

Lemma good_children l : Forall good l → good (children l).
Proof.
  induction 1 as [|r l (vs & -> & Hv) _ (ws & IH & Hw)]; [by exists []|].
  cbn. rewrite IH. exists (vs ++ ws). split; [done|]. by apply Forall_app.
Qed.

Lemma good_el tag attrs on l : Forall (handler_all P) on → Forall good l → good (el tag attrs on l).
Proof.
  intros Ho (vs & Hvs & Hv)%good_children. unfold el. rewrite Hvs. eexists. split; [done|].
  constructor; [|constructor]. by apply sound_El.
Qed.

Lemma good_txt s : good (txt s).
Proof. eexists. split; [done|]. by repeat constructor. Qed.

Lemma good_none : good none.
Proof. by exists []. Qed.

Lemma good_jwhen b r : good r → good (jwhen b r).
Proof. destruct b; [done|]. intros _. apply good_none. Qed.

Lemma good_if (b : bool) r r' : good r → good r' → good (if b then r else r').
Proof. by destruct b. Qed.

Lemma good_jeach {A} (l : list A) f : (∀ x, good (f x)) → good (jeach l f).
Proof. intros Hf. apply good_children, Forall_fmap, Forall_true. intros x. apply Hf. Qed.

Lemma good_jeach_in {A} (l : list A) f : Forall (λ x, good (f x)) l → good (jeach l f).
Proof. intros Hl. by apply good_children, Forall_fmap. Qed.

Lemma good_jeach_typed t (l : list jsval) f :
  Forall (λ x, conforms t x = true) l → (∀ x, conforms t x = true → good (f x)) → good (jeach l f).
Proof. intros Hl Hf. apply good_children, Forall_fmap. eapply Forall_impl; [exact Hl|]. intros x. apply Hf. Qed.

Lemma good_jeach_i_typed t (l : list jsval) f :
  Forall (λ x, conforms t x = true) l → (∀ i x, conforms t x = true → good (f i x)) → good (jeach_i l f).
Proof.
  intros Hl Hf. apply good_children. revert f Hf.
  induction Hl as [|x l Hx _ IH]; intros f Hf; [constructor|].
  rewrite imap_cons. constructor; [by apply Hf|]. apply IH. intros i y. apply Hf.
Qed.

(** ** Values *)

Lemma child_sound v vs : child v = Ok vs → Forall (sound P) vs.
Proof.
  revert vs. induction v as [| | | | |l IH|fs] using jsval_rect'; cbn; intros vs Hv; simplify_eq;
    try (by repeat constructor).
  revert vs Hv. induction IH as [|x l Hx _ IHl]; intros vs Hv; simplify_eq; [constructor|].
  destruct (child x) as [ws|] eqn:Ex; [|done]. cbn in Hv. destruct (_ l) as [us|] eqn:El; [|done].
  cbn in Hv. simplify_eq. apply Forall_app. split; [by apply Hx|by apply IHl].
Qed.

Lemma good_child v : is_ok (child (E := E) v) = true → good (child v).
Proof. destruct (child v) as [vs|] eqn:Hv; [|done]. intros _. exists vs. split; [done|]. by eapply child_sound. Qed.

Lemma good_show fields v k o t :
  conforms (TObj fields) v = true → field_ty fields k = Some (o, t) → renderable t = true →
  good (show v k).
Proof.
  intros Hv Hk Hr. destruct (typed_prop _ _ _ _ _ Hv Hk) as (x & Hx & Ht). unfold show. rewrite Hx. cbn.
  apply good_child. destruct Ht as [Ht|[_ ->]]; [by eapply child_ok|done].
Qed.

Lemma good_prop fields v k o t f :
  conforms (TObj fields) v = true → field_ty fields k = Some (o, t) →
  (∀ x, (conforms t x = true ∨ o = true ∧ x = JUndef) → good (f x)) → good (get_prop v k ≫= f).
Proof.
  intros Hv Hk Hf. destruct (typed_prop _ _ _ _ _ Hv Hk) as (x & -> & Ht). by apply Hf.
Qed.

Lemma good_locale `{Host} fields v k f :
  conforms (TObj fields) v = true → field_ty fields k = Some (false, TNum) → (∀ s, good (f s)) →
  good (locale_prop v k ≫= f).
Proof.
  intros Hv Hk Hf. destruct (req_prop _ _ _ _ Hv Hk) as (x & Hx & Ht). unfold locale_prop. rewrite Hx.
  destruct x; try done. apply Hf.
Qed.

Lemma good_fixed fields v k d f :
  conforms (TObj fields) v = true → field_ty fields k = Some (false, TNum) → (∀ s, good (f s)) →
  good (fixed_prop v k d ≫= f).
Proof.
  intros Hv Hk Hf. destruct (req_prop _ _ _ _ Hv Hk) as (x & Hx & Ht). unfold fixed_prop. rewrite Hx.
  destruct x; try done. apply Hf.
Qed.

Lemma good_string fields v k m f :
  conforms (TObj fields) v = true → field_ty fields k = Some (false, TStr) → (∀ s, good (f s)) →
  good (string_prop v k m ≫= f).
Proof.
  intros Hv Hk Hf. destruct (req_prop _ _ _ _ Hv Hk) as (x & Hx & Ht). unfold string_prop. rewrite Hx.
  destruct x; try done. apply Hf.
Qed.

Lemma good_Ok_bind {A} (a : A) (f : A → jsx E) : good (f a) → good (Ok a ≫= f).
Proof. done. Qed.
End good.

Lemma good_map {E F} (f : E → F) (P : F → Prop) r : good (λ e, P (f e)) r → good P (map_jsx f r).
Proof. intros (vs & -> & Hv). eexists. split; [done|]. by apply sound_fmap. Qed.

Lemma good_impl {E} (P Q : E → Prop) r : (∀ e, P e → Q e) → good P r → good Q r.
Proof.
  intros Hpq (vs & -> & Hv). exists vs. split; [done|]. eapply Forall_impl; [exact Hv|]. intros v.
  by apply sound_impl.
Qed.
