(* ===== verification/ExplorerTypes.v ===== *)
(** * Data types of the explorer: [apps/explorer-ui/src/types/index.ts]

    The explorer's objects are JSON values that its interfaces describe but do
    not check: each interface is a [ty], and [conforms] tells whether a value has
    it. *)
From S2P Require Import Prelude JsString JsNumber JsJson Types.

Module ExplorerTypes.

Definition Network : ty :=
  TEnum ["mainnet"%js; "testnet"%js; "local"%js].

Definition Currency : ty :=
  TEnum ["USD"%js; "INR"%js; "EUR"%js; "GBP"%js; "JPY"%js].

Definition ThemeMode : ty :=
  TEnum ["dark"%js; "light"%js; "system"%js].

Definition PaginatedResponse (T : ty) : ty :=
  TObj [req "items"%js (TArr (T));
    req "total"%js (TNum);
    req "limit"%js (TNum);
    req "offset"%js (TNum);
    req "has_more"%js (TBool)].

Definition IndexedBlock : ty :=
  TObj [req "height"%js (TNum);
    req "hash"%js (TStr);
    req "parent_hash"%js (TStr);
    req "chain_id"%js (TStr);
    req "timestamp_unix_secs"%js (TNum);
    req "proposer"%js (TStr);
    req "txs_count"%js (TNum);
    req "txs_root"%js (TStr);
    req "state_root"%js (TStr);
    req "gas_used"%js (TNum);
    req "block_size_bytes"%js (TNum)].

Definition TxMessage : ty :=
  TObj [req "type"%js (TStr);
    req "sender"%js (TStr);
    opt "recipient"%js (TStr);
    opt "amount"%js (TStr);
    opt "data"%js (TStr)].

Definition IndexedTx : ty :=
  TObj [req "tx_hash"%js (TStr);
    req "block_height"%js (TNum);
    req "block_hash"%js (TStr);
    req "sender"%js (TStr);
    opt "recipient"%js (TOr (TStr) (TNull));
    req "message_type"%js (TStr);
    req "amount"%js (TStr);
    req "fee_amount"%js (TStr);
    req "nonce"%js (TNum);
    req "memo"%js (TStr);
    req "success"%js (TBool);
    req "gas_used"%js (TNum);
    req "timestamp_unix_secs"%js (TNum);
    opt "raw_messages"%js (TArr (TxMessage))].

Definition IndexedAccount : ty :=
  TObj [req "address"%js (TStr);
    req "address_hex"%js (TStr);
    req "balance"%js (TStr);
    req "balance_sprx"%js (TStr);
    req "nonce"%js (TNum);
    req "tx_count"%js (TNum);
    req "first_seen_height"%js (TNum);
    req "last_active_height"%js (TNum)].

Definition IndexedValidator : ty :=
  TObj [req "operator_address"%js (TStr);
    req "moniker"%js (TStr);
    req "voting_power"%js (TNum);
    req "voting_power_percentage"%js (TNum);
    req "tokens"%js (TStr);
    req "commission_rate"%js (TNum);
    req "status"%js (TEnum ["Active"%js; "Inactive"%js; "Jailed"%js]);
    req "is_tombstoned"%js (TBool);
    req "missed_blocks_count"%js (TNum);
    req "uptime_percentage"%js (TNum);
    req "blocks_proposed_count"%js (TNum)].

Definition NetworkStats : ty :=
  TObj [req "chain_id"%js (TStr);
    req "latest_height"%js (TNum);
    req "latest_block_hash"%js (TStr);
    req "total_transactions"%js (TNum);
    req "total_accounts"%js (TNum);
    req "active_validators_count"%js (TNum);
    req "total_bonded_tokens"%js (TStr);
    req "avg_block_time_seconds"%js (TNum);
    req "current_tps"%js (TNum);
    req "latest_state_root"%js (TStr)].

Definition SmartContract : ty :=
  TObj [req "address"%js (TStr);
    req "creator"%js (TStr);
    req "created_height"%js (TNum);
    req "bytecode_size"%js (TNum);
    req "tx_count"%js (TNum);
    req "verified"%js (TBool);
    opt "compiler_version"%js (TStr);
    opt "source_code"%js (TStr);
    opt "abi"%js (TStr)].

Definition SearchResultType : ty :=
  TEnum ["Block"%js; "Transaction"%js; "Address"%js; "Validator"%js; "Contract"%js].

Definition SearchResult : ty :=
  TOr (TOr (TOr (TOr (TObj [req "type"%js (TEnum ["Block"%js]);
    req "data"%js (IndexedBlock)])
   (TObj [req "type"%js (TEnum ["Transaction"%js]);
    req "data"%js (IndexedTx)]))
   (TObj [req "type"%js (TEnum ["Address"%js]);
    req "data"%js (IndexedAccount)]))
   (TObj [req "type"%js (TEnum ["Validator"%js]);
    req "data"%js (IndexedValidator)]))
   (TObj [req "type"%js (TEnum ["Contract"%js]);
    req "data"%js (SmartContract)]).

Definition DelegationInfo : ty :=
  TObj [req "validator_address"%js (TStr);
    req "validator_moniker"%js (TStr);
    req "delegator_address"%js (TStr);
    req "shares"%js (TStr);
    req "amount_sprx"%js (TStr);
    req "rewards_sprx"%js (TStr)].

Definition StakingOverview : ty :=
  TObj [req "total_staked_sprx"%js (TStr);
    req "staking_ratio_percentage"%js (TNum);
    req "active_validators_count"%js (TNum);
    req "unbonding_period_days"%js (TNum);
    req "estimated_annual_metric_rate"%js (TNum)].

Definition CurrencyRate : ty :=
  TObj [req "symbol"%js (TStr);
    req "prefix"%js (TStr);
    req "ratePerSprx"%js (TNum)].

Definition EcosystemProject : ty :=
  TObj [req "id"%js (TStr);
    req "name"%js (TStr);
    req "tagline"%js (TStr);
    req "description"%js (TStr);
    req "category"%js (TEnum ["DeFi"%js; "RWA & Payments"%js; "Wallets"%js; "Infrastructure"%js; "Enterprise"%js; "Gaming & Identity"%js]);
    req "stage"%js (TEnum ["Mainnet"%js; "Testnet"%js; "In Development"%js]);
    req "verified"%js (TBool);
    req "website"%js (TStr);
    opt "github"%js (TStr);
    opt "metrics"%js (TObj [req "label"%js (TStr);
    req "value"%js (TStr)])].

Definition MarketAsset : ty :=
  TObj [req "id"%js (TStr);
    req "symbol"%js (TStr);
    req "name"%js (TStr);
    req "priceUsd"%js (TNum);
    req "change24h"%js (TNum);
    req "high24h"%js (TNum);
    req "low24h"%js (TNum);
    req "volume24hUsd"%js (TNum);
    req "marketCapUsd"%js (TNum);
    req "circulatingSupply"%js (TStr);
    req "sparkline"%js (TArr (TNum));
    req "category"%js (TEnum ["Native"%js; "Stable Asset"%js; "DeFi"%js; "RWA"%js])].

Definition SIPItem : ty :=
  TObj [req "id"%js (TNum);
    req "sipNumber"%js (TStr);
    req "title"%js (TStr);
    req "author"%js (TStr);
    req "status"%js (TEnum ["Draft"%js; "Review"%js; "Accepted"%js; "Final"%js; "Rejected"%js]);
    req "category"%js (TEnum ["Core"%js; "Networking"%js; "Execution"%js; "Standards"%js; "Meta"%js; "Consensus"%js]);
    req "createdDate"%js (TStr);
    req "summary"%js (TStr);
    req "motivation"%js (TStr);
    req "specification"%js (TStr);
    req "rationale"%js (TStr)].

Definition GovernanceProposal : ty :=
  TObj [req "id"%js (TNum);
    req "title"%js (TStr);
    req "description"%js (TStr);
    req "proposer"%js (TStr);
    req "status"%js (TEnum ["Voting"%js; "Deposit"%js; "Passed"%js; "Rejected"%js; "Executed"%js]);
    req "category"%js (TEnum ["ParameterChange"%js; "CommunityPoolSpend"%js; "SoftwareUpgrade"%js; "TextProposal"%js]);
    req "totalDeposit"%js (TStr);
    req "minDepositRequired"%js (TStr);
    req "votingEndTime"%js (TStr);
    req "votes"%js (TObj [req "yes"%js (TNum);
    req "no"%js (TNum);
    req "noWithVeto"%js (TNum);
    req "abstain"%js (TNum)]);
    req "quorumMet"%js (TBool);
    opt "timelockDelayHours"%js (TNum)].

Definition ResearchPaper : ty :=
  TObj [req "id"%js (TStr);
    req "title"%js (TStr);
    req "authors"%js (TArr (TStr));
    req "date"%js (TStr);
    req "abstract"%js (TStr);
    req "category"%js (TEnum ["Consensus"%js; "Cryptography"%js; "RWA Legal Rails"%js; "State Storage"%js; "MEV Defense"%js]);
    opt "downloadUrl"%js (TStr);
    req "readingMinutes"%js (TNum)].

End ExplorerTypes.
