(* ===== verification/ExplorerApi.v ===== *)
(** * Explorer API: [apps/explorer-ui/src/services/api.ts]

    [ExplorerApiService]: every query asks the indexer, then a node, then falls
    back to the built-in data. [Api] is the state of the service object together
    with the clock that [Date.now()] reads. *)
From S2P Require Import Prelude JsString JsStringFacts JsNumber Utf8 JsJson Async Formatters.
From S2P Require Import MockData.
Import MockData Formatters.

Inductive Network := Mainnet | Testnet | Local.

#[global] Instance Network_eq_dec : EqDecision Network.
Proof. solve_decision. Defined.

Record ApiConfig := mkApiConfig {
  cfg_name : jsstring; cfg_chainId : jsstring; cfg_apiBase : jsstring; cfg_rpcUrl : jsstring;
  cfg_isTestnet : bool;
}.

Definition NETWORK_CONFIG (n : Network) : ApiConfig :=
  match n with
  | Mainnet => mkApiConfig "SPRX Mainnet"%js "sprax-mainnet-1"%js "/api/v1"%js
                 "https://rpc.sprax.network:26657"%js false
  | Testnet => mkApiConfig "SPRX Testnet"%js "sprax-testnet-1"%js
                 "https://testnet-api.sprax.network/api/v1"%js
                 "https://testnet-rpc.sprax.network:26657"%js true
  | Local => mkApiConfig "Local Devnet"%js "sprax-devnet-1"%js "http://127.0.0.1:8000/api/v1"%js
               "http://127.0.0.1:26657"%js true
  end.

Record Api := mkApi { api_network : Network; api_offline : bool; api_clock : Z }.

Definition set_api_network (n : Network) (a : Api) : Api := mkApi n (api_offline a) (api_clock a).
Definition set_api_offline (b : bool) (a : Api) : Api := mkApi (api_network a) b (api_clock a).

(** A new service object, at time [now]. *)
Definition new_ExplorerApiService (now : Z) : Api := mkApi Local false now.

(** [encodeURIComponent(s)] *)
Definition uri_unreserved (c : N) : bool :=
  (is_digit c || ((65 <=? c) && (c <=? 90)) || ((97 <=? c) && (c <=? 122))
   || existsb (N.eqb c) [45; 95; 46; 33; 126; 42; 39; 40; 41])%N.

Definition encodeURIComponent (s : jsstring) : outcome jsstring :=
  if well_formed s then
    Ok (concat ((λ c, if uri_unreserved c then [c]
                      else concat ((λ b, "%"%js ++ (ascii_upper <$> padStart 2 48 (N_to_radix 16 b)))
                                     <$> encode_scalar c)) <$> to_scalars s))
  else Throw (JsErr "URIError"%js "URI malformed"%js).

(** [Math.floor(n)] and [n % m] for integers *)
Definition num_floor (n : num) : num := match floor n with Some z => num_of_Z z | None => n end.
Definition num_rem (n : num) (m : Z) : num :=
  match n with NInt z => NInt (Z.rem z m) | NFlt _ => NaN end.

(** [parseInt(s, 10)] as a number *)
Definition parseInt10 (s : jsstring) : num :=
  match parseInt 10 s with Some z => num_of_Z z | None => NaN end.

Definition zero_hash : jsstring :=
  "0x0000000000000000000000000000000000000000000000000000000000000000"%js.

(** [v || s] for a string [s] and [v || z] for a number [z] *)
Definition or_str (v : jsval) (s : jsstring) : jsval := js_or v (JStr s).
Definition or_int (v : jsval) (z : Z) : jsval := js_or v (int z).

Module ExplorerApiService.
Section api.
Context `{Host} `{UnicodeCase}.

(** [Date.now()] when the fallback data was loaded. *)
Context (loaded : Z).

Definition setNetwork (n : Network) : cmd Api unit := write (set_api_network n).
Definition getNetwork (a : Api) : Network := api_network a.
Definition getNetworkConfig : cmd Api ApiConfig :=
  a ← get; Ret (NETWORK_CONFIG (api_network a)).
Definition isUsingOfflineFallback (a : Api) : bool := api_offline a.
Definition set_offline (b : bool) : cmd Api unit := write (set_api_offline b).
Definition now_secs : cmd Api Z := a ← get; Ret (api_clock a / 1000)%Z.

Definition prop (v : jsval) (k : jsstring) : cmd Api jsval := lift (get_prop v k).
Definition prop_opt (v : jsval) (k : jsstring) : cmd Api jsval := lift (get_prop_opt v k).

(** A request of [fetchJson] or [fetchRpcJson]; [null] on any failure, a timeout
    being a rejected [fetch]. *)
Definition json_or_null (url : jsstring) : cmd Api jsval :=
  catch
    (res ← fetch (mkRequest url "GET"%js [("Accept"%js, "application/json"%js)] None);
     if negb (rs_ok res) then Ret JNull else json res)
    (λ _, Ret JNull).

Definition fetchJson (endpoint : jsstring) : cmd Api jsval :=
  config ← getNetworkConfig; json_or_null (cfg_apiBase config ++ endpoint).

Definition fetchRpcJson (endpoint : jsstring) : cmd Api jsval :=
  config ← getNetworkConfig; json_or_null (cfg_rpcUrl config ++ endpoint).

(** [v && (v.data?.chainId || v.chainId)] as a condition *)
Definition names_chain (v : jsval) : cmd Api bool :=
  if truthy v then
    d ← prop v "data"%js; c1 ← prop_opt d "chainId"%js; c2 ← prop v "chainId"%js;
    Ret (truthy c1 || truthy c2)
  else Ret false.

(** [v && v.k] as a condition: [undefined] stands for a falsy [v]. *)
Definition and_prop (v : jsval) (k : jsstring) : cmd Api jsval :=
  if truthy v then prop v k else Ret JUndef.

Definition getStats : cmd Api jsval :=
  backendData ← fetchJson "/blockchain/status"%js;
  found ← names_chain backendData;
  if found : bool then
    d0 ← prop backendData "data"%js;
    let d := js_or d0 backendData in
    _ ← set_offline false;
    chainId ← prop d "chainId"%js; latestBlockHeight ← prop d "latestBlockHeight"%js;
    height ← prop d "height"%js; latestBlockHash ← prop d "latestBlockHash"%js;
    totalTransactions ← prop d "totalTransactions"%js; totalAccounts ← prop d "totalAccounts"%js;
    activeValidators ← prop d "activeValidators"%js; totalStaked ← prop d "totalStaked"%js;
    tps ← prop d "tps"%js; stateRoot ← prop d "stateRoot"%js;
    Ret (JObj [("chain_id"%js, or_str chainId "sprax-mainnet-1"%js);
               ("latest_height"%js, or_int (js_or latestBlockHeight height) 0);
               ("latest_block_hash"%js, or_str latestBlockHash "0x00"%js);
               ("total_transactions"%js, or_int totalTransactions 0);
               ("total_accounts"%js, or_int totalAccounts 100);
               ("active_validators_count"%js, or_int activeValidators 100);
               ("total_bonded_tokens"%js, or_str totalStaked "420,000,000 SPRX"%js);
               ("avg_block_time_seconds"%js, JNum (lit 15 (-1)));
               ("current_tps"%js, or_int tps 10);
               ("latest_state_root"%js, or_str stateRoot "0x00"%js)])
  else
    rpcData ← fetchRpcJson "/status"%js;
    chainId ← and_prop rpcData "chainId"%js;
    if truthy chainId then
      _ ← set_offline false;
      height ← prop rpcData "height"%js; latestBlockHash ← prop rpcData "latestBlockHash"%js;
      validatorCount ← prop rpcData "validatorCount"%js; stateRoot ← prop rpcData "stateRoot"%js;
      Ret (JObj [("chain_id"%js, or_str chainId "sprax-mainnet-1"%js);
                 ("latest_height"%js, or_int height 0);
                 ("latest_block_hash"%js, or_str latestBlockHash "0x00"%js);
                 ("total_transactions"%js,
                  if js_gt height (NInt 0) then JNum (num_mul (to_number height) (NInt 2)) else int 0);
                 ("total_accounts"%js, int 100);
                 ("active_validators_count"%js, or_int validatorCount 100);
                 ("total_bonded_tokens"%js, JStr "420,000,000 SPRX"%js);
                 ("avg_block_time_seconds"%js, JNum (lit 15 (-1)));
                 ("current_tps"%js, int 5);
                 ("latest_state_root"%js, or_str stateRoot "0x00"%js)])
    else
      _ ← set_offline true;
      Ret MOCK_GENESIS_STATS.

(** A page of a response: [data && data.items && data.items.length > 0] *)
Definition nonempty_page (data : jsval) : cmd Api bool :=
  if truthy data then
    items ← prop data "items"%js;
    if truthy items then len ← prop items "length"%js; Ret (js_gt len (NInt 0)) else Ret false
  else Ret false.

Definition page (items : list jsval) (total : jsval) (limit offset : Z) (has_more : bool) : jsval :=
  JObj [("items"%js, JArr items); ("total"%js, total); ("limit"%js, int limit);
        ("offset"%js, int offset); ("has_more"%js, JBool has_more)].

(** The page of the fallback data. *)
Definition mock_page (l : list jsval) (limit offset : Z) : jsval :=
  page (slice l offset (offset + limit)) (int (Z.of_nat (length l))) limit offset
    (offset + limit <? Z.of_nat (length l))%Z.

Definition paging (limit offset : Z) : jsstring :=
  "?limit="%js ++ Z_to_string limit ++ "&offset="%js ++ Z_to_string offset.

(** [v.header.time ? Math.floor(new Date(v.header.time).getTime() / 1000)
    : Math.floor(Date.now() / 1000)] *)
Definition block_time (time : jsval) : cmd Api jsval :=
  now ← now_secs;
  Ret (if truthy time then JNum (num_floor (num_div (date_parse time) (NInt 1000))) else int now).

(** The block object built from a node's block; [height] and [hash] differ
    between the callers. *)
Definition rpc_block (rpc header height : jsval) (default_hash : jsstring) : cmd Api jsval :=
  config ← getNetworkConfig;
  app_hash ← prop header "app_hash"%js;
  last_block_id ← prop header "last_block_id"%js; last_hash ← prop_opt last_block_id "hash"%js;
  chain_id ← prop header "chain_id"%js;
  time ← prop header "time"%js; timestamp ← block_time time;
  proposer ← prop header "proposer_address"%js;
  data ← prop rpc "data"%js; txs ← prop_opt data "txs"%js; txs_len ← prop_opt txs "length"%js;
  data_hash ← prop header "data_hash"%js;
  Ret (JObj [("height"%js, height);
             ("hash"%js, or_str app_hash default_hash);
             ("parent_hash"%js, or_str last_hash zero_hash);
             ("chain_id"%js, or_str chain_id (cfg_chainId config));
             ("timestamp_unix_secs"%js, timestamp);
             ("proposer"%js, or_str proposer
                (str_field (nth 0 MOCK_GENESIS_VALIDATORS JUndef) "operator_address"%js));
             ("txs_count"%js, or_int txs_len 0);
             ("txs_root"%js, or_str data_hash zero_hash);
             ("state_root"%js, or_str app_hash zero_hash);
             ("gas_used"%js, int 21000);
             ("block_size_bytes"%js, int 1024)]).

Definition getBlocks (limit offset : Z) : cmd Api jsval :=
  data ← fetchJson ("/blocks"%js ++ paging limit offset);
  found ← nonempty_page data;
  if found : bool then
    _ ← set_offline false; Ret data
  else
    latestRpc ← fetchRpcJson "/blocks/latest"%js;
    header ← and_prop latestRpc "header"%js;
    if truthy header then
      _ ← set_offline false;
      h ← prop header "height"%js;
      let height := or_int h 1 in
      liveBlock ← rpc_block latestRpc header height ("0x"%js ++ replicate 64 49%N);
      Ret (page [liveBlock] height limit offset false)
    else
      _ ← set_offline true;
      Ret (mock_page (MOCK_GENESIS_BLOCKS loaded) limit offset).

Definition field_num (v : jsval) (k : jsstring) : num :=
  match v with JObj fs => match obj_get fs k with JNum n => n | _ => NaN end | _ => NaN end.

(** [l.find(p)], [undefined] being [None] *)
Definition find (p : jsval → bool) (l : list jsval) : option jsval :=
  snd <$> list_find (λ v, p v = true) l.

(** The block made up for a height that is not in the fallback data. *)
Definition dynamic_block (chainId : jsstring) (now : Z) (height : num) : jsval :=
  JObj [("height"%js, JNum height);
        ("hash"%js, JStr ("0x7f8a9b2c3d4e5f60718293a4b5c6d7e8f901a2b3c4d5e6f708192a3b4c5d6e"%js
                          ++ padStart 2 48 (num_to_string (num_rem height 99))));
        ("parent_hash"%js,
         JStr ("0x6e7d8c9b0a1f2e3d4c5b6a708192a3b4c5d6e7f8091a2b3c4d5e6f708192a3"%js
               ++ padStart 2 48 (num_to_string (num_rem (num_sub height (NInt 1)) 99))));
        ("chain_id"%js, JStr chainId);
        ("timestamp_unix_secs"%js, int (now - 20));
        ("proposer"%js, JStr (str_field (nth 0 MOCK_GENESIS_VALIDATORS JUndef) "operator_address"%js));
        ("txs_count"%js, int 5);
        ("txs_root"%js, JStr "0x11223344556677889900aabbccddeeff00112233445566778899aabbccddeeff"%js);
        ("state_root"%js, JStr "0xabcdef0123456789abcdef0123456789abcdef0123456789abcdef0123456789"%js);
        ("gas_used"%js, int 105000);
        ("block_size_bytes"%js, int 3800)].

(** The block of the fallback data, or one made up for its height. *)
Definition fallback_block (chainId : jsstring) (now : Z) (identifier : jsstring) : jsval :=
  let isHeight := is_decimal identifier in
  let found := find (λ b,
    if isHeight then num_eqb (field_num b "height"%js) (parseInt10 identifier)
    else bool_decide (toLowerCase (str_field b "hash"%js) = toLowerCase identifier))
    (MOCK_GENESIS_BLOCKS loaded) in
  match found with
  | Some b => b
  | None => if isHeight then dynamic_block chainId now (parseInt10 identifier) else JNull
  end.

Definition getBlock (heightOrHash : jsval) : cmd Api jsval :=
  let identifier := trim (to_string heightOrHash) in
  data ← fetchJson ("/blocks/"%js ++ identifier);
  if truthy data then
    _ ← set_offline false; Ret data
  else
    rpcBlock ← fetchRpcJson ("/blocks/"%js ++ identifier);
    header ← and_prop rpcBlock "header"%js;
    if truthy header then
      _ ← set_offline false;
      height ← prop header "height"%js;
      rpc_block rpcBlock header height ("0x"%js ++ identifier)
    else
      config ← getNetworkConfig;
      now ← now_secs;
      Ret (fallback_block (cfg_chainId config) now identifier).

Definition getTransactions (limit offset : Z) : cmd Api jsval :=
  data ← fetchJson ("/txs"%js ++ paging limit offset);
  found ← nonempty_page data;
  if found : bool then Ret data
  else Ret (mock_page (MOCK_GENESIS_TXS loaded) limit offset).

(** [s.replace(/^0x/, "")] *)
Definition drop_0x (s : jsstring) : jsstring := if startsWith s "0x"%js then drop 2 s else s.

Definition fallback_tx (cleanHash : jsstring) : jsval :=
  default JNull (find (λ tx,
    bool_decide (toLowerCase (str_field tx "tx_hash"%js) = cleanHash)
    || includes (toLowerCase (str_field tx "tx_hash"%js)) (drop_0x cleanHash))
    (MOCK_GENESIS_TXS loaded)).

Definition getTransaction (hash : jsstring) : cmd Api jsval :=
  let cleanHash := toLowerCase (trim hash) in
  data ← fetchJson ("/blockchain/transactions/"%js ++ cleanHash);
  if truthy data then
    _ ← set_offline false; Ret data
  else
    rpcTx ← fetchRpcJson ("/txs/"%js ++ cleanHash);
    txHash ← and_prop rpcTx "hash"%js;
    if truthy txHash then
      _ ← set_offline false;
      height ← prop rpcTx "height"%js; block_hash ← prop rpcTx "block_hash"%js;
      sender ← prop rpcTx "sender"%js; recipient ← prop rpcTx "recipient"%js;
      amount ← prop rpcTx "amount"%js; nonce ← prop rpcTx "nonce"%js;
      memo ← prop rpcTx "memo"%js; success ← prop rpcTx "success"%js;
      now ← now_secs;
      Ret (JObj [("tx_hash"%js, txHash);
                 ("block_height"%js, or_int height 1);
                 ("block_hash"%js, or_str block_hash zero_hash);
                 ("sender"%js, or_str sender "sprax1qpzry9x8gf2tvdw0s3jn54khce6mua7l4w3e2r"%js);
                 ("recipient"%js, or_str recipient "sprax18888888888888888888888888888888888888888"%js);
                 ("message_type"%js, JStr "Transfer"%js);
                 ("amount"%js, or_str amount "0.00 SPRX"%js);
                 ("fee_amount"%js, JStr "0.0005 SPRX"%js);
                 ("nonce"%js, or_int nonce 0);
                 ("memo"%js, or_str memo "Verified on Sprax Chain"%js);
                 ("success"%js, JBool (match success with JBool false => false | _ => true end));
                 ("gas_used"%js, int 21000);
                 ("timestamp_unix_secs"%js, int (now - 10))])
    else
      Ret (fallback_tx cleanHash).

(** The account made up for an address that no server knows. *)
Definition mock_account (cleanAddr : jsstring) : jsval :=
  JObj [("address"%js, JStr cleanAddr);
        ("address_hex"%js, JStr (if startsWith cleanAddr "0x"%js then cleanAddr
                                 else "0x3f8a9b2c3d4e5f60718293a4b5c6d7e8f901a2b3"%js));
        ("balance"%js, JStr "1250000000000000000000"%js);
        ("balance_sprx"%js, JStr "1,250.00 SPRX"%js);
        ("nonce"%js, int 42);
        ("tx_count"%js, int 87);
        ("first_seen_height"%js, int 10420);
        ("last_active_height"%js, int 8245920)].

Definition fallback_account (cleanAddr : jsstring) : jsval :=
  if startsWith (toLowerCase cleanAddr) "sprax1"%js || is_hex_address cleanAddr
  then mock_account cleanAddr else JNull.

(** Both requests of [Promise.all] read the configuration before either is
    answered, and their answers are used only when both are there. *)
Definition getAddress (address : jsstring) : cmd Api jsval :=
  let cleanAddr := trim address in
  data ← fetchJson ("/blockchain/accounts/"%js ++ cleanAddr);
  if truthy data then
    _ ← set_offline false; Ret data
  else
    config ← getNetworkConfig;
    balRes ← json_or_null (cfg_rpcUrl config ++ "/accounts/"%js ++ cleanAddr ++ "/balance"%js);
    nonceRes ← json_or_null (cfg_rpcUrl config ++ "/accounts/"%js ++ cleanAddr ++ "/nonce"%js);
    balance_atto ← and_prop balRes "balance_atto"%js;
    if negb (is_undef balance_atto) then
      _ ← set_offline false;
      attoBig ← lift (BigInt_of (or_str balance_atto "0"%js));
      let sprxUnits := num_div (num_of_Z (Z.quot attoBig (10 ^ 14))) (NInt 10000) in
      address_hex ← prop balRes "address_hex"%js;
      nonce ← prop_opt nonceRes "nonce"%js;
      Ret (JObj [("address"%js, JStr cleanAddr);
                 ("address_hex"%js, or_str address_hex cleanAddr);
                 ("balance"%js, balance_atto);
                 ("balance_sprx"%js, JStr (host_toLocaleString sprxUnits 2 6 ++ " SPRX"%js));
                 ("nonce"%js, or_int nonce 0);
                 ("tx_count"%js, or_int nonce 0);
                 ("first_seen_height"%js, int 1);
                 ("last_active_height"%js, int 1)])
    else Ret (fallback_account cleanAddr).

(** The transactions of an address in the fallback data, or the first ten. *)
Definition fallback_history (cleanAddr : jsstring) : list jsval :=
  let related := filter (λ t,
    toLowerCase (str_field t "sender"%js) = toLowerCase cleanAddr
    ∨ (str_field t "recipient"%js ≠ []
       ∧ toLowerCase (str_field t "recipient"%js) = toLowerCase cleanAddr))
    (MOCK_GENESIS_TXS loaded) in
  if (0 <? length related)%nat then related else slice (MOCK_GENESIS_TXS loaded) 0 10.

Definition getAddressTransactions (address : jsstring) (limit offset : Z) : cmd Api jsval :=
  let cleanAddr := trim address in
  data ← fetchJson ("/addresses/"%js ++ cleanAddr ++ "/txs"%js ++ paging limit offset);
  found ← nonempty_page data;
  if found : bool then Ret data
  else
    Ret (mock_page (fallback_history cleanAddr) limit offset).

Definition getValidators : cmd Api jsval :=
  data ← fetchJson "/validators"%js;
  len ← and_prop data "length"%js;
  if truthy data && js_gt len (NInt 0) then Ret data
  else Ret (JArr MOCK_GENESIS_VALIDATORS).

Definition result (type : jsstring) (data : jsval) : jsval :=
  JObj [("type"%js, JStr type); ("data"%js, data)].

(** The parts of [search] that run when no earlier part returned. *)
Definition search_named (clean : jsstring) : jsval :=
  match find (λ v, includes (toLowerCase (str_field v "moniker"%js)) (toLowerCase clean))
          MOCK_GENESIS_VALIDATORS with
  | Some v => result "Validator"%js v
  | None => JNull
  end.

Definition search_address (clean : jsstring) : cmd Api jsval :=
  if startsWith (toLowerCase clean) "sprax1"%js || is_hex_address clean then
    addr ← getAddress clean;
    if truthy addr then Ret (result "Address"%js addr) else Ret (search_named clean)
  else Ret (search_named clean).

Definition by_address (k : jsstring) (clean : jsstring) (l : list jsval) : option jsval :=
  find (λ v, bool_decide (toLowerCase (str_field v k) = toLowerCase clean)) l.

Definition search_registry (clean : jsstring) : cmd Api jsval :=
  match (if startsWith (toLowerCase clean) "spraxvaloper1"%js
         then by_address "operator_address"%js clean MOCK_GENESIS_VALIDATORS else None) with
  | Some v => Ret (result "Validator"%js v)
  | None =>
      match (if startsWith (toLowerCase clean) "sprax1contract"%js
             then by_address "address"%js clean MOCK_GENESIS_CONTRACTS else None) with
      | Some c => Ret (result "Contract"%js c)
      | None => search_address clean
      end
  end.

Definition search_hash (clean : jsstring) : cmd Api jsval :=
  if is_hex_of 64 (strip_0x clean) then
    tx ← getTransaction clean;
    if truthy tx then Ret (result "Transaction"%js tx)
    else
      block ← getBlock (JStr clean);
      if truthy block then Ret (result "Block"%js block) else search_registry clean
  else search_registry clean.

Definition search (query : jsstring) : cmd Api jsval :=
  let clean := trim query in
  if bool_decide (clean = []) then Ret JNull
  else
    q ← lift (encodeURIComponent clean);
    remoteRes ← fetchJson ("/search?q="%js ++ q);
    if truthy remoteRes then Ret remoteRes
    else if is_decimal clean then
      block ← getBlock (JStr clean);
      if truthy block then Ret (result "Block"%js block) else search_hash clean
    else search_hash clean.

Definition getContracts : cmd Api jsval := Ret (JArr MOCK_GENESIS_CONTRACTS).

Definition getContract (address : jsstring) : cmd Api jsval :=
  match by_address "address"%js (trim address) MOCK_GENESIS_CONTRACTS with
  | Some c => Ret c
  | None =>
      if includes (toLowerCase address) "contract"%js then
        Ret (JObj [("address"%js, JStr address);
                   ("creator"%js, JStr "sprax1qpzry9x8gf2tvdw0s3jn54khce6mua7l4w3e2r"%js);
                   ("created_height"%js, int 10420);
                   ("bytecode_size"%js, int 18450);
                   ("tx_count"%js, int 1420);
                   ("verified"%js, JBool true);
                   ("compiler_version"%js, JStr "cosmwasm-rust:1.80.0"%js);
                   ("abi"%js, JStr "[]"%js)])
      else Ret JNull
  end.

Definition getEcosystemProjects : cmd Api jsval := Ret (JArr MOCK_ECOSYSTEM_PROJECTS).
Definition getMarketAssets : cmd Api jsval := Ret (JArr MOCK_MARKET_ASSETS).
Definition getSIPs : cmd Api jsval := Ret (JArr MOCK_SIPS).

(** [id] is a number or a string. *)
Definition getSIP (id : jsval) : cmd Api jsval :=
  let num := match id with JStr s => parseInt10 (filter (λ c, is_digit c = true) s)
                         | v => to_number v end in
  Ret (default JNull (find (λ s,
    num_eqb (field_num s "id"%js) num
    || bool_decide (toLowerCase (str_field s "sipNumber"%js) = toLowerCase (to_string id)))
    MOCK_SIPS)).

Definition getGovernanceProposals : cmd Api jsval := Ret (JArr MOCK_GOVERNANCE_PROPOSALS).
Definition getResearchPapers : cmd Api jsval := Ret (JArr MOCK_RESEARCH_PAPERS).
End api.
End ExplorerApiService.
