(* ===== verification/ExplorerApiFacts.v ===== *)
(** * Facts about the explorer's service

    What a query does with the answers of its servers, and what it returns
    without them. *)
From S2P Require Import Prelude JsString JsStringFacts JsNumber JsNumberFacts Utf8 JsJson Async.
From S2P Require Import Formatters MockData Types ExplorerTypes ExplorerApi.
Import MockData Formatters ExplorerApiService.

(** ** What a server answered *)

(** The JSON value of an answer, [null] for a failure. *)
Definition answered (r : outcome response) : jsval :=
  match r with
  | Ok r => if rs_ok r then match rs_json r with Ok v => v | Throw _ => JNull end else JNull
  | Throw _ => JNull
  end.

(** No usable answer: [fetch] rejected, a bad status, or no JSON. *)
Definition failed (r : outcome response) : Prop := answered r = JNull.

(** [v && v.k] *)
Definition and_field (v : jsval) (k : jsstring) : jsval := if truthy v then field v k else JUndef.

Definition has_status (v : jsval) : bool :=
  truthy v && (truthy (field (field v "data"%js) "chainId"%js) || truthy (field v "chainId"%js)).
Definition has_items (v : jsval) : bool :=
  truthy v && truthy (field v "items"%js)
  && js_gt (field (field v "items"%js) "length"%js) (NInt 0).

(** ** Reading properties *)

Lemma get_prop_truthy v k : truthy v = true → get_prop v k = Ok (field v k).
Proof. by destruct v. Qed.

Lemma get_prop_opt_field v k : get_prop_opt v k = Ok (field v k).
Proof. by destruct v. Qed.

Lemma truthy_js_or v w : truthy w = true → truthy (js_or v w) = true.
Proof. unfold js_or. by destruct (truthy v) eqn:E. Qed.

Lemma bind_prop {B} v k (f : jsval → cmd Api B) :
  truthy v = true → prop v k ≫= f = f (field v k).
Proof. intros Hv. unfold prop. by rewrite get_prop_truthy. Qed.

Lemma bind_prop_opt {B} v k (f : jsval → cmd Api B) : prop_opt v k ≫= f = f (field v k).
Proof. unfold prop_opt. by rewrite get_prop_opt_field. Qed.

Lemma ret_bind {S A B} (a : A) (f : A → cmd S B) : Ret a ≫= f = f a.
Proof. done. Qed.

Lemma run_bind_assoc {S A B C} (c : cmd S A) (f : A → cmd S B) (g : B → cmd S C) s rs :
  run ((c ≫= f) ≫= g) s rs = run (c ≫= λ a, f a ≫= g) s rs.
Proof.
  revert s rs. unfold mbind, cmd_bind.
  induction c as [a|e|k IH|h c IH|rq k IH|c IH]; intros s rs; cbn; auto.
  destruct rs as [|r rs]; [done|]. by rewrite IH.
Qed.

Lemma eval_bind_assoc {S A B C} (c : cmd S A) (f : A → cmd S B) (g : B → cmd S C) s rs :
  eval ((c ≫= f) ≫= g) s rs = eval (c ≫= λ a, f a ≫= g) s rs.
Proof. unfold eval. by rewrite run_bind_assoc. Qed.

Lemma nonempty_page_spec {B} v (f : bool → cmd Api B) :
  nonempty_page v ≫= f = f (has_items v).
Proof.
  unfold nonempty_page, has_items. destruct (truthy v) eqn:Ev; [|done].
  rewrite bind_prop by done. destruct (truthy (field v "items"%js)) eqn:Ei; [|done].
  by rewrite bind_prop.
Qed.

Lemma names_chain_spec {B} v (f : bool → cmd Api B) : names_chain v ≫= f = f (has_status v).
Proof.
  unfold names_chain, has_status. destruct (truthy v) eqn:Ev; [|done].
  by rewrite bind_prop, bind_prop_opt, bind_prop by done.
Qed.

Lemma and_prop_spec {B} v k (f : jsval → cmd Api B) : and_prop v k ≫= f = f (and_field v k).
Proof. unfold and_prop, and_field. destruct (truthy v) eqn:Ev; [by apply bind_prop|done]. Qed.

Lemma and_field_truthy v k : truthy (and_field v k) = true → truthy v = true.
Proof. unfold and_field. by destruct (truthy v). Qed.

Lemma has_status_truthy v : has_status v = true → truthy v = true.
Proof. unfold has_status. by destruct (truthy v). Qed.

(** A request, whatever the server does. *)
Lemma eval_json_or_null {B} url (f : jsval → cmd Api B) a r rs :
  eval (json_or_null url ≫= f) a (r :: rs) = eval (f (answered r)) a rs.
Proof.
  unfold json_or_null. etrans; [apply eval_fetch|].
  destruct r as [r|e]; [|done]. simpl. destruct (rs_ok r); [|done]. simpl.
  etrans; [apply eval_yield|]. by destruct (rs_json r).
Qed.

Lemma eval_fetchJson {B} e (f : jsval → cmd Api B) a r rs :
  eval (fetchJson e ≫= f) a (r :: rs) = eval (f (answered r)) a rs.
Proof. apply (eval_json_or_null _ f). Qed.

Lemma eval_fetchRpcJson {B} e (f : jsval → cmd Api B) a r rs :
  eval (fetchRpcJson e ≫= f) a (r :: rs) = eval (f (answered r)) a rs.
Proof. apply (eval_json_or_null _ f). Qed.

Lemma eval_getNetworkConfig {B} (f : ApiConfig → cmd Api B) a rs :
  eval (getNetworkConfig ≫= f) a rs = eval (f (NETWORK_CONFIG (api_network a))) a rs.
Proof. done. Qed.

Lemma json_or_null_safe url : never_raises (json_or_null url).
Proof. by apply never_raises_catch. Qed.

Ltac truthy := eauto using truthy_js_or, has_status_truthy, and_field_truthy.

(** One step of a proof about all runs of a query. *)
Ltac query_step :=
  match goal with
  | |- never_raises (Ret _) => exact I
  | |- never_raises (prop _ _ ≫= _) => rewrite bind_prop by truthy
  | |- never_raises (names_chain _ ≫= _) => rewrite names_chain_spec
  | |- never_raises (and_prop _ _ ≫= _) => rewrite and_prop_spec
  | |- never_raises (prop_opt _ _ ≫= _) => rewrite bind_prop_opt
  | |- never_raises (nonempty_page _ ≫= _) => rewrite nonempty_page_spec
  | |- never_raises (set_offline _ ≫= _) => apply never_raises_bind; [exact I|intros _]
  | |- never_raises (fetchJson _ ≫= _) =>
      apply never_raises_bind; [by intros ?; apply json_or_null_safe|intros ?]
  | |- never_raises (fetchRpcJson _ ≫= _) =>
      apply never_raises_bind; [by intros ?; apply json_or_null_safe|intros ?]
  | |- never_raises (getNetworkConfig ≫= _) => apply never_raises_bind; [done|intros ?]
  | |- never_raises (now_secs ≫= _) => apply never_raises_bind; [done|intros ?]
  | |- never_raises (block_time _ ≫= _) => apply never_raises_bind; [done|intros ?]
  | |- never_raises (Ret _ ≫= _) => rewrite ret_bind
  | |- never_raises ((if ?b then _ else _) ≫= _) => destruct b eqn:?
  | |- never_raises (if ?b then _ else _) => destruct b eqn:?
  | |- never_raises (match ?b with _ => _ end) => destruct b eqn:?
  end.

Section facts.
Context `{Host} `{UnicodeCase} (loaded : Z).

Lemma rpc_block_safe rpc header height d :
  truthy rpc = true → truthy header = true → never_raises (rpc_block rpc header height d).
Proof.
  intros. unfold rpc_block. repeat query_step.
Qed.


(** ** Without servers *)

Lemma offline_getBlock {B} id (f : jsval → cmd Api B) a r1 r2 rs :
  failed r1 → failed r2 →
  eval (getBlock loaded id ≫= f) a (r1 :: r2 :: rs)
  = eval (f (fallback_block loaded (cfg_chainId (NETWORK_CONFIG (api_network a)))
               (api_clock a / 1000) (trim (to_string id)))) a rs.
Proof.
  intros H1 H2. unfold getBlock. rewrite eval_bind_assoc, eval_fetchJson, H1.
  change (truthy JNull) with false. cbv iota. rewrite eval_bind_assoc, eval_fetchRpcJson, H2.
  by rewrite and_prop_spec.
Qed.

Lemma offline_getTransaction {B} s (f : jsval → cmd Api B) a r1 r2 rs :
  failed r1 → failed r2 →
  eval (getTransaction loaded s ≫= f) a (r1 :: r2 :: rs)
  = eval (f (fallback_tx loaded (toLowerCase (trim s)))) a rs.
Proof.
  intros H1 H2. unfold getTransaction. rewrite eval_bind_assoc, eval_fetchJson, H1.
  change (truthy JNull) with false. cbv iota. rewrite eval_bind_assoc, eval_fetchRpcJson, H2.
  by rewrite and_prop_spec.
Qed.

Lemma offline_getAddress {B} s (f : jsval → cmd Api B) a r1 r2 r3 rs :
  failed r1 → failed r2 → failed r3 →
  eval (getAddress s ≫= f) a (r1 :: r2 :: r3 :: rs)
  = eval (f (fallback_account (trim s))) a rs.
Proof.
  intros H1 H2 H3. unfold getAddress. rewrite eval_bind_assoc, eval_fetchJson, H1.
  change (truthy JNull) with false. cbv iota.
  rewrite eval_bind_assoc, eval_getNetworkConfig, eval_bind_assoc, eval_json_or_null, H2.
  rewrite eval_bind_assoc, eval_json_or_null. by rewrite eval_bind_assoc, and_prop_spec.
Qed.

(** *** The fallback data has the declared types *)

Definition has_type (t : ty) (l : list jsval) : Prop := Forall (λ v, conforms t v = true) l.

Lemma mock_blocks_typed : has_type ExplorerTypes.IndexedBlock (MOCK_GENESIS_BLOCKS loaded).
Proof. apply Forall_fmap, Forall_true. intros i. reflexivity. Qed.

Lemma mock_txs_typed : has_type ExplorerTypes.IndexedTx (MOCK_GENESIS_TXS loaded).
Proof.
  apply Forall_fmap, Forall_true. intros i. simpl. unfold mock_tx.
  destruct (bool_decide _); reflexivity.
Qed.

Lemma slice_typed t l i j : has_type t l → has_type t (slice l i j).
Proof. intros Hl. by apply Forall_take, Forall_drop. Qed.

Lemma mock_page_typed t l limit offset :
  has_type t l → conforms (ExplorerTypes.PaginatedResponse t) (mock_page l limit offset) = true.
Proof.
  intros Hl. assert (has_type t (slice l offset (offset + limit))) as Hs.
  { by apply slice_typed. }
  cbn -[slice]. rewrite !andb_true_r. apply forallb_forall. intros v Hv.
  unfold has_type in Hs. rewrite Forall_forall in Hs. apply Hs. by apply list_elem_of_In.
Qed.

Lemma find_elem p l v : find p l = Some v → v ∈ l ∧ p v = true.
Proof.
  unfold find. rewrite fmap_Some. intros ([i w] & Hf & ->).
  apply list_find_Some in Hf as (Hi & Hp & _). split; [by eapply list_elem_of_lookup_2|done].
Qed.

Lemma find_typed t p l : has_type t l → conforms (TOr t TNull) (default JNull (find p l)) = true.
Proof.
  intros Hl. destruct (find p l) as [v|] eqn:E; [|apply orb_true_r].
  apply find_elem in E as [Hv _]. unfold has_type in Hl. rewrite Forall_forall in Hl.
  simpl. by rewrite Hl.
Qed.

Lemma fallback_block_typed chainId now id :
  conforms (TOr ExplorerTypes.IndexedBlock TNull) (fallback_block loaded chainId now id) = true.
Proof.
  unfold fallback_block. destruct (find _ _) as [b|] eqn:E; [|by destruct (is_decimal id)].
  apply find_elem in E as [Hb _]. pose proof mock_blocks_typed as Hl.
  unfold has_type in Hl. rewrite Forall_forall in Hl. cbn [conforms]. by rewrite Hl.
Qed.

Lemma fallback_account_typed addr :
  conforms (TOr ExplorerTypes.IndexedAccount TNull) (fallback_account addr) = true.
Proof. unfold fallback_account. by destruct (_ || _). Qed.

Lemma fallback_history_typed addr : has_type ExplorerTypes.IndexedTx (fallback_history loaded addr).
Proof.
  unfold fallback_history. case_match; [|apply slice_typed, mock_txs_typed].
  unfold has_type. rewrite Forall_forall. intros v [_ Hv]%list_elem_of_filter.
  pose proof mock_txs_typed as Hl. unfold has_type in Hl. rewrite Forall_forall in Hl. auto.
Qed.

Lemma eval_ret_bind {A} (c : cmd Api A) s rs : eval (c ≫= Ret) s rs = eval c s rs.
Proof.
  unfold eval. f_equal. revert s rs. unfold mbind, cmd_bind.
  induction c as [a|e|k IH|h c IH|rq k IH|c IH]; intros s rs; cbn; auto.
  destruct rs as [|r rs]; [done|]. by rewrite IH.
Qed.

(** The queries that only ask the indexer. *)
Lemma offline_lists limit offset s a r rs :
  failed r →
  eval (getTransactions loaded limit offset) a (r :: rs)
    = Some (Ok (mock_page (MOCK_GENESIS_TXS loaded) limit offset), a)
  ∧ eval (getAddressTransactions loaded s limit offset) a (r :: rs)
    = Some (Ok (mock_page (fallback_history loaded (trim s)) limit offset), a)
  ∧ eval getValidators a (r :: rs) = Some (Ok (JArr MOCK_GENESIS_VALIDATORS), a).
Proof.
  intros Hr. unfold getTransactions, getAddressTransactions, getValidators.
  rewrite !eval_fetchJson, Hr, !nonempty_page_spec, and_prop_spec. done.
Qed.

Lemma offline_getStats a r1 r2 rs :
  failed r1 → failed r2 →
  eval getStats a (r1 :: r2 :: rs) = Some (Ok MOCK_GENESIS_STATS, set_api_offline true a).
Proof.
  intros H1 H2. unfold getStats. rewrite eval_fetchJson, H1, names_chain_spec.
  change (has_status JNull) with false. cbv iota. by rewrite eval_fetchRpcJson, H2, and_prop_spec.
Qed.

Lemma offline_getBlocks limit offset a r1 r2 rs :
  failed r1 → failed r2 →
  eval (getBlocks loaded limit offset) a (r1 :: r2 :: rs)
  = Some (Ok (mock_page (MOCK_GENESIS_BLOCKS loaded) limit offset), set_api_offline true a).
Proof.
  intros H1 H2. unfold getBlocks. rewrite eval_fetchJson, H1, nonempty_page_spec.
  change (has_items JNull) with false. cbv iota. by rewrite eval_fetchRpcJson, H2, and_prop_spec.
Qed.

(** A query that ends with a value of type [t]. *)
Definition returns (c : cmd Api jsval) (a : Api) (rs : list (outcome response)) (t : ty) : Prop :=
  ∃ v a', eval c a rs = Some (Ok v, a') ∧ conforms t v = true.

(** C23. When no server gives a usable answer, every query still completes, and
    its result has the type the service declares for it. *)
Theorem fallback_typed (a : Api) (r1 r2 r3 : outcome response) (limit offset : Z)
    (id : jsval) (s : jsstring) :
  failed r1 → failed r2 → failed r3 →
  let ok c t := returns c a [r1; r2; r3] t in
  ok getStats ExplorerTypes.NetworkStats
  ∧ ok (getBlocks loaded limit offset) (ExplorerTypes.PaginatedResponse ExplorerTypes.IndexedBlock)
  ∧ ok (getBlock loaded id) (TOr ExplorerTypes.IndexedBlock TNull)
  ∧ ok (getTransactions loaded limit offset) (ExplorerTypes.PaginatedResponse ExplorerTypes.IndexedTx)
  ∧ ok (getTransaction loaded s) (TOr ExplorerTypes.IndexedTx TNull)
  ∧ ok (getAddress s) (TOr ExplorerTypes.IndexedAccount TNull)
  ∧ ok (getAddressTransactions loaded s limit offset)
       (ExplorerTypes.PaginatedResponse ExplorerTypes.IndexedTx)
  ∧ ok getValidators (TArr ExplorerTypes.IndexedValidator).
Proof.
  intros H1 H2 H3 ok. subst ok.
  destruct (offline_lists limit offset s a r1 [r2; r3] H1) as (Ht & Ha & Hv).
  split_and!; unfold returns.
  - do 2 eexists. split; [by apply offline_getStats|done].
  - do 2 eexists. split; [by apply offline_getBlocks|]. apply mock_page_typed, mock_blocks_typed.
  - do 2 eexists. rewrite <- (eval_ret_bind (getBlock _ _)), offline_getBlock by done.
    split; [done|apply fallback_block_typed].
  - do 2 eexists. split; [exact Ht|]. apply mock_page_typed, mock_txs_typed.
  - do 2 eexists. rewrite <- (eval_ret_bind (getTransaction _ _)), offline_getTransaction by done.
    split; [done|apply find_typed, mock_txs_typed].
  - do 2 eexists. rewrite <- (eval_ret_bind (getAddress _)), offline_getAddress by done.
    split; [done|apply fallback_account_typed].
  - do 2 eexists. split; [exact Ha|]. apply mock_page_typed, fallback_history_typed.
  - do 2 eexists. split; [exact Hv|]. by vm_compute.
Qed.

(** ** The offline flag *)

Lemma eval_set_offline {B} b (f : unit → cmd Api B) a rs :
  eval (set_offline b ≫= f) a rs = eval (f tt) (set_api_offline b a) rs.
Proof. done. Qed.

Lemma eval_block_time {B} time (f : jsval → cmd Api B) a rs :
  ∃ t, eval (block_time time ≫= f) a rs = eval (f t) a rs.
Proof. by eexists. Qed.

Lemma eval_rpc_block {B} rpc header height d (f : jsval → cmd Api B) a rs :
  truthy rpc = true → truthy header = true →
  ∃ b, eval (rpc_block rpc header height d ≫= f) a rs = eval (f b) a rs.
Proof.
  intros Hr Hh. unfold rpc_block. rewrite eval_bind_assoc, eval_getNetworkConfig.
  repeat (rewrite eval_bind_assoc; first [rewrite bind_prop by done|rewrite bind_prop_opt]).
  rewrite eval_bind_assoc. match goal with |- context [eval (block_time ?t ≫= ?g) _ _] =>
    destruct (eval_block_time t g a rs) as [x ->] end.
  repeat first [rewrite eval_bind_assoc|rewrite bind_prop by done|rewrite bind_prop_opt].
  by eexists.
Qed.

(** The query has ended: its value and the flag are there to see. *)
Ltac answer := eexists _, _; split; [reflexivity|split; [reflexivity|]]; first [discriminate|reflexivity].

(** C24. After a request for the statistics or for a page of blocks, the service
    reports that it is offline exactly when neither the indexer nor the node gave
    a usable answer, and then what was returned is the built-in data. *)
Theorem offline_flag (a : Api) (r1 r2 : outcome response) (limit offset : Z) :
  (∃ v a', eval getStats a [r1; r2] = Some (Ok v, a')
     ∧ isUsingOfflineFallback a'
       = negb (has_status (answered r1) || truthy (and_field (answered r2) "chainId"%js))
     ∧ (isUsingOfflineFallback a' = true → v = MOCK_GENESIS_STATS))
  ∧ (∃ v a', eval (getBlocks loaded limit offset) a [r1; r2] = Some (Ok v, a')
     ∧ isUsingOfflineFallback a'
       = negb (has_items (answered r1) || truthy (and_field (answered r2) "header"%js))
     ∧ (isUsingOfflineFallback a' = true
        → v = mock_page (MOCK_GENESIS_BLOCKS loaded) limit offset)).
Proof.
  split.
  - unfold getStats. rewrite eval_fetchJson, names_chain_spec.
    destruct (has_status (answered r1)) eqn:E1.
    { apply has_status_truthy in E1. rewrite bind_prop by done. rewrite eval_set_offline.
      do 10 (rewrite bind_prop by truthy). answer. }
    rewrite eval_fetchRpcJson, and_prop_spec.
    destruct (truthy (and_field _ _)) eqn:E2; [|answer].
    apply and_field_truthy in E2. rewrite eval_set_offline.
    do 4 (rewrite bind_prop by done). answer.
  - unfold getBlocks. rewrite eval_fetchJson, nonempty_page_spec.
    destruct (has_items (answered r1)) eqn:E1; [answer|].
    rewrite eval_fetchRpcJson, and_prop_spec.
    destruct (truthy (and_field _ _)) eqn:E2; [|answer].
    rewrite eval_set_offline, bind_prop by done.
    match goal with |- context [eval (rpc_block ?r ?h ?n ?d ≫= ?g) ?a' ?rs] =>
      destruct (eval_rpc_block r h n d g a' rs) as [b ->]; [by eapply and_field_truthy|done|] end.
    answer.
Qed.

(** The detail queries leave the flag as the last list query set it: with no
    usable answer they return built-in data, and a service that reported it was
    online still does. *)
Lemma detail_flag_stale (a : Api) (r1 r2 r3 : outcome response) (id : jsval) (s : jsstring)
    (limit offset : Z) :
  failed r1 → failed r2 → failed r3 → isUsingOfflineFallback a = false →
  ∃ b x v t,
    eval (getBlock loaded id) a [r1; r2] = Some (Ok b, a)
    ∧ eval (getTransaction loaded s) a [r1; r2] = Some (Ok x, a)
    ∧ eval (getAddress s) a [r1; r2; r3] = Some (Ok v, a)
    ∧ eval (getTransactions loaded limit offset) a [r1] = Some (Ok t, a)
    ∧ isUsingOfflineFallback a = false.
Proof.
  intros H1 H2 H3 Ha. do 4 eexists.
  rewrite <- (eval_ret_bind (getBlock _ _)), offline_getBlock by done.
  rewrite <- (eval_ret_bind (getTransaction _ _)), offline_getTransaction by done.
  rewrite <- (eval_ret_bind (getAddress _)), offline_getAddress by done.
  destruct (offline_lists limit offset s a r1 [] H1) as (Ht & _). by rewrite Ht.
Qed.

(** ** Paging through the fallback data *)

Definition items (page : jsval) : list jsval :=
  match field page "items"%js with JArr l => l | _ => [] end.

Lemma mock_page_items l limit offset :
  items (mock_page l limit offset) = slice l offset (offset + limit).
Proof. done. Qed.

Lemma mock_page_has_more l limit offset :
  field (mock_page l limit offset) "has_more"%js
  = JBool (offset + limit <? Z.of_nat (length l))%Z.
Proof. done. Qed.

(** Without an indexer, the pages of transactions of size [limit] are
    disjoint and complete: the first [n] of them, in order, are the first
    [n * limit] transactions, and a page announces that there is more exactly when
    a transaction follows it. *)
Lemma fallback_pages (a : Api) (r : outcome response) (limit n : nat) :
  failed r →
  ∃ page : nat → jsval,
    (∀ k, eval (getTransactions loaded (Z.of_nat limit) (Z.of_nat (k * limit))) a [r]
          = Some (Ok (page k), a))
    ∧ concat ((λ k, items (page k)) <$> seq 0 n) = take (n * limit) (MOCK_GENESIS_TXS loaded)
    ∧ ∀ k, field (page k) "has_more"%js = JBool true
           ↔ drop (k * limit + limit) (MOCK_GENESIS_TXS loaded) ≠ [].
Proof.
  intros Hr. exists (λ k, mock_page (MOCK_GENESIS_TXS loaded) (Z.of_nat limit) (Z.of_nat (k * limit))).
  split_and!.
  - intros k. by destruct (offline_lists (Z.of_nat limit) (Z.of_nat (k * limit)) [] a r [] Hr)
      as [-> _].
  - rewrite <- pages_concat. f_equal. apply list_fmap_ext. intros _ k _.
    by rewrite mock_page_items, slice_page.
  - intros k. rewrite mock_page_has_more.
    destruct (Z.ltb_spec (Z.of_nat (k * limit) + Z.of_nat limit)
                (Z.of_nat (length (MOCK_GENESIS_TXS loaded)))) as [Hlt|Hge].
    + split; [|done]. intros _ E%(f_equal length). rewrite length_drop in E.
      change (length []) with 0%nat in E. lia.
    + split; [done|]. intros E. destruct E. apply drop_ge. lia.
Qed.

(** ** Search *)

Lemma is_decimal_spec s :
  is_decimal s = true ↔ s ≠ [] ∧ Forall (λ c, is_digit c = true) s.
Proof.
  unfold is_decimal. rewrite andb_true_iff, negb_true_iff, bool_decide_eq_false.
  by rewrite forallb_Forall_true.
Qed.

Lemma decimal_encodes s : is_decimal s = true → ∃ q, encodeURIComponent s = Ok q.
Proof.
  intros [_ Hs]%is_decimal_spec. unfold encodeURIComponent.
  rewrite well_formed_ascii; [by eexists|]. eapply Forall_impl; [exact Hs|].
  intros c Hc%is_digit_spec. lia.
Qed.

Lemma parseInt10_digits s :
  is_decimal s = true → safe_int (Z.of_N (dec_value s)) →
  parseInt10 s = NInt (Z.of_N (dec_value s)).
Proof.
  intros [Hn Hs]%is_decimal_spec Hz. unfold parseInt10, parseInt.
  unfold trimStart. rewrite drop_while_id.
  2:{ destruct Hs; [done|]. by apply is_digit_not_ws. }
  assert (take_while (is_radix_digit 10) s = s) as Ht.
  { rewrite <- (app_nil_r s) at 1. apply take_drop_while_app; [|done].
    eapply Forall_impl; [exact Hs|]. intros c Hc. unfold is_radix_digit.
    by rewrite radix10_digit, bool_decide_true. }
  destruct s as [|c s]; [done|]. pose proof (Forall_inv Hs) as Hc%is_digit_spec.
  rewrite (proj2 (N.eqb_neq c 45)), (proj2 (N.eqb_neq c 43)) by lia.
  destruct s as [|d s]; change (10 =? 16)%N with false; cbn [andb];
    rewrite Ht, parse_radix10 by done; cbn [mbind option_bind]; by apply num_of_Z_safe.
Qed.

Lemma mock_block_height i : field_num (mock_block loaded i) "height"%js = NInt (8245920 - Z.of_nat i).
Proof. done. Qed.

(** The fallback block of a height has that height. *)
Lemma fallback_block_height chainId now s :
  is_decimal s = true → safe_int (Z.of_N (dec_value s)) →
  let b := fallback_block loaded chainId now s in
  truthy b = true ∧ field_num b "height"%js = NInt (Z.of_N (dec_value s)).
Proof.
  intros Hs Hz. cbv zeta. unfold fallback_block. rewrite Hs, parseInt10_digits by done.
  destruct (find _ _) as [b|] eqn:E; [|done].
  apply find_elem in E as [(i & -> & Hi)%list_elem_of_fmap E]. rewrite mock_block_height in *.
  split; [done|]. apply num_eqb_int in E; [by rewrite E| |done].
  apply elem_of_seq in Hi. unfold safe_int. lia.
Qed.

(** A search for a decimal number, without servers, finds a block of exactly that
    height. *)
Lemma search_height (a : Api) (q : jsstring) (r1 r2 r3 : outcome response) :
  failed r1 → failed r2 → failed r3 →
  is_decimal (trim q) = true → safe_int (Z.of_N (dec_value (trim q))) →
  ∃ b, eval (search loaded q) a [r1; r2; r3] = Some (Ok (result "Block"%js b), a)
       ∧ field_num b "height"%js = NInt (Z.of_N (dec_value (trim q)))
       ∧ conforms (TOr ExplorerTypes.IndexedBlock TNull) b = true.
Proof.
  intros H1 H2 H3 Hq Hz. unfold search.
  rewrite bool_decide_false by (by apply is_decimal_spec in Hq as [? _]).
  destruct (decimal_encodes _ Hq) as [u ->]. cbn [lift]. rewrite ret_bind, eval_fetchJson, H1.
  change (truthy JNull) with false. cbv iota. rewrite Hq, offline_getBlock by done.
  cbn [to_string]. rewrite trim_idemp.
  edestruct fallback_block_height as [-> Hh]; [done..|].
  eexists. split; [reflexivity|]. split; [exact Hh|apply fallback_block_typed].
Qed.

(** No part of [search] recognises the query. *)
Definition unrecognised (q : jsstring) : bool :=
  negb (bool_decide (trim q = [])) && bool_decide (trim q = q) && well_formed q
  && negb (is_decimal q) && negb (is_hex_of 64 (strip_0x q))
  && negb (startsWith (toLowerCase q) "sprax"%js) && negb (is_hex_address q)
  && negb (truthy (search_named q)).

Lemma startsWith_longer (s p x : jsstring) :
  startsWith s p = false → startsWith s (p ++ x) = false.
Proof.
  revert s. induction p as [|c p IH]; intros s; [by destruct s|].
  destruct s as [|d s]; simpl; [done|]. destruct (c =? d)%N; simpl; auto.
Qed.

Lemma search_unrecognised q a r rs :
  unrecognised q = true → failed r → eval (search loaded q) a (r :: rs) = Some (Ok JNull, a).
Proof.
  unfold unrecognised. rewrite !andb_true_iff, !negb_true_iff.
  intros (((((((Hn & Ht%bool_decide_eq_true) & Hw) & Hd) & Hh) & Hs) & Ha) & Hv) Hr.
  unfold search. rewrite Ht in *. rewrite Hn.
  unfold encodeURIComponent. rewrite Hw. cbn [lift]. rewrite ret_bind, eval_fetchJson, Hr.
  change (truthy JNull) with false. cbv iota. rewrite Hd. unfold search_hash. rewrite Hh.
  unfold search_registry, search_address.
  rewrite (startsWith_longer _ "sprax"%js "valoper1"%js), (startsWith_longer _ "sprax"%js "1contract"%js),
    (startsWith_longer _ "sprax"%js "1"%js) by done.
  rewrite Ha. cbn [orb]. revert Hv. unfold search_named. by destruct (find _ _) as [v|] eqn:E.
Qed.

Definition mock_tx_hash (i : nat) : jsstring := str_field (mock_tx loaded i) "tx_hash"%js.

Lemma mock_hashes_unrecognised : forallb (λ i, unrecognised (mock_tx_hash i)) (seq 0 30) = true.
Proof. by vm_compute. Qed.

Lemma mock_hashes_find i :
  (i < 30)%nat → fallback_tx loaded (toLowerCase (trim (mock_tx_hash i))) = mock_tx loaded i.
Proof. intros Hi. do 30 (destruct i as [|i]; [reflexivity|]). lia. Qed.

(** The built-in transactions cannot be found by searching for their hashes,
    which are one byte too long for [search], although [getTransaction] returns
    them. *)
Lemma search_misses_mock_tx (a : Api) (i : nat) (r1 r2 : outcome response) :
  failed r1 → failed r2 → (i < 30)%nat →
  let hash := str_field (mock_tx loaded i) "tx_hash"%js in
  eval (search loaded hash) a [r1] = Some (Ok JNull, a)
  ∧ eval (getTransaction loaded hash) a [r1; r2] = Some (Ok (mock_tx loaded i), a).
Proof.
  intros H1 H2 Hi hash. change hash with (mock_tx_hash i). split.
  - apply search_unrecognised; [|done]. pose proof mock_hashes_unrecognised as Hf.
    rewrite forallb_forall in Hf. apply Hf, in_seq. lia.
  - rewrite <- (eval_ret_bind (getTransaction _ _)), offline_getTransaction by done.
    by rewrite mock_hashes_find.
Qed.

(** ** Accounts *)

(** A balance the node reports as a string of digits is returned unchanged,
    with its value in SPRX computed from it; a balance that is not an integer makes
    [getAddress] reject with the error of [BigInt]. *)
Lemma getAddress_balance (a : Api) (r1 r2 r3 : outcome response)
    (fields : list (jsstring * jsval)) (s balance : jsstring) :
  failed r1 → answered r2 = JObj fields → obj_get fields "balance_atto"%js = JStr balance →
  balance ≠ [] →
  match BigInt balance with
  | Throw e => eval (getAddress s) a [r1; r2; r3] = Some (Throw e, set_api_offline false a)
  | Ok atto =>
      ∃ v, eval (getAddress s) a [r1; r2; r3] = Some (Ok v, set_api_offline false a)
           ∧ field v "address"%js = JStr (trim s) ∧ field v "balance"%js = JStr balance
           ∧ field v "balance_sprx"%js
             = JStr (host_toLocaleString (num_div (num_of_Z (Z.quot atto (10 ^ 14))) (NInt 10000)) 2 6
                     ++ " SPRX"%js)
  end.
Proof.
  intros H1 H2 Hb Hn. unfold getAddress. rewrite !eval_fetchJson, H1.
  change (truthy JNull) with false. cbv iota.
  rewrite !eval_getNetworkConfig, !eval_json_or_null, H2, !and_prop_spec.
  change (and_field (JObj fields) "balance_atto"%js) with (obj_get fields "balance_atto"%js).
  rewrite Hb. change (negb (is_undef (JStr balance))) with true. cbv iota.
  rewrite !eval_set_offline. unfold or_str, js_or, truthy. rewrite bool_decide_false by done.
  cbn [negb]. change (BigInt_of (JStr balance)) with (BigInt balance).
  destruct (BigInt balance) as [atto|e]; [|done]. cbn [lift]. rewrite ret_bind.
  rewrite bind_prop by done. rewrite bind_prop_opt. by eexists.
Qed.
End facts.

(** ** Witnesses *)

Section witnesses.
#[local] Existing Instances plain_host ascii_case.

Definition rejected : outcome response := Throw (JsErr "TypeError"%js "Failed to fetch"%js).
Definition fresh_service : Api := new_ExplorerApiService 1700000000000.

Lemma fallback_typed_witness :
  failed rejected ∧ returns (getAddress "sprax1qq"%js) fresh_service [rejected; rejected; rejected]
    (TOr ExplorerTypes.IndexedAccount TNull).
Proof.
  split; [done|].
  exact (proj1 (proj2 (proj2 (proj2 (proj2 (proj2 (fallback_typed 0 fresh_service rejected rejected
    rejected 20 0 (int 5) "sprax1qq"%js eq_refl eq_refl eq_refl))))))).
Defined.

Definition balance_response (s : jsstring) : outcome response :=
  Ok (mkResponse 200 "OK"%js (Ok (JObj [("balance_atto"%js, JStr s)])) (Ok [])).

End witnesses.
