(* ===== verification/ExplorerUi.v ===== *)
(** * Controls of the explorer: [apps/explorer-ui/src/components]

    [Pagination.tsx], [SearchBar.tsx], [SearchModal.tsx], [CopyButton.tsx],
    [ConnectWalletModal.tsx] and the form of [pages/FaucetPage.tsx]. *)
From stdpp Require Import gmap.
From S2P Require Import Prelude JsString JsStringFacts JsNumber JsJson JsJsonFacts Formatters View Render.
Import Formatters.

(** ** [Pagination] *)
Module Pagination.

(** The user asks for a page. *)
Inductive Event := PageChange (page : Z).

(** The numbers are integers below [2 ^ 53], for which the ceiling of the
    quotient of two doubles is the ceiling of the quotient. *)
Definition totalPages (totalItems pageSize : Z) : Z :=
  Z.max 1 ((totalItems + pageSize - 1) / pageSize).

Definition startItem (currentPage pageSize : Z) : Z := (currentPage - 1) * pageSize + 1.
Definition endItem (currentPage totalItems pageSize : Z) : Z :=
  Z.min (currentPage * pageSize) totalItems.

Definition render `{Host} (currentPage totalItems pageSize : Z) : list (view Event) :=
  let total := totalPages totalItems pageSize in
  if (total <=? 1)%Z then []
  else
    [div [
      div [Text "Showing "%js; span [Text (Z_to_string (startItem currentPage pageSize))];
           Text " to "%js; span [Text (Z_to_string (endItem currentPage totalItems pageSize))];
           Text " of "%js; span [Text (host_toLocaleString (NInt totalItems) 0 3)];
           Text " entries"%js];
      div [button (currentPage =? 1)%Z (PageChange 1) [];
           button (currentPage =? 1)%Z (PageChange (currentPage - 1)) [];
           span [Text "Page "%js; Text (Z_to_string currentPage); Text " of "%js;
                 Text (Z_to_string total)];
           button (total <=? currentPage)%Z (PageChange (currentPage + 1)) [];
           button (total <=? currentPage)%Z (PageChange total) []]]].
End Pagination.

(** ** [SearchBar] *)
Module SearchBar.

(** The component's state hooks, with their setters. *)
Record State := mkState {
  query : jsstring;
  detectedType : option jsstring;
}.
Definition set_query (x : jsstring) (st : State) : State :=
  mkState x (detectedType st).
Definition set_detectedType (x : option jsstring) (st : State) : State :=
  mkState (query st) x.

Definition init : State := mkState [] None.

Inductive Event := TypeQuery (s : jsstring) | Submit.

(** The effect on [query]. *)
Definition detect `{UnicodeCase} (query : jsstring) : option jsstring :=
  if bool_decide (trim query = []) then None
  else
    match (parseSearchQuery query).1 with
    | QHeight => Some "Block Height"%js
    | QTxHash => Some "Tx Hash"%js
    | QAddress => Some "Address"%js
    | QValidator => Some "Validator"%js
    | _ => None
    end.

(** [handleSubmit]: the query given to [onSearch]. *)
Definition handleSubmit (st : State) : option jsstring :=
  if bool_decide (trim (query st) = []) then None else Some (trim (query st)).

Definition handle `{UnicodeCase} (e : Event) (st : State) : State * option jsstring :=
  match e with
  | TypeQuery s => (set_detectedType (detect s) (set_query s st), None)
  | Submit => (st, handleSubmit st)
  end.

Definition render (placeholder : jsstring) (st : State) : view Event :=
  El "form"%js [] [OnSubmit Submit]
    [div ([input [("type"%js, "text"%js); ("placeholder"%js, placeholder)] (query st) TypeQuery]
          ++ match detectedType st with
             | Some t => when (negb (bool_decide (t = []))) (span [Text t])
             | None => []
             end
          ++ [El "button"%js [("type"%js, "submit"%js)] [] [span [Text "Search"%js]]])].
End SearchBar.

(** ** [SearchModal] *)
Module SearchModal.

(** The component's state hooks, with their setters. [recents] holds what was stored,
    an array of strings unless something else wrote to the storage. *)
Record State := mkState {
  query : jsstring;
  recents : jsval;
}.
Definition set_query (x : jsstring) (st : State) : State :=
  mkState x (recents st).
Definition set_recents (x : jsval) (st : State) : State :=
  mkState (query st) x.

Definition init : State := mkState [] (JArr []).

Definition recents_key : jsstring := "sprx_recent_searches"%js.

(** The effect on [isOpen]. *)
Definition load_recents (storage : Storage) (st : State) : State :=
  match getItem storage recents_key with
  | None | Some [] => st
  | Some stored =>
      match JSON_parse stored with
      | Ok (JArr l) => set_recents (JArr (slice l 0 5)) st
      | Ok (JStr s) => set_recents (JStr (slice s 0 5)) st
      | _ => st
      end
  end.

(** [[clean, ...recents.filter((r) => r !== clean)].slice(0, 5)] *)
Definition is_str (s : jsstring) (v : jsval) : bool :=
  match v with JStr t => bool_decide (t = s) | _ => false end.

Definition push_recent (clean : jsstring) (l : list jsval) : list jsval :=
  slice (JStr clean :: filter (λ r, is_str clean r = false) l) 0 5.

(** [handleExecute]: the new state and storage, and the query given to
    [onSelectResult] before [onClose]. [writable] tells whether [setItem]
    succeeds. *)
Definition handleExecute (writable : bool) (targetQuery : jsstring) (st : State)
    (storage : Storage) : State * Storage * option jsstring :=
  let clean := trim targetQuery in
  if bool_decide (clean = []) then (st, storage, None)
  else
    match recents st with
    | JArr l =>
        let updated := push_recent clean l in
        if writable then
          (set_recents (JArr updated) st,
           <[recents_key := json_ser (JArr updated)]> storage, Some clean)
        else (st, storage, Some clean)
    | _ => (st, storage, Some clean)
    end.

(** The "Clear" button. *)
Definition clear_recents (st : State) (storage : Storage) : State * Storage :=
  (set_recents (JArr []) st, delete recents_key storage).

Inductive Event := Close | TypeQuery (s : jsstring) | Execute (s : jsstring) | Clear.

Definition hint (t : QueryType) : jsstring :=
  match t with
  | QHeight => "Search Block Height"%js
  | QTxHash => "Search Transaction Hash"%js
  | QAddress => "Search Account Address"%js
  | QValidator => "Search Validator Moniker"%js
  | _ => "Universal Search"%js
  end.

(** One recent search: [handleExecute] trims a string. *)
Definition recent_button (item : jsval) : jsx Event :=
  el "button"%js [] (match item with JStr s => [OnClick (Execute s)] | _ => [] end) [jspan [child item]].

Definition recents_view (recents : jsval) (blank : bool) : jsx Event :=
  match recents with
  | JArr l =>
      jwhen ((0 <? length l)%nat && blank)
        (jdiv [jdiv [jspan [txt "Recent Searches"%js]; el "button"%js [] [OnClick Clear] [txt "Clear"%js]];
               jdiv [jeach l recent_button]])
  | JStr s =>
      jwhen ((0 <? length s)%nat && blank) (type_error "recents.map is not a function"%js)
  | _ => none
  end.

Definition render `{UnicodeCase} (isOpen : bool) (st : State) : outcome (list (view Event)) :=
  if negb isOpen then Ok []
  else
    let parsed := parseSearchQuery (query st) in
    let blank := bool_decide (trim (query st) = []) in
    recent ← recents_view (recents st) blank;
    Ok [El "div"%js [] [OnClick Close]
      [El "div"%js [] [StopPropagation]
        ([div ([El "input"%js [("type"%js, "text"%js);
                  ("placeholder"%js, "Search by address, tx hash, block number, or validator..."%js);
                  ("value"%js, query st)]
                 [OnChange TypeQuery;
                  OnKeyDown (λ k, if bool_decide (k = "Enter"%js) && negb blank
                                  then Some (Execute (query st)) else None)] []]
               ++ [if bool_decide (query st = []) then El "kbd"%js [] [] [Text "ESC"%js]
                   else button false (TypeQuery []) []])]
         ++ when (negb blank)
              (div [button false (Execute (query st))
                      [div [div [Text (hint parsed.1)]; div [Text parsed.2]]]])
         ++ recent
         ++ [div [div [span [Text "Examples:"%js];
                       El "span"%js [] [OnClick (Execute "8245920"%js)] [Text "#8245920"%js];
                       El "span"%js []
                         [OnClick (Execute "sprax1qpzry9x8gf2tvdw0s3jn54khce6mua7l4w3e2r"%js)]
                         [Text "sprax1qpz..."%js]];
                  div [span [Text "Press"%js]; El "kbd"%js [] [] [Text "Enter"%js];
                       span [Text "to select"%js]]]])]].

(** The window's listener: whether it calls [onClose]. *)
Definition handleKeyDown (isOpen meta : bool) (key lowered : jsstring) : bool :=
  (meta && bool_decide (lowered = "k"%js) && isOpen) || (bool_decide (key = "Escape"%js) && isOpen).
End SearchModal.

(** ** [CopyButton] *)
Module CopyButton.

(** [copied], the state after [handleCopy] whose copy settled with [ok], and the
    callback of its timer. *)
Definition handleCopy (ok : bool) (copied : bool) : bool := if ok then true else copied.
Definition uncopy (copied : bool) : bool := false.

Definition render (title : jsstring) (copied : bool) : view unit :=
  let label := if copied then "Copied!"%js else title in
  El "button"%js [("title"%js, label); ("aria-label"%js, label)] [OnClick tt] [].
End CopyButton.

(** ** [ConnectWalletModal] *)
Module ConnectWalletModal.

(** The component's state hooks, with their setters. *)
Record State := mkState {
  connectingId : option jsstring;
  connectedAddress : option jsstring;
}.
Definition set_connectingId (x : option jsstring) (st : State) : State :=
  mkState x (connectedAddress st).
Definition set_connectedAddress (x : option jsstring) (st : State) : State :=
  mkState (connectingId st) x.

Definition wallet_key : jsstring := "sprx_connected_wallet"%js.

(** [localStorage.getItem(key) || null] *)
Definition stored_wallet (storage : Storage) : option jsstring :=
  match getItem storage wallet_key with Some [] | None => None | Some s => Some s end.

Definition init (storage : Storage) : State := mkState None (stored_wallet storage).

Record WalletOption := mkWalletOption {
  opt_id : jsstring; opt_name : jsstring; opt_description : jsstring; opt_badge : jsstring;
  opt_sampleAddress : jsstring;
}.

Definition walletOptions : list WalletOption :=
  [mkWalletOption "sprx-web"%js "SPRX Web Wallet"%js
     "Fast in-browser non-custodial HD wallet powered by @sprax/wallet-core"%js "Official"%js
     "sprax1sdtpz05x2r7d70u428v2ff3rtyj49z65a380gr"%js;
   mkWalletOption "sprx-mobile"%js "SPRX Mobile Wallet"%js
     "Scan QR code with iOS / Android mobile wallet app"%js "Mobile"%js
     "sprax1q8x9y7w6e5r4t3y2u1i0o9p8a7s6d5f4g3h2j1"%js;
   mkWalletOption "cosmos-ext"%js "Keplr / Cosmos Extension"%js
     "Connect using compatible CometBFT / Cosmos browser extension"%js "Extension"%js
     "sprax1a2s3d4f5g6h7j8k9l0z1x2c3v4b5n6m7q8w9e0"%js;
   mkWalletOption "hardware"%js "Hardware Security Key"%js
     "Direct Ledger / Trezor USB connection via WebHID"%js "Cold Storage"%js
     "sprax1z9y8x7w6v5u4t3s2r1q0p9o8n7m6l5k4j3h2g1"%js].

(** [handleConnect] before its timer; the timer's callback also calls
    [onConnected] with the address and then [onClose]. *)
Definition handleConnect (id : jsstring) (st : State) : State := set_connectingId (Some id) st.
Definition connected (address : jsstring) (st : State) (storage : Storage) : State * Storage :=
  (set_connectedAddress (Some address) (set_connectingId None st),
   <[wallet_key := address]> storage).

Definition handleDisconnect (st : State) (storage : Storage) : State * Storage :=
  (set_connectedAddress None st, delete wallet_key storage).

Inductive Event := Close | Connect (id address : jsstring) | Disconnect.

Definition option_view (st : State) (opt : WalletOption) : view Event :=
  El "div"%js [] [OnClick (Connect (opt_id opt) (opt_sampleAddress opt))]
    [div [div []; div [div [span [Text (opt_name opt)]; span [Text (opt_badge opt)]];
                       p [Text (opt_description opt)]]];
     div (when (bool_decide (connectingId st = Some (opt_id opt))) (span [Text "Connecting..."%js]))].

Definition render (isOpen : bool) (st : State) : list (view Event) :=
  if negb isOpen then []
  else
    [div [div (
      [button false Close [];
       div [El "h2"%js [] [] [span [Text "Connect SPRX Wallet"%js]];
            p [Text "Connect your non-custodial wallet to interact with dApps, stake tokens, and vote on SIP proposals."%js]]]
      ++ match connectedAddress st with
         | Some a =>
             when (negb (bool_decide (a = [])))
               (div [div [div [span [Text "Connected Account"%js]]; p [Text a]];
                     button false Disconnect [Text "Disconnect"%js]])
         | None => []
         end
      ++ [div (option_view st <$> walletOptions)])]].
End ConnectWalletModal.

(** ** [FaucetPage] *)
Module FaucetPage.

(** The component's state hooks, with their setters. *)
Record State := mkState {
  targetAddress : jsstring;
  isSubmitting : bool;
  successTx : option jsstring;
  errorMsg : option jsstring;
}.
Definition set_targetAddress (x : jsstring) (st : State) : State :=
  mkState x (isSubmitting st) (successTx st) (errorMsg st).
Definition set_isSubmitting (x : bool) (st : State) : State :=
  mkState (targetAddress st) x (successTx st) (errorMsg st).
Definition set_successTx (x : option jsstring) (st : State) : State :=
  mkState (targetAddress st) (isSubmitting st) x (errorMsg st).
Definition set_errorMsg (x : option jsstring) (st : State) : State :=
  mkState (targetAddress st) (isSubmitting st) (successTx st) x.

Definition init : State := mkState [] false None None.

(** [handleClaim]: the new state, and whether the timer was set. *)
Definition handleClaim (st : State) : State * bool :=
  let clean := trim (targetAddress st) in
  if bool_decide (clean = []) then
    (set_errorMsg (Some "Please enter a valid SPRX recipient address."%js) st, false)
  else if negb (startsWith clean "sprax1"%js) && negb (is_hex_address clean) then
    (set_errorMsg (Some "Invalid address format. Expected Bech32 address (sprax1...) or 20-byte Hex address."%js)
       st, false)
  else (set_successTx None (set_isSubmitting true (set_errorMsg None st)), true).

(** The timer's callback. *)
Definition dispensed (st : State) : State :=
  set_successTx (Some "0x4a9b2c3d4e5f60718293a4b5c6d7e8f901a2b3c4d5e6f708192a3b4c5d6e7f80"%js)
    (set_isSubmitting false st).

Definition typeAddress (s : jsstring) (st : State) : State :=
  set_errorMsg None (set_targetAddress s st).

Inductive Event := TypeAddress (s : jsstring) | Claim.

Definition message (m : option jsstring) (f : jsstring → view Event) : list (view Event) :=
  match m with Some s => when (negb (bool_decide (s = []))) (f s) | None => [] end.

Definition render `{UnicodeCase} (network : jsstring) (st : State) : view Event :=
  div [
    heading "h1"%js (toUpperCase network ++ " SPRX Faucet"%js);
    div [
      div [heading "h3"%js "Dispense Testnet Tokens"%js;
           p [Text "Allocation: 10.0 SPRX per request (Rate limit: 1 request / 24 hours per IP)"%js]];
      El "form"%js [] [OnSubmit Claim]
        ([div [El "label"%js [] [] [Text "Recipient Account Address"%js];
               input [("type"%js, "text"%js);
                      ("placeholder"%js, "sprax1qpzry9x8gf2tvdw0s3jn54khce6mua7l4w3e2r or 0x..."%js)]
                 (targetAddress st) TypeAddress]]
         ++ message (errorMsg st) (λ m, div [Text m])
         ++ message (successTx st) (λ h,
              div [div [span [Text "Successfully dispensed 10.0 SPRX!"%js]];
                   div [Text "Tx Hash: "%js; span [Text h]]])
         ++ [El "button"%js ([("type"%js, "submit"%js)] ++ disabled_attr (isSubmitting st)) []
               [span [Text (if isSubmitting st then "Broadcasting Faucet Transaction..."%js
                            else "Request 10.0 SPRX Testnet Tokens"%js)]]]);
      div [span [Text "Testnet tokens hold no economic value and cannot be transferred or redeemed on SPRX Mainnet."%js]]]].
End FaucetPage.

(** ** Theorems *)

(** C35. The page controls keep to the pages there are: from a page in range every
    enabled button leads to a page in range; and the entries a page announces are
    non-empty, within the total, and followed by those of the next page. *)
Theorem pagination_sound `{Host} (cur total size : Z) :
  (0 < size)%Z → (0 < total)%Z → (1 ≤ cur ≤ Pagination.totalPages total size)%Z →
  (∀ v page, v ∈ Pagination.render cur total size → fires v (Pagination.PageChange page) →
     (1 ≤ page ≤ Pagination.totalPages total size)%Z)
  ∧ (1 ≤ Pagination.startItem cur size ≤ Pagination.endItem cur total size)%Z
  ∧ (Pagination.endItem cur total size ≤ total)%Z
  ∧ ((cur < Pagination.totalPages total size)%Z →
     Pagination.startItem (cur + 1) size = Pagination.endItem cur total size + 1)%Z
  ∧ (cur = Pagination.totalPages total size → Pagination.endItem cur total size = total).
Proof.
  intros Hs Ht Hc. unfold Pagination.render, Pagination.startItem, Pagination.endItem.
  set (n := Pagination.totalPages total size) in *.
  assert (n = (total + size - 1) / size)%Z as Hn.
  { unfold n, Pagination.totalPages. enough (1 ≤ (total + size - 1) / size)%Z by lia.
    apply Z.div_le_lower_bound; lia. }
  assert (size * n ≤ total + size - 1 < size * n + size)%Z as Hb.
  { rewrite Hn. pose proof (Z.div_mod (total + size - 1) size ltac:(lia)).
    pose proof (Z.mod_pos_bound (total + size - 1) size Hs). lia. }
  split_and!; try nia.
  intros v page Hv Hf. destruct (Z.leb_spec n 1); [by apply elem_of_nil in Hv|].
  apply list_elem_of_singleton in Hv as ->.
  fires_inv Hf; simplify_eq; rewrite is_disabled_attr in *;
    first [apply Z.eqb_neq in Heqb|apply Z.leb_gt in Heqb]; lia.
Qed.

Lemma pagination_sound_witness :
  (Pagination.startItem 2 15 = Pagination.endItem 1 20 15 + 1)%Z.
Proof.
  destruct (pagination_sound (H := plain_host) 1 20 15) as (_ & _ & _ & Hn & _);
    [lia|lia|by vm_compute|]. by apply Hn.
Defined.

(** *** Recent searches *)

(** Every search made, the last first, each once. *)
Definition history (qs : list jsstring) : list jsstring :=
  foldl (λ h q, if bool_decide (trim q = []) then h
                else trim q :: filter (λ r, r ≠ trim q) h) [] qs.

(** The searches [qs] executed in a modal, one after the other. *)
Definition execute_all (qs : list jsstring) : SearchModal.State * Storage :=
  foldl (λ '(st, storage) q, (SearchModal.handleExecute true q st storage).1)
    (SearchModal.init, ∅) qs.

Lemma history_snoc qs q :
  history (qs ++ [q]) = if bool_decide (trim q = []) then history qs
                        else trim q :: filter (λ r, r ≠ trim q) (history qs).
Proof. unfold history. by rewrite foldl_app. Qed.

Lemma history_NoDup qs : NoDup (history qs).
Proof.
  induction qs as [|q qs IH] using rev_ind; [constructor|].
  rewrite history_snoc. case_bool_decide; [done|]. constructor; [|by apply NoDup_filter].
  rewrite list_elem_of_filter. naive_solver.
Qed.

Lemma filter_none {A} `{EqDecision A} (x : A) (l : list A) :
  x ∉ l → filter (λ r, r ≠ x) l = l.
Proof.
  induction l as [|y l IH]; [done|]. rewrite not_elem_of_cons. intros [Hx Hl].
  rewrite filter_cons_True by congruence. by rewrite IH.
Qed.

Lemma filter_shorter {A} `{EqDecision A} (x : A) (l : list A) :
  NoDup l → (length l ≤ S (length (filter (λ r, r ≠ x) l)))%nat.
Proof.
  induction 1 as [|y l Hy Hl IH]; [simpl; lia|]. rewrite filter_cons.
  destruct (decide (y ≠ x)) as [|E]; [simpl; lia|].
  assert (y = x) as -> by (destruct (decide (y = x)); tauto).
  rewrite filter_none by done. simpl. lia.
Qed.

(** Cutting the list before or after a search is put first makes no difference. *)
Lemma take_push {A} `{EqDecision A} n (x : A) (l : list A) :
  NoDup l →
  take (S n) (x :: filter (λ r, r ≠ x) (take (S n) l)) = take (S n) (x :: filter (λ r, r ≠ x) l).
Proof.
  intros Hl. cbn [take]. f_equal. rewrite <- (take_drop (S n) l) at 2.
  rewrite filter_app. destruct (decide (length l ≤ S n)%nat).
  - rewrite (drop_ge l) by done. by rewrite filter_nil, app_nil_r.
  - rewrite take_app_le; [done|].
    assert (NoDup (take (S n) l)) as Ht.
    { rewrite <- (take_drop (S n) l) in Hl. by apply NoDup_app in Hl as (? & _). }
    apply (filter_shorter x) in Ht. rewrite length_take in Ht. lia.
Qed.

Lemma filter_strings x (l : list jsstring) :
  filter (λ r, SearchModal.is_str x r = false) (JStr <$> l) = JStr <$> filter (λ r, r ≠ x) l.
Proof.
  induction l as [|y l IH]; [done|]. rewrite fmap_cons, !filter_cons, IH. simpl.
  destruct (decide (y ≠ x)), (decide (bool_decide (y = x) = false)) as [E|E]; try done;
    [destruct E; by apply bool_decide_eq_false|by apply bool_decide_eq_false in E].
Qed.

Lemma push_recent_strings x (l : list jsstring) :
  SearchModal.push_recent x (JStr <$> l) = JStr <$> take 5 (x :: filter (λ r, r ≠ x) l).
Proof.
  unfold SearchModal.push_recent. rewrite (slice_0 _ 5), filter_strings.
  by rewrite fmap_take.
Qed.

Lemma strings_roundtrip (l : list jsstring) :
  JSON_parse (json_ser (JArr (JStr <$> l))) = Ok (JArr (JStr <$> l)).
Proof. apply (json_roundtrip (λ _, True)). induction l; simpl; auto. Qed.

Lemma load_recents_stored (storage : Storage) st (s : jsstring) l :
  getItem storage SearchModal.recents_key = Some s → JSON_parse s = Ok (JArr l) →
  SearchModal.load_recents storage st = SearchModal.set_recents (JArr (slice l 0 5)) st.
Proof.
  intros Hs Hp. unfold SearchModal.load_recents. rewrite Hs.
  destruct s as [|c s]; [done|]. by rewrite Hp.
Qed.

(** C25. The recent searches are the last five distinct searches, the latest first,
    and a modal opened again on what was stored shows the same ones. *)
Theorem recents_are_latest (qs : list jsstring) :
  let '(st, storage) := execute_all qs in
  SearchModal.recents st = JArr (JStr <$> take 5 (history qs))
  ∧ SearchModal.recents (SearchModal.load_recents storage SearchModal.init)
    = SearchModal.recents st.
Proof.
  induction qs as [|q qs IH] using rev_ind; [done|].
  unfold execute_all in *. rewrite foldl_app. cbn [foldl].
  destruct (foldl _ _ qs) as [st storage]. destruct IH as [IH1 IH2].
  unfold SearchModal.handleExecute. rewrite history_snoc in *.
  case_bool_decide as Hq; [by split|]. rewrite IH1. cbn [fst SearchModal.recents SearchModal.set_recents].
  rewrite push_recent_strings, (take_push 4) by apply history_NoDup.
  split; [done|].
  rewrite (load_recents_stored _ _ _ _ (lookup_insert_eq _ _ _) (strings_roundtrip _)).
  cbn [SearchModal.recents SearchModal.set_recents]. rewrite (slice_0 _ 5), <- fmap_take.
  by rewrite take_take.
Qed.
