(* ===== verification/ExplorerParts.v ===== *)
(** * Shared components of the explorer: [apps/explorer-ui/src/components]

    [StatusBadge.tsx], [MetricCard.tsx], [Links.tsx], [PageHeader.tsx],
    [Skeletons.tsx], [ErrorBoundary.tsx] and [NotFoundPage.tsx]. A [CopyButton], whose
    state [ExplorerUi] models, is an element with the text it copies. *)
From stdpp Require Import gmap.
From S2P Require Import Prelude JsString JsStringFacts JsNumber JsJson Formatters View Render.
Import Formatters.

Module Parts.
Section parts.
Context `{Host} `{UnicodeCase} {E : Type}.

(** ** [StatusBadge] *)

Definition badge_label (norm status : jsstring) : jsstring :=
  if bool_decide (norm = "success"%js) then "Success"%js
  else if bool_decide (norm = "confirmed"%js) then "Confirmed"%js
  else if bool_decide (norm = "active"%js) then "Active"%js
  else if bool_decide (norm = "pending"%js) then "Pending"%js
  else if bool_decide (norm = "failed"%js) then "Failed"%js
  else if bool_decide (norm = "jailed"%js) then "Jailed"%js
  else if bool_decide (norm = "inactive"%js) then "Inactive"%js
  else if bool_decide (norm = "live"%js) then "LIVE"%js
  else if bool_decide (norm = "testnet"%js) then "SPRX TESTNET"%js
  else status.

Definition StatusBadge (status : jsval) : jsx E :=
  s ← as_string status "toLowerCase"%js;
  jspan [jspan []; jspan [txt (badge_label (toLowerCase s) s)]].

(** [tx.success ? "confirmed" : "failed"] *)
Definition success_badge (tx : jsval) : jsx E :=
  ok ← get_prop tx "success"%js;
  StatusBadge (JStr (if truthy ok then "confirmed"%js else "failed"%js)).

(** ** [MetricCard] *)

Definition MetricCard (label : jsstring) (value : jsx E) (change subValue : jsstring)
    (onClick : list (handler E)) : jsx E :=
  el "div"%js [] onClick [
    jdiv [jspan [txt label]; jdiv []];
    jdiv [el "h3"%js [] [] [value]; jwhen (negb (bool_decide (change = []))) (jspan [txt change])];
    jwhen (negb (bool_decide (subValue = []))) (jdiv [txt subValue])].

(** A card with a value, a line below it and nothing else. *)
Definition card (label : jsstring) (value : jsx E) (subValue : jsstring) : jsx E :=
  MetricCard label value [] subValue [].

(** ** [Links] *)

Definition CopyButton (text : jsval) : jsx E := el "CopyButton"%js (attr_of "text"%js text) [] [].

Definition link_button (title : jsval) (onClick : list (handler E)) (l : list (jsx E)) : jsx E :=
  el "button"%js (("type"%js, "button"%js) :: attr_of "title"%js title) onClick l.

Definition HashLink (hash : jsval) (onClick : list (handler E)) (showCopy truncate : bool)
    (start end_ : Z) : jsx E :=
  display ← (if truncate then truncateHash hash start end_ else Ok hash);
  jspan [link_button hash onClick [child display]; jwhen showCopy (CopyButton hash)].

Definition TxLink (hash : jsval) (onClick : list (handler E)) (showCopy truncate : bool)
    (start end_ : Z) : jsx E := HashLink hash onClick showCopy truncate start end_.

Definition AddressLink (address : jsval) (onClick : list (handler E)) (showCopy truncate : bool)
    (start end_ : Z) (label : jsstring) : jsx E :=
  display ← (if bool_decide (label = [])
             then if truncate then truncateAddress address start end_ else Ok address
             else Ok (JStr label));
  jspan [link_button address onClick [child display]; jwhen showCopy (CopyButton address)].

Definition BlockLink (height : jsval) (onClick : list (handler E)) : jsx E :=
  s ← locale_string height;
  el "button"%js [("type"%js, "button"%js)] onClick [txt "#"%js; txt s].

Definition ValidatorLink (address moniker : jsval) (onClick : list (handler E)) (showCopy : bool) :
    jsx E :=
  display ← truncateAddress address 8 6;
  jspan [link_button address onClick [
           if truthy moniker then jspan [child moniker] else child moniker;
           jspan [child display]];
         jwhen showCopy (CopyButton address)].

(** ** [PageHeader] and [Tabs] *)

Definition PageHeader (title : jsx E) (subtitle : jsstring) (badge : jsx E)
    (back : option (E * jsstring)) (action : option (jsx E)) : jsx E :=
  jdiv [
    match back with
    | Some (onBack, backText) =>
        el "button"%js [("type"%js, "button"%js)] [OnClick onBack] [jspan [txt backText]]
    | None => none
    end;
    jdiv [
      jdiv [jdiv [el "h1"%js [] [] [title]; badge];
            jwhen (negb (bool_decide (subtitle = []))) (jp [txt subtitle])];
      match action with Some a => jdiv [a] | None => none end]].

(** A tab with its identifier, label and count. *)
Definition Tabs (onChange : jsstring → E) (tabs : list (jsstring * jsstring * option (jsx E))) : jsx E :=
  jdiv [jeach tabs (λ '(id, label, count),
    el "button"%js [("type"%js, "button"%js)] [OnClick (onChange id)] [
      jspan [txt label];
      match count with Some c => jspan [c] | None => none end])].

(** ** [Skeletons] *)

Definition TableSkeleton (rows cols : nat) : jsx E :=
  jdiv (jdiv [jdiv []; jdiv []] :: replicate rows (jdiv (replicate cols (jdiv [])))).

Definition MetricSkeleton : jsx E := jdiv [jdiv []; jdiv []; jdiv []].

Definition DetailsSkeleton : jsx E := jdiv (jdiv [] :: replicate 7 (jdiv [jdiv []; jdiv []])).

Definition EmptyState (title description : jsstring) (action : option (jsstring * E)) : jsx E :=
  jdiv [
    jdiv [];
    jh "h4"%js title;
    jp [txt description];
    match action with
    | Some (_ :: _ as actionText, onAction) =>
        el "button"%js [("type"%js, "button"%js)] [OnClick onAction] [txt actionText]
    | _ => none
    end].

Definition ErrorState (title message : jsstring) (onRetry : option E) : jsx E :=
  jdiv [
    jdiv [];
    jh "h4"%js title;
    jp [txt message];
    match onRetry with
    | Some e => el "button"%js [("type"%js, "button"%js)] [OnClick e] [txt "Retry Request"%js]
    | None => none
    end].

(** ** [ErrorBoundary]

    The screen after a render threw; its button reloads the page. *)
Definition ErrorBoundary (reload : E) (error : jserr) : view E :=
  div [div [];
       heading "h2"%js "Something went wrong"%js;
       p [Text (if bool_decide (err_message error = [])
                then "An unexpected error occurred in the application."%js else err_message error)];
       El "button"%js [("type"%js, "button"%js)] [OnClick reload] [span [Text "Reload Application"%js]]].

(** ** [NotFoundPage] *)
Definition NotFoundPage (onGoHome onOpenSearch : E) : jsx E :=
  jdiv [
    jdiv [];
    jh "h1"%js "Record Not Found"%js;
    jp [txt "The requested block, transaction, address, or page could not be found on Sprax Chain."%js];
    jdiv [el "button"%js [("type"%js, "button"%js)] [OnClick onGoHome] [jspan [txt "Back to Home"%js]];
          el "button"%js [("type"%js, "button"%js)] [OnClick onOpenSearch]
            [jspan [txt "Universal Search"%js]]]].
End parts.
End Parts.
