(* ===== verification/QrCode.v ===== *)
(** * The code of an address: [apps/explorer-ui/src/components/QrCodeModal.tsx]

    What the modal draws on its canvas, as the list of its rectangles, and the modal. *)
From S2P Require Import Prelude JsString JsStringFacts JsNumber JsJson View Render ExplorerParts.

Module QrCode.

Inductive Ink := White | Dark.

(** [ctx.fillRect(x, y, w, h)] with the fill style of that moment *)
Record Rect := mkRect { ink : Ink; left : Z; top : Z; width : Z; height : Z }.

Definition size : Z := 200.
Definition blockSize : Z := 8.
Definition count : Z := size / blockSize.

(** The products stay below [2 ^ 53]. *)
Fixpoint seed_from (i : Z) (seed : Z) (address : jsstring) : Z :=
  match address with
  | [] => seed
  | c :: address' => seed_from (i + 1) ((seed + Z.of_N c * (i + 1)) mod 1000000007) address'
  end.

Definition initial_seed (address : jsstring) : Z := seed_from 0 0 address.

(** The new seed, whose quotient by 233280 is the result. *)
Definition pseudoRandom (seed : Z) : Z := (seed * 9301 + 49297) mod 233280.

Definition dark_cell (seed : Z) : bool := num_ltb (lit 55 (-2)) (num_div (num_of_Z seed) (NInt 233280)).

Definition drawFinder (startX startY : Z) : list Rect :=
  [mkRect Dark (startX * blockSize) (startY * blockSize) (7 * blockSize) (7 * blockSize);
   mkRect White ((startX + 1) * blockSize) ((startY + 1) * blockSize) (5 * blockSize) (5 * blockSize);
   mkRect Dark ((startX + 2) * blockSize) ((startY + 2) * blockSize) (3 * blockSize) (3 * blockSize)].

Definition in_finder_zone (x y : Z) : bool :=
  (((x <? 10) && (y <? 10)) || ((count - 11 <? x) && (y <? 10)) || ((x <? 10) && (count - 11 <? y)))%Z.

Definition cell_rect (x y : Z) : Rect :=
  mkRect Dark (x * blockSize) (y * blockSize) blockSize blockSize.

(** The cells in the order of the loops. *)
Definition cells : list (Z * Z) :=
  x ← seqZ 0 count; (λ y, (x, y)) <$> seqZ 0 count.

Fixpoint draw_cells (seed : Z) (l : list (Z * Z)) : list Rect :=
  match l with
  | [] => []
  | (x, y) :: l' =>
      if in_finder_zone x y then draw_cells seed l'
      else
        let seed' := pseudoRandom seed in
        if dark_cell seed' then cell_rect x y :: draw_cells seed' l' else draw_cells seed' l'
  end.

Definition draw (address : jsstring) : list Rect :=
  mkRect White 0 0 size size
  :: drawFinder 2 2 ++ drawFinder (count - 9) 2 ++ drawFinder 2 (count - 9)
  ++ draw_cells (initial_seed address) cells.
End QrCode.

(** ** The modal *)

Definition QrCodeModal {E} (isOpen : bool) (onClose : E) (address : jsval) (title : jsstring) : jsx E :=
  if negb isOpen then none
  else
    el "div"%js [] [OnClick onClose] [
      el "div"%js [] [StopPropagation] [
        jdiv [jh "h3"%js title; el "button"%js [("type"%js, "button"%js)] [OnClick onClose] []];
        jdiv [jdiv [el "canvas"%js [] [] []]; jp [txt "Scan with SPRX Mobile Wallet or web client"%js]];
        jdiv [jspan [child address]; Parts.CopyButton address]]].

(** ** Theorems *)
Import QrCode.

Definition inside (r : Rect) : Prop :=
  (0 ≤ left r ∧ left r + width r ≤ size ∧ 0 ≤ top r ∧ top r + height r ≤ size)%Z.

(** Two rectangles without a common point. *)
Definition disjoint_rects (r s : Rect) : Prop :=
  (left r + width r ≤ left s ∨ left s + width s ≤ left r
   ∨ top r + height r ≤ top s ∨ top s + height s ≤ top r)%Z.

Lemma draw_cells_spec seed l r :
  r ∈ draw_cells seed l → ∃ x y, (x, y) ∈ l ∧ in_finder_zone x y = false ∧ r = cell_rect x y.
Proof.
  revert seed. induction l as [|[x y] l IH]; intros seed Hr; [by apply elem_of_nil in Hr|]. cbn in Hr.
  assert (∀ s, r ∈ draw_cells s l →
    ∃ x' y', (x', y') ∈ (x, y) :: l ∧ in_finder_zone x' y' = false ∧ r = cell_rect x' y') as Hl.
  { intros s (x' & y' & Hin & Hz & ->)%IH. exists x', y'. split; [by right|done]. }
  destruct (in_finder_zone x y) eqn:Ez; [by eapply Hl|].
  destruct (dark_cell _); [|by eapply Hl].
  apply elem_of_cons in Hr as [->|Hr]; [|by eapply Hl]. exists x, y. split; [by left|done].
Qed.

Lemma cells_range x y : (x, y) ∈ cells → (0 ≤ x < count ∧ 0 ≤ y < count)%Z.
Proof.
  unfold cells. intros (x' & Hy & Hx)%list_elem_of_bind.
  apply list_elem_of_fmap in Hy as (y' & [= -> ->] & Hy). apply elem_of_seqZ in Hx, Hy. lia.
Qed.

(** C40. Everything the modal draws is on the canvas, and no cell that depends on the
    address touches one of the three finder patterns. *)
Theorem qr_within_canvas (address : jsstring) :
  Forall inside (draw address)
  ∧ ∀ r f, r ∈ draw_cells (initial_seed address) cells →
      f ∈ drawFinder 2 2 ++ drawFinder (count - 9) 2 ++ drawFinder 2 (count - 9) → disjoint_rects r f.
Proof.
  assert (count = 25%Z) as Hc by reflexivity. split.
  - unfold draw. rewrite !Forall_cons, !Forall_app. split_and!.
    1-4: repeat constructor; vm_compute; split_and?; discriminate.
    apply Forall_forall. intros r (x & y & Hin & _ & ->)%draw_cells_spec.
    apply cells_range in Hin. unfold inside, size, cell_rect, blockSize. cbn. lia.
  - intros r f (x & y & Hin & Hz & ->)%draw_cells_spec Hf. apply cells_range in Hin.
    unfold in_finder_zone in Hz. rewrite Hc in *.
    revert f Hf. apply Forall_forall. rewrite !Forall_app.
    unfold disjoint_rects, drawFinder, cell_rect, blockSize.
    split_and!; repeat (apply Forall_cons; split; [cbn; lia|]); constructor.
Qed.

Lemma pseudoRandom_mod s t : (s mod 233280 = t mod 233280)%Z → pseudoRandom s = pseudoRandom t.
Proof.
  intros E. unfold pseudoRandom.
  by rewrite Z.add_mod, Z.mul_mod, E, <- Z.mul_mod, <- Z.add_mod.
Qed.

Lemma draw_cells_mod s t l : (s mod 233280 = t mod 233280)%Z → draw_cells s l = draw_cells t l.
Proof.
  revert s t. induction l as [|[x y] l IH]; intros s t E; [done|]. cbn.
  by rewrite (IH s t E), (pseudoRandom_mod s t E).
Qed.

(** The picture does not determine the address: it depends on no more than a number
    below 233280, and two different addresses are drawn as the same picture. *)
Lemma qr_not_injective :
  (∀ a b, (initial_seed a mod 233280 = initial_seed b mod 233280)%Z → draw a = draw b)
  ∧ "sprax1qpzry9x8gf2tvdw0s3jn54khce6mua7l4w3e2r"%js ≠ "sprax1zpsry9x8gf2tvdw0s3jn54khce6mua7l4w3e2r"%js
  ∧ draw "sprax1qpzry9x8gf2tvdw0s3jn54khce6mua7l4w3e2r"%js = draw "sprax1zpsry9x8gf2tvdw0s3jn54khce6mua7l4w3e2r"%js.
Proof.
  assert (∀ a b, (initial_seed a mod 233280 = initial_seed b mod 233280)%Z → draw a = draw b) as Hd.
  { intros a b E. unfold draw. by rewrite (draw_cells_mod _ _ cells E). }
  split; [exact Hd|]. split; [discriminate|]. apply Hd. vm_compute. reflexivity.
Qed.
