(* ===== verification/ExplorerDevelopers.v ===== *)
(** * The page of the developers: [apps/explorer-ui/src/pages/DevelopersPage.tsx]

    No route shows it; the portal of [ExplorerLearn] has taken its place. *)
From S2P Require Import Prelude JsString JsNumber JsJson Formatters View Render ExplorerApi ExplorerParts.
Import Parts.

Module DevelopersPage.

Inductive Snippet := curl | ts | rust.

#[global] Instance Snippet_eq_dec : EqDecision Snippet.
Proof. solve_decision. Defined.

Definition init : Snippet := ts.

Definition rpcUrl (n : Network) : jsstring :=
  match n with
  | Mainnet => "https://rpc.sprax.network:2657"%js
  | Testnet => "https://testnet-rpc.sprax.network:2657"%js
  | Local => "http://127.0.0.1:2657"%js
  end.

Definition apiBase (n : Network) : jsstring :=
  match n with
  | Mainnet => "https://mainnet.sprax.network/api/v1"%js
  | Testnet => "https://testnet-api.sprax.network/api/v1"%js
  | Local => "http://127.0.0.1:8080/api/v1"%js
  end.

Definition network_name (n : Network) : jsstring :=
  match n with Mainnet => "mainnet"%js | Testnet => "testnet"%js | Local => "local"%js end.

Definition chainId (n : Network) : jsstring := "sprax-"%js ++ network_name n ++ "-1"%js.

(** Text in double quotes, and the lines of a template. *)
Definition quoted (s : jsstring) : jsstring := [34%N] ++ s ++ [34%N].
Definition template : list jsstring → jsstring := join_with [10%N].

Definition curlSnippet (n : Network) : jsstring :=
  template [
    "# Check Sprax Chain RPC Status"%js;
    "curl -X GET "%js ++ quoted (rpcUrl n ++ "/status"%js);
    [];
    "# Fetch latest indexed blocks via Explorer REST API"%js;
    "curl -X GET "%js ++ quoted (apiBase n ++ "/blocks?limit=10"%js);
    [];
    "# Fetch account balance"%js;
    "curl -X GET "%js
      ++ quoted (apiBase n ++ "/addresses/sprax1qpzry9x8gf2tvdw0s3jn54khce6mua7l4w3e2r"%js)].

Definition tsSnippet (n : Network) : jsstring :=
  template [
    "import { SpraxClient } from "%js ++ quoted "@sprax/wallet-core"%js ++ ";"%js;
    [];
    "async function main() {"%js;
    "  const client = new SpraxClient({"%js;
    "    rpcUrl: "%js ++ quoted (rpcUrl n) ++ ","%js;
    "    chainId: "%js ++ quoted (chainId n) ++ ","%js;
    "  });"%js;
    [];
    "  // Query network status and block height"%js;
    "  const status = await client.getNetworkStatus();"%js;
    "  console.log("%js ++ quoted "Current Height:"%js ++ ", status.latest_block_height);"%js;
    [];
    "  // Query account balance"%js;
    "  const balance = await client.getBalance("%js
      ++ quoted "sprax1qpzry9x8gf2tvdw0s3jn54khce6mua7l4w3e2r"%js ++ ");"%js;
    "  console.log("%js ++ quoted "Balance:"%js ++ ", balance.formatted, "%js ++ quoted "SPRX"%js ++ ");"%js;
    "}"%js;
    [];
    "main();"%js].

Definition rustSnippet (n : Network) : jsstring :=
  template [
    "use sprax_types::{Address, Amount};"%js;
    "use sprax_node::rpc::RpcClient;"%js;
    [];
    "#[tokio::main]"%js;
    "async fn main() -> Result<(), Box<dyn std::error::Error>> {"%js;
    "    let client = RpcClient::connect("%js ++ quoted (rpcUrl n) ++ ").await?;"%js;
    "    let stats = client.get_network_stats().await?;"%js;
    "    println!("%js ++ quoted "SPRX Height: #{}"%js ++ ", stats.latest_height);"%js;
    "    Ok(())"%js;
    "}"%js].

Definition snippet (s : Snippet) (n : Network) : jsstring :=
  match s with ts => tsSnippet n | curl => curlSnippet n | rust => rustSnippet n end.

Definition snippet_title (s : Snippet) : jsstring :=
  match s with
  | ts => "TypeScript / Node.js SDK"%js
  | curl => "cURL Shell Commands"%js
  | rust => "Rust Tokio Client"%js
  end.

Definition mode_name (s : Snippet) : jsstring :=
  match s with ts => "ts"%js | curl => "curl"%js | rust => "rust"%js end.

(** The only event is [setSelectedSnippet]. *)
Section page.
Context `{UnicodeCase}.

Definition parameters (n : Network) : jsx Snippet :=
  jdiv [
    el "h3"%js [] [] [txt "Network Connection Parameters ("%js; txt (toUpperCase (network_name n)); txt ")"%js];
    jdiv [
      jdiv [txt "Chain ID"%js];
      jdiv [jspan [txt (chainId n)]; CopyButton (JStr (chainId n))];
      jdiv [txt "Native Denomination"%js];
      jdiv [txt "SPRX (18 Decimals / 1 atto-SPRX = 10^-18 SPRX)"%js];
      jdiv [txt "JSON-RPC Endpoint"%js];
      jdiv [jspan [txt (rpcUrl n)]; CopyButton (JStr (rpcUrl n))];
      jdiv [txt "Explorer REST API Base"%js];
      jdiv [jspan [txt (apiBase n)]; CopyButton (JStr (apiBase n))]]].

Definition samples (n : Network) (selectedSnippet : Snippet) : jsx Snippet :=
  jdiv [
    jdiv [
      jdiv [el "h3"%js [] [] [txt "Integration Code Samples"%js]];
      jdiv [
        jeach [ts; curl; rust] (λ mode,
          el "button"%js [("type"%js, "button"%js)] [OnClick mode] [txt (mode_name mode)])]];
    jdiv [
      jdiv [
        jspan [txt (snippet_title selectedSnippet)];
        CopyButton (JStr (snippet selectedSnippet n))];
      el "pre"%js [] [] [txt (snippet selectedSnippet n)]]].

Definition endpoint (path : list (jsx Snippet)) (description : jsstring) : jsx Snippet :=
  jdiv [jdiv [jspan [txt "GET"%js]; jspan path]; jspan [txt description]].

Definition endpoints : jsx Snippet :=
  jdiv [
    el "h3"%js [] [] [txt "Explorer REST API Endpoints (`/api/v1`)"%js];
    jdiv [
      endpoint [txt "/api/v1/blocks?limit=20&offset=0"%js] "Paginated chronological blocks"%js;
      endpoint [txt "/api/v1/blocks/"%js; txt "{height_or_hash}"%js] "Fetch single block details"%js;
      endpoint [txt "/api/v1/txs?limit=20&offset=0"%js] "Paginated transactions"%js;
      endpoint [txt "/api/v1/txs/"%js; txt "{hash}"%js] "Fetch cryptographic receipt & status"%js;
      endpoint [txt "/api/v1/addresses/"%js; txt "{address}"%js] "Account balance & nonce"%js;
      endpoint [txt "/api/v1/stats"%js] "High-level network health & TPS"%js]].

Definition render (n : Network) (selectedSnippet : Snippet) : jsx Snippet :=
  jdiv [
    PageHeader (txt "Developer & RPC Portal"%js)
      "Public RPC endpoints, Explorer REST API reference, and integration client SDKs for Sprax Chain."%js
      none None None;
    parameters n; samples n selectedSnippet; endpoints].
End page.

(** The node the page names is never the one the service asks, the indexer only on the
    test network, and the chain except on the local network. *)
Lemma parameters_diverge n :
  rpcUrl n ≠ cfg_rpcUrl (NETWORK_CONFIG n)
  ∧ (apiBase n = cfg_apiBase (NETWORK_CONFIG n) ↔ n = Testnet)
  ∧ (chainId n = cfg_chainId (NETWORK_CONFIG n) ↔ n ≠ Local).
Proof. destruct n; vm_compute; repeat split; congruence. Qed.
End DevelopersPage.
