(* ===== verification/ExplorerApp.v ===== *)
(** * The explorer: [apps/explorer-ui/src/App.tsx]

    The state of [App] and of the service it shares with its pages, the handlers
    it gives to the pages, the data loads and the polling, and which page is
    shown. *)
From stdpp Require Import gmap.
From S2P Require Import Prelude JsString JsStringFacts JsNumber JsJson Async Formatters.
From S2P Require Import Render ExplorerApi ExplorerUi.
Import Formatters ExplorerApiService.

(** Where [Promise.all] is called. *)
Inductive CallSite := LoadAll | Polling | SelectedAddress.

#[global] Instance CallSite_eq_dec : EqDecision CallSite.
Proof. solve_decision. Defined.
#[global] Instance CallSite_countable : Countable CallSite.
Proof.
  refine (inj_countable (λ s, match s with LoadAll => 0%nat | Polling => 1%nat | SelectedAddress => 2%nat end)
    (λ n, match n with 0 => Some LoadAll | 1 => Some Polling | _ => Some SelectedAddress end)%nat _).
  by intros [].
Defined.

Module ExplorerApp.

(** The hooks of [App], then the service, the browser's storage and the classes of
    the document, the modals' states, the addresses of the wallet timers that run,
    and the results of the calls a [Promise.all] still collects. [theme],
    [currency] and [network] are whatever string was stored. *)
Record State := mkState {
  theme : jsstring;
  currency : jsstring;
  network : jsstring;
  currentRoute : jsstring;
  searchModalOpen : bool;
  getStartedModalOpen : bool;
  connectWalletModalOpen : bool;
  connectedWallet : option jsstring;
  stats : jsval;
  blocks : jsval;
  transactions : jsval;
  validators : jsval;
  contracts : jsval;
  currentBlock : jsval;
  currentBlockTxs : jsval;
  currentTx : jsval;
  currentAccount : jsval;
  currentAccountTxs : jsval;
  currentValidator : jsval;
  currentContract : jsval;
  blocksPage : Z;
  txsPage : Z;
  api : Api;
  storage : Storage;
  darkClass : bool;
  lightClass : bool;
  search : SearchModal.State;
  wallet : ConnectWalletModal.State;
  timers : list jsstring;
  joins : gmap (CallSite * nat) (list (option jsval));
  nextJoin : nat;
}.
Definition set_theme (x : jsstring) (st : State) : State :=
  mkState x (currency st) (network st) (currentRoute st) (searchModalOpen st)
    (getStartedModalOpen st) (connectWalletModalOpen st) (connectedWallet st) (stats st)
    (blocks st) (transactions st) (validators st) (contracts st) (currentBlock st)
    (currentBlockTxs st) (currentTx st) (currentAccount st) (currentAccountTxs st)
    (currentValidator st) (currentContract st) (blocksPage st) (txsPage st) (api st)
    (storage st) (darkClass st) (lightClass st) (search st) (wallet st) (timers st)
    (joins st) (nextJoin st).
Definition set_currency (x : jsstring) (st : State) : State :=
  mkState (theme st) x (network st) (currentRoute st) (searchModalOpen st)
    (getStartedModalOpen st) (connectWalletModalOpen st) (connectedWallet st) (stats st)
    (blocks st) (transactions st) (validators st) (contracts st) (currentBlock st)
    (currentBlockTxs st) (currentTx st) (currentAccount st) (currentAccountTxs st)
    (currentValidator st) (currentContract st) (blocksPage st) (txsPage st) (api st)
    (storage st) (darkClass st) (lightClass st) (search st) (wallet st) (timers st)
    (joins st) (nextJoin st).
Definition set_network (x : jsstring) (st : State) : State :=
  mkState (theme st) (currency st) x (currentRoute st) (searchModalOpen st)
    (getStartedModalOpen st) (connectWalletModalOpen st) (connectedWallet st) (stats st)
    (blocks st) (transactions st) (validators st) (contracts st) (currentBlock st)
    (currentBlockTxs st) (currentTx st) (currentAccount st) (currentAccountTxs st)
    (currentValidator st) (currentContract st) (blocksPage st) (txsPage st) (api st)
    (storage st) (darkClass st) (lightClass st) (search st) (wallet st) (timers st)
    (joins st) (nextJoin st).
Definition set_currentRoute (x : jsstring) (st : State) : State :=
  mkState (theme st) (currency st) (network st) x (searchModalOpen st)
    (getStartedModalOpen st) (connectWalletModalOpen st) (connectedWallet st) (stats st)
    (blocks st) (transactions st) (validators st) (contracts st) (currentBlock st)
    (currentBlockTxs st) (currentTx st) (currentAccount st) (currentAccountTxs st)
    (currentValidator st) (currentContract st) (blocksPage st) (txsPage st) (api st)
    (storage st) (darkClass st) (lightClass st) (search st) (wallet st) (timers st)
    (joins st) (nextJoin st).
Definition set_searchModalOpen (x : bool) (st : State) : State :=
  mkState (theme st) (currency st) (network st) (currentRoute st) x (getStartedModalOpen st)
    (connectWalletModalOpen st) (connectedWallet st) (stats st) (blocks st)
    (transactions st) (validators st) (contracts st) (currentBlock st) (currentBlockTxs st)
    (currentTx st) (currentAccount st) (currentAccountTxs st) (currentValidator st)
    (currentContract st) (blocksPage st) (txsPage st) (api st) (storage st) (darkClass st)
    (lightClass st) (search st) (wallet st) (timers st) (joins st) (nextJoin st).
Definition set_getStartedModalOpen (x : bool) (st : State) : State :=
  mkState (theme st) (currency st) (network st) (currentRoute st) (searchModalOpen st) x
    (connectWalletModalOpen st) (connectedWallet st) (stats st) (blocks st)
    (transactions st) (validators st) (contracts st) (currentBlock st) (currentBlockTxs st)
    (currentTx st) (currentAccount st) (currentAccountTxs st) (currentValidator st)
    (currentContract st) (blocksPage st) (txsPage st) (api st) (storage st) (darkClass st)
    (lightClass st) (search st) (wallet st) (timers st) (joins st) (nextJoin st).
Definition set_connectWalletModalOpen (x : bool) (st : State) : State :=
  mkState (theme st) (currency st) (network st) (currentRoute st) (searchModalOpen st)
    (getStartedModalOpen st) x (connectedWallet st) (stats st) (blocks st) (transactions st)
    (validators st) (contracts st) (currentBlock st) (currentBlockTxs st) (currentTx st)
    (currentAccount st) (currentAccountTxs st) (currentValidator st) (currentContract st)
    (blocksPage st) (txsPage st) (api st) (storage st) (darkClass st) (lightClass st)
    (search st) (wallet st) (timers st) (joins st) (nextJoin st).
Definition set_connectedWallet (x : option jsstring) (st : State) : State :=
  mkState (theme st) (currency st) (network st) (currentRoute st) (searchModalOpen st)
    (getStartedModalOpen st) (connectWalletModalOpen st) x (stats st) (blocks st)
    (transactions st) (validators st) (contracts st) (currentBlock st) (currentBlockTxs st)
    (currentTx st) (currentAccount st) (currentAccountTxs st) (currentValidator st)
    (currentContract st) (blocksPage st) (txsPage st) (api st) (storage st) (darkClass st)
    (lightClass st) (search st) (wallet st) (timers st) (joins st) (nextJoin st).
Definition set_stats (x : jsval) (st : State) : State :=
  mkState (theme st) (currency st) (network st) (currentRoute st) (searchModalOpen st)
    (getStartedModalOpen st) (connectWalletModalOpen st) (connectedWallet st) x (blocks st)
    (transactions st) (validators st) (contracts st) (currentBlock st) (currentBlockTxs st)
    (currentTx st) (currentAccount st) (currentAccountTxs st) (currentValidator st)
    (currentContract st) (blocksPage st) (txsPage st) (api st) (storage st) (darkClass st)
    (lightClass st) (search st) (wallet st) (timers st) (joins st) (nextJoin st).
Definition set_blocks (x : jsval) (st : State) : State :=
  mkState (theme st) (currency st) (network st) (currentRoute st) (searchModalOpen st)
    (getStartedModalOpen st) (connectWalletModalOpen st) (connectedWallet st) (stats st) x
    (transactions st) (validators st) (contracts st) (currentBlock st) (currentBlockTxs st)
    (currentTx st) (currentAccount st) (currentAccountTxs st) (currentValidator st)
    (currentContract st) (blocksPage st) (txsPage st) (api st) (storage st) (darkClass st)
    (lightClass st) (search st) (wallet st) (timers st) (joins st) (nextJoin st).
Definition set_transactions (x : jsval) (st : State) : State :=
  mkState (theme st) (currency st) (network st) (currentRoute st) (searchModalOpen st)
    (getStartedModalOpen st) (connectWalletModalOpen st) (connectedWallet st) (stats st)
    (blocks st) x (validators st) (contracts st) (currentBlock st) (currentBlockTxs st)
    (currentTx st) (currentAccount st) (currentAccountTxs st) (currentValidator st)
    (currentContract st) (blocksPage st) (txsPage st) (api st) (storage st) (darkClass st)
    (lightClass st) (search st) (wallet st) (timers st) (joins st) (nextJoin st).
Definition set_validators (x : jsval) (st : State) : State :=
  mkState (theme st) (currency st) (network st) (currentRoute st) (searchModalOpen st)
    (getStartedModalOpen st) (connectWalletModalOpen st) (connectedWallet st) (stats st)
    (blocks st) (transactions st) x (contracts st) (currentBlock st) (currentBlockTxs st)
    (currentTx st) (currentAccount st) (currentAccountTxs st) (currentValidator st)
    (currentContract st) (blocksPage st) (txsPage st) (api st) (storage st) (darkClass st)
    (lightClass st) (search st) (wallet st) (timers st) (joins st) (nextJoin st).
Definition set_contracts (x : jsval) (st : State) : State :=
  mkState (theme st) (currency st) (network st) (currentRoute st) (searchModalOpen st)
    (getStartedModalOpen st) (connectWalletModalOpen st) (connectedWallet st) (stats st)
    (blocks st) (transactions st) (validators st) x (currentBlock st) (currentBlockTxs st)
    (currentTx st) (currentAccount st) (currentAccountTxs st) (currentValidator st)
    (currentContract st) (blocksPage st) (txsPage st) (api st) (storage st) (darkClass st)
    (lightClass st) (search st) (wallet st) (timers st) (joins st) (nextJoin st).
Definition set_currentBlock (x : jsval) (st : State) : State :=
  mkState (theme st) (currency st) (network st) (currentRoute st) (searchModalOpen st)
    (getStartedModalOpen st) (connectWalletModalOpen st) (connectedWallet st) (stats st)
    (blocks st) (transactions st) (validators st) (contracts st) x (currentBlockTxs st)
    (currentTx st) (currentAccount st) (currentAccountTxs st) (currentValidator st)
    (currentContract st) (blocksPage st) (txsPage st) (api st) (storage st) (darkClass st)
    (lightClass st) (search st) (wallet st) (timers st) (joins st) (nextJoin st).
Definition set_currentBlockTxs (x : jsval) (st : State) : State :=
  mkState (theme st) (currency st) (network st) (currentRoute st) (searchModalOpen st)
    (getStartedModalOpen st) (connectWalletModalOpen st) (connectedWallet st) (stats st)
    (blocks st) (transactions st) (validators st) (contracts st) (currentBlock st) x
    (currentTx st) (currentAccount st) (currentAccountTxs st) (currentValidator st)
    (currentContract st) (blocksPage st) (txsPage st) (api st) (storage st) (darkClass st)
    (lightClass st) (search st) (wallet st) (timers st) (joins st) (nextJoin st).
Definition set_currentTx (x : jsval) (st : State) : State :=
  mkState (theme st) (currency st) (network st) (currentRoute st) (searchModalOpen st)
    (getStartedModalOpen st) (connectWalletModalOpen st) (connectedWallet st) (stats st)
    (blocks st) (transactions st) (validators st) (contracts st) (currentBlock st)
    (currentBlockTxs st) x (currentAccount st) (currentAccountTxs st) (currentValidator st)
    (currentContract st) (blocksPage st) (txsPage st) (api st) (storage st) (darkClass st)
    (lightClass st) (search st) (wallet st) (timers st) (joins st) (nextJoin st).
Definition set_currentAccount (x : jsval) (st : State) : State :=
  mkState (theme st) (currency st) (network st) (currentRoute st) (searchModalOpen st)
    (getStartedModalOpen st) (connectWalletModalOpen st) (connectedWallet st) (stats st)
    (blocks st) (transactions st) (validators st) (contracts st) (currentBlock st)
    (currentBlockTxs st) (currentTx st) x (currentAccountTxs st) (currentValidator st)
    (currentContract st) (blocksPage st) (txsPage st) (api st) (storage st) (darkClass st)
    (lightClass st) (search st) (wallet st) (timers st) (joins st) (nextJoin st).
Definition set_currentAccountTxs (x : jsval) (st : State) : State :=
  mkState (theme st) (currency st) (network st) (currentRoute st) (searchModalOpen st)
    (getStartedModalOpen st) (connectWalletModalOpen st) (connectedWallet st) (stats st)
    (blocks st) (transactions st) (validators st) (contracts st) (currentBlock st)
    (currentBlockTxs st) (currentTx st) (currentAccount st) x (currentValidator st)
    (currentContract st) (blocksPage st) (txsPage st) (api st) (storage st) (darkClass st)
    (lightClass st) (search st) (wallet st) (timers st) (joins st) (nextJoin st).
Definition set_currentValidator (x : jsval) (st : State) : State :=
  mkState (theme st) (currency st) (network st) (currentRoute st) (searchModalOpen st)
    (getStartedModalOpen st) (connectWalletModalOpen st) (connectedWallet st) (stats st)
    (blocks st) (transactions st) (validators st) (contracts st) (currentBlock st)
    (currentBlockTxs st) (currentTx st) (currentAccount st) (currentAccountTxs st) x
    (currentContract st) (blocksPage st) (txsPage st) (api st) (storage st) (darkClass st)
    (lightClass st) (search st) (wallet st) (timers st) (joins st) (nextJoin st).
Definition set_currentContract (x : jsval) (st : State) : State :=
  mkState (theme st) (currency st) (network st) (currentRoute st) (searchModalOpen st)
    (getStartedModalOpen st) (connectWalletModalOpen st) (connectedWallet st) (stats st)
    (blocks st) (transactions st) (validators st) (contracts st) (currentBlock st)
    (currentBlockTxs st) (currentTx st) (currentAccount st) (currentAccountTxs st)
    (currentValidator st) x (blocksPage st) (txsPage st) (api st) (storage st)
    (darkClass st) (lightClass st) (search st) (wallet st) (timers st) (joins st)
    (nextJoin st).
Definition set_blocksPage (x : Z) (st : State) : State :=
  mkState (theme st) (currency st) (network st) (currentRoute st) (searchModalOpen st)
    (getStartedModalOpen st) (connectWalletModalOpen st) (connectedWallet st) (stats st)
    (blocks st) (transactions st) (validators st) (contracts st) (currentBlock st)
    (currentBlockTxs st) (currentTx st) (currentAccount st) (currentAccountTxs st)
    (currentValidator st) (currentContract st) x (txsPage st) (api st) (storage st)
    (darkClass st) (lightClass st) (search st) (wallet st) (timers st) (joins st)
    (nextJoin st).
Definition set_txsPage (x : Z) (st : State) : State :=
  mkState (theme st) (currency st) (network st) (currentRoute st) (searchModalOpen st)
    (getStartedModalOpen st) (connectWalletModalOpen st) (connectedWallet st) (stats st)
    (blocks st) (transactions st) (validators st) (contracts st) (currentBlock st)
    (currentBlockTxs st) (currentTx st) (currentAccount st) (currentAccountTxs st)
    (currentValidator st) (currentContract st) (blocksPage st) x (api st) (storage st)
    (darkClass st) (lightClass st) (search st) (wallet st) (timers st) (joins st)
    (nextJoin st).
Definition set_api (x : Api) (st : State) : State :=
  mkState (theme st) (currency st) (network st) (currentRoute st) (searchModalOpen st)
    (getStartedModalOpen st) (connectWalletModalOpen st) (connectedWallet st) (stats st)
    (blocks st) (transactions st) (validators st) (contracts st) (currentBlock st)
    (currentBlockTxs st) (currentTx st) (currentAccount st) (currentAccountTxs st)
    (currentValidator st) (currentContract st) (blocksPage st) (txsPage st) x (storage st)
    (darkClass st) (lightClass st) (search st) (wallet st) (timers st) (joins st)
    (nextJoin st).
Definition set_storage (x : Storage) (st : State) : State :=
  mkState (theme st) (currency st) (network st) (currentRoute st) (searchModalOpen st)
    (getStartedModalOpen st) (connectWalletModalOpen st) (connectedWallet st) (stats st)
    (blocks st) (transactions st) (validators st) (contracts st) (currentBlock st)
    (currentBlockTxs st) (currentTx st) (currentAccount st) (currentAccountTxs st)
    (currentValidator st) (currentContract st) (blocksPage st) (txsPage st) (api st) x
    (darkClass st) (lightClass st) (search st) (wallet st) (timers st) (joins st)
    (nextJoin st).
Definition set_darkClass (x : bool) (st : State) : State :=
  mkState (theme st) (currency st) (network st) (currentRoute st) (searchModalOpen st)
    (getStartedModalOpen st) (connectWalletModalOpen st) (connectedWallet st) (stats st)
    (blocks st) (transactions st) (validators st) (contracts st) (currentBlock st)
    (currentBlockTxs st) (currentTx st) (currentAccount st) (currentAccountTxs st)
    (currentValidator st) (currentContract st) (blocksPage st) (txsPage st) (api st)
    (storage st) x (lightClass st) (search st) (wallet st) (timers st) (joins st)
    (nextJoin st).
Definition set_lightClass (x : bool) (st : State) : State :=
  mkState (theme st) (currency st) (network st) (currentRoute st) (searchModalOpen st)
    (getStartedModalOpen st) (connectWalletModalOpen st) (connectedWallet st) (stats st)
    (blocks st) (transactions st) (validators st) (contracts st) (currentBlock st)
    (currentBlockTxs st) (currentTx st) (currentAccount st) (currentAccountTxs st)
    (currentValidator st) (currentContract st) (blocksPage st) (txsPage st) (api st)
    (storage st) (darkClass st) x (search st) (wallet st) (timers st) (joins st)
    (nextJoin st).
Definition set_search (x : SearchModal.State) (st : State) : State :=
  mkState (theme st) (currency st) (network st) (currentRoute st) (searchModalOpen st)
    (getStartedModalOpen st) (connectWalletModalOpen st) (connectedWallet st) (stats st)
    (blocks st) (transactions st) (validators st) (contracts st) (currentBlock st)
    (currentBlockTxs st) (currentTx st) (currentAccount st) (currentAccountTxs st)
    (currentValidator st) (currentContract st) (blocksPage st) (txsPage st) (api st)
    (storage st) (darkClass st) (lightClass st) x (wallet st) (timers st) (joins st)
    (nextJoin st).
Definition set_wallet (x : ConnectWalletModal.State) (st : State) : State :=
  mkState (theme st) (currency st) (network st) (currentRoute st) (searchModalOpen st)
    (getStartedModalOpen st) (connectWalletModalOpen st) (connectedWallet st) (stats st)
    (blocks st) (transactions st) (validators st) (contracts st) (currentBlock st)
    (currentBlockTxs st) (currentTx st) (currentAccount st) (currentAccountTxs st)
    (currentValidator st) (currentContract st) (blocksPage st) (txsPage st) (api st)
    (storage st) (darkClass st) (lightClass st) (search st) x (timers st) (joins st)
    (nextJoin st).
Definition set_timers (x : list jsstring) (st : State) : State :=
  mkState (theme st) (currency st) (network st) (currentRoute st) (searchModalOpen st)
    (getStartedModalOpen st) (connectWalletModalOpen st) (connectedWallet st) (stats st)
    (blocks st) (transactions st) (validators st) (contracts st) (currentBlock st)
    (currentBlockTxs st) (currentTx st) (currentAccount st) (currentAccountTxs st)
    (currentValidator st) (currentContract st) (blocksPage st) (txsPage st) (api st)
    (storage st) (darkClass st) (lightClass st) (search st) (wallet st) x (joins st)
    (nextJoin st).
Definition set_joins (x : gmap (CallSite * nat) (list (option jsval))) (st : State) : State :=
  mkState (theme st) (currency st) (network st) (currentRoute st) (searchModalOpen st)
    (getStartedModalOpen st) (connectWalletModalOpen st) (connectedWallet st) (stats st)
    (blocks st) (transactions st) (validators st) (contracts st) (currentBlock st)
    (currentBlockTxs st) (currentTx st) (currentAccount st) (currentAccountTxs st)
    (currentValidator st) (currentContract st) (blocksPage st) (txsPage st) (api st)
    (storage st) (darkClass st) (lightClass st) (search st) (wallet st) (timers st) x
    (nextJoin st).
Definition set_nextJoin (x : nat) (st : State) : State :=
  mkState (theme st) (currency st) (network st) (currentRoute st) (searchModalOpen st)
    (getStartedModalOpen st) (connectWalletModalOpen st) (connectedWallet st) (stats st)
    (blocks st) (transactions st) (validators st) (contracts st) (currentBlock st)
    (currentBlockTxs st) (currentTx st) (currentAccount st) (currentAccountTxs st)
    (currentValidator st) (currentContract st) (blocksPage st) (txsPage st) (api st)
    (storage st) (darkClass st) (lightClass st) (search st) (wallet st) (timers st)
    (joins st) x.

Definition pageSize : Z := 15.

(** [localStorage.getItem(k) || d] *)
Definition stored_or (s : Storage) (k d : jsstring) : jsstring :=
  match getItem s k with Some [] | None => d | Some v => v end.

Definition init (s : Storage) (pathname : jsstring) (dark light : bool) (now : Z) : State :=
  mkState (stored_or s "sprx_theme"%js "dark"%js) (stored_or s "sprx_currency"%js "USD"%js)
    (stored_or s "sprx_network"%js "mainnet"%js)
    (if bool_decide (pathname = []) then "/"%js else pathname)
    false false false (ConnectWalletModal.stored_wallet s)
    JNull (JArr []) (JArr []) (JArr []) (JArr []) JNull (JArr []) JNull JNull (JArr []) JNull JNull
    1 1 (new_ExplorerApiService now) s dark light
    (SearchModal.load_recents s SearchModal.init) (ConnectWalletModal.init s) [] ∅ 0.

Definition Network_value (n : Network) : jsstring :=
  match n with Mainnet => "mainnet"%js | Testnet => "testnet"%js | Local => "local"%js end.

(** A call of the service. *)
Definition upd_api (f : Api → Api) (st : State) : State := set_api (f (api st)) st.
Definition call {A} (c : cmd Api A) : cmd State A := zoom api upd_api c.

Definition setItem (k v : jsstring) (st : State) : State :=
  set_storage (<[k := v]> (storage st)) st.

(** ** [Promise.all] *)

(** A call is known by its place and a number. *)
Definition fill (id : CallSite * nat) (i : nat) (v : jsval) (st : State) : State :=
  set_joins (alter (λ slots, <[i := Some v]> slots) id (joins st)) st.

(** The results, once all are there. *)
Definition joined (id : CallSite * nat) (st : State) : option (list jsval) :=
  slots ← joins st !! id; mapM (λ s, s) slots.

(** One of the calls: the last one to settle resumes the awaiting function, and a
    call that rejects leaves it to its error path, which does nothing. *)
Definition one_of (id : CallSite * nat) (k : list jsval → cmd State unit) (i : nat)
    (c : cmd State jsval) : cmd State unit :=
  v ← c;
  _ ← write (fill id i v);
  st ← get;
  match joined id st with Some vs => Yield (k vs) | None => Ret tt end.

Definition promise_all (site : CallSite) (cs : list (cmd State jsval)) (k : list jsval → cmd State unit)
    (st : State) : State * list (cmd State unit) :=
  let id := (site, nextJoin st) in
  (set_nextJoin (S (nextJoin st)) (set_joins (<[id := replicate (length cs) None]> (joins st)) st),
   imap (one_of id k) cs).

Section app.
Context `{Host} `{UnicodeCase} (loaded : Z).

(** ** Theme, currency, network *)

(** The effect on [theme]; [prefersDark] is the media query's answer. *)
Definition apply_theme (prefersDark : bool) (st : State) : State :=
  let st := setItem "sprx_theme"%js (theme st) st in
  if bool_decide (theme st = "dark"%js) then set_lightClass false (set_darkClass true st)
  else if bool_decide (theme st = "light"%js) then set_lightClass true (set_darkClass false st)
  else set_lightClass (negb prefersDark) (set_darkClass prefersDark st).

Definition toggleTheme (st : State) : State :=
  set_theme (if bool_decide (theme st = "dark"%js) then "light"%js else "dark"%js) st.

Definition handleCurrencyChange (c : jsstring) (st : State) : State :=
  setItem "sprx_currency"%js c (set_currency c st).

(** ** Loading data *)

Definition with_items (v : jsval) (f : jsval → State → State) : cmd State unit :=
  items ← lift (get_prop v "items"%js); write (f items).

(** The [loadAllData] of a render with these pages. *)
Definition loadAllData (blocksPage txsPage : Z) (st : State) : State * list (cmd State unit) :=
  promise_all LoadAll
    [call getStats;
     call (getBlocks loaded pageSize ((blocksPage - 1) * pageSize));
     call (getTransactions loaded pageSize ((txsPage - 1) * pageSize));
     call getValidators;
     call getContracts]
    (λ vs, match vs with
           | [s; blkRes; txRes; valList; ctList] =>
               catch
                 (_ ← write (set_stats s);
                  _ ← with_items blkRes set_blocks;
                  _ ← with_items txRes set_transactions;
                  _ ← write (set_validators valList);
                  write (set_contracts ctList))
                 (λ _, Ret tt)
           | _ => Ret tt
           end) st.

(** The callback of the interval. *)
Definition poll (st : State) : State * list (cmd State unit) :=
  promise_all Polling
    [call getStats; call (getBlocks loaded pageSize 0); call (getTransactions loaded pageSize 0)]
    (λ vs, match vs with
           | [s; blkRes; txRes] =>
               catch
                 (_ ← write (set_stats s);
                  _ ← with_items blkRes set_blocks;
                  with_items txRes set_transactions)
                 (λ _, Ret tt)
           | _ => Ret tt
           end) st.

Definition handleNetworkChange (n : Network) (st : State) : State * list (cmd State unit) :=
  loadAllData (blocksPage st) (txsPage st)
    (setItem "sprx_network"%js (Network_value n)
       (upd_api (set_api_network n) (set_network (Network_value n) st))).

(** ** Navigation and selection *)

Definition navigateTo (route : jsstring) : cmd State unit := write (set_currentRoute route).

(** [l.filter((t) => t.block_height === block.height)] *)
Fixpoint filter_height (block : jsval) (l : list jsval) : outcome (list jsval) :=
  match l with
  | [] => Ok []
  | t :: l' =>
      h ← get_prop t "block_height"%js;
      height ← get_prop block "height"%js;
      rest ← filter_height block l';
      Ok (if strict_eq h height then t :: rest else rest)
  end.

Definition block_txs (transactions block : jsval) : outcome jsval :=
  match transactions with
  | JArr l =>
      txs ← filter_height block l;
      Ok (JArr (if (0 <? length txs)%nat then txs else slice l 0 3))
  | _ => type_error "transactions.filter is not a function"%js
  end.

(** What [handleSelectBlock] and [handleUniversalSearch] do with a block;
    [transactions] is the list of the render the handler belongs to. *)
Definition showBlock (transactions block : jsval) : cmd State unit :=
  _ ← write (set_currentBlock block);
  txs ← lift (block_txs transactions block);
  _ ← write (set_currentBlockTxs txs);
  height ← lift (get_prop block "height"%js);
  navigateTo ("/block/"%js ++ to_string height).

(** Show a record and go to the route of its identifier. *)
Definition show (set : jsval → State → State) (route key : jsstring) (v : jsval) : cmd State unit :=
  _ ← write (set v);
  id ← lift (get_prop v key);
  navigateTo (route ++ to_string id).

Definition handleSelectBlock (transactions heightOrHash : jsval) : cmd State unit :=
  block ← call (getBlock loaded heightOrHash);
  if truthy block then showBlock transactions block else navigateTo "/404"%js.

Definition handleSelectTx (hash : jsstring) : cmd State unit :=
  tx ← call (getTransaction loaded hash);
  if truthy tx then show set_currentTx "/tx/"%js "tx_hash"%js tx else navigateTo "/404"%js.

Definition handleSelectAddress (address : jsstring) (st : State) : State * list (cmd State unit) :=
  promise_all SelectedAddress
    [call (getAddress address); call (getAddressTransactions loaded address 20 0)]
    (λ vs, match vs with
           | [acc; accTxs] =>
               if truthy acc then
                 _ ← write (set_currentAccount acc);
                 _ ← with_items accTxs set_currentAccountTxs;
                 a ← lift (get_prop acc "address"%js);
                 navigateTo ("/address/"%js ++ to_string a)
               else navigateTo "/404"%js
           | _ => Ret tt
           end) st.

(** [validators.find((v) => v.operator_address.toLowerCase() === ...)] *)
Fixpoint find_validator (lowered : jsstring) (l : list jsval) : outcome (option jsval) :=
  match l with
  | [] => Ok None
  | v :: l' =>
      a ← get_prop v "operator_address"%js;
      match a with
      | JStr s => if bool_decide (toLowerCase s = lowered) then Ok (Some v)
                  else find_validator lowered l'
      | _ => type_error "v.operator_address.toLowerCase is not a function"%js
      end
  end.

Definition handleSelectValidator (validators : jsval) (operatorAddress : jsstring) :
    cmd State unit :=
  match validators with
  | JArr l =>
      found ← lift (find_validator (toLowerCase operatorAddress) l);
      match found with
      | Some val => show set_currentValidator "/validator/"%js "operator_address"%js val
      | None => navigateTo "/404"%js
      end
  | _ => lift (type_error "validators.find is not a function"%js)
  end.

Definition handleSelectContract (contractAddress : jsstring) : cmd State unit :=
  ct ← Yield (call (getContract contractAddress));
  if truthy ct then show set_currentContract "/contract/"%js "address"%js ct
  else navigateTo "/404"%js.

Definition handleUniversalSearch (transactions : jsval) (query : jsstring) : cmd State unit :=
  result ← call (ExplorerApiService.search loaded query);
  if negb (truthy result) then navigateTo "/404"%js
  else
    type ← lift (get_prop result "type"%js);
    data ← lift (get_prop result "data"%js);
    if strict_eq type (JStr "Block"%js) then showBlock transactions data
    else if strict_eq type (JStr "Transaction"%js) then show set_currentTx "/tx/"%js "tx_hash"%js data
    else if strict_eq type (JStr "Address"%js) then
      _ ← write (set_currentAccount data);
      a ← lift (get_prop data "address"%js);
      address ← lift (match a with
                      | JStr s => Ok s
                      | JUndef => type_error "Cannot read properties of undefined (reading 'trim')"%js
                      | JNull => type_error "Cannot read properties of null (reading 'trim')"%js
                      | _ => type_error "address.trim is not a function"%js end);
      accTxs ← call (getAddressTransactions loaded address 20 0);
      _ ← with_items accTxs set_currentAccountTxs;
      navigateTo ("/address/"%js ++ address)
    else if strict_eq type (JStr "Validator"%js) then
      show set_currentValidator "/validator/"%js "operator_address"%js data
    else if strict_eq type (JStr "Contract"%js) then
      show set_currentContract "/contract/"%js "address"%js data
    else Ret tt.

(** ** What is shown *)

(** The page components with the data given to them. *)
Inductive Page :=
| HomePage (stats recentBlocks recentTxs : jsval)
| BlocksPage (blocks totalBlocks : jsval) (currentPage pageSize : Z)
| BlockDetailsPage (block txs : jsval)
| TransactionsPage (transactions totalTxs : jsval) (currentPage pageSize : Z)
| TxDetailsPage (tx : jsval) (currency : jsstring)
| AddressPage (account txs : jsval) (currency : jsstring)
| LearnPage (initialSubpage : jsstring)
| DevelopersPortalPage (network initialTab : jsstring)
| NetworkStatusPage (stats : jsval)
| ValidatorsPage (validators : jsval)
| ValidatorDetailsPage (validator : jsval)
| StakingPage (validators : jsval) (currency : jsstring)
| ContractsPage (contracts : jsval)
| ContractDetailsPage (contract : jsval)
| EcosystemPage (currency initialTab : jsstring)
| GovernancePage (initialTab : jsstring)
| ResearchPage
| WhitepaperPage
| AboutPage
| BrandKitPage
| AnalyticsPage
| FaucetPage (network : jsstring)
| NotFoundPage.

Definition at_route (st : State) (r : jsstring) : bool := bool_decide (currentRoute st = r).
Definition under (st : State) (r : jsstring) : bool := startsWith (currentRoute st) r.

(** [{b && <Page/>}] *)
Definition showing (b : bool) (p : Page) : list Page := if b then [p] else [].

(** The explorer's own pages, up to the contracts. *)
Definition core_pages (st : State) : list Page :=
  showing (at_route st "/"%js && truthy (stats st))
    (HomePage (stats st) (blocks st) (transactions st))
  ++ showing (at_route st "/explorer"%js && truthy (stats st))
       (HomePage (stats st) (blocks st) (transactions st))
  ++ showing (at_route st "/blocks"%js)
       (BlocksPage (blocks st) (or_int (field (stats st) "latest_height"%js) 100) (blocksPage st)
          pageSize)
  ++ showing (under st "/block/"%js && truthy (currentBlock st))
       (BlockDetailsPage (currentBlock st) (currentBlockTxs st))
  ++ showing (at_route st "/transactions"%js)
       (TransactionsPage (transactions st) (or_int (field (stats st) "total_transactions"%js) 500)
          (txsPage st) pageSize)
  ++ showing (under st "/tx/"%js && truthy (currentTx st))
       (TxDetailsPage (currentTx st) (currency st))
  ++ showing (under st "/address/"%js && truthy (currentAccount st))
       (AddressPage (currentAccount st) (currentAccountTxs st) (currency st))
  ++ showing (under st "/learn"%js) (LearnPage (currentRoute st))
  ++ showing (under st "/developers"%js)
       (DevelopersPortalPage (network st) (drop 11 (currentRoute st)))
  ++ showing (at_route st "/network"%js && truthy (stats st)) (NetworkStatusPage (stats st))
  ++ showing (at_route st "/validators"%js) (ValidatorsPage (validators st))
  ++ showing (under st "/validator/"%js && truthy (currentValidator st))
       (ValidatorDetailsPage (currentValidator st))
  ++ showing (at_route st "/staking"%js) (StakingPage (validators st) (currency st))
  ++ showing (at_route st "/contracts"%js) (ContractsPage (contracts st))
  ++ showing (under st "/contract/"%js && truthy (currentContract st))
       (ContractDetailsPage (currentContract st)).

(** The pages of the ecosystem and the rest. *)
Definition hub_pages (st : State) : list Page :=
  showing (under st "/ecosystem"%js || at_route st "/discover"%js || at_route st "/markets"%js)
       (EcosystemPage (currency st) (currentRoute st))
  ++ showing (under st "/governance"%js || under st "/sips"%js || under st "/community/grants"%js
              || under st "/security/bug-bounty"%js)
       (GovernancePage (currentRoute st))
  ++ showing (under st "/research"%js) ResearchPage
  ++ showing (at_route st "/whitepaper"%js) WhitepaperPage
  ++ showing (at_route st "/about"%js) AboutPage
  ++ showing (at_route st "/brand"%js) BrandKitPage
  ++ showing (at_route st "/analytics"%js) AnalyticsPage
  ++ showing (at_route st "/faucet"%js) (FaucetPage (network st))
  ++ showing (at_route st "/404"%js) NotFoundPage.

(** The children of [main]. *)
Definition pages (st : State) : list Page := core_pages st ++ hub_pages st.

(** The banner above the page. *)
Definition banner (st : State) : option jsstring :=
  if isUsingOfflineFallback (api st) then
    Some ("Connected to "%js ++ toUpperCase (network st)
          ++ " Simulated Genesis Node. All telemetry and smart contracts active."%js)
  else None.

(** ** Events *)

(** The callbacks given to the header, the footer, the pages and the modals, the
    window's key events, the interval and the timers. *)
Inductive Event :=
| Navigate (route : jsstring)
| NetworkChange (n : Network)
| CurrencyChange (c : jsstring)
| ToggleTheme
| OpenSearch | CloseSearch
| OpenGetStarted | CloseGetStarted
| OpenConnectWallet
| SetBlocksPage (page : Z)
| SetTxsPage (page : Z)
| SelectBlock (heightOrHash : jsval)
| SelectTx (hash : jsstring)
| SelectAddress (address : jsstring)
| SelectValidator (operatorAddress : jsstring)
| SelectContract (contractAddress : jsstring)
| UniversalSearch (query : jsstring)
| KeyDown (meta : bool) (key : jsstring)
| OnSearchModal (e : SearchModal.Event)
| OnWalletModal (e : ConnectWalletModal.Event)
| Interval
| WalletTimer (i : nat).

(** [setSearchModalOpen] and the modal's effect on [isOpen]. *)
Definition openSearch (b : bool) (st : State) : State :=
  let st' := set_searchModalOpen b st in
  if Bool.eqb b (searchModalOpen st) then st'
  else set_search (SearchModal.load_recents (storage st) (search st)) st'.

(** The listener of [App], then that of the modal, which is added again at every
    render. *)
Definition handleKeyDown (meta : bool) (key : jsstring) (st : State) : State :=
  let wasOpen := searchModalOpen st in
  let toggled := if meta && bool_decide (toLowerCase key = "k"%js)
                 then openSearch (negb wasOpen) st else st in
  if SearchModal.handleKeyDown wasOpen meta key (toLowerCase key) then openSearch false toggled
  else toggled.

Definition handleSearchModal (e : SearchModal.Event) (st : State) : State * list (cmd State unit) :=
  match e with
  | SearchModal.Close => (openSearch false st, [])
  | SearchModal.TypeQuery s => (set_search (SearchModal.set_query s (search st)) st, [])
  | SearchModal.Clear =>
      let '(m, s) := SearchModal.clear_recents (search st) (storage st) in
      (set_storage s (set_search m st), [])
  | SearchModal.Execute q =>
      match SearchModal.handleExecute true q (search st) (storage st) with
      | (_, _, None) => (st, [])
      | (m, s, Some clean) =>
          (openSearch false (set_storage s (set_search m st)),
           [handleUniversalSearch (transactions st) clean])
      end
  end.

Definition handleWalletModal (e : ConnectWalletModal.Event) (st : State) : State :=
  match e with
  | ConnectWalletModal.Close => set_connectWalletModalOpen false st
  | ConnectWalletModal.Connect id address =>
      set_timers (timers st ++ [address])
        (set_wallet (ConnectWalletModal.handleConnect id (wallet st)) st)
  | ConnectWalletModal.Disconnect =>
      let '(w, s) := ConnectWalletModal.handleDisconnect (wallet st) (storage st) in
      set_storage s (set_wallet w st)
  end.

(** The timer of [handleConnect]. *)
Definition walletConnected (i : nat) (st : State) : State :=
  match timers st !! i with
  | None => st
  | Some address =>
      let '(w, s) := ConnectWalletModal.connected address (wallet st) (storage st) in
      set_timers (remove_at i (timers st))
        (set_connectWalletModalOpen false
           (set_connectedWallet (Some address) (set_storage s (set_wallet w st))))
  end.

(** The synchronous part of a handler, and the asynchronous ones it starts. A new
    page gives [loadAllData] new dependencies, so its effect runs. *)
Definition handle (prefersDark : bool) (e : Event) (st : State) : State * list (cmd State unit) :=
  match e with
  | Navigate route => (set_currentRoute route st, [])
  | NetworkChange n => handleNetworkChange n st
  | CurrencyChange c => (handleCurrencyChange c st, [])
  | ToggleTheme => (apply_theme prefersDark (toggleTheme st), [])
  | OpenSearch => (openSearch true st, [])
  | CloseSearch => (openSearch false st, [])
  | OpenGetStarted => (set_getStartedModalOpen true st, [])
  | CloseGetStarted => (set_getStartedModalOpen false st, [])
  | OpenConnectWallet => (set_connectWalletModalOpen true st, [])
  | SetBlocksPage p =>
      if (p =? blocksPage st)%Z then (st, [])
      else loadAllData p (txsPage st) (set_blocksPage p st)
  | SetTxsPage p =>
      if (p =? txsPage st)%Z then (st, [])
      else loadAllData (blocksPage st) p (set_txsPage p st)
  | SelectBlock id => (st, [handleSelectBlock (transactions st) id])
  | SelectTx h => (st, [handleSelectTx h])
  | SelectAddress a => handleSelectAddress a st
  | SelectValidator a => (st, [handleSelectValidator (validators st) a])
  | SelectContract a => (st, [handleSelectContract a])
  | UniversalSearch q => (st, [handleUniversalSearch (transactions st) q])
  | KeyDown meta key => (handleKeyDown meta key st, [])
  | OnSearchModal e => handleSearchModal e st
  | OnWalletModal e => (handleWalletModal e st, [])
  | Interval => poll st
  | WalletTimer i => (walletConnected i st, [])
  end.

Definition launch (tasks : list (stop State unit)) (r : State * list (cmd State unit)) : world State :=
  foldl (λ w c, start c w) (mkWorld r.1 tasks) r.2.

(** The application when it has been mounted. *)
Definition mounted (prefersDark : bool) (s : Storage) (pathname : jsstring) (dark light : bool)
    (now : Z) : world State :=
  launch [] (loadAllData 1 1 (apply_theme prefersDark (init s pathname dark light now))).

Inductive step : world State → world State → Prop :=
| Step_event prefersDark e w : step w (launch (tasks w) (handle prefersDark e (state w)))
| Step_response i rq k r w :
    tasks w !! i = Some (Awaiting rq k) →
    step w (start (k r) (mkWorld (state w) (remove_at i (tasks w))))
| Step_yield i k w :
    tasks w !! i = Some (Yielded k) →
    step w (start k (mkWorld (state w) (remove_at i (tasks w))))
| Step_clock now w :
    step w (mkWorld (upd_api (λ a, mkApi (api_network a) (api_offline a) now) (state w)) (tasks w)).
End app.
End ExplorerApp.
