(* ===== verification/ExplorerLayout.v ===== *)
(** * The frame of the explorer: header, footer and the dialog for newcomers

    [AppHeader], [AppFooter], [GetStartedModal] and [LiveNetworkStrip] of
    [apps/explorer-ui/src/components]. *)
From stdpp Require Import gmap.
From S2P Require Import Prelude JsString JsNumber JsJson Formatters View Render ExplorerApi ExplorerApp.
Import Formatters.
Import ExplorerApp(Event(..)).

Definition isTestnet (network : jsstring) : bool := negb (bool_decide (network = "mainnet"%js)).

Module AppHeader.

(** The hooks; then the timers that will close a menu, by number, and the next
    number. [dropdownTimeoutRef] is the last one that was set. *)
Record State := mkState {
  mobileMenuOpen : bool;
  activeDropdown : option jsstring;
  dropdownTimeoutRef : option nat;
  timers : list nat;
  nextTimer : nat;
}.
Definition set_mobileMenuOpen (x : bool) (st : State) : State :=
  mkState x (activeDropdown st) (dropdownTimeoutRef st) (timers st) (nextTimer st).
Definition set_activeDropdown (x : option jsstring) (st : State) : State :=
  mkState (mobileMenuOpen st) x (dropdownTimeoutRef st) (timers st) (nextTimer st).
Definition set_dropdownTimeoutRef (x : option nat) (st : State) : State :=
  mkState (mobileMenuOpen st) (activeDropdown st) x (timers st) (nextTimer st).
Definition set_timers (x : list nat) (st : State) : State :=
  mkState (mobileMenuOpen st) (activeDropdown st) (dropdownTimeoutRef st) x (nextTimer st).
Definition set_nextTimer (x : nat) (st : State) : State :=
  mkState (mobileMenuOpen st) (activeDropdown st) (dropdownTimeoutRef st) (timers st) x.

Definition init : State := mkState false None None [] 0.

Inductive Event :=
| Nav (route : jsstring)
| Enter (menuKey : jsstring)
| Leave
| ToggleMobile
| Up (e : ExplorerApp.Event).

(** What [handleNav] does to the header. *)
Definition handleNav (st : State) : State := set_activeDropdown None (set_mobileMenuOpen false st).

Definition clearTimeout (id : nat) (st : State) : State :=
  set_timers (filter (λ i, i ≠ id) (timers st)) st.

Definition handleMouseEnter (menuKey : jsstring) (st : State) : State :=
  set_activeDropdown (Some menuKey)
    match dropdownTimeoutRef st with Some id => clearTimeout id st | None => st end.

Definition handleMouseLeave (st : State) : State :=
  mkState (mobileMenuOpen st) (activeDropdown st) (Some (nextTimer st))
    (timers st ++ [nextTimer st]) (S (nextTimer st)).

(** A timer of [handleMouseLeave]. *)
Definition timeout (id : nat) (st : State) : State :=
  if bool_decide (id ∈ timers st) then set_activeDropdown None (clearTimeout id st) else st.

(** The header's part of an event, and the callback that is called. *)
Definition handle (e : Event) (st : State) : State * option ExplorerApp.Event :=
  match e with
  | Nav route => (handleNav st, Some (Navigate route))
  | Enter menuKey => (handleMouseEnter menuKey st, None)
  | Leave => (handleMouseLeave st, None)
  | ToggleMobile => (set_mobileMenuOpen (negb (mobileMenuOpen st)) st, None)
  | Up e => (st, Some e)
  end.

(** The value of the network's select, which offers the three networks. *)
Definition Network_of (s : jsstring) : Network :=
  if bool_decide (s = "mainnet"%js) then Mainnet
  else if bool_decide (s = "testnet"%js) then Testnet else Local.

Definition open_menu (st : State) (menuKey : jsstring) : bool :=
  bool_decide (activeDropdown st = Some menuKey).

Section render.
Context `{UnicodeCase}.

Definition testnet_strip (network : jsstring) : html Event :=
  hdiv [
    hspan [];
    hspan [
      htxt "CONNECTED TO "%js;
      htxt (toUpperCase network);
      htxt " ENVIRONMENT — TESTNET TOKENS HAVE NO MONETARY VALUE"%js]].

Definition explore_menu : html Event :=
  hdiv [
    hel "div"%js [] [OnClick (Nav "/explorer"%js)] [
      hdiv [
        hdiv [htxt "Blockchain Explorer"%js];
        hdiv [htxt "Live block stream & search"%js]]];
    hel "div"%js [] [OnClick (Nav "/blocks"%js)] [
      hdiv [
        hdiv [htxt "Blocks & Finality"%js];
        hdiv [htxt "CometBFT verified blocks"%js]]];
    hel "div"%js [] [OnClick (Nav "/transactions"%js)] [
      hdiv [
        hdiv [htxt "Transactions"%js];
        hdiv [htxt "Atomic state transfers"%js]]];
    hel "div"%js [] [OnClick (Nav "/contracts"%js)] [
      hdiv [
        hdiv [htxt "Smart Contracts"%js];
        hdiv [htxt "Verified WASM bytecode"%js]]];
    hel "div"%js [] [OnClick (Nav "/analytics"%js)] [
      hdiv [
        hdiv [htxt "Network Analytics"%js];
        hdiv [htxt "TPS & Gas throughput charts"%js]]]].

Definition learn_menu : html Event :=
  hdiv [
    hel "div"%js [] [OnClick (Nav "/learn"%js)] [
      hdiv [
        hdiv [htxt "Learn Hub"%js];
        hdiv [htxt "Master guide to SPRX architecture"%js]]];
    hel "div"%js [] [OnClick (Nav "/learn/what-is-sprx"%js)] [
      hdiv [
        hdiv [htxt "What is SPRX?"%js];
        hdiv [htxt "Scalable Protocol for Real-world X"%js]]];
    hel "div"%js [] [OnClick (Nav "/learn/real-world-x"%js)] [
      hdiv [
        hdiv [htxt "Real-World X Rails"%js];
        hdiv [htxt "Payments, RWA, Identity & DePIN"%js]]];
    hel "div"%js [] [OnClick (Nav "/learn/tokenomics"%js)] [
      hdiv [
        hdiv [htxt "Tokenomics & Precision"%js];
        hdiv [htxt "1B Supply, 18 decimals, Base burn"%js]]];
    hel "div"%js [] [OnClick (Nav "/learn/wallets"%js)] [
      hdiv [
        hdiv [htxt "Wallets & Self-Custody"%js];
        hdiv [htxt "Keys, seed phrases & signing"%js]]]].

Definition devs_menu : html Event :=
  hdiv [
    hel "div"%js [] [OnClick (Nav "/developers"%js)] [
      hdiv [
        hdiv [htxt "Developer Command Center"%js];
        hdiv [htxt "Quickstarts, SDKs & APIs"%js]]];
    hel "div"%js [] [OnClick (Nav "/developers/rpc"%js)] [
      hdiv [
        hdiv [htxt "JSON-RPC & REST Playground"%js];
        hdiv [htxt "Live query runner & schemas"%js]]];
    hel "div"%js [] [OnClick (Nav "/developers/smart-contracts"%js)] [
      hdiv [
        hdiv [htxt "CosmWasm Smart Contracts"%js];
        hdiv [htxt "Rust WASM contract templates"%js]]];
    hel "div"%js [] [OnClick (Nav "/developers/nodes"%js)] [
      hdiv [
        hdiv [htxt "Run a Node & Sentry"%js];
        hdiv [htxt "CLI setup & sync guide"%js]]];
    hel "div"%js [] [OnClick (Nav "/faucet"%js)] [
      hdiv [
        hdiv [htxt "Testnet Faucet"%js];
        hdiv [htxt "Get free tSPRX tokens for testing"%js]]]].

Definition network_menu : html Event :=
  hdiv [
    hel "div"%js [] [OnClick (Nav "/network"%js)] [
      hdiv [
        hdiv [htxt "Network Status"%js];
        hdiv [htxt "CometBFT health & peers"%js]]];
    hel "div"%js [] [OnClick (Nav "/validators"%js)] [
      hdiv [
        hdiv [htxt "Validator Set (Top 100)"%js];
        hdiv [htxt "Voting power & commission"%js]]];
    hel "div"%js [] [OnClick (Nav "/staking"%js)] [
      hdiv [
        hdiv [htxt "Staking & Yield"%js];
        hdiv [htxt "Delegate SPRX & earn rewards"%js]]]].

Definition ecosystem_menu : html Event :=
  hdiv [
    hel "div"%js [] [OnClick (Nav "/ecosystem"%js)] [
      hdiv [
        hdiv [htxt "dApp Directory"%js];
        hdiv [htxt "DeFi, RWA, Wallets & Infra"%js]]];
    hel "div"%js [] [OnClick (Nav "/discover"%js)] [
      hdiv [
        hdiv [htxt "Discover Showcase"%js];
        hdiv [htxt "Trending protocols & utilities"%js]]];
    hel "div"%js [] [OnClick (Nav "/markets"%js)] [
      hdiv [
        hdiv [htxt "Live Markets"%js];
        hdiv [htxt "SPRX asset price & tickers"%js]]]].

Definition gov_menu : html Event :=
  hdiv [
    hel "div"%js [] [OnClick (Nav "/governance"%js)] [
      hdiv [
        hdiv [htxt "Voting Portal"%js];
        hdiv [htxt "On-chain proposal voting"%js]]];
    hel "div"%js [] [OnClick (Nav "/sips"%js)] [
      hdiv [
        hdiv [htxt "SIP Proposals"%js];
        hdiv [htxt "SPRX Improvement Proposals"%js]]];
    hel "div"%js [] [OnClick (Nav "/community/grants"%js)] [
      hdiv [
        hdiv [htxt "Ecosystem Grants"%js];
        hdiv [htxt "Funding for open source"%js]]]].

Definition navigation (st : State) : html Event :=
  hel "nav"%js [] [] [
    hel "div"%js [] [OnMouseEnter (Enter "explore"%js); OnMouseLeave Leave] [
      hel "button"%js [] [] [hspan [htxt "Explore"%js]];
      hwhen (open_menu st "explore"%js)
        (explore_menu)];
    hel "div"%js [] [OnMouseEnter (Enter "learn"%js); OnMouseLeave Leave] [
      hel "button"%js [] [] [hspan [htxt "Learn"%js]];
      hwhen (open_menu st "learn"%js)
        (learn_menu)];
    hel "div"%js [] [OnMouseEnter (Enter "devs"%js); OnMouseLeave Leave] [
      hel "button"%js [] [] [hspan [htxt "Developers"%js]];
      hwhen (open_menu st "devs"%js)
        (devs_menu)];
    hel "div"%js [] [OnMouseEnter (Enter "network"%js); OnMouseLeave Leave] [
      hel "button"%js [] [] [hspan [htxt "Network"%js]];
      hwhen (open_menu st "network"%js)
        (network_menu)];
    hel "div"%js [] [OnMouseEnter (Enter "ecosystem"%js); OnMouseLeave Leave] [
      hel "button"%js [] [] [hspan [htxt "Ecosystem"%js]];
      hwhen (open_menu st "ecosystem"%js)
        (ecosystem_menu)];
    hel "div"%js [] [OnMouseEnter (Enter "gov"%js); OnMouseLeave Leave] [
      hel "button"%js [] [] [hspan [htxt "Governance"%js]];
      hwhen (open_menu st "gov"%js)
        (gov_menu)];
    hel "div"%js [] [OnClick (Nav "/research"%js)] [htxt "Research"%js]].

Definition wallet_button (address : jsstring) : html Event :=
  hel "button"%js [] [OnClick (Up OpenConnectWallet)] [
    hspan [];
    hspan [
      htxt (slice address 0 7);
      htxt "..."%js;
      htxt (slice_from address (-4))]].

Definition controls (network currency theme address : jsstring) (st : State) : html Event :=
  hdiv [
    hel "button"%js [("title"%js, "Search Blockchain (Cmd+K / Ctrl+K)"%js)] [OnClick (Up OpenSearch)]
        [hspan [htxt "Search"%js]; hel "kbd"%js [] [] [htxt "⌘K"%js]];
    hdiv [
      hel "select"%js [("value"%js, network)] [OnChange (λ s, Up (NetworkChange (Network_of s)))] [
        hel "option"%js [("value"%js, "mainnet"%js)] [] [htxt "Mainnet"%js];
        hel "option"%js [("value"%js, "testnet"%js)] [] [htxt "Testnet"%js];
        hel "option"%js [("value"%js, "local"%js)] [] [htxt "Local Devnet"%js]]];
    hdiv [
      hel "select"%js [("value"%js, currency)] [OnChange (λ s, Up (CurrencyChange s))] [
        hel "option"%js [("value"%js, "USD"%js)] [] [htxt "$ USD"%js];
        hel "option"%js [("value"%js, "INR"%js)] [] [htxt "₹ INR"%js];
        hel "option"%js [("value"%js, "EUR"%js)] [] [htxt "€ EUR"%js];
        hel "option"%js [("value"%js, "GBP"%js)] [] [htxt "£ GBP"%js];
        hel "option"%js [("value"%js, "JPY"%js)] [] [htxt "¥ JPY"%js]]];
    hel "button"%js [("title"%js, "Toggle Dark/Light Mode"%js)] [OnClick (Up ToggleTheme)] [];
    (if negb (bool_decide (address = []))
     then wallet_button address
     else hel "button"%js [] [OnClick (Up OpenGetStarted)] [hspan [htxt "Get Started"%js]]);
    hel "button"%js [] [OnClick ToggleMobile] []].

Definition mobile_menu : html Event :=
  hdiv [
    hdiv [
      hel "button"%js [] [OnClick (Nav "/"%js)] [htxt "Home"%js];
      hel "button"%js [] [OnClick (Nav "/explorer"%js)] [htxt "Explorer"%js];
      hel "button"%js [] [OnClick (Nav "/learn"%js)] [htxt "Learn"%js];
      hel "button"%js [] [OnClick (Nav "/developers"%js)] [htxt "Developers"%js];
      hel "button"%js [] [OnClick (Nav "/network"%js)] [htxt "Network"%js];
      hel "button"%js [] [OnClick (Nav "/ecosystem"%js)] [htxt "Ecosystem"%js];
      hel "button"%js [] [OnClick (Nav "/governance"%js)] [htxt "Governance"%js];
      hel "button"%js [] [OnClick (Nav "/sips"%js)] [htxt "SIP Proposals"%js];
      hel "button"%js [] [OnClick (Nav "/markets"%js)] [htxt "Markets"%js];
      hel "button"%js [] [OnClick (Nav "/research"%js)] [htxt "Research"%js];
      hel "button"%js [] [OnClick (Nav "/faucet"%js)] [htxt "Faucet"%js];
      hel "button"%js [] [OnClick (Nav "/whitepaper"%js)] [htxt "Whitepaper"%js]]].

Definition render (network currency theme : jsstring) (connectedWallet : option jsstring) (st : State)
    : html Event :=
  hel "header"%js [] [] [
    hwhen (isTestnet network)
      (testnet_strip network);
    hdiv [
      hdiv [
        hel "div"%js [] [OnClick (Nav "/"%js)] [
          hdiv [hspan [htxt "X"%js]; hspan []];
          hdiv [
            hdiv [hspan [htxt "SPRX"%js]; hspan [htxt "Protocol"%js]];
            hp [htxt "Scalable Protocol for Real-world X"%js]]];
        navigation st;
        controls network currency theme (default [] connectedWallet) st]];
    hwhen (mobileMenuOpen st)
      (mobile_menu)].

End render.
End AppHeader.

Section footer.
Context `{Host}.

Definition footer_explore : jsx Event :=
  el "ul"%js [] [] [
    el "li"%js [] [] [
      el "button"%js [] [OnClick (Navigate "/explorer"%js)] [txt "Blockchain Explorer"%js]];
    el "li"%js [] [] [
      el "button"%js [] [OnClick (Navigate "/blocks"%js)] [txt "Verified Blocks"%js]];
    el "li"%js [] [] [
      el "button"%js [] [OnClick (Navigate "/transactions"%js)] [txt "Transactions Feed"%js]];
    el "li"%js [] [] [
      el "button"%js [] [OnClick (Navigate "/validators"%js)] [txt "Validator Leaderboard"%js]];
    el "li"%js [] [] [
      el "button"%js [] [OnClick (Navigate "/staking"%js)] [txt "Staking & Delegation"%js]];
    el "li"%js [] [] [
      el "button"%js [] [OnClick (Navigate "/network"%js)] [txt "Network Telemetry"%js]]].

Definition footer_learn : jsx Event :=
  el "ul"%js [] [] [
    el "li"%js [] [] [
      el "button"%js [] [OnClick (Navigate "/learn/what-is-sprx"%js)] [txt "What is SPRX?"%js]];
    el "li"%js [] [] [
      el "button"%js [] [OnClick (Navigate "/learn/real-world-x"%js)] [txt "Real-World X Rails"%js]];
    el "li"%js [] [] [
      el "button"%js [] [OnClick (Navigate "/learn/tokenomics"%js)] [txt "Native Tokenomics"%js]];
    el "li"%js [] [] [
      el "button"%js [] [OnClick (Navigate "/developers"%js)] [txt "Developer Center"%js]];
    el "li"%js [] [] [
      el "button"%js [] [OnClick (Navigate "/developers/rpc"%js)] [txt "JSON-RPC & REST APIs"%js]];
    el "li"%js [] [] [
      el "button"%js [] [OnClick (Navigate "/developers/smart-contracts"%js)]
          [txt "CosmWasm Rust WASM"%js]];
    el "li"%js [] [] [
      el "button"%js [] [OnClick (Navigate "/faucet"%js)] [txt "Testnet Faucet"%js]]].

Definition footer_ecosystem : jsx Event :=
  el "ul"%js [] [] [
    el "li"%js [] [] [
      el "button"%js [] [OnClick (Navigate "/ecosystem"%js)] [txt "dApp Directory"%js]];
    el "li"%js [] [] [
      el "button"%js [] [OnClick (Navigate "/discover"%js)] [txt "Discover Showcase"%js]];
    el "li"%js [] [] [
      el "button"%js [] [OnClick (Navigate "/markets"%js)] [txt "Live Markets"%js]];
    el "li"%js [] [] [
      el "button"%js [] [OnClick (Navigate "/governance"%js)] [txt "Voting Portal"%js]];
    el "li"%js [] [] [
      el "button"%js [] [OnClick (Navigate "/sips"%js)] [txt "SIP Proposals"%js]];
    el "li"%js [] [] [
      el "button"%js [] [OnClick (Navigate "/research"%js)] [txt "Research Papers"%js]];
    el "li"%js [] [] [
      el "button"%js [] [OnClick (Navigate "/whitepaper"%js)] [txt "Technical Whitepaper"%js]];
    el "li"%js [] [] [
      el "button"%js [] [OnClick (Navigate "/security/bug-bounty"%js)] [txt "Bug Bounty Program"%js]]].

Definition footer_bottom (year : Z) (latestBlock : jsval) : jsx Event :=
  jdiv [
    jdiv [
      txt "© "%js;
      txt (Z_to_string year);
      txt " SPRX Protocol Core Contributors. Open source under Apache-2.0 / MIT."%js];
    jdiv [
      el "button"%js [] [OnClick (Navigate "/brand"%js)] [txt "Brand Assets"%js];
      jspan [txt "•"%js];
      el "button"%js [] [OnClick (Navigate "/about"%js)] [txt "About SPRX"%js];
      jspan [txt "•"%js];
      el "button"%js [] [OnClick (Navigate "/security/bug-bounty"%js)] [txt "Security"%js];
      jspan [txt "•"%js];
      jspan [
        txt "Height: #"%js;
        (if truthy latestBlock
         then (s ← locale_string latestBlock; txt s)
         else txt "8,245,920"%js)]]].

Definition AppFooter (year : Z) (latestBlock : jsval) : jsx Event :=
  el "footer"%js [] [] [
    jdiv [
      jdiv [
        jdiv [
          el "div"%js [] [OnClick (Navigate "/"%js)] [
            jdiv [jspan [txt "X"%js]];
            jdiv [
              jspan [txt "SPRX Protocol"%js];
              jp [txt "Scalable Protocol for Real-world X"%js]]];
          jp [
            txt "An enterprise-grade sovereign Layer-1 protocol coupling CometBFT Byzantine consensus, CosmWasm Rust WASM execution, and decoupled multi-currency presentation abstraction for global real-world utility."%js];
          jdiv [
            jdiv [jspan []; jspan [txt "CometBFT 1.5s Finality"%js]];
            jdiv [jspan [txt "1B SPRX Supply"%js]]]];
        jdiv [el "h4"%js [] [] [txt "Explore & Network"%js]; footer_explore];
        jdiv [el "h4"%js [] [] [txt "Learn & Developers"%js]; footer_learn];
        jdiv [el "h4"%js [] [] [txt "Ecosystem & Gov"%js]; footer_ecosystem]];
      footer_bottom year latestBlock]].

Definition LiveNetworkStrip (stats : jsval) (network : jsstring) : jsx Event :=
  jdiv [
    jdiv [
      jdiv [
        jdiv [jspan []; jspan [txt network; txt " Active"%js]];
        jdiv [
          jspan [
            child (js_or (field stats "chain_id"%js)
                (JStr (if isTestnet network then "sprax-testnet-1"%js else "sprax-mainnet-1"%js)))]]];
      jdiv [
        el "div"%js [("title"%js, "View Block Explorer"%js)] [OnClick (Navigate "/blocks"%js)] [
          jspan [txt "Height:"%js];
          jspan [
            txt "#"%js;
            (if truthy (field stats "latest_height"%js)
             then (s ← locale_prop stats "latest_height"%js; txt s)
             else txt "8,245,920"%js)]];
        jdiv [
          jspan [txt "Finality:"%js];
          jspan [
            child (js_or (field stats "avg_block_time_seconds"%js) (JNum (lit 15 (-1))));
            txt "s"%js]];
        jdiv [
          jspan [txt "Throughput:"%js];
          jspan [
            (if truthy (field stats "current_tps"%js)
             then (s ← fixed_prop stats "current_tps"%js 1; txt s)
             else txt "1,240.5"%js);
            txt " TPS"%js]];
        el "div"%js [("title"%js, "View Validator Leaderboard"%js)]
            [OnClick (Navigate "/validators"%js)] [
          jspan [txt "Validators:"%js];
          jspan [
            child (js_or (field stats "active_validators_count"%js) (JNum (NInt 100)));
            txt " Active"%js]];
        el "div"%js [("title"%js, "View Staking & Rewards"%js)] [OnClick (Navigate "/staking"%js)] [
          jspan [txt "Staked:"%js];
          jspan [
            child (js_or (field stats "total_bonded_tokens"%js) (JStr "420,000,000 SPRX"%js))]]];
      el "button"%js [] [OnClick (Navigate "/network"%js)] [jspan [txt "Live Telemetry"%js]]]].

End footer.

Module GetStartedModal.

Inductive Event := Close | Select (route : jsstring).

Record Pathway := mkPathway {
  path_title : jsstring;
  path_description : jsstring;
  path_route : jsstring;
  path_cta : jsstring;
}.

Definition pathways : list Pathway :=
  [mkPathway "Explore Applications & RWA"%js
      "Discover verified dApps, real-world asset settlement rails, and high-frequency DEX markets."%js
      "/ecosystem"%js "Explore Ecosystem"%js;
   mkPathway "Build & Deploy Smart Contracts"%js
      "Get started with TypeScript SDK, CosmWasm Rust WASM contracts, and request free testnet tokens."%js
      "/developers"%js "Developer Hub"%js;
   mkPathway "Stake SPRX & Run a Validator"%js
      "Delegate tokens to active validators, calculate staking yield, or spin up a sovereign CometBFT node."%js
      "/staking"%js "Staking & Nodes"%js;
   mkPathway "Participate in Governance"%js
      "Vote on on-chain proposals, review SPRX Improvement Proposals (SIPs), and join ecosystem grants."%js
      "/governance"%js "Governance Portal"%js].

Definition modal : html Event :=
  hdiv [
    hdiv [
      hel "button"%js [("title"%js, "Close Modal"%js)] [OnClick Close] [];
      hdiv [
        hdiv [hspan [htxt "WELCOME TO SPRX ECOSYSTEM"%js]];
        hel "h2"%js [] [] [htxt "How would you like to get started?"%js];
        hp [
          htxt "Select your preferred journey to access curated tools, tutorials, and protocol resources."%js]];
      hdiv [
        heach pathways (λ path,
          hel "div"%js [] [OnClick (Select (path_route path))] [
              hdiv [
                hdiv [];
                hel "h3"%js [] [] [htxt (path_title path)];
                hp [htxt (path_description path)]];
              hdiv [hspan [htxt (path_cta path)]]])];
      hdiv [
        hspan [htxt "Scalable Protocol for Real-world X (SPRX)"%js];
        hdiv [
          hel "button"%js [] [OnClick (Select "/learn/wallets"%js)] [hspan [htxt "Need a wallet?"%js]];
          hspan [htxt "•"%js];
          hel "button"%js [] [OnClick (Select "/learn/what-is-sprx"%js)] [htxt "What is SPRX?"%js]]]]].

Definition render (isOpen : bool) : html Event := hwhen isOpen modal.

(** [handleSelect] navigates and then closes. *)
Definition handle (e : Event) : list ExplorerApp.Event :=
  match e with
  | Close => [CloseGetStarted]
  | Select route => [Navigate route; CloseGetStarted]
  end.
End GetStartedModal.
