(* ===== verification/ExplorerWidgets.v ===== *)
(** * Widgets of the explorer's pages

    [CodePlayground], [ProtocolVisualizer] and [ChartCard] of
    [apps/explorer-ui/src/components]. *)
From Stdlib Require Import SpecFloat.
From S2P Require Import Prelude JsString JsNumber JsJson Formatters View Render.

Module CodePlayground.

Record Snippet := mkSnippet {
  snip_key : jsstring;
  snip_name : jsstring;
  snip_language : jsstring;
  snip_description : jsstring;
  snip_code : jsstring;
  snip_output : jsstring;
}.

Definition SNIPPETS : list Snippet :=
  [mkSnippet "typescript"%js "TypeScript SDK"%js "typescript"%js
      "Connect to SPRX Node and query account balance using @sprax/wallet-core"%js
      ("import { SpraxClient, HDWallet } from "%js ++ [34%N] ++ "@sprax/wallet-core"%js ++ [34%N]
          ++ ";"%js ++ [10%N] ++ [10%N] ++ "// 1. Initialize high-throughput JSON-RPC client"%js
              ++ [10%N] ++ "const client = new SpraxClient("%js ++ [34%N]
                  ++ "https://rpc.sprax.network:26657"%js ++ [34%N] ++ ");"%js ++ [10%N] ++ [10%N]
                      ++ "// 2. Query account state & balance (18 decimals precision)"%js ++ [10%N]
                          ++ "const address = "%js ++ [34%N]
                              ++ "sprax1sdtpz05x2r7d70u428v2ff3rtyj49z65a380gr"%js ++ [34%N] ++ ";"%js
                                  ++ [10%N] ++ "const account = await client.getAccount(address);"%js
                                      ++ [10%N] ++ [10%N] ++ "console.log("%js ++ [34%N]
                                          ++ "SPRX Balance:"%js ++ [34%N]
                                              ++ ", account.balanceSprx, "%js ++ [34%N] ++ "SPRX"%js
                                                  ++ [34%N] ++ ");"%js ++ [10%N] ++ "console.log("%js
                                                      ++ [34%N] ++ "Atomic Atto:"%js ++ [34%N]
                                                          ++ ", account.balanceAtto, "%js ++ [34%N]
                                                              ++ "atto-SPRX"%js ++ [34%N] ++ ");"%js
                                                                  ++ [10%N] ++ "console.log("%js
                                                                      ++ [34%N] ++ "Account Nonce:"%js
                                                                          ++ [34%N] ++ ", account.nonce);"%js)
      ("[SPRX Client Connected: sprax-mainnet-1]"%js ++ [10%N]
          ++ "> Querying address: sprax1sdtpz05x2r7d70u428v2ff3rtyj49z65a380gr"%js ++ [10%N]
              ++ "> SPRX Balance: 154,250.00 SPRX"%js ++ [10%N]
                  ++ "> Atomic Atto: 154250000000000000000000 atto-SPRX"%js ++ [10%N]
                      ++ "> Account Nonce: 42"%js ++ [10%N]
                          ++ "> Finality Verification: Deterministic (Block #8245920)"%js);
   mkSnippet "rust"%js "Rust / CosmWasm"%js "rust"%js
      "Deterministic CosmWasm WASM contract execution handler in sprax-wasm"%js
      ("use cosmwasm_std::{entry_point, DepsMut, Env, MessageInfo, Response, StdResult};"%js ++ [10%N]
          ++ "use cw20_base::msg::ExecuteMsg;"%js ++ [10%N] ++ [10%N] ++ "#[entry_point]"%js ++ [10%N]
              ++ "pub fn execute("%js ++ [10%N] ++ "    deps: DepsMut,"%js ++ [10%N]
                  ++ "    env: Env,"%js ++ [10%N] ++ "    info: MessageInfo,"%js ++ [10%N]
                      ++ "    msg: ExecuteMsg,"%js ++ [10%N] ++ ") -> StdResult<Response> {"%js
                          ++ [10%N] ++ "    match msg {"%js ++ [10%N]
                              ++ "        ExecuteMsg::Transfer { recipient, amount } => {"%js ++ [10%N]
                                  ++ "            // Sandboxed non-reentrant state transition"%js
                                      ++ [10%N] ++ "            cw20_base::contract::execute_transfer(deps, env, info, recipient, amount)"%js ++ [10%N] ++ "        }"%js ++ [10%N] ++ "        ExecuteMsg::Burn { amount } => {"%js ++ [10%N] ++ "            cw20_base::contract::execute_burn(deps, env, info, amount)"%js ++ [10%N] ++ "        }"%js ++ [10%N] ++ "        _ => Ok(Response::default()),"%js ++ [10%N] ++ "    }"%js ++ [10%N] ++ "}"%js)
      ("Compiling sprax_wasm_contract v0.1.0 (wasm32-unknown-unknown)"%js ++ [10%N]
          ++ "   Compiling cosmwasm-std v1.5.0"%js ++ [10%N] ++ "   Compiling cw20-base v0.16.0"%js
              ++ [10%N] ++ "    Finished release [optimized] target(s) in 1.42s"%js ++ [10%N]
                  ++ "Bytecode Blake3 Hash: 0x4a8f9c1b3e2d5a7f8091a2b3c4d5e6f708192a3b4c5d6e7f8091a2b3c4d5e6f7"%js ++ [10%N] ++ "Gas Metering Target: 21,000 base + 500/storage write"%js);
   mkSnippet "curl"%js "cURL / JSON-RPC"%js "bash"%js
      "Raw JSON-RPC 2.0 sprax_getStatus query to consensus node"%js
      ("curl -X POST https://rpc.sprax.network:26657 \"%js ++ [10%N] ++ "  -H "%js ++ [34%N]
          ++ "Content-Type: application/json"%js ++ [34%N] ++ " \"%js ++ [10%N] ++ "  -d '{"%js
              ++ [10%N] ++ "    "%js ++ [34%N] ++ "jsonrpc"%js ++ [34%N] ++ ": "%js ++ [34%N]
                  ++ "2.0"%js ++ [34%N] ++ ","%js ++ [10%N] ++ "    "%js ++ [34%N] ++ "id"%js ++ [34%N]
                      ++ ": 1,"%js ++ [10%N] ++ "    "%js ++ [34%N] ++ "method"%js ++ [34%N] ++ ": "%js
                          ++ [34%N] ++ "sprax_getStatus"%js ++ [34%N] ++ ","%js ++ [10%N] ++ "    "%js
                              ++ [34%N] ++ "params"%js ++ [34%N] ++ ": []"%js ++ [10%N] ++ "  }'"%js)
      ("{"%js ++ [10%N] ++ "  "%js ++ [34%N] ++ "jsonrpc"%js ++ [34%N] ++ ": "%js ++ [34%N] ++ "2.0"%js
          ++ [34%N] ++ ","%js ++ [10%N] ++ "  "%js ++ [34%N] ++ "id"%js ++ [34%N] ++ ": 1,"%js ++ [10%N]
              ++ "  "%js ++ [34%N] ++ "result"%js ++ [34%N] ++ ": {"%js ++ [10%N] ++ "    "%js ++ [34%N]
                  ++ "chainId"%js ++ [34%N] ++ ": "%js ++ [34%N] ++ "sprax-mainnet-1"%js ++ [34%N]
                      ++ ","%js ++ [10%N] ++ "    "%js ++ [34%N] ++ "latestBlockHeight"%js ++ [34%N]
                          ++ ": 8245920,"%js ++ [10%N] ++ "    "%js ++ [34%N] ++ "latestBlockHash"%js
                              ++ [34%N] ++ ": "%js ++ [34%N]
                                  ++ "0x7f8a9b2c3d4e5f60718293a4b5c6d7e8f901a2b3c4d5e6f708192a3b4c5d6e70"%js ++ [34%N] ++ ","%js ++ [10%N] ++ "    "%js ++ [34%N] ++ "connectedPeers"%js ++ [34%N] ++ ": 48,"%js ++ [10%N] ++ "    "%js ++ [34%N] ++ "validatorCount"%js ++ [34%N] ++ ": 100,"%js ++ [10%N] ++ "    "%js ++ [34%N] ++ "syncStatus"%js ++ [34%N] ++ ": "%js ++ [34%N] ++ "synced"%js ++ [34%N] ++ ","%js ++ [10%N] ++ "    "%js ++ [34%N] ++ "mempoolPending"%js ++ [34%N] ++ ": 12"%js ++ [10%N] ++ "  }"%js ++ [10%N] ++ "}"%js);
   mkSnippet "python"%js "Python"%js "python"%js
      "Broadcast signed transaction using Python JSON-RPC adapter"%js
      ("import requests"%js ++ [10%N] ++ "import json"%js ++ [10%N] ++ [10%N] ++ "RPC_URL = "%js
          ++ [34%N] ++ "https://rpc.sprax.network:26657"%js ++ [34%N] ++ [10%N] ++ [10%N]
              ++ "payload = {"%js ++ [10%N] ++ "    "%js ++ [34%N] ++ "jsonrpc"%js ++ [34%N] ++ ": "%js
                  ++ [34%N] ++ "2.0"%js ++ [34%N] ++ ","%js ++ [10%N] ++ "    "%js ++ [34%N] ++ "id"%js
                      ++ [34%N] ++ ": 1,"%js ++ [10%N] ++ "    "%js ++ [34%N] ++ "method"%js ++ [34%N]
                          ++ ": "%js ++ [34%N] ++ "sprax_getBlock"%js ++ [34%N] ++ ","%js ++ [10%N]
                              ++ "    "%js ++ [34%N] ++ "params"%js ++ [34%N] ++ ": ["%js ++ [34%N]
                                  ++ "latest"%js ++ [34%N] ++ "]"%js ++ [10%N] ++ "}"%js ++ [10%N]
                                      ++ [10%N] ++ "response = requests.post(RPC_URL, json=payload).json()"%js ++ [10%N] ++ "block = response["%js ++ [34%N] ++ "result"%js ++ [34%N] ++ "]"%js ++ [10%N] ++ "print(f"%js ++ [34%N] ++ "Latest Block #{block['header']['height']} | Proposer: {block['header']['proposer']}"%js ++ [34%N] ++ ")"%js)
      ("Connected to SPRX Python Client"%js ++ [10%N]
          ++ "Latest Block #8245920 | Proposer: spraxvaloper1q8x9y7w6e5r4t3y2u1i0o9p8a7s6d5f4g3h2j1"%js
              ++ [10%N] ++ "State Root: 0xabcdef0123456789abcdef0123456789..."%js ++ [10%N]
                  ++ "Transactions in Block: 14"%js);
   mkSnippet "go"%js "Go (Golang)"%js "go"%js
      "Query CometBFT consensus engine validator set in Go"%js
      ("package main"%js ++ [10%N] ++ [10%N] ++ "import ("%js ++ [10%N] ++ "	"%js ++ [34%N]
          ++ "context"%js ++ [34%N] ++ [10%N] ++ "	"%js ++ [34%N] ++ "fmt"%js ++ [34%N] ++ [10%N]
              ++ "	"%js ++ [34%N] ++ "github.com/sprax-chain/sprax-sdk-go/client"%js ++ [34%N] ++ [10%N]
                  ++ ")"%js ++ [10%N] ++ [10%N] ++ "func main() {"%js ++ [10%N]
                      ++ "	cli := client.NewClient("%js ++ [34%N]
                          ++ "https://rpc.sprax.network:26657"%js ++ [34%N] ++ ")"%js ++ [10%N]
                              ++ "	validators, err := cli.GetValidators(context.Background())"%js
                                  ++ [10%N] ++ "	if err != nil {"%js ++ [10%N] ++ "		panic(err)"%js
                                      ++ [10%N] ++ "	}"%js ++ [10%N] ++ [10%N] ++ "	fmt.Printf("%js
                                          ++ [34%N] ++ "Active Validators Count: %d\n"%js ++ [34%N]
                                              ++ ", len(validators))"%js ++ [10%N]
                                                  ++ "	for _, val := range validators[:3] {"%js
                                                      ++ [10%N] ++ "		fmt.Printf("%js ++ [34%N]
                                                          ++ "Moniker: %s | Voting Power: %d\n"%js
                                                              ++ [34%N] ++ ", val.Moniker, val.VotingPower)"%js ++ [10%N] ++ "	}"%js ++ [10%N] ++ "}"%js)
      ("Active Validators Count: 100"%js ++ [10%N]
          ++ "Moniker: SPRX Core Genesis Alpha | Voting Power: 3500000"%js ++ [10%N]
              ++ "Moniker: Global Real-World X Node | Voting Power: 2800000"%js ++ [10%N]
                  ++ "Moniker: Nexus Staking Labs | Voting Power: 1900000"%js)].

(** The hooks, and how many timers of [handleCopy] and [handleRun] run. *)
Record State := mkState {
  activeTab : jsstring;
  copied : bool;
  isExecuting : bool;
  showOutput : bool;
  copyTimers : nat;
  runTimers : nat;
}.
Definition set_activeTab (x : jsstring) (st : State) : State :=
  mkState x (copied st) (isExecuting st) (showOutput st) (copyTimers st) (runTimers st).
Definition set_copied (x : bool) (st : State) : State :=
  mkState (activeTab st) x (isExecuting st) (showOutput st) (copyTimers st) (runTimers st).
Definition set_isExecuting (x : bool) (st : State) : State :=
  mkState (activeTab st) (copied st) x (showOutput st) (copyTimers st) (runTimers st).
Definition set_showOutput (x : bool) (st : State) : State :=
  mkState (activeTab st) (copied st) (isExecuting st) x (copyTimers st) (runTimers st).
Definition set_copyTimers (x : nat) (st : State) : State :=
  mkState (activeTab st) (copied st) (isExecuting st) (showOutput st) x (runTimers st).
Definition set_runTimers (x : nat) (st : State) : State :=
  mkState (activeTab st) (copied st) (isExecuting st) (showOutput st) (copyTimers st) x.

Definition init : State := mkState "typescript"%js false false true 0 0.

Inductive Event := SetTab (key : jsstring) | Copy | Run.

(** [SNIPPETS[activeTab] || SNIPPETS.typescript] *)
Definition currentSnippet (st : State) : Snippet :=
  match list_find (λ s, snip_key s = activeTab st) SNIPPETS with
  | Some (_, s) => s
  | None => default (mkSnippet [] [] [] [] [] []) (head SNIPPETS)
  end.

(** The text goes to the clipboard, whose answer is not awaited. *)
Definition handleCopy (st : State) : State :=
  set_copyTimers (S (copyTimers st)) (set_copied true st).

Definition handleRun (st : State) : State :=
  set_runTimers (S (runTimers st)) (set_showOutput true (set_isExecuting true st)).

Definition handle (e : Event) (st : State) : State :=
  match e with
  | SetTab key => set_activeTab key st
  | Copy => handleCopy st
  | Run => handleRun st
  end.

(** The timers of [handleCopy] and of [handleRun]. *)
Definition copyTimeout (st : State) : State :=
  match copyTimers st with O => st | S n => set_copyTimers n (set_copied false st) end.
Definition runTimeout (st : State) : State :=
  match runTimers st with O => st | S n => set_runTimers n (set_isExecuting false st) end.

Definition render (st : State) : html Event :=
  hdiv [
    hdiv [
      hdiv [
        heach SNIPPETS (λ item,
          hel "button"%js [] [OnClick (SetTab (snip_key item))] [htxt (snip_name item)])];
      hdiv [
        hel "button"%js (disabled_attr (isExecuting st)) [OnClick Run] [
          hspan [
            (if isExecuting st
             then htxt "Executing..."%js
             else htxt "Run Snippet"%js)]];
        hel "button"%js [("title"%js, "Copy Code"%js)] [OnClick Copy] [
          (if copied st
           then concat [hspan [htxt "Copied!"%js]]
           else concat [hspan [htxt "Copy"%js]])]]];
    hdiv [
      hspan [htxt (snip_description (currentSnippet st))];
      hspan [htxt (snip_language (currentSnippet st))]];
    hdiv [
      hel "pre"%js [] [] [hel "code"%js [] [] [htxt (snip_code (currentSnippet st))]]];
    hwhen (showOutput st)
      (hdiv [
         hdiv [
           hspan [htxt "Simulated Console Output:"%js];
           hwhen (isExecuting st)
             (hspan [])];
         hel "pre"%js [] [] [
           (if isExecuting st
            then htxt "Executing transaction request on SPRX consensus plane..."%js
            else htxt (snip_output (currentSnippet st)))]])].

End CodePlayground.

Module ProtocolVisualizer.

Record Layer := mkLayer {
  layer_id : jsstring;
  layer_tier : jsstring;
  layer_name : jsstring;
  layer_shortName : jsstring;
  layer_tagline : jsstring;
  layer_summary : jsstring;
  layer_keyComponents : list jsstring;
  layer_specs : list (jsstring * jsstring);
  layer_docLink : jsstring;
}.

Definition PROTOCOL_LAYERS : list Layer :=
  [mkLayer "application"%js "Layer 4"%js "Layer 4: Application & Real-World X"%js
      "Application & RWA"%js
      "End-user dApps, Institutional Tokenization & Multi-Currency Interfaces"%js
      "Direct interface for real-world economic interactions. Decoupled presentation abstraction allows balances to display in local currencies (USD, INR, EUR, GBP, JPY) while consensus executes natively in 18-decimal atto-SPRX."%js
      ["Non-custodial Multi-Currency Wallets (Web / Mobile)"%js;
          "Real-World Asset (RWA) Tokenization & Legal Escrow"%js;
              "High-Frequency AMM & Perps DEX (SpraxSwap, SpraxPerp)"%js;
                  "DePIN Sensor Mesh & IoT Telemetry Ingestion"%js]
      [("Precision"%js, "18 Decimals (10^-18 atto-SPRX)"%js);
          ("Currencies"%js, "USD, INR, EUR, GBP, JPY"%js);
              ("Interfaces"%js, "Web, Mobile, CLI, REST"%js)]
      "/learn/real-world-x"%js;
   mkLayer "indexing"%js "Layer 3"%js "Layer 3: Query & Indexing Engine"%js "Query & Indexing"%js
      "Sub-10ms GraphQL, REST & Real-Time Oracle Feed Ingestion"%js
      "High-throughput caching and state extraction pipeline. Feeds off-chain consumers, wallets, and block explorers without putting computational query overhead on consensus validator nodes."%js
      ["Real-time Pipeline (crates/sprax-indexer)"%js; "Universal Omni-Search Query Classifier"%js;
          "Decentralized Oracle Price Aggregation Layer"%js;
              "Paginated Explorer REST APIs & WebSocket Streams"%js]
      [("Query Latency"%js, "< 10ms P99"%js); ("Protocols"%js, "REST, JSON-RPC, WebSocket"%js);
          ("Index Rate"%js, "Zero Block Lag"%js)]
      "/developers/rpc"%js;
   mkLayer "execution"%js "Layer 2"%js "Layer 2: WASM Execution & State Machine"%js
      "WASM Smart Contracts"%js "Deterministic WebAssembly Runtime with CosmWasm Actor Model"%js
      "Sandboxed, gas-metered execution environment (crates/sprax-wasm). Eliminates EVM reentrancy vulnerabilities through the actor-model paradigm while providing native Rust compile-time memory safety."%js
      ["WebAssembly VM Engine (sprax-wasm)"%js; "SXS-20 Fungible & SXS-721 Asset Standards"%js;
          "Step-wise Compute & Storage Gas Metering"%js;
              "Atomic Transaction Router & Non-Reentrancy Guard"%js]
      [("VM Runtime"%js, "WASM (CosmWasm Actor Model)"%js);
          ("Language"%js, "Rust (wasm32-unknown-unknown)"%js);
              ("Base Fee Gas"%js, "21,000 gas units"%js)]
      "/developers/smart-contracts"%js;
   mkLayer "consensus"%js "Layer 1"%js "Layer 1: CometBFT Consensus & Staking"%js
      "CometBFT Consensus"%js "1.5s Deterministic Fast Finality with BFT-PoS Safety Bounds"%js
      "Byzantine Fault Tolerant state-machine replication (crates/sprax-consensus). Employs 2/3+ voting rounds (Prevote, Precommit) with Deterministic Weighted Round-Robin (DWRR) proposer rotation and anti-equivocation slashing."%js
      ["CometBFT BFT-PoS Consensus State Machine"%js; "Dynamic Top-100 Active Validator Set"%js;
          "DWRR Proposer Priority Rotation Algorithm"%js;
              "Slashing Module (Downtime Jailing & Double-Sign Tombstone)"%js]
      [("Block Finality"%js, "1.5s (Single Block Deterministic)"%js);
          ("Byzantine Threshold"%js, "33.4% Fault Tolerance"%js);
              ("Active Set"%js, "Top 100 Validators"%js)]
      "/learn/consensus"%js;
   mkLayer "storage"%js "Layer 0"%js "Layer 0: P2P Network & Dual-Tier Storage"%js
      "P2P & Storage Core"%js "Noise Protocol Transport & Pure-Rust Redb Persistent Store"%js
      "Encrypted GossipSub v1.1 peer-to-peer transport coupled with dual-tier state persistence (crates/sprax-storage & crates/sprax-network). Features append-only raw block logs and crash-consistent WAL commits."%js
      ["libp2p GossipSub v1.1 & Noise Handshake Transport"%js;
          "Compact Block Relay & Catch-Up Sync Pipeline"%js;
              "Pure-Rust Redb Embedded Key-Value Storage"%js;
                  "Jellyfish Sparse Merkle State Root Commitments"%js]
      [("Transport Encryption"%js, "Noise Protocol (ChaCha20-Poly1305)"%js);
          ("Storage Engine"%js, "Redb + Memory-Mapped Log"%js);
              ("Supply Invariant"%js, "Strict 1 Billion SPRX Conservation"%js)]
      "/developers/nodes"%js].

(** [selectedLayerId], the only hook. *)
Definition init : jsstring := "consensus"%js.

Inductive Event := SelectLayer (id : jsstring) | Go (route : jsstring).

(** [PROTOCOL_LAYERS.find((l) => l.id === selectedLayerId) || PROTOCOL_LAYERS[0]] *)
Definition selectedLayer (selectedLayerId : jsstring) : Layer :=
  match list_find (λ l, layer_id l = selectedLayerId) PROTOCOL_LAYERS with
  | Some (_, l) => l
  | None => default (mkLayer [] [] [] [] [] [] [] [] []) (head PROTOCOL_LAYERS)
  end.

Definition layer_card (selectedLayerId : jsstring) (index : nat) (layer : Layer) : html Event :=
  hel "div"%js [] [OnClick (SelectLayer (layer_id layer))] [
    hwhen (bool_decide (layer_id layer = selectedLayerId))
      (hdiv []);
    hdiv [
      hdiv [
        hdiv [];
        hdiv [
          hdiv [
            hspan [htxt (layer_tier layer)];
            hspan [htxt (layer_shortName layer)]];
          hp [htxt (layer_tagline layer)]]];
      hdiv [hspan [htxt (from_option snd [] (head (layer_specs layer)))]]];
    hwhen ((index <? length PROTOCOL_LAYERS - 1)%nat)
      (hdiv [hdiv []])].

Definition inspector (selectedLayerId : jsstring) : html Event :=
  hdiv [
    hdiv [
      hdiv [
        hspan [
          htxt (layer_tier (selectedLayer selectedLayerId));
          htxt " DEEP INSPECT"%js];
        hel "h3"%js [] [] [htxt (layer_name (selectedLayer selectedLayerId))]];
      hdiv []];
    hp [htxt (layer_summary (selectedLayer selectedLayerId))];
    hdiv [
      hel "h4"%js [] [] [htxt "Core Subsystems & Modules"%js];
      hdiv [
        heach (layer_keyComponents (selectedLayer selectedLayerId)) (λ component,
          hdiv [hspan [htxt component]])]];
    hdiv [
      heach (layer_specs (selectedLayer selectedLayerId)) (λ spec,
        hdiv [hspan [htxt spec.1]; hspan [htxt spec.2]])];
    hwhen true
      (hel "button"%js [] [OnClick (Go (layer_docLink (selectedLayer selectedLayerId)))]
          [hspan [htxt "Explore Technical Specifications"%js]])].

Definition render (selectedLayerId : jsstring) : html Event :=
  hel "section"%js [] [] [
    hdiv [
      hdiv [
        hdiv [hspan [htxt "INTERACTIVE ARCHITECTURE VISUALIZER"%js]];
        hel "h2"%js [] [] [htxt "The 5-Tier SPRX Protocol Stack"%js];
        hp [
          htxt "Explore the decoupled modular layers powering scalable real-world settlement—from high-level dApps down to Byzantine consensus and encrypted transport."%js]];
      hdiv [
        hspan [];
        hspan [htxt "Click any layer to inspect technical specifications"%js]]];
    hdiv [
      hdiv [
        heach_i PROTOCOL_LAYERS (λ index layer,
          layer_card selectedLayerId index layer)];
      inspector selectedLayerId]].

End ProtocolVisualizer.

Module ChartCard.

Record DataPoint := mkDataPoint { label : jsstring; value : num }.

Inductive Event := RangeChange (r : jsstring) | SetHover (i : option nat).

(** [hoverIndex], the only hook. *)
Definition init : option nat := None.

Definition width : Z := 500.
Definition height : Z := 150.
Definition padding : Z := 20.

(** [Math.min(...values)] and [Math.max(...values)] *)
Definition minVal (data : list DataPoint) : num := foldl num_min (NFlt (S754_infinity false))
    (value <$> data).
Definition maxVal (data : list DataPoint) : num := foldl num_max (NFlt (S754_infinity true))
    (value <$> data).

(** [maxVal - minVal || 1] *)
Definition range (data : list DataPoint) : num :=
  let r := num_sub (maxVal data) (minVal data) in if num_truthy r then r else NInt 1.

Definition int_num (z : Z) : num := NInt z.

(** The point of the [i]-th value of [n]. *)
Definition x_of (n i : nat) : num :=
  num_add (int_num padding)
    (num_mul (num_div (int_num (Z.of_nat i)) (int_num (Z.of_nat n - 1)))
        (int_num (width - padding * 2))).
Definition y_of (data : list DataPoint) (v : num) : num :=
  num_sub (int_num (height - padding))
    (num_mul (num_div (num_sub v (minVal data)) (range data)) (int_num (height - padding * 2))).
Definition points (data : list DataPoint) : list (num * num) :=
  imap (λ i d, (x_of (length data) i, y_of data (value d))) data.

Definition pathD (pts : list (num * num)) : jsstring :=
  concat (imap (λ i '(x, y),
    " "%js ++ (if (i =? 0)%nat then "M"%js else "L"%js) ++ " "%js
    ++ num_to_string x ++ ","%js ++ num_to_string y) pts).

Definition areaD (pts : list (num * num)) : jsstring :=
  let corner (p : option (num * num)) :=
    " L "%js ++ from_option (λ q, num_to_string q.1) [] p ++ ","%js ++ Z_to_string height in
  pathD pts ++ corner (last pts) ++ corner (head pts) ++ " Z"%js.

(** [points[hoverIndex]], or the last one. *)
Definition activePoint (hoverIndex : option nat) (data : list DataPoint) : option DataPoint :=
  match hoverIndex with Some i => data !! i | None => last data end.

Definition circle (i : nat) (p : num * num) : view Event :=
  El "circle"%js [("cx"%js, num_to_string p.1); ("cy"%js, num_to_string p.2)]
    [OnMouseEnter (SetHover (Some i))] [].

Definition line (y : Z) : view Event :=
  El "line"%js [("x1"%js, Z_to_string padding); ("y1"%js, Z_to_string y);
                ("x2"%js, Z_to_string (width - padding)); ("y2"%js, Z_to_string y)] [] [].

Definition chart (data : list DataPoint) : view Event :=
  let pts := points data in
  El "svg"%js [] [OnMouseLeave (SetHover None)]
    ([line padding; line (height / 2); line (height - padding);
      El "path"%js [("d"%js, areaD pts)] [] []; El "path"%js [("d"%js, pathD pts)] [] []]
     ++ imap circle pts).

Definition ranges : list jsstring := ["24H"%js; "7D"%js; "30D"%js; "90D"%js].

Definition render `{Host} (title subtitle valuePrefix valueSuffix : jsstring) (data : list DataPoint)
    (hoverIndex : option nat) : jsx Event :=
  match data with
  | [] => jdiv [jh "h4"%js title; jp [txt "No telemetry data available"%js]]
  | _ =>
      match activePoint hoverIndex data with
      | None => type_error "Cannot read properties of undefined (reading 'value')"%js
      | Some active =>
          jdiv [
            jdiv [
              jdiv [
                jh "h4"%js title;
                jdiv [
                  jspan [txt valuePrefix; txt (host_toLocaleString (value active) 0 2);
                      txt valueSuffix];
                  jspan [txt (label active)]]];
              jdiv [jeach ranges (λ r,
                el "button"%js [("type"%js, "button"%js)] [OnClick (RangeChange r)] [txt r])]];
            jdiv [static (chart data)];
            jwhen (negb (bool_decide (subtitle = []))) (jp [txt subtitle])]
      end
  end.
End ChartCard.
