(* ===== verification/ExplorerEvents.v ===== *)
(** * The events of the explorer's pages

    A page reacts to its own hooks' setters and to the callbacks of [App] it was
    given. *)
From S2P Require Import Prelude JsString JsJson View ExplorerUi ExplorerWidgets ExplorerApp.
Import ExplorerApp(Event(..)).

Inductive PageEvent :=
(* data pages *)
| SetFilterQuery (s : jsstring)
| SetFilterType (s : jsstring)
| SetStatusFilter (s : jsstring)
| SetSearchQuery (s : jsstring)
| ResetFilters
| SetTab (s : jsstring)
| SetFilter (s : jsstring)
| SetQrOpen (b : bool)
| SetCalcAmount (s : jsstring)
(* home *)
| OnSearchBar (e : SearchBar.Event)
| OnPlayground (e : CodePlayground.Event)
| SelectLayer (id : jsstring)
(* developers *)
| SelectMethod (m : jsstring)
| SetRpcParamInput (s : jsstring)
| RunRpc
(* governance, ecosystem, research *)
| Vote (proposalId : jsval) (option : jsstring)
| SetSipFilterCategory (s : jsstring)
| SetSipFilterStatus (s : jsstring)
| SetSelectedSip (sip : jsval)
| SetSelectedCategory (s : jsstring)
| SetSubmitModalOpen (b : bool)
| SubmitProject
(* analytics, faucet *)
| OnChart (i : nat) (e : ChartCard.Event)
| OnFaucet (e : FaucetPage.Event).

Inductive Act := Own (e : PageEvent) | Up (e : Event).

(** [onClick={() => f(v)}] for a callback that calls a method of strings first: with
    another value it throws and nothing happens. *)
Definition on_str (f : jsstring → Event) (v : jsval) : list (handler Act) :=
  match v with JStr s => [OnClick (Up (f s))] | _ => [] end.

(** [onNavigate(route)] *)
Definition go (route : jsstring) : Act := Up (Navigate route).
