(* ===== verification/ExplorerPages.v ===== *)
(** * The data pages of the explorer: [apps/explorer-ui/src/pages]

    Blocks, transactions, accounts, validators, contracts, staking and the network's
    status: their filters, what they show of the records they are given, and what the
    user can do there. *)
From stdpp Require Import gmap.
From S2P Require Import Prelude JsString JsStringFacts JsNumber JsJson Formatters View Render ExplorerUi ExplorerParts.
From S2P Require Import QrCode ExplorerApp ExplorerEvents.
Import Formatters Parts.
Import ExplorerApp(Event(..)).

Module Pages.
Section pages.
Context `{Host} `{UnicodeCase} (now : Z).

(** ** Helpers *)

Definition no_rows (l : list jsval) : bool := match l with [] => true | _ => false end.

Definition table_head (l : list jsstring) : jsx Act :=
  el "thead"%js [] [] [el "tr"%js [] [] ((λ h, el "th"%js [] [] [txt h]) <$> l)].

(** A count of records; what is not a whole number is rounded up. *)
Definition count_of (v : jsval) : Z :=
  match v with
  | JNum (NInt z) => z
  | _ => match floor (num_neg (to_number v)) with Some z => - z | None => 0 end
  end.

Definition Pages (onPageChange : Z → Event) (currentPage : Z) (totalItems : jsval) (pageSize : Z) :
    jsx Act :=
  Ok (map_view (λ '(Pagination.PageChange page), Up (onPageChange page))
      <$> Pagination.render currentPage (count_of totalItems) pageSize).

(** [v + n] *)
Definition js_add_int (v : jsval) (n : Z) : jsval :=
  match v with
  | JStr _ | JArr _ | JObj _ => JStr (to_string v ++ Z_to_string n)
  | _ => JNum (num_add (to_number v) (NInt n))
  end.

(** ** [BlocksPage] *)

(** [v.toString()] *)
Definition toString (v : jsval) : outcome jsstring :=
  match v with
  | JUndef => type_error "Cannot read properties of undefined (reading 'toString')"%js
  | JNull => type_error "Cannot read properties of null (reading 'toString')"%js
  | _ => Ok (to_string v)
  end.

(** [v.k.toLowerCase().includes(q)] *)
Definition prop_includes (v : jsval) (k q : jsstring) : outcome bool :=
  s ← string_prop v k "toLowerCase"%js; Ok (includes (toLowerCase s) q).

(** [a || b] of conditions that may throw *)
Definition or_else (a b : outcome bool) : outcome bool := x ← a; if x : bool then Ok true else b.

Definition block_matches (filterQuery : jsstring) (b : jsval) : outcome bool :=
  if bool_decide (trim filterQuery = []) then Ok true
  else
    let q := toLowerCase filterQuery in
    or_else (height ← get_prop b "height"%js; s ← toString height; Ok (includes s q))
      (or_else (prop_includes b "hash"%js q) (prop_includes b "proposer"%js q)).

Definition block_row (block : jsval) : jsx Act :=
  el "tr"%js [] [] [
    el "td"%js [] [] [
      (height ← get_prop block "height"%js; BlockLink height [OnClick (Up (SelectBlock height))])];
    el "td"%js [] [] [
      (timestamp_unix_secs ← get_prop block "timestamp_unix_secs"%js; el "span"%js
          [("title"%js, formatTimestamp timestamp_unix_secs)] [] [
        (timestamp_unix_secs ← get_prop block "timestamp_unix_secs"%js;
            txt (formatTimeAgo now timestamp_unix_secs))])];
    el "td"%js [] [] [
      (proposer ← get_prop block "proposer"%js; AddressLink proposer (on_str SelectAddress proposer)
          true true 8 6 [])];
    el "td"%js [] [] [jspan [show block "txs_count"%js]];
    el "td"%js [] [] [(gas_used_s ← locale_prop block "gas_used"%js; txt gas_used_s)];
    el "td"%js [] [] [
      (block_size_bytes ← get_prop block "block_size_bytes"%js; txt (formatBytes block_size_bytes))]].

Definition BlocksPage (isLoading : bool) (filterQuery : jsstring) (filtered : list jsval) (totalBlocks
    : jsval) (currentPage pageSize : Z) : jsx Act :=
  jdiv [
    PageHeader (txt "Blocks"%js)
      "Explore finalized blocks committed to the Sprax Chain ledger by active CometBFT validators."%js
      none None
      (Some (jdiv [
        el "input"%js [("type"%js, "text"%js); ("value"%js, filterQuery);
            ("placeholder"%js, "Filter blocks or validator..."%js)]
                [OnChange (λ s, Own (SetFilterQuery s))] []]));
    jdiv [
      (if isLoading
       then TableSkeleton 8 6
       else (if no_rows filtered
         then EmptyState "No Blocks Found"%js
            "No blocks match your current filter query."%js
                (Some ("Clear Filter"%js, Own (SetFilterQuery [])))
         else jdiv [
            el "table"%js [] [] [
              table_head ["Block"%js; "Age"%js; "Validator / Proposer"%js; "Txns"%js; "Gas Used"%js;
                  "Size"%js];
              el "tbody"%js [] [] [
                jeach filtered (λ block,
                  block_row block)]]]));
      Pages SetBlocksPage currentPage totalBlocks pageSize]].

(** ** [TransactionsPage] *)

Definition tx_matches (filterType statusFilter searchQuery : jsstring) (tx : jsval) : outcome bool :=
  typeOk ← (if bool_decide (filterType = "all"%js) then Ok true
            else message_type ← get_prop tx "message_type"%js; Ok (strict_eq message_type (JStr filterType)));
  if negb typeOk then Ok false
  else
  statusOk ← (if bool_decide (statusFilter = "success"%js) then
                success ← get_prop tx "success"%js; Ok (truthy success)
              else if bool_decide (statusFilter = "failed"%js) then
                success ← get_prop tx "success"%js; Ok (negb (truthy success))
              else Ok true);
  if negb statusOk then Ok false
  else if bool_decide (trim searchQuery = []) then Ok true
  else
    let q := toLowerCase searchQuery in
    or_else (prop_includes tx "tx_hash"%js q)
      (or_else (prop_includes tx "sender"%js q)
         (recipient ← get_prop tx "recipient"%js;
          if truthy recipient then prop_includes tx "recipient"%js q else Ok false)).

Definition tx_filters (filterType searchQuery : jsstring) : jsx Act :=
  jdiv [
    jdiv [
      jdiv [
        jeach (["all"%js; "success"%js; "failed"%js]) (λ st,
          el "button"%js [("type"%js, "button"%js)] [OnClick (Own (SetStatusFilter st))] [txt st])];
      el "select"%js [("value"%js, filterType)] [OnChange (λ s, Own (SetFilterType s))] [
        el "option"%js [("value"%js, "all"%js)] [] [txt "All Message Types"%js];
        el "option"%js [("value"%js, "Transfer"%js)] [] [txt "Transfer"%js];
        el "option"%js [("value"%js, "Delegate"%js)] [] [txt "Delegate"%js];
        el "option"%js [("value"%js, "Undelegate"%js)] [] [txt "Undelegate"%js];
        el "option"%js [("value"%js, "ContractCall"%js)] [] [txt "ContractCall"%js]]];
    jdiv [
      el "input"%js [("type"%js, "text"%js); ("value"%js, searchQuery);
          ("placeholder"%js, "Search tx hash / address..."%js)] [OnChange (λ s, Own (SetSearchQuery s))]
              []]].

Definition tx_row (tx : jsval) : jsx Act :=
  el "tr"%js [] [] [
    el "td"%js [] [] [
      (tx_hash ← get_prop tx "tx_hash"%js; TxLink tx_hash (on_str SelectTx tx_hash) true true 8 6)];
    el "td"%js [] [] [jspan [show tx "message_type"%js]];
    el "td"%js [] [] [
      (block_height ← get_prop tx "block_height"%js;
          BlockLink block_height [OnClick (Up (SelectBlock block_height))])];
    el "td"%js [] [] [
      (timestamp_unix_secs ← get_prop tx "timestamp_unix_secs"%js; el "span"%js
          [("title"%js, formatTimestamp timestamp_unix_secs)] [] [
        (timestamp_unix_secs ← get_prop tx "timestamp_unix_secs"%js;
            txt (formatTimeAgo now timestamp_unix_secs))])];
    el "td"%js [] [] [
      (sender ← get_prop tx "sender"%js; AddressLink sender (on_str SelectAddress sender)
          false true 6 4 [])];
    el "td"%js [] [] [
      (recipient ← get_prop tx "recipient"%js; if truthy recipient
       then (recipient ← get_prop tx "recipient"%js; AddressLink recipient (on_str SelectAddress
           recipient) false true 6 4 [])
       else jspan [txt "(Contract)"%js])];
    el "td"%js [] [] [show tx "amount"%js];
    el "td"%js [] [] [show tx "fee_amount"%js];
    el "td"%js [] [] [success_badge tx]].

Definition TransactionsPage (isLoading : bool) (filterType searchQuery : jsstring)
    (filtered : list jsval) (totalTxs : jsval) (currentPage pageSize : Z) : jsx Act :=
  jdiv [
    PageHeader (txt "Transactions"%js)
      "Chronological list of all state transition messages executed and finalized on Sprax Chain."%js
      none None
      None;
    tx_filters filterType searchQuery;
    jdiv [
      (if isLoading
       then TableSkeleton 8 7
       else (if no_rows filtered
         then EmptyState "No Transactions Found"%js
            "No transactions match your current filters."%js
                (Some ("Reset Filters"%js, Own ResetFilters))
         else jdiv [
            el "table"%js [] [] [
              table_head ["Tx Hash"%js; "Method / Type"%js; "Block"%js; "Age"%js; "From"%js; "To"%js;
                  "Amount"%js; "Fee"%js; "Status"%js];
              el "tbody"%js [] [] [
                jeach filtered (λ tx,
                  tx_row tx)]]]));
      Pages SetTxsPage currentPage totalTxs pageSize]].

(** ** [BlockDetailsPage] *)

Definition block_overview (block : jsval) : jsx Act :=
  jdiv [
    el "h2"%js [] [] [txt "Block Overview"%js];
    jdiv [
      jdiv [txt "Block Height"%js];
      jdiv [
        txt "#"%js;
        (height_s ← locale_prop block "height"%js; txt height_s)];
      jdiv [txt "Block Hash"%js];
      jdiv [
        jspan [show block "hash"%js];
        (hash ← get_prop block "hash"%js; CopyButton hash)];
      jdiv [txt "Parent Hash"%js];
      jdiv [
        jspan [show block "parent_hash"%js];
        (parent_hash ← get_prop block "parent_hash"%js; CopyButton parent_hash)];
      jdiv [txt "Timestamp"%js];
      jdiv [
        jspan [
          (timestamp_unix_secs ← get_prop block "timestamp_unix_secs"%js;
              txt (formatTimestamp timestamp_unix_secs))];
        jspan [
          txt "("%js;
          (timestamp_unix_secs ← get_prop block "timestamp_unix_secs"%js;
              txt (formatTimeAgo now timestamp_unix_secs));
          txt ")"%js]];
      jdiv [txt "Validator / Proposer"%js];
      jdiv [
        (proposer ← get_prop block "proposer"%js; AddressLink proposer (on_str SelectAddress proposer)
            true false 8 6 [])];
      jdiv [txt "Transactions"%js];
      jdiv [jspan [show block "txs_count"%js; txt " transactions included"%js]];
      jdiv [txt "Gas Used"%js];
      jdiv [
        (gas_used_s ← locale_prop block "gas_used"%js; txt gas_used_s);
        txt " gas"%js];
      jdiv [txt "Block Size"%js];
      jdiv [
        (block_size_bytes ← get_prop block "block_size_bytes"%js; txt (formatBytes block_size_bytes))];
      jdiv [txt "State Root"%js];
      jdiv [
        jspan [show block "state_root"%js];
        (state_root ← get_prop block "state_root"%js; CopyButton state_root)];
      jdiv [txt "Transactions Root"%js];
      jdiv [
        jspan [show block "txs_root"%js];
        (txs_root ← get_prop block "txs_root"%js; CopyButton txs_root)]]].

Definition block_tx_row (tx : jsval) : jsx Act :=
  el "tr"%js [] [] [
    el "td"%js [] [] [
      (tx_hash ← get_prop tx "tx_hash"%js; TxLink tx_hash (on_str SelectTx tx_hash) true true 8 6)];
    el "td"%js [] [] [jspan [show tx "message_type"%js]];
    el "td"%js [] [] [
      (sender ← get_prop tx "sender"%js; AddressLink sender (on_str SelectAddress sender)
          false true 6 4 [])];
    el "td"%js [] [] [
      (recipient ← get_prop tx "recipient"%js; if truthy recipient
       then (recipient ← get_prop tx "recipient"%js; AddressLink recipient (on_str SelectAddress
           recipient) false true 6 4 [])
       else jspan [txt "(Contract)"%js])];
    el "td"%js [] [] [show tx "amount"%js];
    el "td"%js [] [] [success_badge tx]].

Definition block_txs_table (txs : list jsval) : jsx Act :=
  jdiv [
    el "table"%js [] [] [
      table_head ["Tx Hash"%js; "Type"%js; "From"%js; "To"%js; "Amount"%js; "Status"%js];
      el "tbody"%js [] [] [
        jeach txs (λ tx,
          block_tx_row tx)]]].

Definition BlockDetailsPage (activeTab : jsstring) (block : jsval) (txs : list jsval) : jsx Act :=
  jdiv [
    (chain_id ← get_prop block "chain_id"%js; PageHeader (height_s ← locale_prop block "height"%js;
        txt ("Block #"%js ++ height_s))
      ("Finalized block on chain "%js ++ to_string chain_id)
      (StatusBadge (JStr "confirmed"%js)) (Some (Up (Navigate "/blocks"%js), "Back to Blocks"%js))
      (Some (jdiv [
        (height ← get_prop block "height"%js; el "button"%js ([("type"%js, "button"%js)]
            ++ disabled_attr (num_leb (to_number height) (NInt 1))
                ++ [("title"%js, "Previous Block"%js)])
                    [OnClick (Up (SelectBlock (JNum (num_sub (to_number height) (NInt 1)))))] []);
        jspan [txt "#"%js; show block "height"%js];
        (height ← get_prop block "height"%js; el "button"%js [("type"%js, "button"%js);
            ("title"%js, "Next Block"%js)] [OnClick (Up (SelectBlock (js_add_int height 1)))] [])])));
    block_overview block;
    jdiv [
      jdiv [
        Tabs (λ t, Own (SetTab t))
          [("txs"%js, "Included Transactions"%js, Some (txt (Z_to_string (Z.of_nat (length txs)))));
           ("raw"%js, "Raw JSON"%js, None)]];
      (if bool_decide (activeTab = "txs"%js)
       then (if no_rows txs
         then EmptyState "No Transactions"%js
            "This block contains no user state transactions."%js None
         else block_txs_table txs)
       else jdiv [el "pre"%js [] [] [txt (json_pretty 2 block)]])]].

(** ** [TxDetailsPage] *)

Definition tx_flow (tx : jsval) (currency : jsstring) : jsx Act :=
  jdiv [
    el "h3"%js [] [] [txt "Transaction Flow"%js];
    jdiv [
      jdiv [
        jspan [txt "FROM (Sender)"%js];
        jdiv [
          (sender ← get_prop tx "sender"%js; AddressLink sender (on_str SelectAddress sender)
              true false 8 6 [])]];
      jdiv [
        jdiv [show tx "amount"%js];
        jdiv [
          txt "≈ "%js;
          (amount ← get_prop tx "amount"%js; txt (formatFiat (amount_of amount)
              (Currency_of currency)))];
        jdiv []];
      jdiv [
        jspan [txt "TO (Recipient)"%js];
        jdiv [
          (recipient ← get_prop tx "recipient"%js; if truthy recipient
           then (recipient ← get_prop tx "recipient"%js; AddressLink recipient (on_str SelectAddress
               recipient) true false 8 6 [])
           else jspan [txt "(Contract Creation / Internal)"%js])]]]].

Definition tx_overview (tx : jsval) : jsx Act :=
  jdiv [
    jdiv [
      jdiv [txt "Transaction Hash"%js];
      jdiv [
        jspan [show tx "tx_hash"%js];
        (tx_hash ← get_prop tx "tx_hash"%js; CopyButton tx_hash)];
      jdiv [txt "Execution Status"%js];
      jdiv [
        success_badge tx;
        jspan [
          (success ← get_prop tx "success"%js; if truthy success
           then txt "(1-block CometBFT Finality)"%js
           else txt "(Execution Reverted)"%js)]];
      jdiv [txt "Block Height"%js];
      jdiv [
        (block_height ← get_prop tx "block_height"%js;
            BlockLink block_height [OnClick (Up (SelectBlock block_height))])];
      jdiv [txt "Timestamp"%js];
      jdiv [
        jspan [
          (timestamp_unix_secs ← get_prop tx "timestamp_unix_secs"%js;
              txt (formatTimestamp timestamp_unix_secs))];
        jspan [
          txt "("%js;
          (timestamp_unix_secs ← get_prop tx "timestamp_unix_secs"%js;
              txt (formatTimeAgo now timestamp_unix_secs));
          txt ")"%js]];
      jdiv [txt "Message Type"%js];
      jdiv [jspan [show tx "message_type"%js]];
      jdiv [txt "Transferred Value"%js];
      jdiv [show tx "amount"%js];
      jdiv [txt "Transaction Fee"%js];
      jdiv [show tx "fee_amount"%js];
      jdiv [txt "Gas Used"%js];
      jdiv [
        (gas_used_s ← locale_prop tx "gas_used"%js; txt gas_used_s);
        txt " gas"%js];
      jdiv [txt "Sender Nonce"%js];
      jdiv [show tx "nonce"%js];
      jdiv [txt "Memo"%js];
      jdiv [
        (memo ← get_prop tx "memo"%js; if truthy memo
         then jspan [show tx "memo"%js]
         else jspan [txt "(None)"%js])]]].

Definition tx_logs (tx : jsval) : jsx Act :=
  jdiv [
    jdiv [
      jdiv [
        jspan [txt "Event #0: sprx.protocol.v1.EventTransfer"%js];
        jspan [txt "EMITTED"%js]];
      jdiv [
        jspan [txt "sender:"%js];
        jspan [show tx "sender"%js];
        jspan [txt "recipient:"%js];
        jspan [
          (recipient ← get_prop tx "recipient"%js; child (js_or recipient (JStr "0x0"%js)))];
        jspan [txt "amount:"%js];
        jspan [show tx "amount"%js]]]].

Definition TxDetailsPage (activeTab : jsstring) (tx : jsval) (currency : jsstring) : jsx Act :=
  jdiv [
    PageHeader (txt "Transaction Details"%js)
      "Cryptographically verified state transition on Sprax Chain"%js
      (success_badge tx) (Some (Up (Navigate "/transactions"%js), "Back to Transactions"%js))
      None;
    tx_flow tx currency;
    jdiv [
      jdiv [
        Tabs (λ t, Own (SetTab t))
          [("overview"%js, "Overview"%js, None);
           ("raw"%js, "Raw JSON"%js, None);
           ("logs"%js, "Event Logs"%js, Some (txt "1"%js))]];
      jwhen (bool_decide (activeTab = "overview"%js))
        (tx_overview tx);
      jwhen (bool_decide (activeTab = "raw"%js))
        (jdiv [el "pre"%js [] [] [txt (json_pretty 2 tx)]]);
      jwhen (bool_decide (activeTab = "logs"%js))
        (tx_logs tx)]].

(** ** [AddressPage] *)

(** [a.toLowerCase() === account.address.toLowerCase()] for [a] the property [k] *)
Definition is_account (account tx : jsval) (k : jsstring) : outcome bool :=
  a ← string_prop tx k "toLowerCase"%js;
  b ← string_prop account "address"%js "toLowerCase"%js;
  Ok (bool_decide (toLowerCase a = toLowerCase b)).

Definition is_out (account tx : jsval) : outcome bool := is_account account tx "sender"%js.

(** The recipient may be missing: [tx.recipient?.toLowerCase()]. *)
Definition is_in (account tx : jsval) : outcome bool :=
  recipient ← get_prop tx "recipient"%js;
  if is_nullish recipient then
    _ ← string_prop account "address"%js "toLowerCase"%js; Ok false
  else is_account account tx "recipient"%js.

Definition account_tx_matches (filter : jsstring) (account tx : jsval) : outcome bool :=
  if bool_decide (filter = "in"%js) then is_in account tx
  else if bool_decide (filter = "out"%js) then is_out account tx
  else Ok true.

Definition account_banner (account : jsval) (currency : jsstring) : jsx Act :=
  jdiv [
    jdiv [
      jdiv [jspan [show account "address"%js]];
      jdiv [(address ← get_prop account "address"%js; CopyButton address)]];
    jdiv [
      (balance_sprx ← get_prop account "balance_sprx"%js; card "Native Balance"%js
          (show account "balance_sprx"%js) ("≈ "%js ++ formatFiat (amount_of balance_sprx)
              (Currency_of currency)));
      card "Total Transactions"%js (tx_count_s ← locale_prop account "tx_count"%js; txt tx_count_s)
          "Executed on-chain"%js;
      card "Account Nonce"%js (show account "nonce"%js) "State sequence"%js;
      (last_active_height_s ← locale_prop account "last_active_height"%js; card "First Seen"%js
          (first_seen_height_s ← locale_prop account "first_seen_height"%js; txt ("#"%js
              ++ first_seen_height_s)) ("Last: #"%js ++ last_active_height_s))]].

Definition account_tx_row (tx : jsval) (isOut : bool) : jsx Act :=
  el "tr"%js [] [] [
    el "td"%js [] [] [
      (tx_hash ← get_prop tx "tx_hash"%js; TxLink tx_hash (on_str SelectTx tx_hash) true true 8 6)];
    el "td"%js [] [] [
      jspan [
        (if isOut
         then children [jspan [txt "OUT"%js]]
         else children [jspan [txt "IN"%js]])]];
    el "td"%js [] [] [
      (block_height ← get_prop tx "block_height"%js;
          BlockLink block_height [OnClick (Up (SelectBlock block_height))])];
    el "td"%js [] [] [
      (if isOut
       then (recipient ← get_prop tx "recipient"%js; AddressLink (js_or recipient (JStr "Contract"%js))
           (if truthy recipient then on_str SelectAddress recipient else []) false true 6 4 [])
       else (sender ← get_prop tx "sender"%js; AddressLink sender (on_str SelectAddress sender)
           false true 6 4 []))];
    el "td"%js [] [] [
      (timestamp_unix_secs ← get_prop tx "timestamp_unix_secs"%js; el "span"%js
          [("title"%js, formatTimestamp timestamp_unix_secs)] [] [
        (timestamp_unix_secs ← get_prop tx "timestamp_unix_secs"%js;
            txt (formatTimeAgo now timestamp_unix_secs))])];
    el "td"%js [] [] [jspan [txt (if isOut then "-"%js else "+"%js); show tx "amount"%js]]].

Definition account_txs_table (account : jsval) (filteredTxs : list jsval) : jsx Act :=
  jdiv [
    el "table"%js [] [] [
      table_head ["Tx Hash"%js; "Direction"%js; "Block"%js; "From / To"%js; "Age"%js; "Amount"%js];
      el "tbody"%js [] [] [
        jeach filteredTxs (λ tx,
          isOut ← is_out account tx; account_tx_row tx isOut)]]].

Definition account_staking : jsx Act :=
  jdiv [
    jdiv [
      jdiv [
        jdiv [txt "Delegated Staking Position"%js];
        jdiv [txt "SPRX Core Genesis Alpha Node"%js];
        jdiv [txt "spraxvaloper1q8x9y7w6e5r4t3y2u1i0o9p8a7s6d5f4g3h2j1"%js]];
      jdiv [
        jdiv [txt "500.00 SPRX"%js];
        jdiv [txt "Pending Rewards: 12.45 SPRX"%js]]]].

Definition AddressPage (filter activeTab : jsstring) (qrOpen : bool) (account : jsval) (txs filteredTxs
    : list jsval) (currency : jsstring) : jsx Act :=
  jdiv [
    PageHeader (txt "Account Address"%js)
      "SPRX Protocol Native Bech32 & Hex Identity"%js
      none (Some (Up (Navigate "/"%js), "Back"%js))
      (Some (el "button"%js [("type"%js, "button"%js)] [OnClick (Own (SetQrOpen true))]
          [jspan [txt "QR Code"%js]]));
    account_banner account currency;
    jdiv [
      jdiv [
        Tabs (λ t, Own (SetTab t))
          [("txs"%js, "Transactions"%js, Some (txt (Z_to_string (Z.of_nat (length txs)))));
           ("staking"%js, "Delegations"%js, Some (txt "1"%js));
           ("raw"%js, "Account State"%js, None)];
        jwhen (bool_decide (activeTab = "txs"%js))
          (jdiv [
             jeach (["all"%js; "in"%js; "out"%js]) (λ f,
               el "button"%js [("type"%js, "button"%js)] [OnClick (Own (SetFilter f))] [
                   (if bool_decide (f = "all"%js)
                    then txt "All"%js
                    else (if bool_decide (f = "in"%js)
                      then txt "Inbound (IN)"%js
                      else txt "Outbound (OUT)"%js))])])];
      jwhen (bool_decide (activeTab = "txs"%js))
        ((if no_rows filteredTxs
          then EmptyState "No Transactions"%js
             "No transactions found matching your address filter."%js None
          else account_txs_table account filteredTxs));
      jwhen (bool_decide (activeTab = "staking"%js))
        (account_staking);
      jwhen (bool_decide (activeTab = "raw"%js))
        (jdiv [el "pre"%js [] [] [txt (json_pretty 2 account)]])];
    (address ← get_prop account "address"%js; QrCodeModal qrOpen (Own (SetQrOpen false)) address
        "SPRX Address QR Code"%js)].

(** ** [ValidatorsPage] *)

Definition validator_matches (statusFilter filterQuery : jsstring) (v : jsval) : outcome bool :=
  let by_query :=
    if bool_decide (trim filterQuery = []) then Ok true
    else
      let q := toLowerCase filterQuery in
      or_else (prop_includes v "moniker"%js q) (prop_includes v "operator_address"%js q) in
  if bool_decide (statusFilter = "all"%js) then by_query
  else
    status ← string_prop v "status"%js "toLowerCase"%js;
    if bool_decide (toLowerCase status = statusFilter) then by_query else Ok false.

Definition validator_filters (filterQuery : jsstring) : jsx Act :=
  jdiv [
    jdiv [
      jeach (["all"%js; "active"%js; "jailed"%js]) (λ st,
        el "button"%js [("type"%js, "button"%js)] [OnClick (Own (SetStatusFilter st))] [txt st])];
    jdiv [
      el "input"%js [("type"%js, "text"%js); ("value"%js, filterQuery);
          ("placeholder"%js, "Search moniker / operator..."%js)]
              [OnChange (λ s, Own (SetFilterQuery s))] []]].

Definition validator_row (idx : nat) (val : jsval) : jsx Act :=
  (operator_address ← get_prop val "operator_address"%js; el "tr"%js []
      (on_str SelectValidator operator_address) [
    el "td"%js [] [] [txt (Z_to_string (Z.of_nat idx + 1))];
    el "td"%js [] [] [
      jdiv [
        jdiv [
          (s ← string_prop val "moniker"%js "slice"%js; txt (toUpperCase (slice s 0 2)))];
        jdiv [
          jspan [show val "moniker"%js];
          jspan [
            (v ← get_prop val "operator_address"%js; d ← truncateAddress v 8 6; child d)]]]];
    el "td"%js [] [] [
      jdiv [
        (voting_power_s ← locale_prop val "voting_power"%js; txt voting_power_s)];
      jdiv [
        (voting_power_percentage_1 ← fixed_prop val "voting_power_percentage"%js 1;
            txt voting_power_percentage_1);
        txt "% share"%js]];
    el "td"%js [] [] [show val "tokens"%js];
    el "td"%js [] [] [
      (commission_rate ← get_prop val "commission_rate"%js;
          txt (toFixed (num_mul (to_number commission_rate) (NInt 100)) 1));
      txt "%"%js];
    el "td"%js [] [] [
      jspan [
        (uptime_percentage_2 ← fixed_prop val "uptime_percentage"%js 2; txt uptime_percentage_2);
        txt "%"%js]];
    el "td"%js [] [] [
      (blocks_proposed_count_s ← locale_prop val "blocks_proposed_count"%js;
          txt blocks_proposed_count_s)];
    el "td"%js [] [] [(status ← get_prop val "status"%js; StatusBadge status)]]).

Definition ValidatorsPage (isLoading : bool) (filterQuery : jsstring) (filtered : list jsval)
    : jsx Act :=
  jdiv [
    PageHeader (txt "Validators"%js)
      "Active consensus validators securing CometBFT state transitions and producing blocks on Sprax Chain."%js
      none None
      None;
    validator_filters filterQuery;
    jdiv [
      (if isLoading
       then TableSkeleton 6 7
       else (if no_rows filtered
         then EmptyState "No Validators Found"%js
            "No validator nodes match your filter criteria."%js
                (Some ("Reset Filters"%js, Own ResetFilters))
         else jdiv [
            el "table"%js [] [] [
              table_head ["#"%js; "Validator / Moniker"%js; "Voting Power"%js; "Bonded Stake"%js;
                  "Commission"%js; "Uptime"%js; "Blocks Produced"%js; "Status"%js];
              el "tbody"%js [] [] [
                jeach_i filtered (λ idx val,
                  validator_row idx val)]]]))]].

(** ** [ValidatorDetailsPage] *)

Definition validator_banner (validator : jsval) : jsx Act :=
  jdiv [
    jdiv [
      jdiv [jspan [show validator "operator_address"%js]];
      jdiv [
        (operator_address ← get_prop validator "operator_address"%js; CopyButton operator_address)]];
    jdiv [
      (voting_power_percentage_1 ← fixed_prop validator "voting_power_percentage"%js 1;
          card "Total Stake"%js (show validator "tokens"%js)
              (voting_power_percentage_1 ++ "% voting power"%js));
      card "Uptime Rating"%js (uptime_percentage_2 ← fixed_prop validator "uptime_percentage"%js 2;
          txt (uptime_percentage_2 ++ "%"%js)) "Consensus signatures"%js;
      card "Commission Rate"%js ((commission_rate ← get_prop validator "commission_rate"%js;
          txt (toFixed (num_mul (to_number commission_rate) (NInt 100)) 1 ++ "%"%js)))
              "Delegator fee"%js;
      (missed_blocks_count ← get_prop validator "missed_blocks_count"%js; card "Blocks Proposed"%js
          (blocks_proposed_count_s ← locale_prop validator "blocks_proposed_count"%js;
              txt blocks_proposed_count_s) ("Missed: "%js ++ to_string missed_blocks_count))]].

Definition validator_overview (validator : jsval) : jsx Act :=
  jdiv [
    jdiv [
      jdiv [txt "Moniker / Node Name"%js];
      jdiv [show validator "moniker"%js];
      jdiv [txt "Operator Address"%js];
      jdiv [
        (operator_address ← get_prop validator "operator_address"%js; AddressLink operator_address
            (on_str SelectAddress operator_address) true false 8 6 [])];
      jdiv [txt "Consensus Voting Power"%js];
      jdiv [
        (voting_power_s ← locale_prop validator "voting_power"%js; txt voting_power_s);
        txt " ("%js;
        (voting_power_percentage_2 ← fixed_prop validator "voting_power_percentage"%js 2;
            txt voting_power_percentage_2);
        txt "%)"%js];
      jdiv [txt "Commission Rate"%js];
      jdiv [
        (commission_rate ← get_prop validator "commission_rate"%js;
            txt (toFixed (num_mul (to_number commission_rate) (NInt 100)) 2));
        txt "%"%js];
      jdiv [txt "Uptime Rating"%js];
      jdiv [
        (uptime_percentage_2 ← fixed_prop validator "uptime_percentage"%js 2; txt uptime_percentage_2);
        txt "%"%js];
      jdiv [txt "Jailed / Tombstoned"%js];
      jdiv [
        (is_tombstoned ← get_prop validator "is_tombstoned"%js; if truthy is_tombstoned
         then jspan [txt "YES (Tombstoned)"%js]
         else jspan [txt "NO (In Active Good Standing)"%js])];
      jdiv [txt "Lifetime Blocks Proposed"%js];
      jdiv [
        (blocks_proposed_count_s ← locale_prop validator "blocks_proposed_count"%js;
            txt blocks_proposed_count_s);
        txt " blocks"%js]]].

Definition validator_delegations : jsx Act :=
  jdiv [
    jdiv [
      el "table"%js [] [] [
        table_head ["Delegator Address"%js; "Delegated Amount"%js; "Share of Node"%js];
        el "tbody"%js [] [] [
          el "tr"%js [] [] [
            el "td"%js [] [] [
              AddressLink (JStr "sprax1qpzry9x8gf2tvdw0s3jn54khce6mua7l4w3e2r"%js)
                  [OnClick (Up (SelectAddress "sprax1qpzry9x8gf2tvdw0s3jn54khce6mua7l4w3e2r"%js))]
                      false true 8 6 []];
            el "td"%js [] [] [txt "2,000,000 SPRX"%js];
            el "td"%js [] [] [txt "57.1%"%js]];
          el "tr"%js [] [] [
            el "td"%js [] [] [
              AddressLink (JStr "sprax1234567890abcdef1234567890abcdef12345678"%js)
                  [OnClick (Up (SelectAddress "sprax1234567890abcdef1234567890abcdef12345678"%js))]
                      false true 8 6 []];
            el "td"%js [] [] [txt "1,000,000 SPRX"%js];
            el "td"%js [] [] [txt "28.6%"%js]];
          el "tr"%js [] [] [
            el "td"%js [] [] [
              AddressLink (JStr "sprax1987654321fedcba987654321fedcba987654321"%js)
                  [OnClick (Up (SelectAddress "sprax1987654321fedcba987654321fedcba987654321"%js))]
                      false true 8 6 []];
            el "td"%js [] [] [txt "500,000 SPRX"%js];
            el "td"%js [] [] [txt "14.3%"%js]]]]]].

Definition ValidatorDetailsPage (activeTab : jsstring) (validator : jsval) : jsx Act :=
  jdiv [
    PageHeader (show validator "moniker"%js)
      "Consensus Validator Node on Sprax Chain"%js
      (status ← get_prop validator "status"%js; StatusBadge status)
          (Some (Up (Navigate "/validators"%js), "Back to Validators"%js))
      None;
    validator_banner validator;
    jdiv [
      jdiv [
        Tabs (λ t, Own (SetTab t))
          [("overview"%js, "Node Information"%js, None);
           ("delegations"%js, "Delegations Breakdown"%js, Some (txt "3"%js))]];
      jwhen (bool_decide (activeTab = "overview"%js))
        (validator_overview validator);
      jwhen (bool_decide (activeTab = "delegations"%js))
        (validator_delegations)]].

(** ** [ContractsPage] *)

Definition contract_matches (filterQuery : jsstring) (c : jsval) : outcome bool :=
  if bool_decide (trim filterQuery = []) then Ok true
  else
    let q := toLowerCase filterQuery in
    or_else (prop_includes c "address"%js q)
      (or_else (prop_includes c "creator"%js q)
         (compiler_version ← get_prop c "compiler_version"%js;
          if truthy compiler_version then prop_includes c "compiler_version"%js q else Ok false)).

Definition contract_row (contract : jsval) : jsx Act :=
  (address ← get_prop contract "address"%js; el "tr"%js [] (on_str SelectContract address) [
    el "td"%js [] [] [
      jdiv [
        jspan [
          (v ← get_prop contract "address"%js; d ← truncateAddress v 10 6; child d)]]];
    el "td"%js [] [] [
      (creator ← get_prop contract "creator"%js; AddressLink creator (on_str SelectAddress creator)
          false true 6 4 [])];
    el "td"%js [] [] [
      (created_height ← get_prop contract "created_height"%js;
          BlockLink created_height [OnClick (Up (SelectBlock created_height))])];
    el "td"%js [] [] [(tx_count_s ← locale_prop contract "tx_count"%js; txt tx_count_s)];
    el "td"%js [] [] [
      (bytecode_size ← get_prop contract "bytecode_size"%js; txt (formatBytes bytecode_size))];
    el "td"%js [] [] [
      (verified ← get_prop contract "verified"%js; if truthy verified
       then jspan [jspan [txt "Verified"%js]]
       else jspan [txt "Unverified"%js])]]).

Definition ContractsPage (filterQuery : jsstring) (filtered : list jsval) : jsx Act :=
  jdiv [
    PageHeader (txt "Smart Contracts"%js)
      "Verified WebAssembly (Wasm) smart contracts deployed on Sprax Chain."%js
      none None
      (Some (jdiv [
        el "input"%js [("type"%js, "text"%js); ("value"%js, filterQuery);
            ("placeholder"%js, "Search contract address / creator..."%js)]
                [OnChange (λ s, Own (SetFilterQuery s))] []]));
    jdiv [
      (if no_rows filtered
       then EmptyState "No Contracts Found"%js
          "No smart contracts match your query."%js (Some ("Clear Filter"%js, Own (SetFilterQuery [])))
       else jdiv [
          el "table"%js [] [] [
            table_head ["Contract Address"%js; "Creator"%js; "Created Block"%js; "Transactions"%js;
                "Size"%js; "Status"%js];
            el "tbody"%js [] [] [
              jeach filtered (λ contract,
                contract_row contract)]]])]].

(** ** [ContractDetailsPage] *)

Definition contract_banner (contract : jsval) : jsx Act :=
  jdiv [
    jdiv [
      jdiv [jspan [show contract "address"%js]];
      jdiv [(address ← get_prop contract "address"%js; CopyButton address)]];
    jdiv [
      jdiv [txt "Contract Creator"%js];
      jdiv [
        (creator ← get_prop contract "creator"%js; AddressLink creator (on_str SelectAddress creator)
            true false 8 6 [])];
      jdiv [txt "Deployed at Block"%js];
      jdiv [
        (created_height ← get_prop contract "created_height"%js;
            BlockLink created_height [OnClick (Up (SelectBlock created_height))])];
      jdiv [txt "Transactions Executed"%js];
      jdiv [
        (tx_count_s ← locale_prop contract "tx_count"%js; txt tx_count_s);
        txt " transactions"%js];
      jdiv [txt "Bytecode Size"%js];
      jdiv [
        (bytecode_size ← get_prop contract "bytecode_size"%js; txt (formatBytes bytecode_size))];
      (compiler_version ← get_prop contract "compiler_version"%js; if truthy compiler_version
       then children [
           jdiv [txt "Compiler / Toolchain"%js];
           jdiv [show contract "compiler_version"%js]]
       else child compiler_version)]].

Definition ContractDetailsPage (activeTab : jsstring) (contract : jsval) : jsx Act :=
  jdiv [
    PageHeader (txt "Contract Details"%js)
      "Wasm Smart Contract on Sprax Chain"%js
      (verified ← get_prop contract "verified"%js; if truthy verified
       then jspan [jspan [txt "Verified Contract"%js]]
       else none) (Some (Up (Navigate "/contracts"%js), "Back to Contracts"%js))
      None;
    contract_banner contract;
    jdiv [
      jdiv [
        Tabs (λ t, Own (SetTab t))
          [("overview"%js, "Overview"%js, None);
           ("code"%js, "Contract Source Code"%js, None);
           ("abi"%js, "Contract ABI / Methods"%js, None)]];
      jwhen (bool_decide (activeTab = "overview"%js))
        (jdiv [
           jp [
             txt "This contract is compiled into safe WebAssembly bytecode and executed with strict gas limits on Sprax Chain VM. State updates are committed with CometBFT deterministic consensus."%js]]);
      jwhen (bool_decide (activeTab = "code"%js))
        (jdiv [
           jdiv [
             jspan [txt "src/lib.rs (Rust Sprax Wasm)"%js];
             (source_code ← get_prop contract "source_code"%js;
                 CopyButton (js_or source_code (JStr [])))];
           el "pre"%js [] [] [
             (source_code ← get_prop contract "source_code"%js;
                 child (js_or source_code (JStr "// No verified source code provided."%js)))]]);
      jwhen (bool_decide (activeTab = "abi"%js))
        (jdiv [
           jdiv [
             jspan [txt "Contract Interface Specification"%js];
             (abi ← get_prop contract "abi"%js; CopyButton (js_or abi (JStr "[]"%js)))];
           el "pre"%js [] [] [
             (abi ← get_prop contract "abi"%js; child (js_or abi (JStr "[]"%js)))]])]].

(** ** [StakingPage] *)

Definition estimatedAnnualRate : num := lit 94 (-3).

(** [parseFloat(calcAmount.replace(/,/g, "")) || 0] *)
Definition parsedCalc (calcAmount : jsstring) : num :=
  let n := parseFloat (remove_commas calcAmount) in if num_truthy n then n else NInt 0.
Definition estAnnualRewards (calcAmount : jsstring) : num :=
  num_mul (parsedCalc calcAmount) estimatedAnnualRate.
Definition estMonthlyRewards (calcAmount : jsstring) : num :=
  num_div (estAnnualRewards calcAmount) (NInt 12).

Definition stake_calculator (calcAmount currency : jsstring) : jsx Act :=
  jdiv [
    jdiv [el "h3"%js [] [] [txt "Staking Estimator Calculator"%js]];
    jdiv [
      el "label"%js [] [] [txt "Delegation Amount (SPRX)"%js];
      jdiv [
        el "input"%js [("type"%js, "number"%js); ("value"%js, calcAmount);
            ("placeholder"%js, "1000"%js)] [OnChange (λ s, Own (SetCalcAmount s))] [];
        jspan [txt "SPRX"%js]];
      jdiv [
        jeach ([500; 1000; 5000; 10000]%Z) (λ v,
          el "button"%js [("type"%js, "button"%js)] [OnClick (Own (SetCalcAmount (Z_to_string v)))]
              [txt "+"%js; txt (host_toLocaleString (NInt v) 0 3)])]];
    jdiv [
      jdiv [
        jdiv [txt "Est. Monthly Return"%js];
        jdiv [txt (toFixed (estMonthlyRewards calcAmount) 2); txt " SPRX"%js];
        jdiv [
          txt "≈ "%js;
          txt (formatFiat (ANumber (estMonthlyRewards calcAmount)) (Currency_of currency))]];
      jdiv [
        jdiv [txt "Est. Annual Return"%js];
        jdiv [txt (toFixed (estAnnualRewards calcAmount) 2); txt " SPRX"%js];
        jdiv [
          txt "≈ "%js;
          txt (formatFiat (ANumber (estAnnualRewards calcAmount)) (Currency_of currency))]]]].

Definition stake_share (val : jsval) : jsx Act :=
  jdiv [
    jdiv [
      (operator_address ← get_prop val "operator_address"%js; el "span"%js []
          (on_str SelectValidator operator_address) [show val "moniker"%js]);
      jspan [
        (voting_power_percentage_1 ← fixed_prop val "voting_power_percentage"%js 1;
            txt voting_power_percentage_1);
        txt "%"%js]];
    jdiv [jdiv []]].

Definition StakingPage (calcAmount : jsstring) (validators : list jsval) (currency : jsstring)
    : jsx Act :=
  jdiv [
    PageHeader (txt "Staking & Consensus Security"%js)
      "SPRX Token Delegation, Validator Set Economic Security, and Consensus Yield Estimator."%js
      none None
      None;
    jdiv [
      card "Total SPRX Bonded"%js (txt "10,000,000 SPRX"%js) "Consensus security stake"%js;
      card "Staking Ratio"%js (txt "64.8%"%js) "Of circulating supply"%js;
      card "Active Validators"%js (txt (Z_to_string (Z.of_nat (length validators)) ++ " Nodes"%js))
          "100% network quorum"%js;
      card "Est. Network Metric"%js (txt "~9.4% APR"%js) "Network-derived estimate"%js];
    jdiv [
      jdiv [
        jspan [txt "Important Protocol Disclaimer:"%js];
        txt " Staking rewards are dynamically derived from CometBFT block minting provisions and state execution transaction fees. APR rates vary per validator based on node commission and performance. This is an algorithmic protocol metric, not a financial guarantee."%js]];
    jdiv [
      stake_calculator calcAmount currency;
      jdiv [
        jdiv [
          jdiv [el "h3"%js [] [] [txt "Consensus Stake Distribution"%js]];
          jspan [txt "Unbonding: 21 Days"%js]];
        jdiv [
          jeach validators (λ val,
            stake_share val)]]]].

(** ** [NetworkStatusPage] *)

Definition subsystems (stats : jsval) : jsx Act :=
  jdiv [
    jdiv [
      jdiv [el "h3"%js [] [] [txt "CometBFT Consensus Status"%js]];
      jdiv [
        jdiv [
          jspan [txt "Consensus Round"%js];
          jspan [txt "Round #0 (Commit)"%js]];
        jdiv [
          jspan [txt "Block Commitment Interval"%js];
          jspan [
            (avg_block_time_seconds_2 ← fixed_prop stats "avg_block_time_seconds"%js 2;
                txt avg_block_time_seconds_2);
            txt "s"%js]];
        jdiv [
          jspan [txt "Quorum Threshold"%js];
          jspan [txt "> 66.7% Voting Power"%js]];
        jdiv [
          jspan [txt "Slashing Monitor"%js];
          jspan [txt "Enabled (Double-sign & Downtime)"%js]]]];
    jdiv [
      jdiv [el "h3"%js [] [] [txt "Relational Indexer Engine"%js]];
      jdiv [
        jdiv [
          jspan [txt "Indexed Block Height"%js];
          jspan [
            txt "#"%js;
            (latest_height_s ← locale_prop stats "latest_height"%js; txt latest_height_s)]];
        jdiv [
          jspan [txt "Indexed Accounts"%js];
          jspan [
            (total_accounts_s ← locale_prop stats "total_accounts"%js; txt total_accounts_s)]];
        jdiv [
          jspan [txt "Indexed Transactions"%js];
          jspan [
            (total_transactions_s ← locale_prop stats "total_transactions"%js;
                txt total_transactions_s)]];
        jdiv [
          jspan [txt "Consistency Auditor"%js];
          jspan [txt "Passing (100% Hash Match)"%js]]]]].

Definition NetworkStatusPage (stats : jsval) : jsx Act :=
  jdiv [
    PageHeader (txt "Network & Node Telemetry"%js)
      "Live consensus engine health, peer connectivity, and indexer storage pipeline status."%js
      (jspan [jspan []; jspan [txt "ALL SYSTEMS OPERATIONAL"%js]]) None
      None;
    jdiv [
      card "Consensus Engine"%js (txt "CometBFT v0.38"%js) "Deterministic 1-block finality"%js;
      card "P2P Peers"%js (txt "48 Connected"%js) "Gossip mesh active"%js;
      card "State Root Sync"%js (txt "0 ms Delay"%js) "Ledger fully audited"%js;
      card "Indexer Pipeline"%js (txt "Active (Real-time)"%js) "100% Ingestion parity"%js];
    subsystems stats].

End pages.
End Pages.
