(* ===== verification/ExplorerHome.v ===== *)
(** * The home page: [apps/explorer-ui/src/pages/HomePage.tsx] *)
From S2P Require Import Prelude JsString JsNumber JsJson Formatters View Render ExplorerUi ExplorerParts.
From S2P Require Import ExplorerApp ExplorerLayout ExplorerWidgets ExplorerEvents.
Import Formatters Parts.
Import ExplorerApp(Event(..)).

Module Home.

Record Category := mkCategory {
  cat_title : jsstring;
  cat_description : jsstring;
  cat_stat : jsstring;
  cat_route : jsstring;
}.

Definition rwaCategories : list Category :=
  [mkCategory "Global Payments & Settlement"%js
      "Sub-second deterministic settlement with multi-currency fee abstraction (USD, INR, EUR, GBP, JPY)."%js
      "1.5s Finality"%js "/learn/real-world-x"%js;
   mkCategory "Tokenized Real-World Assets"%js
      "Institutional digital bonds, real estate title deeds, and automated dividend distribution via SXS-721."%js
      "$18.5M+ Tokenized"%js "/learn/real-world-x"%js;
   mkCategory "Digital Identity & KYC Assertions"%js
      "Zero-knowledge verifiable credentials enabling compliant enterprise access without privacy leakage."%js
      "ZKP Enabled"%js "/learn/real-world-x"%js;
   mkCategory "Supply Chain & Trade Commerce"%js
      "Multi-party cryptographic escrow anchors for international freight, invoices, and letter-of-credit."%js
      "Automated Escrow"%js "/learn/real-world-x"%js;
   mkCategory "DePIN & Sensor Infrastructure"%js
      "High-frequency cryptographic attestation rails for energy grids, telecom nodes, and IoT fleets."%js
      "1,420+ Nodes"%js "/learn/real-world-x"%js;
   mkCategory "High-Velocity Institutional DeFi"%js
      "Concentrated liquidity AMMs and synthetic perpetuals with sub-10ms oracle updates."%js
      "Zero Reentrancy"%js "/ecosystem"%js].

Record Principle := mkPrinciple {
  prin_title : jsstring;
  prin_description : jsstring;
}.

Definition corePrinciples : list Principle :=
  [mkPrinciple "Scalable by Architecture"%js
      "Pipelined CometBFT consensus with decoupled execution and dual-tier state storage."%js;
   mkPrinciple "Real-World Ready"%js
      "Multi-currency presentation layer mapping native atto-SPRX into USD, INR, EUR, GBP, and JPY."%js;
   mkPrinciple "Deterministic WASM"%js
      "CosmWasm Rust actor-model virtual machine eliminating EVM reentrancy vulnerabilities."%js;
   mkPrinciple "1.5s Fast Finality"%js
      "Single-block deterministic finality with 2/3+ BFT-PoS mathematical safety bounds."%js;
   mkPrinciple "Pure-Rust Storage"%js
      "Memory-efficient Redb embedded KV persistence combined with Jellyfish Sparse Merkle Tries."%js;
   mkPrinciple "Decentralized Governance"%js
      "Transparent on-chain voting, community grants, and SPRX Improvement Proposals (SIPs)."%js].

Record Milestone := mkMilestone {
  mile_phase : jsstring;
  mile_title : jsstring;
  mile_status : jsstring;
  mile_period : jsstring;
  mile_desc : jsstring;
}.

Definition roadmapMilestones : list Milestone :=
  [mkMilestone "Phase 01"%js "Architecture & Framework Selection"%js "Completed"%js "Q1 2026"%js
      "CometBFT consensus selection, CosmWasm VM specification, 1B SPRX tokenomics design."%js;
   mkMilestone "Phase 02"%js "Sovereign Rust Workspace & Local Engine"%js "Completed"%js
      "Q2 2026"%js
      "10 core crates implemented with 58 verified automated tests and zero warnings."%js;
   mkMilestone "Phase 03"%js "Public Testnet & Validator Rehearsal"%js "Active"%js "Q3 2026"%js
      "Multi-node testnet-1 launch, testnet faucet, explorer UI, and validator onboarding."%js;
   mkMilestone "Phase 04"%js "Mainnet Genesis & Real-World X Rails"%js "Upcoming"%js "Q4 2026"%js
      "Decentralized genesis ceremony, institutional RWA asset settlement, and multi-currency dApps."%js].

(** The default of the search bar's placeholder. *)
Definition search_placeholder : jsstring := "Search by address / transaction / block / validator"%js.

Definition layer_act (e : ProtocolVisualizer.Event) : Act :=
  match e with
  | ProtocolVisualizer.SelectLayer id => Own (SelectLayer id)
  | ProtocolVisualizer.Go route => go route
  end.

Section home.
Context `{Host} `{UnicodeCase} (now : Z).

Definition hero (bar : SearchBar.State) : jsx Act :=
  el "section"%js [] [] [
    jdiv [];
    jdiv [];
    jdiv [
      jdiv [
        jspan [];
        jspan [
          txt "SOVEREIGN LAYER-1 PROTOCOL FOR REAL-WORLD ECONOMIC ACTIVITY"%js]];
      el "h1"%js [] [] [
        txt "Infrastructure for the "%js;
        el "br"%js [] [] [];
        jspan [txt "Real-World Decentralized Economy"%js]];
      jp [
        txt "SPRX is a high-throughput blockchain coupling 1.5s Byzantine consensus, CosmWasm Rust smart contracts, and decoupled multi-currency display abstraction for global payments, tokenized assets, and enterprise rails."%js];
      jdiv [
        el "button"%js [] [OnClick (go "/learn/what-is-sprx"%js)] [jspan [txt "Explore SPRX"%js]];
        el "button"%js [] [OnClick (go "/developers"%js)] [jspan [txt "Start Building"%js]];
        el "button"%js [] [OnClick (go "/developers/rpc"%js)] [jspan [txt "RPC Specs"%js]]];
      jdiv [
        Ok [map_view (λ e, Own (OnSearchBar e)) (SearchBar.render search_placeholder bar)]]]].

Definition metrics (stats : jsval) : jsx Act :=
  jdiv [
    MetricCard "Block Height"%js (latest_height_s ← locale_prop stats "latest_height"%js; txt ("#"%js
        ++ latest_height_s)) [] "1.5s Avg Block Time"%js [OnClick (go "/blocks"%js)];
    MetricCard "Deterministic Finality"%js ((v ← get_prop stats "avg_block_time_seconds"%js;
        txt (to_string (js_or v (JNum (lit 15 (-1)))) ++ "s"%js))) [] "Single-Block BFT-PoS"%js
            [OnClick (go "/learn/consensus"%js)];
    MetricCard "Network Throughput"%js (v ← get_prop stats "current_tps"%js; s
        ← (if truthy v then to_fixed v 1 else Ok "1,240.5"%js); txt s) [] "Peak TPS Capacity"%js
            [OnClick (go "/analytics"%js)];
    MetricCard "Active Validators"%js ((v ← get_prop stats "active_validators_count"%js;
        txt (to_string (js_or v (JNum (NInt 100)))))) [] "Top-100 Dynamic Set"%js
            [OnClick (go "/validators"%js)];
    MetricCard "Total Staked"%js ((total_bonded_tokens ← get_prop stats "total_bonded_tokens"%js;
        child (js_or total_bonded_tokens (JStr "420,000,000"%js)))) [] "42.0% Staking Ratio"%js
            [OnClick (go "/staking"%js)];
    MetricCard "Total Transactions"%js (total_transactions_s ← locale_prop stats
        "total_transactions"%js; txt total_transactions_s) [] "100% Success Rate"%js
            [OnClick (go "/transactions"%js)]].

Definition category_card (item : Category) : jsx Act :=
  el "div"%js [] [OnClick (go (cat_route item))] [
    jdiv [
      jdiv [jdiv []; jspan [txt (cat_stat item)]];
      el "h3"%js [] [] [txt (cat_title item)];
      jp [txt (cat_description item)]];
    jdiv [jspan [txt "Learn more"%js]]].

Definition real_world : jsx Act :=
  el "section"%js [] [] [
    jdiv [
      jdiv [
        jdiv [jspan [txt "THE EXTENSIBLE 'X' FRAMEWORK"%js]];
        el "h2"%js [] [] [txt "Built for Real-World X"%js];
        jp [
          txt "SPRX extends beyond speculative crypto into tangible economic systems—empowering payments, asset tokenization, identity, and physical infrastructure."%js]];
      el "button"%js [] [OnClick (go "/learn/real-world-x"%js)]
          [jspan [txt "Explore All X Verticals"%js]]];
    jdiv [
      jeach rwaCategories (λ item,
        category_card item)]].

Definition principles : jsx Act :=
  el "section"%js [] [] [
    jdiv [
      jspan [txt "Architecture Highlights"%js];
      el "h2"%js [] [] [txt "Engineered for Production Performance"%js];
      jp [
        txt "Six foundational pillars verified across 58 automated unit & integration tests."%js]];
    jdiv [
      jeach corePrinciples (λ item,
        jdiv [
            jdiv [];
            el "h3"%js [] [] [txt (prin_title item)];
            jp [txt (prin_description item)]])]].

Definition playground_section (playground : CodePlayground.State) : jsx Act :=
  el "section"%js [] [] [
    jdiv [
      jdiv [
        jdiv [jspan [txt "DEVELOPER WORKSPACE"%js]];
        el "h2"%js [] [] [txt "Build on SPRX in Minutes"%js];
        jp [
          txt "Write CosmWasm Rust smart contracts, query the JSON-RPC interface, or integrate the TypeScript SDK."%js]];
      el "button"%js [] [OnClick (go "/developers"%js)] [jspan [txt "Open Developer Portal"%js]]];
    Ok (map_view (λ e, Own (OnPlayground e)) <$> CodePlayground.render playground)].

Definition home_block (block : jsval) : jsx Act :=
  (height ← get_prop block "height"%js; el "div"%js [] [OnClick (Up (SelectBlock height))] [
    jdiv [
      jdiv [txt "Bk"%js];
      jdiv [
        jspan [
          txt "#"%js;
          (height_s ← locale_prop block "height"%js; txt height_s)];
        jp [
          jspan [
            (timestamp_unix_secs ← get_prop block "timestamp_unix_secs"%js;
                txt (formatTimeAgo now timestamp_unix_secs))]]]];
    jdiv [
      jspan [
        show block "txs_count"%js;
        txt " "%js;
        (txs_count ← get_prop block "txs_count"%js; if strict_eq txs_count (JNum (NInt 1))
         then txt "Tx"%js
         else txt "Txs"%js)];
      jspan [
        txt "Proposer: "%js;
        (v ← get_prop block "proposer"%js; d ← truncateAddress v 8 6; child d)]]]).

Definition home_tx (tx : jsval) : jsx Act :=
  (tx_hash ← get_prop tx "tx_hash"%js; el "div"%js [] (on_str SelectTx tx_hash) [
    jdiv [
      jdiv [txt "Tx"%js];
      jdiv [
        jspan [(v ← get_prop tx "tx_hash"%js; d ← truncateHash v 6 6; child d)];
        jp [
          txt "From: "%js;
          (v ← get_prop tx "sender"%js; d ← truncateAddress v 8 6; child d)]]];
    jdiv [jspan [show tx "amount"%js]; jspan [show tx "message_type"%js]]]).

Definition feeds (recentBlocks recentTxs : list jsval) : jsx Act :=
  jdiv [
    jdiv [
      jdiv [
        jdiv [el "h3"%js [] [] [txt "Latest Verified Blocks"%js]];
        el "button"%js [] [OnClick (go "/blocks"%js)] [jspan [txt "View all"%js]]];
      jdiv [
        jeach recentBlocks (λ block,
          home_block block)]];
    jdiv [
      jdiv [
        jdiv [el "h3"%js [] [] [txt "Latest Transactions"%js]];
        el "button"%js [] [OnClick (go "/transactions"%js)] [jspan [txt "View all"%js]]];
      jdiv [
        jeach recentTxs (λ tx,
          home_tx tx)]]].

Definition roadmap : jsx Act :=
  el "section"%js [] [] [
    jdiv [
      jspan [txt "Protocol Evolution"%js];
      el "h2"%js [] [] [txt "Roadmap & Engineering Milestones"%js];
      jp [
        txt "Deterministic execution progress derived from repository specifications."%js]];
    jdiv [
      jeach roadmapMilestones (λ m,
        jdiv [
            jdiv [jspan [txt (mile_phase m)]; jspan [txt (mile_status m)]];
            el "h3"%js [] [] [txt (mile_title m)];
            jp [txt (mile_desc m)];
            jdiv [txt (mile_period m)]])]].

Definition call_to_action : jsx Act :=
  el "section"%js [] [] [
    jdiv [
      el "h2"%js [] [] [txt "Ready to deploy your first Real-World application?"%js];
      jp [
        txt "Get testnet faucet tokens, explore WASM smart contract templates, and connect to SPRX RPC in under 5 minutes."%js]];
    jdiv [
      el "button"%js [] [OnClick (go "/developers"%js)] [jspan [txt "Start Building on SPRX"%js]];
      el "button"%js [] [OnClick (go "/faucet"%js)] [jspan [txt "Claim Free Testnet Tokens"%js]]]].

Definition HomePage (stats : jsval) (recentBlocks recentTxs : list jsval) (bar : SearchBar.State)
    (playground : CodePlayground.State) (selectedLayerId : jsstring) : jsx Act :=
  jdiv [
    hero bar;
    map_jsx Up (LiveNetworkStrip stats "mainnet"%js);
    metrics stats;
    real_world;
    Ok (map_view layer_act <$> ProtocolVisualizer.render selectedLayerId);
    principles;
    playground_section playground;
    feeds recentBlocks recentTxs;
    roadmap;
    call_to_action].

End home.
End Home.
