(* ===== verification/ExplorerLearn.v ===== *)
(** * Guides: learning, developers and the static pages

    [LearnPage], [DevelopersPortalPage], [WhitepaperPage], [AboutPage] and
    [BrandKitPage] of [apps/explorer-ui/src/pages]. *)
From S2P Require Import Prelude JsString JsNumber JsJson Async View ExplorerWidgets ExplorerApp ExplorerEvents.

(** [subpage.includes(k)] for the first key that fits. *)
Definition initial_tab (subpage : jsstring) (keys : list (jsstring * jsstring)) (otherwise : jsstring) :
    jsstring :=
  match list_find (λ k, includes subpage k.1 = true) keys with
  | Some (_, k) => k.2
  | None => otherwise
  end.

(** ** [LearnPage] *)
Module Learn.

Record Track := mkTrack {
  track_id : jsstring;
  track_title : jsstring;
  track_subtitle : jsstring;
  track_readTime : jsstring;
  track_summary : jsstring;
}.

Definition learnTracks : list Track :=
  [mkTrack "what-is-sprx"%js "What is SPRX Protocol?"%js
      "Scalable Protocol for Real-world X Explained"%js "5 min read"%js
      "Understand the core mission of SPRX: connecting cryptographic BFT consensus with tangible real-world economic utility."%js;
   mkTrack "real-world-x"%js "Real-World X Rails"%js "Payments, RWAs, Identity & DePIN"%js
      "8 min read"%js
      "Explore how SPRX processes high-volume payments, manages tokenized asset title deeds, and secures IoT sensor data."%js;
   mkTrack "tokenomics"%js "Native Tokenomics & Precision"%js "1 Billion Supply & 18 Decimals"%js
      "6 min read"%js
      "Genesis allocation breakdown, EIP-1559 base fee burning curve, staking reward mathematics, and multi-currency display."%js;
   mkTrack "consensus"%js "CometBFT & Fast Finality"%js "BFT-PoS, 1.5s Settlement & Slashing"%js
      "7 min read"%js
      "Deterministic Weighted Round-Robin proposer election, 2/3+ cryptographic voting rounds, and Byzantine defense."%js;
   mkTrack "wallets"%js "Wallets & Self-Custody"%js "Keys, Seed Phrases & Transaction Safety"%js
      "6 min read"%js
      "Master non-custodial security, BIP-39 mnemonic recovery, hardware signing, and scam prevention."%js;
   mkTrack "security"%js "Protocol Security Architecture"%js "Sandboxing, Audits & Threat Model"%js
      "9 min read"%js
      "CosmWasm memory safety, non-reentrancy call stack invariants, validator HSM key hygiene, and bug bounty rewards."%js].

Definition init (initialSubpage : jsstring) : jsstring :=
  initial_tab initialSubpage
    ((λ k, (k, k)) <$> ["what-is-sprx"%js; "real-world-x"%js; "tokenomics"%js; "consensus"%js;
        "wallets"%js;
                        "security"%js]) "hub"%js.

Definition learn_banner : html Act :=
  hdiv [
    hdiv [hspan [htxt "SPRX EDUCATION & KNOWLEDGE BASE"%js]];
    hel "h1"%js [] [] [htxt "Learn SPRX Protocol"%js];
    hp [
      htxt "Comprehensive guides explaining the mathematics, cryptographic architecture, real-world utility, and developer ecosystem of the Scalable Protocol for Real-world X."%js];
    hdiv [
      hel "button"%js [] [OnClick (Own (SetTab "hub"%js))] [htxt "Overview Hub"%js];
      heach learnTracks (λ track,
        hel "button"%js [] [OnClick (Own (SetTab (track_id track)))] [htxt (track_title track)])]].

Definition learn_hub : html Act :=
  hdiv [
    heach learnTracks (λ track,
      hel "div"%js [] [OnClick (Own (SetTab (track_id track)))] [
          hdiv [
            hdiv [hdiv []; hspan [htxt (track_readTime track)]];
            hdiv [
              hel "h3"%js [] [] [htxt (track_title track)];
              hp [htxt (track_subtitle track)]];
            hp [htxt (track_summary track)]];
          hdiv [hspan [htxt "Start Reading"%js]]])].

Definition what_is_sprx : html Act :=
  hdiv [
    hdiv [
      hspan [htxt "Core Concept Primer"%js];
      hel "h2"%js [] [] [htxt "What is SPRX (Scalable Protocol for Real-world X)?"%js];
      hp [
        htxt "A foundational Layer-1 protocol designed to bridge high-velocity cryptographic consensus with tangible economic activity."%js]];
    hdiv [
      hp [
        htxt "Most existing Layer-1 blockchain protocols were designed primarily for speculative digital asset transfers, suffering from unpredictable transaction fees, volatile execution latency, and disconnected fiat accounting."%js];
      hp [
        hel "strong"%js [] [] [htxt "SPRX"%js];
        htxt " is engineered from the ground up to solve these bottlenecks through three fundamental architectural pillars:"%js];
      hdiv [
        hdiv [
          hdiv [];
          hel "h4"%js [] [] [htxt "1.5s Deterministic Finality"%js];
          hp [
            htxt "CometBFT single-block finality eliminates probabilistic rollbacks and guarantees immediate settlement."%js]];
        hdiv [
          hdiv [];
          hel "h4"%js [] [] [htxt "Decoupled Multi-Currency"%js];
          hp [
            htxt "Consensus computes in 18-decimal atto-SPRX while wallets present real-time USD, INR, EUR, GBP, and JPY."%js]];
        hdiv [
          hdiv [];
          hel "h4"%js [] [] [htxt "Deterministic CosmWasm"%js];
          hp [
            htxt "Rust WASM actor-model smart contracts with strict gas accounting and non-reentrancy protection."%js]]];
      hel "h3"%js [] [] [htxt "How SPRX Fits into the Blockchain Landscape"%js];
      hp [
        htxt "Unlike Layer-2 rollups that depend on external Layer-1 base chains for delayed settlement, SPRX operates as a sovereign Layer-1 with its own dynamic validator set (Top 100 active nodes), decentralized staking security, and native governance state machine."%js]]].

Definition real_world_x : html Act :=
  hdiv [
    hdiv [
      hspan [htxt "Application Verticals"%js];
      hel "h2"%js [] [] [htxt "The Real-World X Rails Explained"%js];
      hp [
        htxt "Understanding the extensible categories representing real-world payments, assets, identity, and commerce."%js]];
    hdiv [
      hdiv [
        hel "h3"%js [] [] [htxt "1. Institutional Real-World Asset (RWA) Tokenization"%js];
        hp [
          htxt "SPRX provides the "%js;
          hel "strong"%js [] [] [htxt "SXS-721 Extensible Asset Standard"%js];
          htxt ", designed specifically for tokenizing tangible physical and financial assets (commercial real estate, treasury bills, private debt, and commodity certificates). SXS-721 contracts embed cryptographic hashes of legal custody deeds and support automated yield disbursement."%js]];
      hdiv [
        hel "h3"%js [] [] [htxt "2. High-Frequency Micro-Payments & Merchant Settlement"%js];
        hp [
          htxt "With a deterministic 1.5s block finality and low base gas fee (21,000 gas units per transfer), point-of-sale systems can execute merchant checkouts with instant confirmation without waiting for multi-confirmation block depth."%js]];
      hdiv [
        hel "h3"%js [] [] [htxt "3. Verifiable Digital Identity & Zero-Knowledge KYC"%js];
        hp [
          htxt "Through SXS-Identity contracts, accredited institutions and users can publish zero-knowledge cryptographic proofs of compliance (e.g. proof of jurisdiction, proof of accredited investor status) directly on-chain without revealing personal identifiable information (PII)."%js]]]].

Definition tokenomics : html Act :=
  hdiv [
    hdiv [
      hspan [htxt "Cryptocurrency Parameters"%js];
      hel "h2"%js [] [] [htxt "Native SPRX Tokenomics & Precision"%js];
      hp [
        htxt "Verified genesis supply invariant, 18-decimal precision, and fee burn mechanics."%js]];
    hdiv [
      hdiv [
        hdiv [hspan [htxt "Asset Symbol"%js]; hspan [htxt "SPRX"%js]];
        hdiv [hspan [htxt "Genesis Supply"%js]; hspan [htxt "1,000,000,000"%js]];
        hdiv [hspan [htxt "Sub-Unit Precision"%js]; hspan [htxt "18 Decimals"%js]];
        hdiv [hspan [htxt "Base Atomic Unit"%js]; hspan [htxt "atto-SPRX"%js]]];
      hel "h3"%js [] [] [htxt "Genesis Allocation Distribution"%js];
      hdiv [
        hel "table"%js [] [] [
          hel "thead"%js [] [] [
            hel "tr"%js [] [] [
              hel "th"%js [] [] [htxt "Allocation Category"%js];
              hel "th"%js [] [] [htxt "Percentage"%js];
              hel "th"%js [] [] [htxt "Amount (SPRX)"%js];
              hel "th"%js [] [] [htxt "Lockup & Vesting Schedule"%js]]];
          hel "tbody"%js [] [] [
            hel "tr"%js [] [] [
              hel "td"%js [] [] [htxt "Community Pool"%js];
              hel "td"%js [] [] [htxt "40%"%js];
              hel "td"%js [] [] [htxt "400,000,000 SPRX"%js];
              hel "td"%js [] [] [htxt "Governed by on-chain SIP voting"%js]];
            hel "tr"%js [] [] [
              hel "td"%js [] [] [htxt "Ecosystem & Grants"%js];
              hel "td"%js [] [] [htxt "25%"%js];
              hel "td"%js [] [] [htxt "250,000,000 SPRX"%js];
              hel "td"%js [] [] [htxt "4-year linear release for builder grants"%js]];
            hel "tr"%js [] [] [
              hel "td"%js [] [] [htxt "Treasury Reserve"%js];
              hel "td"%js [] [] [htxt "15%"%js];
              hel "td"%js [] [] [htxt "150,000,000 SPRX"%js];
              hel "td"%js [] [] [htxt "Multi-sig foundation emergency buffer"%js]];
            hel "tr"%js [] [] [
              hel "td"%js [] [] [htxt "Validator Incentives"%js];
              hel "td"%js [] [] [htxt "10%"%js];
              hel "td"%js [] [] [htxt "100,000,000 SPRX"%js];
              hel "td"%js [] [] [htxt "Staking rewards block emission"%js]];
            hel "tr"%js [] [] [
              hel "td"%js [] [] [htxt "Core Contributors"%js];
              hel "td"%js [] [] [htxt "10%"%js];
              hel "td"%js [] [] [htxt "100,000,000 SPRX"%js];
              hel "td"%js [] [] [htxt "1-year cliff + 36-month linear vesting"%js]]]]]]].

Definition consensus : html Act :=
  hdiv [
    hdiv [
      hspan [htxt "State-Machine Replication"%js];
      hel "h2"%js [] [] [htxt "CometBFT Byzantine Consensus & Slashing"%js];
      hp [
        htxt "Deterministic Weighted Round-Robin proposer selection and mathematical safety bounds."%js]];
    hdiv [
      hp [
        htxt "SPRX employs a Byzantine Fault Tolerant Proof-of-Stake (BFT-PoS) consensus engine adapted from CometBFT. The protocol guarantees deterministic single-block finality with zero chain splits under partial network synchrony."%js];
      hdiv [
        hel "h3"%js [] [] [htxt "Consensus Round State Transitions"%js];
        hdiv [
          htxt "NewHeight(H) -> Propose(H, R) -> Prevote(H, R) -> Precommit(H, R) -> Commit(H) -> NextHeight(H+1)"%js]];
      hdiv [
        hel "h3"%js [] [] [htxt "Anti-Equivocation & Slashing Parameters"%js];
        hel "ul"%js [] [] [
          hel "li"%js [] [] [
            hspan [
              hel "strong"%js [] [] [htxt "Double-Signing (Equivocation):"%js];
              htxt " Immediate permanent tombstoning + 5.0% bonded stake slashed."%js]];
          hel "li"%js [] [] [
            hspan [
              hel "strong"%js [] [] [htxt "Downtime (Missing > 50 of last 100 blocks):"%js];
              htxt " Temporary jailing + 0.1% bonded stake penalty."%js]];
          hel "li"%js [] [] [
            hspan [
              hel "strong"%js [] [] [htxt "Unbonding Period:"%js];
              htxt " 21 days (Mainnet) / 10 blocks (Devnet) to prevent long-range attacks."%js]]]]]].

Definition wallets : html Act :=
  hdiv [
    hdiv [
      hspan [htxt "Self-Custody & Key Hygiene"%js];
      hel "h2"%js [] [] [htxt "Wallets & Safe Transaction Signing"%js];
      hp [
        htxt "Essential rules for managing private keys, seed phrases, and hardware devices."%js]];
    hdiv [
      hdiv [
        hdiv [hspan [htxt "Golden Rules of Self-Custody"%js]];
        hel "ul"%js [] [] [
          hel "li"%js [] [] [
            htxt "Never share your 12 or 24-word BIP-39 mnemonic seed phrase with anyone."%js];
          hel "li"%js [] [] [
            htxt "SPRX core contributors and admins will NEVER ask for your private key."%js];
          hel "li"%js [] [] [
            htxt "Store your recovery phrase on physical paper or stamped metal in a secure location."%js];
          hel "li"%js [] [] [
            htxt "Always verify the destination address and fee before confirming any signature."%js]]];
      hel "h3"%js [] [] [htxt "BIP-44 HD Wallet Derivation Path for SPRX"%js];
      hdiv [htxt "m / 44' / 999' / 0' / 0 / 0"%js];
      hp [
        htxt "Coin type "%js;
        hel "code"%js [] [] [htxt "999'"%js];
        htxt " derives standard 20-byte Bech32 addresses with the "%js;
        hel "code"%js [] [] [htxt "sprax"%js];
        htxt " human-readable prefix (e.g. "%js;
        hel "code"%js [] [] [htxt "sprax1..."%js];
        htxt ")."%js]]].

Definition security : html Act :=
  hdiv [
    hdiv [
      hspan [htxt "Threat Matrix & Defense"%js];
      hel "h2"%js [] [] [htxt "Protocol Security & Threat Mitigations"%js];
      hp [
        htxt "Defense-in-depth architecture across smart contracts, consensus, P2P network, and validator sentries."%js]];
    hdiv [
      hdiv [
        hdiv [
          hel "h4"%js [] [] [hspan [htxt "WASM Sandboxed State Isolation"%js]];
          hp [
            htxt "Smart contracts execute in isolated memory segments with exact step-wise gas limits, preventing denial-of-service memory exhaustion."%js]];
        hdiv [
          hel "h4"%js [] [] [hspan [htxt "Validator Sentry Architecture"%js]];
          hp [
            htxt "Core consensus nodes are isolated behind public sentry nodes, mitigating direct Internet DDoS attack surfaces."%js]]];
      hdiv [
        hdiv [
          hel "h4"%js [] [] [htxt "Security Bug Bounty Program"%js];
          hp [htxt "Responsible disclosure rewards for whitehat researchers."%js]];
        hwhen true
          (hel "button"%js [] [OnClick (go "/security/bug-bounty"%js)] [htxt "View Bug Bounty"%js])]]].

Definition LearnPage (activeTab : jsstring) : html Act :=
  hdiv [
    learn_banner;
    hwhen (bool_decide (activeTab = "hub"%js))
      (learn_hub);
    hwhen (bool_decide (activeTab = "what-is-sprx"%js))
      (what_is_sprx);
    hwhen (bool_decide (activeTab = "real-world-x"%js))
      (real_world_x);
    hwhen (bool_decide (activeTab = "tokenomics"%js))
      (tokenomics);
    hwhen (bool_decide (activeTab = "consensus"%js))
      (consensus);
    hwhen (bool_decide (activeTab = "wallets"%js))
      (wallets);
    hwhen (bool_decide (activeTab = "security"%js))
      (security)].

End Learn.

(** ** [DevelopersPortalPage] *)
Module Portal.

Record RpcMethod := mkRpcMethod {
  rpc_method : jsstring;
  rpc_category : jsstring;
  rpc_description : jsstring;
  rpc_sampleParams : jsstring;
  rpc_sampleResult : jsval;
}.

Definition rpcMethods : list RpcMethod :=
  [mkRpcMethod "sprax_getStatus"%js "Chain & Consensus"%js
      "Returns active chain ID, latest block height, state root, and validator counts."%js "[]"%js
      (JObj [("chainId"%js, JStr "sprax-mainnet-1"%js); ("latestBlockHeight"%js, JNum (NInt 8245920));
          ("latestBlockHash"%js,
              JStr "0x7f8a9b2c3d4e5f60718293a4b5c6d7e8f901a2b3c4d5e6f708192a3b4c5d6e70"%js);
                  ("stateRoot"%js, JStr
                      "0xabcdef0123456789abcdef0123456789abcdef0123456789abcdef0123456789"%js);
                          ("connectedPeers"%js, JNum (NInt 48)); ("validatorCount"%js, JNum (NInt 100));
                              ("syncStatus"%js, JStr "synced"%js);
                                  ("mempoolPending"%js, JNum (NInt 12))]);
   mkRpcMethod "sprax_getBlock"%js "Block Ledger"%js
      "Fetches block header, state root commitments, and transactions list by height or hash."%js
      ("["%js ++ [34%N] ++ "latest"%js ++ [34%N] ++ "]"%js)
      (JObj [("hash"%js, JStr "0x7f8a9b2c3d4e5f60718293a4b5c6d7e8f901a2b3c4d5e6f708192a3b4c5d6e70"%js);
          ("header"%js, JObj [("height"%js, JNum (NInt 8245920));
              ("timestampUnixSecs"%js, JNum (NInt 1774000000));
                  ("proposer"%js, JStr "spraxvaloper1q8x9y7w6e5r4t3y2u1i0o9p8a7s6d5f4g3h2j1"%js);
                      ("txsCount"%js, JNum (NInt 14)); ("gasUsed"%js, JNum (NInt 145000))])]);
   mkRpcMethod "sprax_getAccount"%js "State Query"%js
      "Retrieves 18-decimal balance in atto-SPRX and account sequence nonce."%js
      ("["%js ++ [34%N] ++ "sprax1sdtpz05x2r7d70u428v2ff3rtyj49z65a380gr"%js ++ [34%N] ++ "]"%js)
      (JObj [("address"%js, JStr "sprax1sdtpz05x2r7d70u428v2ff3rtyj49z65a380gr"%js);
          ("balance"%js, JStr "154250000000000000000000"%js); ("balanceSprx"%js, JStr "154250.00"%js);
              ("nonce"%js, JNum (NInt 42))]);
   mkRpcMethod "sprax_estimateFee"%js "Execution"%js
      "Estimates base gas fee and recommended gas limit for a proposed transaction payload."%js
      "[]"%js
      (JObj [("fee"%js, JStr "500000000000000"%js); ("feeSprx"%js, JStr "0.0005"%js);
          ("gasLimit"%js, JNum (NInt 200000))]);
   mkRpcMethod "sprax_getValidators"%js "Staking"%js
      "Returns active validator set with voting power and consensus public keys."%js "[]"%js
      (JArr [JObj [("address"%js, JStr "spraxvaloper1q8x9y7w6e5r4t3y2u1i0o9p8a7s6d5f4g3h2j1"%js);
          ("votingPower"%js, JNum (NInt 3500000)); ("moniker"%js, JStr "SPRX Core Genesis Alpha"%js)];
              JObj [("address"%js, JStr "spraxvaloper1a2s3d4f5g6h7j8k9l0z1x2c3v4b5n6m7q8w9e0"%js);
                  ("votingPower"%js, JNum (NInt 2800000));
                      ("moniker"%js, JStr "Global Real-World X Node"%js)]])].

(** The hooks, the method each running call was made for, and the hooks of the
    [CodePlayground] of the overview. *)
Record Developers := mkDevelopers {
  dev_tab : jsstring;
  selectedMethod : jsstring;
  rpcParamInput : jsstring;
  rpcResponse : option jsstring;
  isExecutingRpc : bool;
  rpcTimers : list jsstring;
  dev_playground : CodePlayground.State;
}.
Definition set_dev_tab (x : jsstring) (st : Developers) : Developers :=
  mkDevelopers x (selectedMethod st) (rpcParamInput st) (rpcResponse st) (isExecutingRpc st)
    (rpcTimers st) (dev_playground st).
Definition set_selectedMethod (x : jsstring) (st : Developers) : Developers :=
  mkDevelopers (dev_tab st) x (rpcParamInput st) (rpcResponse st) (isExecutingRpc st)
    (rpcTimers st) (dev_playground st).
Definition set_rpcParamInput (x : jsstring) (st : Developers) : Developers :=
  mkDevelopers (dev_tab st) (selectedMethod st) x (rpcResponse st) (isExecutingRpc st)
    (rpcTimers st) (dev_playground st).
Definition set_rpcResponse (x : option jsstring) (st : Developers) : Developers :=
  mkDevelopers (dev_tab st) (selectedMethod st) (rpcParamInput st) x (isExecutingRpc st)
    (rpcTimers st) (dev_playground st).
Definition set_isExecutingRpc (x : bool) (st : Developers) : Developers :=
  mkDevelopers (dev_tab st) (selectedMethod st) (rpcParamInput st) (rpcResponse st) x
    (rpcTimers st) (dev_playground st).
Definition set_rpcTimers (x : list jsstring) (st : Developers) : Developers :=
  mkDevelopers (dev_tab st) (selectedMethod st) (rpcParamInput st) (rpcResponse st)
    (isExecutingRpc st) x (dev_playground st).
Definition set_dev_playground (x : CodePlayground.State) (st : Developers) : Developers :=
  mkDevelopers (dev_tab st) (selectedMethod st) (rpcParamInput st) (rpcResponse st)
    (isExecutingRpc st) (rpcTimers st) x.

Definition init (initialTab : jsstring) : Developers :=
  mkDevelopers
    (initial_tab initialTab
       ((λ k, (k, k)) <$> ["rpc"%js; "smart-contracts"%js; "nodes"%js; "standards"%js]) "overview"%js)
    "sprax_getStatus"%js "[]"%js None false [] CodePlayground.init.

Definition find_method (m : jsstring) : option RpcMethod :=
  snd <$> list_find (λ x, rpc_method x = m) rpcMethods.

(** The text of the answer to a call of [m]. *)
Definition rpc_answer (m : jsstring) : jsstring :=
  json_pretty 2 (JObj [("jsonrpc"%js, JStr "2.0"%js); ("id"%js, JNum (NInt 1));
    ("result"%js, js_or (from_option rpc_sampleResult JUndef (find_method m)) (JObj []))]).

Definition handleSelectMethod (m : jsstring) (st : Developers) : Developers :=
  let st' := set_selectedMethod m st in
  match find_method m with
  | Some item => set_rpcResponse None (set_rpcParamInput (rpc_sampleParams item) st')
  | None => st'
  end.

Definition handleRunRpc (st : Developers) : Developers :=
  set_rpcTimers (rpcTimers st ++ [selectedMethod st]) (set_isExecutingRpc true st).

(** The timer of [handleRunRpc], which was made for the method selected then. *)
Definition rpcTimeout (i : nat) (st : Developers) : Developers :=
  match rpcTimers st !! i with
  | None => st
  | Some m =>
      set_rpcTimers (remove_at i (rpcTimers st))
        (set_isExecutingRpc false (set_rpcResponse (Some (rpc_answer m)) st))
  end.

(** The playground is mounted again with the overview. *)
Definition set_tab (tab : jsstring) (st : Developers) : Developers :=
  let keep := bool_decide (dev_tab st = "overview"%js) && bool_decide (tab = "overview"%js) in
  set_dev_playground (if keep then dev_playground st else CodePlayground.init) (set_dev_tab tab st).

Definition handle (e : PageEvent) (st : Developers) : Developers :=
  match e with
  | SetTab tab => set_tab tab st
  | SelectMethod m => handleSelectMethod m st
  | SetRpcParamInput s => set_rpcParamInput s st
  | RunRpc => handleRunRpc st
  | OnPlayground e => set_dev_playground (CodePlayground.handle e (dev_playground st)) st
  | _ => st
  end.

Definition dev_banner : html Act :=
  hdiv [
    hdiv [hspan [htxt "DEVELOPER COMMAND CENTER"%js]];
    hel "h1"%js [] [] [htxt "Build on SPRX Protocol"%js];
    hp [
      htxt "Access high-performance JSON-RPC & REST endpoints, compile Rust CosmWasm smart contracts, integrate the TypeScript SDK, and run sovereign validator nodes."%js];
    hdiv [
      hel "button"%js [] [OnClick (Own (SetTab "overview"%js))] [htxt "Developer Overview"%js];
      hel "button"%js [] [OnClick (Own (SetTab "rpc"%js))] [htxt "JSON-RPC & REST Playground"%js];
      hel "button"%js [] [OnClick (Own (SetTab "smart-contracts"%js))]
          [htxt "CosmWasm Smart Contracts"%js];
      hel "button"%js [] [OnClick (Own (SetTab "nodes"%js))] [htxt "Run a Node & Sentry"%js];
      hel "button"%js [] [OnClick (Own (SetTab "standards"%js))] [htxt "SXS Protocol Standards"%js];
      hel "button"%js [] [OnClick (go "/faucet"%js)] [hspan [htxt "Testnet Faucet"%js]]]].

Definition dev_overview (st : Developers) : html Act :=
  hdiv [
    map_view (λ e, Own (OnPlayground e)) <$> CodePlayground.render (dev_playground st);
    hdiv [
      hel "div"%js [] [OnClick (Own (SetTab "rpc"%js))] [
        hdiv [];
        hel "h3"%js [] [] [htxt "Interactive API Playground"%js];
        hp [
          htxt "Test JSON-RPC methods like "%js;
          hel "code"%js [] [] [htxt "sprax_getStatus"%js];
          htxt " and "%js;
          hel "code"%js [] [] [htxt "sprax_broadcastTx"%js];
          htxt " in real-time."%js]];
      hel "div"%js [] [OnClick (Own (SetTab "smart-contracts"%js))] [
        hdiv [];
        hel "h3"%js [] [] [htxt "CosmWasm Rust Contracts"%js];
        hp [
          htxt "Build CW20 fungible tokens and multi-party escrow contracts with native compile-time memory safety."%js]];
      hel "div"%js [] [OnClick (Own (SetTab "nodes"%js))] [
        hdiv [];
        hel "h3"%js [] [] [htxt "Node Operations & CLI"%js];
        hp [
          htxt "Deploy full RPC nodes and isolated validator sentries using the official "%js;
          hel "code"%js [] [] [htxt "sprax"%js];
          htxt " CLI binary."%js]]]].

Definition rpc_playground (st : Developers) : html Act :=
  hdiv [
    hdiv [
      hel "h3"%js [] [] [htxt "JSON-RPC 2.0 Methods"%js];
      hdiv [
        heach rpcMethods (λ m,
          hel "div"%js [] [OnClick (Own (SelectMethod (rpc_method m)))] [hdiv [htxt (rpc_method m)];
              hdiv [htxt (rpc_category m)]])]];
    hdiv [
      hdiv [
        hdiv [
          hdiv [
            hel "h3"%js [] [] [htxt (selectedMethod st)];
            hp [
              htxt (from_option rpc_description [] (find_method (selectedMethod st)))]];
          hel "button"%js (disabled_attr (isExecutingRpc st)) [OnClick (Own RunRpc)] [
            hspan [
              (if isExecutingRpc st
               then htxt "Calling..."%js
               else htxt "Execute Call"%js)]]];
        hdiv [
          hel "label"%js [] [] [htxt "Parameters JSON Array:"%js];
          hel "input"%js [("type"%js, "text"%js); ("value"%js, rpcParamInput st)]
              [OnChange (λ s, Own (SetRpcParamInput s))] []];
        hdiv [
          hel "label"%js [] [] [htxt "JSON-RPC 2.0 Response:"%js];
          hdiv [
            hel "pre"%js [] [] [
              htxt (match rpcResponse st with Some ((_ :: _) as r)
                  => r | _ => rpc_answer (selectedMethod st) end)]]]]]].

Definition contracts_guide : html Act :=
  hdiv [
    hdiv [
      hspan [htxt "Smart Contract Architecture"%js];
      hel "h2"%js [] [] [htxt "CosmWasm Rust Smart Contracts (sprax-wasm)"%js];
      hp [
        htxt "Write, compile, and deploy deterministic WASM smart contracts using the CosmWasm actor model."%js]];
    hdiv [
      hel "h3"%js [] [] [htxt "1. Compilation Target"%js];
      hp [
        htxt "SPRX smart contracts compile to the standalone "%js;
        hel "code"%js [] [] [htxt "wasm32-unknown-unknown"%js];
        htxt " target:"%js];
      hdiv [htxt "cargo build --target wasm32-unknown-unknown --release"%js];
      hel "h3"%js [] [] [htxt "2. Contract Entry Points"%js];
      hel "ul"%js [] [] [
        hel "li"%js [] [] [
          hspan [
            hel "code"%js [] [] [htxt "instantiate()"%js];
            htxt ": Initializes contract state and assigns administrative parameters."%js]];
        hel "li"%js [] [] [
          hspan [
            hel "code"%js [] [] [htxt "execute()"%js];
            htxt ": State mutating actions (Transfers, Escrow Releases, Minting)."%js]];
        hel "li"%js [] [] [
          hspan [
            hel "code"%js [] [] [htxt "query()"%js];
            htxt ": Read-only gas-metered state inspection."%js]]]]].

Definition nodes_guide : html Act :=
  hdiv [
    hdiv [
      hspan [htxt "Node Infrastructure"%js];
      hel "h2"%js [] [] [htxt "Running a Sovereign SPRX Node"%js];
      hp [
        htxt "Hardware requirements, CLI initialization, and P2P gossip seed connection."%js]];
    hdiv [
      hel "h3"%js [] [] [htxt "CLI Node Commands"%js];
      hdiv [
        hp [htxt "# 1. Initialize node configuration"%js];
        hp [
          htxt ("sprax node init --chain-id sprax-testnet-1 --moniker "%js ++ [34%N]
              ++ "MyValidatorNode"%js ++ [34%N])];
        hp [htxt "# 2. Start node connected to testnet seed"%js];
        hp [
          htxt ("sprax node start --p2p.seeds "%js ++ [34%N]
              ++ "tcp://seed.testnet.sprax.network:26656"%js ++ [34%N])]]]].

Definition standards_guide : html Act :=
  hdiv [
    hdiv [
      hspan [htxt "Protocol Specifications"%js];
      hel "h2"%js [] [] [htxt "SXS — SPRX eXtensible Standards"%js];
      hp [
        htxt "Official smart contract interfaces for tokens, real-world assets, and escrow settlements."%js]];
    hdiv [
      hdiv [
        hspan [htxt "SXS-20"%js];
        hel "h3"%js [] [] [htxt "Fungible Token Standard"%js];
        hp [
          htxt "Standard token interface implementing Transfer, TransferFrom, Approve, Allowance, and Mint."%js]];
      hdiv [
        hspan [htxt "SXS-721"%js];
        hel "h3"%js [] [] [htxt "Real-World Asset NFT"%js];
        hp [
          htxt "Asset standard binding on-chain cryptographic state with real-world legal custody certificates."%js]]]].

Definition DevelopersPortalPage (st : Developers) : html Act :=
  hdiv [
    dev_banner;
    hwhen (bool_decide (dev_tab st = "overview"%js))
      (dev_overview st);
    hwhen (bool_decide (dev_tab st = "rpc"%js))
      (rpc_playground st);
    hwhen (bool_decide (dev_tab st = "smart-contracts"%js))
      (contracts_guide);
    hwhen (bool_decide (dev_tab st = "nodes"%js))
      (nodes_guide);
    hwhen (bool_decide (dev_tab st = "standards"%js))
      (standards_guide)].

End Portal.

(** ** Static pages *)

Definition WhitepaperPage : html Act :=
  hdiv [
    hwhen true
      (hel "button"%js [] [OnClick (go "/"%js)] [hspan [htxt "Back"%js]]);
    hdiv [
      hspan [htxt "Technical Specification v1.0.0-FINAL"%js];
      hel "h1"%js [] [] [htxt "SPRX Protocol Master Architecture Whitepaper"%js];
      hp [
        htxt "Scalable Protocol for Real-world X: A High-Throughput Byzantine Fault Tolerant Layer-1 with Deterministic WebAssembly Execution and Decoupled Multi-Currency Display."%js]];
    hdiv [
      hel "section"%js [] [] [
        hel "h2"%js [] [] [htxt "1. Executive Summary"%js];
        hp [
          htxt "SPRX is engineered as an enterprise-grade sovereign Layer-1 blockchain platform coupling Byzantine Fault Tolerant Proof-of-Stake (CometBFT) consensus with an isolated WebAssembly smart contract virtual machine (sprax-wasm) and a dual-tier storage engine (Redb)."%js]];
      hel "section"%js [] [] [
        hel "h2"%js [] [] [htxt "2. Consensus & Mathematical Safety"%js];
        hp [
          htxt "The protocol operates under a 2/3+ voting round state machine (Prevote, Precommit) with Deterministic Weighted Round-Robin (DWRR) proposer rotation. Byzantine equivocation incurs immediate permanent tombstoning and 5% stake slashing."%js];
        hdiv [
          htxt "Voting Power Formula: VP(i) = floor(Stake(i) / 10^18 atto-SPRX)"%js]];
      hel "section"%js [] [] [
        hel "h2"%js [] [] [htxt "3. Native Asset & Tokenomics"%js];
        hp [
          htxt "The native cryptocurrency is "%js;
          hel "strong"%js [] [] [htxt "SPRX"%js];
          htxt " with an immutable genesis total supply of "%js;
          hel "strong"%js [] [] [htxt "1,000,000,000.00 SPRX"%js];
          htxt " ($10^"%js;
          htxt "27"%js;
          htxt "$ atto-SPRX). Base gas fees are burned dynamically per block according to EIP-1559 formulas."%js]];
      hel "section"%js [] [] [
        hel "h2"%js [] [] [htxt "4. Real-World X Extensibility"%js];
        hp [
          htxt "Through SXS-721 and SXS-Identity, tangible assets (invoices, real estate, energy telemetry) are bound cryptographically to on-chain state, allowing automated dividend distribution and instantaneous settlement."%js]]]].

Definition AboutPage : html Act :=
  hdiv [
    hdiv [
      hspan [htxt "About SPRX"%js];
      hel "h1"%js [] [] [htxt "Scalable Protocol for Real-world X"%js];
      hp [
        htxt "SPRX is built by an open collective of cryptographers, distributed systems engineers, and Web3 frontend architects dedicated to making blockchain infrastructure practical for real-world economic activity."%js]];
    hdiv [
      hel "h2"%js [] [] [htxt "Our Core Mission"%js];
      hp [
        htxt "We believe blockchain technology achieves its true potential when it seamlessly connects with real-world payments, tangible asset ownership, verifiable identity, and physical infrastructure."%js];
      hdiv [
        htxt "All core crates in the SPRX Protocol are open-source under Apache-2.0 / MIT licenses."%js]]].

Definition BrandKitPage : html Act :=
  hdiv [
    hdiv [
      hspan [htxt "Media Assets & Brand Kit"%js];
      hel "h1"%js [] [] [htxt "SPRX Visual Identity"%js];
      hp [
        htxt "Official logos, color tokens, and typography guidelines for SPRX (Scalable Protocol for Real-world X)."%js]];
    hdiv [
      hdiv [
        hdiv [hspan [htxt "X"%js]; hspan []];
        hdiv [
          hel "h3"%js [] [] [htxt "SPRX Protocol Mark"%js];
          hp [htxt "SVG Vector & PNG Format"%js]]];
      hdiv [
        hel "h3"%js [] [] [htxt "Brand Color Tokens"%js];
        hdiv [
          hdiv [hspan [htxt "Obsidian Void"%js]; hspan [htxt "#080A0F"%js]];
          hdiv [hspan [htxt "Hyper Cyan (Primary)"%js]; hspan [htxt "#00F2FE"%js]];
          hdiv [hspan [htxt "Signal Emerald"%js]; hspan [htxt "#10B981"%js]]]]]].

