(* ===== verification/ExplorerHubs.v ===== *)
(** * Governance, ecosystem, research and analytics

    [GovernancePage], [EcosystemPage], [ResearchPage] and [AnalyticsPage] of
    [apps/explorer-ui/src/pages]. *)
From S2P Require Import Prelude JsString JsNumber JsJson Formatters View Render ExplorerParts ExplorerWidgets.
From S2P Require Import ExplorerApp ExplorerEvents ExplorerLearn.
Import Formatters Parts.
Import ExplorerApp(Event(..)).

(** [filter === "All" || v.k === filter] *)
Definition selects (filter : jsstring) (v : jsval) (k : jsstring) : outcome bool :=
  if bool_decide (filter = "All"%js) then Ok true
  else x ← get_prop v k; Ok (strict_eq x (JStr filter)).

Definition both (a b : outcome bool) : outcome bool := x ← a; y ← b; Ok (x && y).

(** ** [GovernancePage] *)
Module Governance.

Record State := mkState {
  activeTab : jsstring;
  proposals : list jsval;
  sips : list jsval;
  selectedSip : jsval;
  sipFilterCategory : jsstring;
  sipFilterStatus : jsstring;
  votedProposals : list (jsstring * jsval);
}.
Definition set_activeTab (x : jsstring) (st : State) : State :=
  mkState x (proposals st) (sips st) (selectedSip st) (sipFilterCategory st)
    (sipFilterStatus st) (votedProposals st).
Definition set_proposals (x : list jsval) (st : State) : State :=
  mkState (activeTab st) x (sips st) (selectedSip st) (sipFilterCategory st)
    (sipFilterStatus st) (votedProposals st).
Definition set_sips (x : list jsval) (st : State) : State :=
  mkState (activeTab st) (proposals st) x (selectedSip st) (sipFilterCategory st)
    (sipFilterStatus st) (votedProposals st).
Definition set_selectedSip (x : jsval) (st : State) : State :=
  mkState (activeTab st) (proposals st) (sips st) x (sipFilterCategory st)
    (sipFilterStatus st) (votedProposals st).
Definition set_sipFilterCategory (x : jsstring) (st : State) : State :=
  mkState (activeTab st) (proposals st) (sips st) (selectedSip st) x (sipFilterStatus st)
    (votedProposals st).
Definition set_sipFilterStatus (x : jsstring) (st : State) : State :=
  mkState (activeTab st) (proposals st) (sips st) (selectedSip st) (sipFilterCategory st) x
    (votedProposals st).
Definition set_votedProposals (x : list (jsstring * jsval)) (st : State) : State :=
  mkState (activeTab st) (proposals st) (sips st) (selectedSip st) (sipFilterCategory st)
    (sipFilterStatus st) x.

Definition init (initialTab : jsstring) : State :=
  mkState (initial_tab initialTab ((λ k, (k, k)) <$> ["sips"%js; "grants"%js; "bug-bounty"%js])
      "voting"%js)
    [] [] JNull "All"%js "All"%js [].

(** The result of the queries of the first render. *)
Definition loaded (govList sipList : list jsval) (st : State) : State :=
  set_sips sipList (set_proposals govList st).

(** [{ ...prev, [proposalId]: option }] *)
Definition handleVote (proposalId : jsval) (option : jsstring) (st : State) : State :=
  set_votedProposals (obj_set (votedProposals st) (to_string proposalId) (JStr option)) st.

Definition sip_matches (category status : jsstring) (s : jsval) : outcome bool :=
  both (selects category s "category"%js) (selects status s "status"%js).

Definition handle (e : PageEvent) (st : State) : State :=
  match e with
  | SetTab tab => set_activeTab tab st
  | Vote id option => handleVote id option st
  | SetSipFilterCategory s => set_sipFilterCategory s st
  | SetSipFilterStatus s => set_sipFilterStatus s st
  | SetSelectedSip sip => set_selectedSip sip st
  | _ => st
  end.

Definition gov_banner : jsx Act :=
  jdiv [
    jdiv [
      jdiv [jspan [txt "ON-CHAIN GOVERNANCE & PROTOCOL STANDARDS"%js]];
      el "h1"%js [] [] [txt "Governance & Improvement Proposals"%js];
      jp [
        txt "Vote on parameter updates, review SPRX Improvement Proposals (SIPs), and participate in ecosystem foundation grants."%js]];
    jdiv [
      el "button"%js [] [OnClick (Own (SetTab "voting"%js))] [txt "Voting Proposals"%js];
      el "button"%js [] [OnClick (Own (SetTab "sips"%js))] [txt "SIP Proposals Registry"%js];
      el "button"%js [] [OnClick (Own (SetTab "grants"%js))] [txt "Foundation Grants"%js];
      el "button"%js [] [OnClick (Own (SetTab "bug-bounty"%js))] [txt "Bug Bounty Program"%js]]].

Definition proposal_card (votedProposals : list (jsstring * jsval)) (prop : jsval) : jsx Act :=
  id ← get_prop prop "id"%js;
  let userVote := obj_get votedProposals (to_string id) in
  jdiv [
    jdiv [
      jdiv [
        jspan [txt "#"%js; show prop "id"%js];
        el "h3"%js [] [] [show prop "title"%js]];
      jspan [show prop "status"%js]];
    jp [show prop "description"%js];
    jdiv [
      jdiv [
        jspan [
          txt "Yes: "%js;
          (votes ← get_prop prop "votes"%js; show votes "yes"%js);
          txt "%"%js];
        jspan [
          txt "No: "%js;
          (votes ← get_prop prop "votes"%js; show votes "no"%js);
          txt "%"%js];
        jspan [
          txt "Veto: "%js;
          (votes ← get_prop prop "votes"%js; show votes "noWithVeto"%js);
          txt "%"%js];
        jspan [
          txt "Abstain: "%js;
          (votes ← get_prop prop "votes"%js; show votes "abstain"%js);
          txt "%"%js]];
      jdiv [jdiv []; jdiv []; jdiv []; jdiv []]];
    jdiv [
      jdiv [txt "Voting Closes: "%js; jspan [show prop "votingEndTime"%js]];
      (if truthy userVote
       then jdiv [jspan [txt "You voted: "%js; child userVote]]
       else jdiv [
          el "button"%js [] [OnClick (Own (Vote id "Yes"%js))] [txt "Vote Yes"%js];
          el "button"%js [] [OnClick (Own (Vote id "No"%js))] [txt "Vote No"%js];
          el "button"%js [] [OnClick (Own (Vote id "NoWithVeto"%js))] [txt "No With Veto"%js];
          el "button"%js [] [OnClick (Own (Vote id "Abstain"%js))] [txt "Abstain"%js]])]].

Definition sip_filters : jsx Act :=
  jdiv [
    jdiv [
      jspan [txt "Category:"%js];
      jeach (["All"%js; "Consensus"%js; "Execution"%js; "Standards"%js; "Core"%js]) (λ cat,
        el "button"%js [] [OnClick (Own (SetSipFilterCategory cat))] [txt cat])];
    jdiv [
      jspan [txt "Status:"%js];
      jeach (["All"%js; "Final"%js; "Accepted"%js; "Review"%js; "Draft"%js]) (λ st,
        el "button"%js [] [OnClick (Own (SetSipFilterStatus st))] [txt st])]].

Definition sip_card (sip : jsval) : jsx Act :=
  el "div"%js [] [OnClick (Own (SetSelectedSip sip))] [
    jdiv [
      jdiv [jspan [show sip "sipNumber"%js]; jspan [show sip "category"%js]];
      jspan [show sip "status"%js]];
    el "h3"%js [] [] [show sip "title"%js];
    jp [show sip "summary"%js];
    jdiv [
      jspan [txt "Author: "%js; show sip "author"%js];
      jspan [jspan [txt "Inspect Specification"%js]]]].

Definition grants : jsx Act :=
  jdiv [
    jdiv [
      jspan [txt "Ecosystem Funding"%js];
      el "h2"%js [] [] [txt "SPRX Ecosystem Foundation Grants"%js];
      jp [
        txt "Non-dilutive capital and technical mentorship for developers building open-source tooling, SDKs, and real-world dApps."%js]];
    jdiv [
      jdiv [
        jspan [txt "Tier 1: Ignition"%js];
        jdiv [txt "$5K – $15K"%js];
        jp [
          txt "For prototypes, developer libraries, and documentation tutorials."%js]];
      jdiv [
        jspan [txt "Tier 2: Growth"%js];
        jdiv [txt "$20K – $50K"%js];
        jp [
          txt "For deployed testnet dApps, security audits, and indexer integrations."%js]];
      jdiv [
        jspan [txt "Tier 3: Strategic"%js];
        jdiv [txt "$75K – $250K"%js];
        jp [
          txt "For core infrastructure, RWA tokenization pilots, and institutional rails."%js]]]].

Definition bug_bounty : jsx Act :=
  jdiv [
    jdiv [
      jspan [txt "Responsible Disclosure"%js];
      el "h2"%js [] [] [txt "Security Bug Bounty Program"%js];
      jp [
        txt "Rewards for identifying consensus, cryptographic, or smart contract execution vulnerabilities."%js]];
    jdiv [
      jp [
        txt "Submissions can be sent directly to "%js;
        el "code"%js [] [] [txt "security@sprax.network"%js];
        txt " using our official PGP key."%js];
      jdiv [
        jdiv [
          jspan [txt "Critical Severity"%js];
          jspan [txt "Up to 50,000 SPRX"%js];
          jp [
            txt "Consensus halting, state corruption, or RCE vulnerabilities."%js]];
        jdiv [
          jspan [txt "High Severity"%js];
          jspan [txt "Up to 15,000 SPRX"%js];
          jp [
            txt "Validator jailing bypass or smart contract state tampering."%js]]]]].

Definition sip_modal (selectedSip : jsval) : jsx Act :=
  jdiv [
    jdiv [
      el "button"%js [] [OnClick (Own (SetSelectedSip JNull))] [txt "✕"%js];
      jdiv [
        jspan [
          show selectedSip "sipNumber"%js;
          txt " • "%js;
          show selectedSip "category"%js];
        el "h2"%js [] [] [show selectedSip "title"%js];
        jp [
          txt "Author: "%js;
          show selectedSip "author"%js;
          txt " | Created: "%js;
          show selectedSip "createdDate"%js]];
      jdiv [
        jdiv [
          el "h4"%js [] [] [txt "Summary:"%js];
          jp [show selectedSip "summary"%js]];
        jdiv [
          el "h4"%js [] [] [txt "Motivation:"%js];
          jp [show selectedSip "motivation"%js]];
        jdiv [
          el "h4"%js [] [] [txt "Specification:"%js];
          jp [show selectedSip "specification"%js]];
        jdiv [
          el "h4"%js [] [] [txt "Rationale:"%js];
          jp [show selectedSip "rationale"%js]]]]].

Definition GovernancePage (activeTab : jsstring) (proposals filteredSips : list jsval) (votedProposals
    : list (jsstring * jsval)) (selectedSip : jsval) : jsx Act :=
  jdiv [
    gov_banner;
    jwhen (bool_decide (activeTab = "voting"%js))
      (jdiv [
         jdiv [
           jeach proposals (λ prop,
             proposal_card votedProposals prop)]]);
    jwhen (bool_decide (activeTab = "sips"%js))
      (jdiv [
         sip_filters;
         jdiv [
           jeach filteredSips (λ sip,
             sip_card sip)]]);
    jwhen (bool_decide (activeTab = "grants"%js))
      (grants);
    jwhen (bool_decide (activeTab = "bug-bounty"%js))
      (bug_bounty);
    jwhen (truthy selectedSip)
      (sip_modal selectedSip)].

Definition render (st : State) : jsx Act :=
  filteredSips ← keep (sip_matches (sipFilterCategory st) (sipFilterStatus st)) (sips st);
  GovernancePage (activeTab st) (proposals st) filteredSips (votedProposals st) (selectedSip st).
End Governance.

(** ** [EcosystemPage] *)
Module Ecosystem.

Record State := mkState {
  activeTab : jsstring;
  projects : list jsval;
  marketAssets : list jsval;
  searchQuery : jsstring;
  selectedCategory : jsstring;
  submitModalOpen : bool;
}.
Definition set_activeTab (x : jsstring) (st : State) : State :=
  mkState x (projects st) (marketAssets st) (searchQuery st) (selectedCategory st)
    (submitModalOpen st).
Definition set_projects (x : list jsval) (st : State) : State :=
  mkState (activeTab st) x (marketAssets st) (searchQuery st) (selectedCategory st)
    (submitModalOpen st).
Definition set_marketAssets (x : list jsval) (st : State) : State :=
  mkState (activeTab st) (projects st) x (searchQuery st) (selectedCategory st)
    (submitModalOpen st).
Definition set_searchQuery (x : jsstring) (st : State) : State :=
  mkState (activeTab st) (projects st) (marketAssets st) x (selectedCategory st)
    (submitModalOpen st).
Definition set_selectedCategory (x : jsstring) (st : State) : State :=
  mkState (activeTab st) (projects st) (marketAssets st) (searchQuery st) x
    (submitModalOpen st).
Definition set_submitModalOpen (x : bool) (st : State) : State :=
  mkState (activeTab st) (projects st) (marketAssets st) (searchQuery st)
    (selectedCategory st) x.

Definition init (initialTab : jsstring) : State :=
  mkState (initial_tab initialTab ((λ k, (k, k)) <$> ["discover"%js; "markets"%js]) "directory"%js)
    [] [] [] "All"%js false.

Definition loaded (projList assetList : list jsval) (st : State) : State :=
  set_marketAssets assetList (set_projects projList st).

Definition project_categories : list jsstring :=
  ["All"%js; "DeFi"%js; "RWA & Payments"%js; "Wallets"%js; "Infrastructure"%js; "Enterprise"%js;
      "Gaming & Identity"%js].

Section ecosystem.
Context `{UnicodeCase}.

(** [p.k.toLowerCase().includes(searchQuery.toLowerCase())] for the first key that
    has it. *)
Fixpoint mentions (searchQuery : jsstring) (p : jsval) (keys : list jsstring) : outcome bool :=
  match keys with
  | [] => Ok false
  | k :: keys' =>
      s ← string_prop p k "toLowerCase"%js;
      if includes (toLowerCase s) (toLowerCase searchQuery) then Ok true
      else mentions searchQuery p keys'
  end.

Definition project_matches (category searchQuery : jsstring) (p : jsval) : outcome bool :=
  both (selects category p "category"%js)
    (mentions searchQuery p ["name"%js; "tagline"%js; "description"%js]).

(** The submission shows a message and closes the dialog. *)
Definition handle (e : PageEvent) (st : State) : State :=
  match e with
  | SetTab tab => set_activeTab tab st
  | SetSearchQuery s => set_searchQuery s st
  | SetSelectedCategory s => set_selectedCategory s st
  | SetSubmitModalOpen b => set_submitModalOpen b st
  | SubmitProject => set_submitModalOpen false st
  | _ => st
  end.

Definition eco_banner : jsx Act :=
  jdiv [
    jdiv [
      jdiv [
        jdiv [jspan [txt "SPRX ECOSYSTEM PORTAL"%js]];
        el "h1"%js [] [] [txt "Ecosystem & dApps"%js];
        jp [
          txt "Discover verified decentralized applications, real-world asset settlement platforms, and developer tooling built on SPRX Protocol."%js]];
      el "button"%js [] [OnClick (Own (SetSubmitModalOpen true))] [jspan [txt "Submit a Project"%js]]];
    jdiv [
      el "button"%js [] [OnClick (Own (SetTab "directory"%js))] [txt "dApp Directory"%js];
      el "button"%js [] [OnClick (Own (SetTab "discover"%js))] [txt "Discover Showcase"%js];
      el "button"%js [] [OnClick (Own (SetTab "markets"%js))] [txt "Live Markets & Tickers"%js]]].

Definition eco_filters (searchQuery : jsstring) : jsx Act :=
  jdiv [
    jdiv [
      el "input"%js [("type"%js, "text"%js); ("placeholder"%js, "Search projects..."%js);
          ("value"%js, searchQuery)] [OnChange (λ s, Own (SetSearchQuery s))] []];
    jdiv [
      jeach project_categories (λ cat,
        el "button"%js [] [OnClick (Own (SetSelectedCategory cat))] [txt cat])]].

Definition project_card (proj : jsval) : jsx Act :=
  jdiv [
    jdiv [
      jdiv [
        jdiv [
          jspan [show proj "category"%js];
          (verified ← get_prop proj "verified"%js; if truthy verified
           then jspan [jspan [txt "Verified"%js]]
           else child verified)];
        jspan [show proj "stage"%js]];
      jdiv [el "h3"%js [] [] [show proj "name"%js]; jp [show proj "tagline"%js]];
      jp [show proj "description"%js]];
    jdiv [
      (metrics ← get_prop proj "metrics"%js; if truthy metrics
       then jdiv [
          jspan [show metrics "label"%js; txt ": "%js];
          jspan [show metrics "value"%js]]
       else jdiv []);
      jdiv [
        (github ← get_prop proj "github"%js; if truthy github
         then el "a"%js (attr_of "href"%js github ++ [("target"%js, "_blank"%js);
             ("title"%js, "GitHub Repository"%js)]) [] []
         else child github);
        (website ← get_prop proj "website"%js; el "a"%js (attr_of "href"%js
            website ++ [("target"%js, "_blank"%js)]) [] [jspan [txt "Launch"%js]])]]].

Definition discover : jsx Act :=
  jdiv [
    jdiv [
      jdiv [jspan [txt "FEATURED PROTOCOL SPOTLIGHT"%js]];
      el "h2"%js [] [] [txt "SpraxSwap: Next-Generation Concentrated AMM"%js];
      jp [
        txt "Ultra-low latency decentralized exchange powered by SPRX's 1.5s single-block finality and native multi-currency fee abstraction."%js];
      el "a"%js [("href"%js, "https://swap.sprax.network"%js); ("target"%js, "_blank"%js)] []
          [jspan [txt "Explore SpraxSwap"%js]]]].

Definition asset_row (currency : jsstring) (asset : jsval) : jsx Act :=
  change24h ← get_prop asset "change24h"%js;
  let isPositive := num_leb (NInt 0) (to_number change24h) in
  el "tr"%js [] [] [
    el "td"%js [] [] [
      jdiv [
        jdiv [(s ← string_prop asset "symbol"%js "slice"%js; txt (slice s 0 2))];
        jdiv [jspan [show asset "name"%js]; jspan [show asset "symbol"%js]]]];
    el "td"%js [] [] [
      (priceUsd ← get_prop asset "priceUsd"%js; txt (formatFiat (amount_of priceUsd)
          (Currency_of currency)))];
    el "td"%js [] [] [
      jspan [
        jspan [
          (if isPositive
           then txt ("+"%js ++ to_string change24h ++ "%"%js)
           else txt (to_string change24h ++ "%"%js))]]];
    el "td"%js [] [] [
      (high24h ← get_prop asset "high24h"%js; txt (formatFiat (amount_of high24h)
          (Currency_of currency)));
      txt " / "%js;
      (low24h ← get_prop asset "low24h"%js; txt (formatFiat (amount_of low24h)
          (Currency_of currency)))];
    el "td"%js [] [] [
      (volume24hUsd ← get_prop asset "volume24hUsd"%js; txt (formatFiat (amount_of volume24hUsd)
          (Currency_of currency)))];
    el "td"%js [] [] [
      (marketCapUsd ← get_prop asset "marketCapUsd"%js; txt (formatFiat (amount_of marketCapUsd)
          (Currency_of currency)))]].

Definition markets (currency : jsstring) (marketAssets : list jsval) : jsx Act :=
  jdiv [
    jdiv [
      jdiv [
        el "h3"%js [] [] [txt "SPRX Ecosystem Asset Tickers"%js];
        jp [txt "Real-time market valuation converted into "%js; txt currency]]];
    jdiv [
      el "table"%js [] [] [
        el "thead"%js [] [] [
          el "tr"%js [] [] [
            el "th"%js [] [] [txt "Asset"%js];
            el "th"%js [] [] [txt "Price ("%js; txt currency; txt ")"%js];
            el "th"%js [] [] [txt "24h Change"%js];
            el "th"%js [] [] [txt "24h High / Low"%js];
            el "th"%js [] [] [txt "24h Volume"%js];
            el "th"%js [] [] [txt "Market Cap"%js]]];
        el "tbody"%js [] [] [
          jeach marketAssets (λ asset,
            asset_row currency asset)]]]].

Definition submit_modal : jsx Act :=
  jdiv [
    jdiv [
      jdiv [
        el "h3"%js [] [] [txt "Submit Your Project to SPRX Ecosystem"%js];
        el "button"%js [] [OnClick (Own (SetSubmitModalOpen false))] [txt "✕"%js]];
      jp [
        txt "Submit your dApp, wallet, or developer tool for verification and listing on the official SPRX Ecosystem portal."%js];
      jdiv [
        jdiv [
          el "label"%js [] [] [txt "Project Name"%js];
          el "input"%js [("type"%js, "text"%js); ("placeholder"%js, "e.g. MyDEX Protocol"%js)] [] []];
        jdiv [
          el "label"%js [] [] [txt "Website URL"%js];
          el "input"%js [("type"%js, "url"%js); ("placeholder"%js, "https://mydex.io"%js)] [] []];
        jdiv [
          el "label"%js [] [] [txt "Category"%js];
          el "select"%js [] [] [
            el "option"%js [] [] [txt "DeFi"%js];
            el "option"%js [] [] [txt "RWA & Payments"%js];
            el "option"%js [] [] [txt "Wallets"%js];
            el "option"%js [] [] [txt "Infrastructure"%js];
            el "option"%js [] [] [txt "Enterprise"%js];
            el "option"%js [] [] [txt "Gaming & Identity"%js]]]];
      jdiv [
        el "button"%js [] [OnClick (Own (SetSubmitModalOpen false))] [txt "Cancel"%js];
        el "button"%js [] [OnClick (Own SubmitProject)] [txt "Submit Application"%js]]]].

Definition EcosystemPage (activeTab searchQuery currency : jsstring) (submitModalOpen : bool)
    (filteredProjects marketAssets : list jsval) : jsx Act :=
  jdiv [
    eco_banner;
    jwhen (bool_decide (activeTab = "directory"%js))
      (jdiv [
         eco_filters searchQuery;
         jdiv [
           jeach filteredProjects (λ proj,
             project_card proj)]]);
    jwhen (bool_decide (activeTab = "discover"%js))
      (discover);
    jwhen (bool_decide (activeTab = "markets"%js))
      (markets currency marketAssets);
    jwhen submitModalOpen
      (submit_modal)].

Definition render (currency : jsstring) (st : State) : jsx Act :=
  filteredProjects ← keep (project_matches (selectedCategory st) (searchQuery st)) (projects st);
  EcosystemPage (activeTab st) (searchQuery st) currency (submitModalOpen st) filteredProjects
    (marketAssets st).
End ecosystem.
End Ecosystem.

(** ** [ResearchPage] *)
Module Research.

Record State := mkState {
  papers : list jsval;
  selectedCategory : jsstring;
}.
Definition set_papers (x : list jsval) (st : State) : State :=
  mkState x (selectedCategory st).
Definition set_selectedCategory (x : jsstring) (st : State) : State :=
  mkState (papers st) x.

Definition init : State := mkState [] "All"%js.

Definition paper_categories : list jsstring :=
  ["All"%js; "Consensus"%js; "Cryptography"%js; "RWA Legal Rails"%js; "State Storage"%js].

Definition paper_card (paper : jsval) : jsx Act :=
  jdiv [
    jdiv [
      jdiv [
        jspan [show paper "category"%js];
        jspan [jspan [show paper "readingMinutes"%js; txt " min read"%js]]];
      jspan [show paper "date"%js]];
    el "h3"%js [] [] [show paper "title"%js];
    jp [show paper "abstract"%js];
    jdiv [
      jspan [
        txt "Authors: "%js;
        (v ← get_prop paper "authors"%js; s ← join_of v ", "%js; txt s)];
      el "button"%js [] [OnClick (go "/whitepaper"%js)] [jspan [txt "Read Full Paper"%js]]]].

Definition ResearchPage (filtered : list jsval) : jsx Act :=
  jdiv [
    jdiv [
      jdiv [jspan [txt "SPRX CRYPTOGRAPHIC & PROTOCOL RESEARCH"%js]];
      el "h1"%js [] [] [txt "Protocol Research Hub"%js];
      jp [
        txt "Peer-reviewed mathematical analyses, consensus proofs, and legal rails governing sovereign real-world asset settlement."%js];
      jdiv [
        jeach paper_categories (λ cat,
          el "button"%js [] [OnClick (Own (SetSelectedCategory cat))] [txt cat])]];
    jdiv [
      jeach filtered (λ paper,
        paper_card paper)]].

Definition render (st : State) : jsx Act :=
  filtered ← keep (λ p, selects (selectedCategory st) p "category"%js) (papers st);
  ResearchPage filtered.
End Research.

(** ** [AnalyticsPage] *)
Module Analytics.

Definition txGrowthData : list ChartCard.DataPoint :=
  [ChartCard.mkDataPoint "Day 1"%js (NInt 120000); ChartCard.mkDataPoint "Day 5"%js (NInt 185000);
      ChartCard.mkDataPoint "Day 10"%js (NInt 290000); ChartCard.mkDataPoint "Day 15"%js (NInt 410000);
          ChartCard.mkDataPoint "Day 20"%js (NInt 680000); ChartCard.mkDataPoint "Day 25"%js
              (NInt 920000); ChartCard.mkDataPoint "Day 30"%js (NInt 1489200)].
Definition tpsTrendData : list ChartCard.DataPoint :=
  [ChartCard.mkDataPoint "Week 1"%js (NInt 280); ChartCard.mkDataPoint "Week 2"%js (NInt 450);
      ChartCard.mkDataPoint "Week 3"%js (NInt 720); ChartCard.mkDataPoint "Week 4"%js (lit 8425 (-1))].
Definition blockTimeData : list ChartCard.DataPoint :=
  [ChartCard.mkDataPoint "T-6h"%js (lit 212 (-2)); ChartCard.mkDataPoint "T-5h"%js (lit 208 (-2));
      ChartCard.mkDataPoint "T-4h"%js (lit 215 (-2)); ChartCard.mkDataPoint "T-3h"%js (lit 205 (-2));
          ChartCard.mkDataPoint "T-2h"%js (lit 210 (-2)); ChartCard.mkDataPoint "T-1h"%js
              (lit 209 (-2)); ChartCard.mkDataPoint "Now"%js (lit 210 (-2))].
Definition gasConsumptionData : list ChartCard.DataPoint :=
  [ChartCard.mkDataPoint "00:00"%js (NInt 4200000); ChartCard.mkDataPoint "06:00"%js (NInt 6800000);
      ChartCard.mkDataPoint "12:00"%js (NInt 12400000); ChartCard.mkDataPoint "18:00"%js
          (NInt 15800000); ChartCard.mkDataPoint "Now"%js (NInt 18200000)].

Section analytics.
Context `{Host}.

(** The [i]-th chart; [hovers] holds the hook of each. *)
Definition chart_card (i : nat) (title subtitle valueSuffix : jsstring)
    (data : list ChartCard.DataPoint) (hovers : list (option nat)) : jsx Act :=
  map_jsx (λ e, Own (OnChart i e))
    (ChartCard.render title subtitle [] valueSuffix data (default None (hovers !! i))).

Definition AnalyticsPage (hovers : list (option nat)) : jsx Act :=
  jdiv [
    PageHeader (txt "Network Analytics & Telemetry"%js)
      "On-chain macro telemetry, throughput trends, and consensus performance benchmarks for Sprax Chain."%js
      none None
      None;
    jdiv [
      card "Nakamoto Coefficient"%js (txt "3 Nodes"%js) "Minimum to stall consensus (>33%)"%js;
      card "Peak Observed TPS"%js (txt "2,500 TPS"%js) "Stress tested round"%js;
      card "Block Commitment Rate"%js (txt "99.98%"%js) "Zero fork occurrence"%js;
      card "Average Gas / Tx"%js (txt "21,450 gas"%js) "Sub-penny transaction cost"%js];
    jdiv [
      chart_card 0 "Cumulative Transaction Growth"%js
        "Cumulative verified state transitions committed across all blocks"%js [] txGrowthData hovers;
      chart_card 1 "Throughput Dynamics (Average TPS)"%js
        "Sustained transaction throughput per second"%js " TPS"%js tpsTrendData hovers;
      chart_card 2 "Block Time Consistency (Seconds)"%js
        "Deviation from 2.0 second target block duration"%js "s"%js blockTimeData hovers;
      chart_card 3 "Consensus Gas Consumption"%js
        "Total gas units executed in WASM runtime"%js " gas"%js gasConsumptionData hovers]].

End analytics.

(** [selectedRange] and the hooks of the charts. *)
Record State := mkState {
  selectedRange : jsstring;
  hovers : list (option nat);
}.
Definition set_selectedRange (x : jsstring) (st : State) : State :=
  mkState x (hovers st).
Definition set_hovers (x : list (option nat)) (st : State) : State :=
  mkState (selectedRange st) x.

Definition init : State := mkState "30D"%js [None; None; None; None].

Definition handle (e : PageEvent) (st : State) : State :=
  match e with
  | OnChart _ (ChartCard.RangeChange r) => set_selectedRange r st
  | OnChart i (ChartCard.SetHover h) => set_hovers (<[i := h]> (hovers st)) st
  | _ => st
  end.
End Analytics.
