(* ===== verification/ExplorerSite.v ===== *)
(** * The explorer as a whole

    What [App] renders (header, banner, page, footer and modals inside the
    [ErrorBoundary]) and how the parts react: a page's hooks live as long as the same
    child of [main] is shown, and a render that throws leaves only the boundary's
    screen. *)
From stdpp Require Import gmap.
From S2P Require Import Prelude JsString JsNumber JsJson Async Formatters View Render MockData ExplorerApi.
From S2P Require Import ExplorerUi ExplorerParts ExplorerApp ExplorerLayout ExplorerWidgets ExplorerEvents.
From S2P Require Import ExplorerPages ExplorerHome ExplorerLearn ExplorerHubs.
Import MockData.
Import ExplorerApp(Page(..), pages).

Module Site.

(** ** Pages with their hooks *)

Inductive Hooks :=
| NoHooks
| HomeHooks (bar : SearchBar.State) (playground : CodePlayground.State) (layer : jsstring)
| QueryHooks (filterQuery : jsstring)
| TransactionsHooks (filterType statusFilter searchQuery : jsstring)
| TabHooks (activeTab : jsstring)
| AddressHooks (filter activeTab : jsstring) (qrOpen : bool)
| ValidatorsHooks (filterQuery statusFilter : jsstring)
| StakingHooks (calcAmount : jsstring)
| DevelopersHooks (st : Portal.Developers)
| EcosystemHooks (st : Ecosystem.State)
| GovernanceHooks (st : Governance.State)
| ResearchHooks (st : Research.State)
| AnalyticsHooks (st : Analytics.State)
| FaucetHooks (st : FaucetPage.State) (timers : nat).

(** The hooks of a page when it is mounted. *)
Definition mount (p : Page) : Hooks :=
  match p with
  | HomePage _ _ _ => HomeHooks SearchBar.init CodePlayground.init ProtocolVisualizer.init
  | BlocksPage _ _ _ _ | ContractsPage _ => QueryHooks []
  | TransactionsPage _ _ _ _ => TransactionsHooks "all"%js "all"%js []
  | BlockDetailsPage _ _ => TabHooks "txs"%js
  | TxDetailsPage _ _ | ValidatorDetailsPage _ | ContractDetailsPage _ => TabHooks "overview"%js
  | AddressPage _ _ _ => AddressHooks "all"%js "txs"%js false
  | LearnPage initialSubpage => TabHooks (Learn.init initialSubpage)
  | DevelopersPortalPage _ initialTab => DevelopersHooks (Portal.init initialTab)
  | ValidatorsPage _ => ValidatorsHooks [] "all"%js
  | StakingPage _ _ => StakingHooks "1000"%js
  | EcosystemPage _ initialTab => EcosystemHooks (Ecosystem.init initialTab)
  | GovernancePage initialTab => GovernanceHooks (Governance.init initialTab)
  | ResearchPage => ResearchHooks Research.init
  | AnalyticsPage => AnalyticsHooks Analytics.init
  | FaucetPage _ => FaucetHooks FaucetPage.init 0
  | NetworkStatusPage _ | WhitepaperPage | AboutPage | BrandKitPage | NotFoundPage => NoHooks
  end.

(** The place of a page among the children of [main]. *)
Definition slot (route : jsstring) (p : Page) : nat :=
  match p with
  | HomePage _ _ _ => if bool_decide (route = "/"%js) then 0 else 1
  | BlocksPage _ _ _ _ => 2 | BlockDetailsPage _ _ => 3 | TransactionsPage _ _ _ _ => 4
  | TxDetailsPage _ _ => 5 | AddressPage _ _ _ => 6 | LearnPage _ => 7
  | DevelopersPortalPage _ _ => 8 | NetworkStatusPage _ => 9 | ValidatorsPage _ => 10
  | ValidatorDetailsPage _ => 11 | StakingPage _ _ => 12 | ContractsPage _ => 13
  | ContractDetailsPage _ => 14 | EcosystemPage _ _ => 15 | GovernancePage _ => 16
  | ResearchPage => 17 | WhitepaperPage => 18 | AboutPage => 19 | BrandKitPage => 20
  | AnalyticsPage => 21 | FaucetPage _ => 22 | NotFoundPage => 23
  end.

(** The effects of the pages that load their data themselves: the service answers
    with constants. *)
Definition load (h : Hooks) : Hooks :=
  match h with
  | EcosystemHooks st => EcosystemHooks (Ecosystem.loaded MOCK_ECOSYSTEM_PROJECTS MOCK_MARKET_ASSETS st)
  | GovernanceHooks st => GovernanceHooks (Governance.loaded MOCK_GOVERNANCE_PROPOSALS MOCK_SIPS st)
  | ResearchHooks st => ResearchHooks (Research.set_papers MOCK_RESEARCH_PAPERS st)
  | _ => h
  end.

Inductive PageTimer := CopyTimer | RunTimer | RpcTimer (i : nat) | FaucetTimer.

Definition timeout (t : PageTimer) (h : Hooks) : Hooks :=
  match t, h with
  | CopyTimer, HomeHooks bar play layer => HomeHooks bar (CodePlayground.copyTimeout play) layer
  | RunTimer, HomeHooks bar play layer => HomeHooks bar (CodePlayground.runTimeout play) layer
  | CopyTimer, DevelopersHooks st =>
      DevelopersHooks (Portal.set_dev_playground (CodePlayground.copyTimeout (Portal.dev_playground st)) st)
  | RunTimer, DevelopersHooks st =>
      DevelopersHooks (Portal.set_dev_playground (CodePlayground.runTimeout (Portal.dev_playground st)) st)
  | RpcTimer i, DevelopersHooks st => DevelopersHooks (Portal.rpcTimeout i st)
  | FaucetTimer, FaucetHooks st (S n) => FaucetHooks (FaucetPage.dispensed st) n
  | _, _ => h
  end.

Section site.
Context `{Host} `{UnicodeCase}.

(** What a page does with its own events: its hooks, and the callback it calls. *)
Definition handle_page (e : PageEvent) (h : Hooks) : Hooks * option ExplorerApp.Event :=
  match h, e with
  | HomeHooks bar play layer, OnSearchBar e =>
      let '(bar', q) := SearchBar.handle e bar in
      (HomeHooks bar' play layer, ExplorerApp.UniversalSearch <$> q)
  | HomeHooks bar play layer, OnPlayground e => (HomeHooks bar (CodePlayground.handle e play) layer, None)
  | HomeHooks bar play layer, SelectLayer id => (HomeHooks bar play id, None)
  | QueryHooks _, SetFilterQuery s => (QueryHooks s, None)
  | TransactionsHooks _ st q, SetFilterType s => (TransactionsHooks s st q, None)
  | TransactionsHooks t _ q, SetStatusFilter s => (TransactionsHooks t s q, None)
  | TransactionsHooks t st _, SetSearchQuery s => (TransactionsHooks t st s, None)
  | TransactionsHooks _ _ _, ResetFilters => (TransactionsHooks "all"%js "all"%js [], None)
  | TabHooks _, SetTab s => (TabHooks s, None)
  | AddressHooks f _ qr, SetTab s => (AddressHooks f s qr, None)
  | AddressHooks _ tab qr, SetFilter s => (AddressHooks s tab qr, None)
  | AddressHooks f tab _, SetQrOpen b => (AddressHooks f tab b, None)
  | ValidatorsHooks _ st, SetFilterQuery s => (ValidatorsHooks s st, None)
  | ValidatorsHooks q _, SetStatusFilter s => (ValidatorsHooks q s, None)
  | ValidatorsHooks _ _, ResetFilters => (ValidatorsHooks [] "all"%js, None)
  | StakingHooks _, SetCalcAmount s => (StakingHooks s, None)
  | DevelopersHooks st, _ => (DevelopersHooks (Portal.handle e st), None)
  | EcosystemHooks st, _ => (EcosystemHooks (Ecosystem.handle e st), None)
  | GovernanceHooks st, _ => (GovernanceHooks (Governance.handle e st), None)
  | ResearchHooks st, SetSelectedCategory s => (ResearchHooks (Research.set_selectedCategory s st), None)
  | AnalyticsHooks st, _ => (AnalyticsHooks (Analytics.handle e st), None)
  | FaucetHooks st n, OnFaucet (FaucetPage.TypeAddress s) =>
      (FaucetHooks (FaucetPage.typeAddress s st) n, None)
  | FaucetHooks st n, OnFaucet FaucetPage.Claim =>
      let '(st', started) := FaucetPage.handleClaim st in
      (FaucetHooks st' (if started : bool then S n else n), None)
  | _, _ => (h, None)
  end.

(** The view of a page with its hooks; [now] is [Date.now()]. *)
Definition render_page (now : Z) (p : Page) (h : Hooks) : jsx Act :=
  match p, h with
  | HomePage stats recentBlocks recentTxs, HomeHooks bar play layer =>
      bs ← as_array recentBlocks "slice"%js;
      ts ← as_array recentTxs "slice"%js;
      Home.HomePage now stats (slice bs 0 5) (slice ts 0 5) bar play layer
  | BlocksPage blocks total page size, QueryHooks q =>
      l ← as_array blocks "filter"%js;
      filtered ← keep (Pages.block_matches q) l;
      Pages.BlocksPage now false q filtered total page size
  | BlockDetailsPage block txs, TabHooks tab =>
      l ← as_array txs "map"%js; Pages.BlockDetailsPage now tab block l
  | TransactionsPage txs total page size, TransactionsHooks t st q =>
      l ← as_array txs "filter"%js;
      filtered ← keep (Pages.tx_matches t st q) l;
      Pages.TransactionsPage now false t q filtered total page size
  | TxDetailsPage tx currency, TabHooks tab => Pages.TxDetailsPage now tab tx currency
  | AddressPage account txs currency, AddressHooks f tab qr =>
      l ← as_array txs "filter"%js;
      filtered ← keep (Pages.account_tx_matches f account) l;
      Pages.AddressPage now f tab qr account l filtered currency
  | LearnPage _, TabHooks tab => Ok (Learn.LearnPage tab)
  | DevelopersPortalPage _ _, DevelopersHooks st => Ok (Portal.DevelopersPortalPage st)
  | NetworkStatusPage stats, NoHooks => Pages.NetworkStatusPage stats
  | ValidatorsPage validators, ValidatorsHooks q st =>
      l ← as_array validators "filter"%js;
      filtered ← keep (Pages.validator_matches st q) l;
      Pages.ValidatorsPage false q filtered
  | ValidatorDetailsPage validator, TabHooks tab => Pages.ValidatorDetailsPage tab validator
  | StakingPage validators currency, StakingHooks amount =>
      l ← as_array validators "map"%js; Pages.StakingPage amount l currency
  | ContractsPage contracts, QueryHooks q =>
      l ← as_array contracts "filter"%js;
      filtered ← keep (Pages.contract_matches q) l;
      Pages.ContractsPage q filtered
  | ContractDetailsPage contract, TabHooks tab => Pages.ContractDetailsPage tab contract
  | EcosystemPage currency _, EcosystemHooks st => Ecosystem.render currency st
  | GovernancePage _, GovernanceHooks st => Governance.render st
  | ResearchPage, ResearchHooks st => Research.render st
  | WhitepaperPage, _ => Ok ExplorerLearn.WhitepaperPage
  | AboutPage, _ => Ok ExplorerLearn.AboutPage
  | BrandKitPage, _ => Ok ExplorerLearn.BrandKitPage
  | AnalyticsPage, AnalyticsHooks st => Analytics.AnalyticsPage (Analytics.hovers st)
  | FaucetPage network, FaucetHooks st _ =>
      Ok [map_view (λ e, Own (OnFaucet e)) (FaucetPage.render network st)]
  | NotFoundPage, _ => Parts.NotFoundPage (go "/"%js) (Up ExplorerApp.OpenSearch)
  | _, _ => none
  end.

(** ** [App] *)

Inductive Event :=
| OnHeader (e : AppHeader.Event)
| OnPage (e : PageEvent)
| OnApp (e : ExplorerApp.Event)
| OnStarted (e : GetStartedModal.Event).

Definition page_act (a : Act) : Event := match a with Own e => OnPage e | Up e => OnApp e end.

(** The state of the application and its tasks, the hooks of the header, the child of
    [main] that is mounted, and the error the boundary has caught. *)
Record State := mkState {
  app : world ExplorerApp.State;
  header : AppHeader.State;
  main : option (nat * Hooks);
  failure : option jserr;
}.
Definition set_app (x : world ExplorerApp.State) (s : State) : State := mkState x (header s) (main s) (failure s).
Definition set_header (x : AppHeader.State) (s : State) : State := mkState (app s) x (main s) (failure s).
Definition set_main (x : option (nat * Hooks)) (s : State) : State := mkState (app s) (header s) x (failure s).

(** [new Date().getFullYear()], and [Date.now()] when the fallback data was loaded *)
Context (year loaded : Z).

Definition main_view (st : ExplorerApp.State) (m : option (nat * Hooks)) : jsx Event :=
  match pages st, m with
  | p :: _, Some (_, h) => map_jsx page_act (render_page (api_clock (ExplorerApp.api st)) p h)
  | _, _ => none
  end.

Definition App (st : ExplorerApp.State) (hd : AppHeader.State) (m : option (nat * Hooks)) : jsx Event :=
  jdiv [
    Ok (map_view OnHeader <$> AppHeader.render (ExplorerApp.network st) (ExplorerApp.currency st)
          (ExplorerApp.theme st) (ExplorerApp.connectedWallet st) hd);
    match ExplorerApp.banner st with Some text => jdiv [jspan []; jspan [txt text]] | None => none end;
    el "main"%js [] [] [main_view st m];
    map_jsx OnApp (AppFooter year (field (ExplorerApp.stats st) "latest_height"%js));
    map_jsx (λ e, OnApp (ExplorerApp.OnSearchModal e))
      (SearchModal.render (ExplorerApp.searchModalOpen st) (ExplorerApp.search st));
    Ok (map_view OnStarted <$> GetStartedModal.render (ExplorerApp.getStartedModalOpen st));
    Ok (map_view (λ e, OnApp (ExplorerApp.OnWalletModal e))
          <$> ConnectWalletModal.render (ExplorerApp.connectWalletModalOpen st) (ExplorerApp.wallet st))].

(** The screen: what the boundary's children render, or its own message. *)
Definition screen (s : State) : jsx Event :=
  match failure s with
  | None => App (state (app s)) (header s) (main s)
  | Some e => Ok []
  end.
Definition boundary {E} (reload : E) (s : State) : list (view E) :=
  match failure s with None => [] | Some e => [Parts.ErrorBoundary reload e] end.

(** The child of [main] after a render: the one that was mounted keeps its hooks. *)
Definition place (st : ExplorerApp.State) (m : option (nat * Hooks)) : option (nat * Hooks) :=
  match pages st with
  | [] => None
  | p :: _ =>
      let n := slot (ExplorerApp.currentRoute st) p in
      match m with
      | Some (n', h) => if (n' =? n)%nat then Some (n, h) else Some (n, mount p)
      | None => Some (n, mount p)
      end
  end.

(** A render: the boundary unmounts its children when one of them throws. *)
Definition commit (s : State) : State :=
  match failure s with
  | Some _ => s
  | None =>
      let m := place (state (app s)) (main s) in
      match App (state (app s)) (header s) m with
      | Ok _ => set_main m s
      | Throw e => mkState (app s) AppHeader.init None (Some e)
      end
  end.

(** An event of the application. *)
Definition perform (prefersDark : bool) (e : ExplorerApp.Event) (s : State) : State :=
  set_app (ExplorerApp.launch (tasks (app s)) (ExplorerApp.handle loaded prefersDark e (state (app s)))) s.

Definition perform_opt (prefersDark : bool) (e : option ExplorerApp.Event) (s : State) : State :=
  match e with Some e => perform prefersDark e s | None => s end.

Definition react (prefersDark : bool) (e : Event) (s : State) : State :=
  match e with
  | OnHeader e =>
      let '(hd, up) := AppHeader.handle e (header s) in
      perform_opt prefersDark up (set_header hd s)
  | OnPage e =>
      match main s with
      | Some (n, h) =>
          let '(h', up) := handle_page e h in
          perform_opt prefersDark up (set_main (Some (n, h')) s)
      | None => s
      end
  | OnApp e => perform prefersDark e s
  | OnStarted e => foldl (λ s e, perform prefersDark e s) s (GetStartedModal.handle e)
  end.

Definition upd_hooks (f : Hooks → Hooks) (s : State) : State :=
  set_main (prod_map id f <$> main s) s.

(** The events of the application that are not those of a component. *)
Definition of_window (e : ExplorerApp.Event) : bool :=
  match e with
  | ExplorerApp.KeyDown _ _ | ExplorerApp.Interval | ExplorerApp.WalletTimer _ => true
  | _ => false
  end.

(** The application when it has been mounted. *)
Definition boot (prefersDark : bool) (storage : Storage) (pathname : jsstring) (dark light : bool)
    (now : Z) : State :=
  commit (mkState (ExplorerApp.mounted loaded prefersDark storage pathname dark light now)
            AppHeader.init None None).

(** One step of the program: what the user does on the screen, what the window or a
    timer causes, a response, or the passage of time. [T] is what is known of the
    responses. *)
Inductive step (T : fetch_request → outcome response → Prop) : State → State → Prop :=
| Step_user prefersDark e vs s :
    screen s = Ok vs → Exists (λ v, fires v e) vs → step T s (commit (react prefersDark e s))
| Step_window prefersDark e s :
    of_window e = true → step T s (commit (perform prefersDark e s))
| Step_header id s : step T s (commit (set_header (AppHeader.timeout id (header s)) s))
| Step_timer t s : step T s (commit (upd_hooks (timeout t) s))
| Step_load s : step T s (commit (upd_hooks load s))
| Step_response i rq k r s :
    tasks (app s) !! i = Some (Awaiting rq k) → T rq r →
    step T s (commit (set_app (start (k r) (mkWorld (state (app s)) (remove_at i (tasks (app s))))) s))
| Step_yield i k s :
    tasks (app s) !! i = Some (Yielded k) →
    step T s (commit (set_app (start k (mkWorld (state (app s)) (remove_at i (tasks (app s))))) s))
| Step_clock now s :
    step T s (commit (set_app (mkWorld (ExplorerApp.upd_api
      (λ a, mkApi (api_network a) (api_offline a) now) (state (app s))) (tasks (app s))) s)).
End site.
End Site.
