(* ===== verification/ExplorerRender.v ===== *)
(** * The explorer's pages render typed data

    For each page, that it renders when its data have their declared types, and that
    the links it offers lead to pages. *)
From stdpp Require Import gmap.
From S2P Require Import Prelude JsString JsStringFacts JsNumber JsJson Formatters View Render Types RenderTyped.
From S2P Require Import Offers ExplorerTypes ExplorerApi ExplorerUi ExplorerParts QrCode ExplorerApp ExplorerLayout.
From S2P Require Import ExplorerWidgets ExplorerEvents ExplorerPages ExplorerHome ExplorerLearn ExplorerHubs.
Import ExplorerTypes Formatters Parts.
Import ExplorerApp(Event(..)).

(** ** Links *)

(** The routes that show a page, once the statistics are there. *)
Definition leads (route : jsstring) : bool :=
  existsb (λ r, bool_decide (route = r))
    ["/"%js; "/explorer"%js; "/blocks"%js; "/transactions"%js; "/network"%js; "/validators"%js;
     "/staking"%js; "/contracts"%js; "/discover"%js; "/markets"%js; "/whitepaper"%js; "/about"%js;
     "/brand"%js; "/analytics"%js; "/faucet"%js; "/404"%js]
  || existsb (startsWith route)
       ["/learn"%js; "/developers"%js; "/ecosystem"%js; "/governance"%js; "/sips"%js;
        "/community/grants"%js; "/security/bug-bounty"%js; "/research"%js].

Definition event_ok (e : Event) : Prop :=
  match e with Navigate route => leads route = true | _ => True end.

(** The data of the charts. *)
Definition chart_data (i : nat) : list ChartCard.DataPoint :=
  default [] ([Analytics.txGrowthData; Analytics.tpsTrendData; Analytics.blockTimeData;
               Analytics.gasConsumptionData] !! i).

Definition hover_ok (i : nat) (h : option nat) : Prop :=
  match h with Some j => (j < length (chart_data i))%nat | None => True end.

(** What a page may cause: a navigation leads somewhere, what is selected among the
    proposals is one, and a point under the pointer is a point of its chart. *)
Definition act_ok (a : Act) : Prop :=
  match a with
  | Up e => event_ok e
  | Own (SetSelectedSip v) => opt_typed SIPItem v
  | Own (OnChart i (ChartCard.SetHover h)) => hover_ok i h
  | Own _ => True
  end.

Lemma handler_on_str f v : (∀ s, event_ok (f s)) → Forall (handler_all act_ok) (on_str f v).
Proof. intros Hf. destruct v; repeat constructor. apply Hf. Qed.

(** ** Automation *)

Ltac handler_leaf := first [exact I | vm_compute; reflexivity | intros ?; exact I | assumption].

(** Use the type of a property that was read. *)
Ltac use_type H x :=
  let H' := fresh "H" in
  destruct H as [H|[H' ->]];
  [lazymatch type of H with
   | conforms TStr _ = true => destruct x; try discriminate H
   | conforms TNum _ = true => destruct x; try discriminate H
   | conforms TBool _ = true => destruct x; try discriminate H
   | conforms (TEnum _) _ = true => destruct x; try discriminate H
   | conforms (TOr TStr TNull) _ = true => destruct x; try discriminate H
   | _ => idtac
   end
  |try discriminate H'].

Ltac page_step :=
  lazymatch goal with
  | Hr : good ?P ?r |- good ?P ?r => exact Hr
  | |- Forall _ [] => constructor
  | |- Forall _ (_ :: _) => constructor; cbv beta
  | |- Forall (handler_all _) (on_str _ _) => apply handler_on_str; intros ?; exact I
  | Hx : conforms SIPItem ?x = true |- handler_all _ (OnClick (Own (SetSelectedSip ?x))) => exact (or_intror Hx)
  | |- handler_all _ (OnClick (Own (SetSelectedSip JNull))) => exact (or_introl eq_refl)
  | |- Forall (handler_all _) (if _ then _ else _) => case_match
  | |- handler_all _ _ => handler_leaf
  | |- good _ (el _ _ _ _) => apply good_el
  | |- good _ (jdiv _) => apply good_el
  | |- good _ (jspan _) => apply good_el
  | |- good _ (jp _) => apply good_el
  | |- good _ (jh _ _) => apply good_el
  | |- good _ (txt _) => apply good_txt
  | |- good _ none => apply good_none
  | |- good _ (jwhen _ _) => apply good_jwhen
  | |- good _ (children _) => apply good_children
  | |- good _ (if truthy JUndef then _ else _) => change (truthy JUndef) with false; cbv iota
  | |- good _ (if truthy JNull then _ else _) => change (truthy JNull) with false; cbv iota
  | |- good _ (if _ then _ else _) => apply good_if
  | |- good _ (show _ _) => eapply good_show; [eassumption|reflexivity|reflexivity]
  | |- good _ (child (JStr _)) => apply good_txt
  | |- good _ (child (JNum _)) => apply good_txt
  | |- good _ (child JNull) => apply good_none
  | |- good _ (child JUndef) => apply good_none
  | |- good _ (child (JBool _)) => apply good_none
  | |- good _ (child (js_or _ _)) => unfold js_or; case_match
  | |- good _ (mbind _ (get_prop _ _)) =>
      let x := fresh "x" in let Hx := fresh "Hx" in
      eapply good_prop; [eassumption|reflexivity|intros x Hx; use_type Hx x; cbv beta]
  | |- good _ (mbind _ (locale_prop _ _)) =>
      eapply good_locale; [eassumption|reflexivity|intros ?; cbv beta]
  | |- good _ (mbind _ (fixed_prop _ _ _)) =>
      eapply good_fixed; [eassumption|reflexivity|intros ?; cbv beta]
  | |- good _ (mbind _ (string_prop _ _ _)) =>
      eapply good_string; [eassumption|reflexivity|intros ?; cbv beta]
  | |- good _ (jeach_i _ _) => eapply good_jeach_i_typed; [eassumption|intros ? ? ?; cbv beta]
  | |- good _ (jeach _ _) =>
      first [eapply good_jeach_typed; [eassumption|intros ? ?; cbv beta]
            |apply good_jeach; intros ?; cbv beta]
  | |- good _ (let '(_, _) := ?p in _) => destruct p
  | |- good _ (map_jsx _ _) => apply good_map
  end.
Ltac page_good := repeat page_step.

(** ** Parts *)

Section parts.
Context `{Host} `{UnicodeCase} {E : Type} (P : E → Prop).

Lemma truncate_string name s a b : ∃ t, truncate_value name (JStr s) a b = Ok (JStr t).
Proof. unfold truncate_value. case_match; eauto. Qed.

Lemma good_StatusBadge s : good P (StatusBadge (JStr s)).
Proof. unfold StatusBadge. cbn [as_string mbind outcome_bind]. page_good. Qed.

Lemma good_success_badge fields tx t :
  conforms (TObj fields) tx = true → field_ty fields "success"%js = Some (false, t) →
  good P (success_badge tx).
Proof.
  intros Hv Hk. eapply good_prop; [exact Hv|exact Hk|]. intros x _. apply good_StatusBadge.
Qed.

Lemma good_MetricCard label value change sub on :
  good P value → Forall (handler_all P) on → good P (MetricCard label value change sub on).
Proof. intros Hv Ho. unfold MetricCard. page_good; done. Qed.

Lemma good_card label value sub : good P value → good P (card label value sub).
Proof. intros Hv. by apply good_MetricCard. Qed.

Lemma good_CopyButton v : good P (CopyButton v).
Proof. unfold CopyButton. page_good. Qed.

Lemma good_link_button title on l :
  Forall (handler_all P) on → Forall (good P) l → good P (link_button title on l).
Proof. intros Ho Hl. by apply good_el. Qed.

Lemma good_HashLink s on c t a b :
  Forall (handler_all P) on → good P (HashLink (JStr s) on c t a b).
Proof.
  intros Ho. unfold HashLink, truncateHash. destruct (truncate_string "hash"%js s a b) as (d & Hd).
  destruct t; [rewrite Hd|]; cbn [mbind outcome_bind];
    (apply good_el; [constructor|]; repeat constructor;
     [apply good_link_button; [done|]; repeat constructor; apply good_txt|apply good_jwhen, good_CopyButton]).
Qed.

Lemma good_AddressLink v on c t a b l :
  match v with JStr _ | JNull | JUndef => True | _ => False end →
  Forall (handler_all P) on → good P (AddressLink v on c t a b l).
Proof.
  intros Hv Ho. unfold AddressLink.
  assert (∃ d, (if bool_decide (l = []) then if t then truncateAddress v a b else Ok v else Ok (JStr l)) = Ok d
               ∧ is_ok (child (E := E) d) = true) as (d & -> & Hd).
  { destruct (bool_decide (l = [])); [|by eexists]. destruct t; [|by exists v; destruct v].
    destruct v; try done; try (by eexists). destruct (truncate_string "address"%js s a b) as (d & Hd). by eexists. }
  cbn [mbind outcome_bind]. apply good_el; [constructor|]. repeat constructor.
  - apply good_link_button; [done|]. repeat constructor. by apply good_child.
  - apply good_jwhen, good_CopyButton.
Qed.

Lemma good_BlockLink n on : Forall (handler_all P) on → good P (BlockLink (JNum n) on).
Proof. intros Ho. unfold BlockLink. cbn [locale_string mbind outcome_bind]. page_good. done. Qed.

Lemma good_PageHeader title sub badge back action :
  good P title → good P badge →
  match back with Some (e, _) => P e | None => True end →
  match action with Some a => good P a | None => True end →
  good P (PageHeader title sub badge back action).
Proof.
  intros Ht Hb Hk Ha. unfold PageHeader. destruct back as [[e s]|], action; page_good; done.
Qed.

Lemma good_Tabs f tabs :
  (∀ s, P (f s)) → Forall (λ t, match t.2 with Some c => good P c | None => True end) tabs →
  good P (Tabs f tabs).
Proof.
  intros Hf Ht. unfold Tabs. apply good_el; [constructor|]. repeat constructor.
  apply good_children, Forall_fmap. eapply Forall_impl; [exact Ht|]. intros [[id label] [c|]] Hc; unfold compose; cbv beta iota;
    cbn [snd] in Hc; page_good; first [exact (Hf _)|done].
Qed.

Lemma good_TableSkeleton r c : good P (TableSkeleton r c).
Proof.
  unfold TableSkeleton. page_good. apply Forall_replicate. apply good_el; [constructor|].
  apply Forall_replicate. apply good_el; constructor.
Qed.

Lemma good_EmptyState title description action :
  match action with Some (_, e) => P e | None => True end → good P (EmptyState title description action).
Proof. intros Ha. unfold EmptyState. destruct action as [[[|c s] e]|]; page_good; done. Qed.

Lemma good_QrCodeModal b e s title : P e → good P (QrCodeModal b e (JStr s) title).
Proof.
  intros He. unfold QrCodeModal. destruct b; cbn [negb]; page_good; first [done|apply good_CopyButton].
Qed.
End parts.

(** One step more: the parts. *)
Ltac part_step :=
  first
    [page_step
    |lazymatch goal with
     | |- good _ (StatusBadge (JStr _)) => apply good_StatusBadge
     | |- good _ (success_badge _) => eapply good_success_badge; [eassumption|reflexivity]
     | |- good _ (MetricCard _ _ _ _ _) => apply good_MetricCard
     | |- good _ (card _ _ _) => apply good_card
     | |- good _ (CopyButton _) => apply good_CopyButton
     | |- good _ (TxLink (JStr _) _ _ _ _ _) => apply good_HashLink
     | |- good _ (HashLink (JStr _) _ _ _ _ _) => apply good_HashLink
     | |- good _ (AddressLink _ _ _ _ _ _ _) => apply good_AddressLink
     | |- good _ (BlockLink (JNum _) _) => apply good_BlockLink
     | |- good _ (PageHeader _ _ _ _ _) => apply good_PageHeader
     | |- good _ (EmptyState _ _ _) => apply good_EmptyState
     | |- good _ (TableSkeleton _ _) => apply good_TableSkeleton
     | |- good _ (Tabs _ _) => apply good_Tabs
     | |- good _ (QrCodeModal _ _ (JStr _) _) => apply good_QrCodeModal
     | |- good _ (mbind _ (truncateAddress (JStr ?s) ?a ?b)) =>
         let d := fresh "d" in let Hd := fresh "Hd" in
         unfold truncateAddress; destruct (truncate_string "address"%js s a b) as (d & Hd); rewrite Hd; clear Hd;
         cbn [mbind outcome_bind]
     | |- good _ (mbind _ (truncateHash (JStr ?s) ?a ?b)) =>
         let d := fresh "d" in let Hd := fresh "Hd" in
         unfold truncateHash; destruct (truncate_string "hash"%js s a b) as (d & Hd); rewrite Hd; clear Hd;
         cbn [mbind outcome_bind]
     | |- good _ (match ?o with Some _ => _ | None => _ end) => destruct o
     | |- True => exact I
     | |- match js_or _ _ with _ => _ end => unfold js_or; destruct (truthy _); exact I
     | |- act_ok _ => handler_leaf
     | |- ∀ _, act_ok _ => intros ?; handler_leaf
     | |- match Some _ with _ => _ end => cbv beta iota
     | |- match None with _ => _ end => exact I
     | |- match snd _ with _ => _ end => cbn [snd]; cbv beta iota
     end].
Ltac parts_good := repeat part_step.

Ltac markup_step :=
  lazymatch goal with
  | |- Forall _ [] => constructor
  | |- Forall _ (hel _ _ _ _) => apply sound_hel
  | |- Forall _ (hdiv _) => apply sound_hel
  | |- Forall _ (hspan _) => apply sound_hel
  | |- Forall _ (hp _) => apply sound_hel
  | |- Forall _ (htxt _) => apply sound_htxt
  | |- Forall _ hnone => constructor
  | |- Forall _ (hwhen _ _) => apply sound_hwhen
  | |- Forall _ (heach _ _) => apply sound_heach; intros ?; cbv beta
  | |- Forall _ (heach_i _ _) => apply sound_heach_i; intros ? ?; cbv beta
  | |- Forall _ (if ?b then _ else _) => destruct b
  | |- Forall _ (_ :: _) => constructor; cbv beta
  | |- handler_all _ _ => handler_leaf
  end.
Ltac markup := repeat markup_step.

Section pages.
Context `{Host} `{UnicodeCase} (now : Z).

Abbreviation typed t l := (Forall (λ x, conforms t x = true) l).
Abbreviation fits r := (good act_ok r).

Lemma Pages_fits f page total size : (∀ p, event_ok (f p)) → fits (Pages.Pages f page total size).
Proof.
  intros Hf. apply good_Ok, sound_fmap, Forall_true. intros v. apply sound_any. intros []. apply Hf.
Qed.

Lemma table_head_fits l : fits (Pages.table_head l).
Proof. unfold Pages.table_head. parts_good. apply Forall_fmap, Forall_true. intros h. unfold compose. parts_good. Qed.

Ltac page := parts_good; try apply table_head_fits; try (apply Pages_fits; intros ?; exact I).

Lemma BlocksPage_fits b q l total page size :
  typed IndexedBlock l → fits (Pages.BlocksPage now b q l total page size).
Proof. intros Hl. unfold Pages.BlocksPage, Pages.block_row. page. Qed.

Lemma TransactionsPage_fits b t q l total page size :
  typed IndexedTx l → fits (Pages.TransactionsPage now b t q l total page size).
Proof. intros Hl. unfold Pages.TransactionsPage, Pages.tx_filters, Pages.tx_row. page. Qed.

Lemma BlockDetailsPage_fits tab block txs :
  conforms IndexedBlock block = true → typed IndexedTx txs → fits (Pages.BlockDetailsPage now tab block txs).
Proof.
  intros Hb Ht. unfold Pages.BlockDetailsPage, Pages.block_overview, Pages.block_txs_table, Pages.block_tx_row.
  page.
Qed.

Lemma TxDetailsPage_fits tab tx c :
  conforms IndexedTx tx = true → fits (Pages.TxDetailsPage now tab tx c).
Proof. intros Ht. unfold Pages.TxDetailsPage, Pages.tx_flow, Pages.tx_overview, Pages.tx_logs. page. Qed.

Lemma ValidatorsPage_fits b q l :
  typed IndexedValidator l → fits (Pages.ValidatorsPage b q l).
Proof. intros Hl. unfold Pages.ValidatorsPage, Pages.validator_filters, Pages.validator_row. page. Qed.

Lemma ValidatorDetailsPage_fits tab v :
  conforms IndexedValidator v = true → fits (Pages.ValidatorDetailsPage tab v).
Proof.
  intros Hv. unfold Pages.ValidatorDetailsPage, Pages.validator_banner, Pages.validator_overview,
    Pages.validator_delegations. page.
Qed.

Lemma ContractsPage_fits q l : typed SmartContract l → fits (Pages.ContractsPage q l).
Proof. intros Hl. unfold Pages.ContractsPage, Pages.contract_row. page. Qed.

Lemma ContractDetailsPage_fits tab c :
  conforms SmartContract c = true → fits (Pages.ContractDetailsPage tab c).
Proof. intros Hc. unfold Pages.ContractDetailsPage, Pages.contract_banner. page. Qed.

Lemma StakingPage_fits a l c : typed IndexedValidator l → fits (Pages.StakingPage a l c).
Proof. intros Hl. unfold Pages.StakingPage, Pages.stake_calculator, Pages.stake_share. page. Qed.

Lemma NetworkStatusPage_fits s : conforms NetworkStats s = true → fits (Pages.NetworkStatusPage s).
Proof. intros Hs. unfold Pages.NetworkStatusPage, Pages.subsystems. page. Qed.

Lemma is_out_typed account tx :
  conforms IndexedAccount account = true → conforms IndexedTx tx = true → ∃ b, Pages.is_out account tx = Ok b.
Proof.
  intros Ha Ht. unfold Pages.is_out, Pages.is_account, string_prop.
  destruct (req_prop _ _ "sender"%js _ Ht eq_refl) as (s & -> & Hs).
  destruct (req_prop _ _ "address"%js _ Ha eq_refl) as (a & -> & Haa).
  destruct s, a; try done. by eexists.
Qed.

Lemma is_in_typed account tx :
  conforms IndexedAccount account = true → conforms IndexedTx tx = true → ∃ b, Pages.is_in account tx = Ok b.
Proof.
  intros Ha Ht. unfold Pages.is_in, Pages.is_account, string_prop.
  destruct (typed_prop _ _ "recipient"%js _ _ Ht eq_refl) as (s & -> & Hs).
  destruct (req_prop _ _ "address"%js _ Ha eq_refl) as (a & -> & Haa). destruct a; try done.
  destruct Hs as [Hs|[_ ->]]; [destruct s|]; try done; by eexists.
Qed.

Lemma account_txs_fits account l :
  conforms IndexedAccount account = true → typed IndexedTx l → fits (Pages.account_txs_table now account l).
Proof.
  intros Ha Hl. unfold Pages.account_txs_table. page.
  destruct (is_out_typed account x) as (b & ->); [done..|]. cbn [mbind outcome_bind].
  unfold Pages.account_tx_row. page.
Qed.

Lemma AddressPage_fits f tab qr account txs l c :
  conforms IndexedAccount account = true → typed IndexedTx l →
  fits (Pages.AddressPage now f tab qr account txs l c).
Proof.
  intros Ha Hl. unfold Pages.AddressPage, Pages.account_banner, Pages.account_staking. page.
  by apply account_txs_fits.
Qed.

(** ** Markup *)

Lemma LearnPage_fits tab : Forall (sound act_ok) (Learn.LearnPage tab).
Proof. unfold Learn.LearnPage, Learn.learn_banner, Learn.learn_hub, Learn.what_is_sprx, Learn.real_world_x, Learn.tokenomics, Learn.consensus, Learn.wallets, Learn.security. markup. Qed.

Lemma PortalPage_fits st : Forall (sound act_ok) (Portal.DevelopersPortalPage st).
Proof. unfold Portal.DevelopersPortalPage, Portal.dev_banner, Portal.dev_overview, Portal.rpc_playground, Portal.contracts_guide, Portal.nodes_guide, Portal.standards_guide. markup. by apply sound_local. Qed.

Lemma statics_fit : Forall (sound act_ok) (WhitepaperPage ++ AboutPage ++ BrandKitPage).
Proof. repeat (apply Forall_app; split); unfold WhitepaperPage, AboutPage, BrandKitPage; markup. Qed.

(** ** Hubs *)

Lemma obj_get_string (fs : list (jsstring * jsval)) k :
  Forall (λ kv, ∃ s, kv.2 = JStr s) fs → obj_get fs k = JUndef ∨ ∃ s, obj_get fs k = JStr s.
Proof. induction 1 as [|[k' v] fs [s Hs] _ IH]; cbn in *; [by left|]. case_bool_decide; eauto. Qed.

Lemma proposal_fits voted prop :
  Forall (λ kv, ∃ s, kv.2 = JStr s) voted → conforms GovernanceProposal prop = true →
  fits (Governance.proposal_card voted prop).
Proof.
  intros Hv Hp. unfold Governance.proposal_card. page.
  destruct (obj_get_string _ (to_string (JNum n)) Hv) as [->|[s ->]]; page.
Qed.

Lemma sip_modal_fits sel : opt_typed SIPItem sel → fits (jwhen (truthy sel) (Governance.sip_modal sel)).
Proof.
  intros [Hs|Hs].
  - destruct sel; try done; apply good_none.
  - unfold Governance.sip_modal. page.
Qed.

Lemma GovernancePage_fits tab proposals sips voted sel :
  typed GovernanceProposal proposals → typed SIPItem sips → opt_typed SIPItem sel →
  Forall (λ kv, ∃ s, kv.2 = JStr s) voted →
  fits (Governance.GovernancePage tab proposals sips voted sel).
Proof.
  intros Hp Hs Hsel Hv. pose proof (sip_modal_fits _ Hsel).
  unfold Governance.GovernancePage, Governance.gov_banner, Governance.sip_filters, Governance.sip_card,
    Governance.grants, Governance.bug_bounty.
  apply good_el; [constructor|]. repeat (apply Forall_cons; split; [|]); try done; try constructor; page.
  by apply proposal_fits.
Qed.

Lemma EcosystemPage_fits tab q c b projects assets :
  typed EcosystemProject projects → typed MarketAsset assets →
  fits (Ecosystem.EcosystemPage tab q c b projects assets).
Proof.
  intros Hp Ha. unfold Ecosystem.EcosystemPage, Ecosystem.eco_banner, Ecosystem.eco_filters, Ecosystem.project_card, Ecosystem.discover, Ecosystem.markets, Ecosystem.asset_row, Ecosystem.submit_modal. page.
Qed.

Lemma ResearchPage_fits l : typed ResearchPaper l → fits (Research.ResearchPage l).
Proof. 
  intros Hl. unfold Research.ResearchPage, Research.paper_card. page.
  match goal with Ha : conforms (TArr TStr) _ = true |- _ => apply typed_array in Ha as (authors & -> & _) end.
  cbn [join_of as_array mbind outcome_bind]. page.
Qed.

Lemma chart_fits i title sub suffix data hovers :
  data = chart_data i → hover_ok i (default None (hovers !! i)) →
  fits (Analytics.chart_card i title sub suffix data hovers).
Proof.
  intros -> Hh. apply good_map. unfold ChartCard.render.
  destruct (chart_data i) as [|d l] eqn:Hd; [page|].
  assert (∃ a, ChartCard.activePoint (default None (hovers !! i)) (d :: l) = Some a) as (a & ->).
  { unfold hover_ok in Hh. destruct (default None (hovers !! i)) as [j|]; cbn.
    - rewrite Hd in Hh. by apply lookup_lt_is_Some_2.
    - destruct (last (d :: l)) as [a|] eqn:Hl; [eauto|]. by apply last_None in Hl. }
  page. apply good_Ok. constructor; [|constructor]. apply sound_El. split; [by repeat constructor|].
  apply Forall_app. split; [by repeat constructor|]. apply Forall_lookup_2. intros j v Hj.
  rewrite list_lookup_imap in Hj. apply fmap_Some in Hj as (p & Hp & ->). apply sound_El. split; [|constructor].
  constructor; [|constructor]. cbn. unfold hover_ok. rewrite Hd.
  apply lookup_lt_Some in Hp. unfold ChartCard.points in Hp. by rewrite length_imap in Hp.
Qed.

Lemma AnalyticsPage_fits hovers :
  (∀ i, hover_ok i (default None (hovers !! i))) → fits (Analytics.AnalyticsPage hovers).
Proof. intros Hh. unfold Analytics.AnalyticsPage. page; by apply chart_fits. Qed.

Lemma NotFoundPage_fits : fits (NotFoundPage (go "/"%js) (Up OpenSearch)).
Proof. unfold NotFoundPage. page. Qed.

(** ** Home and frame *)

Lemma field_fits {E} (P : E → Prop) fields v k o t :
  conforms (TObj fields) v = true → field_ty fields k = Some (o, t) → renderable t = true →
  good P (child (field v k)).
Proof.
  intros Hv Hk Hr. apply good_child. eapply child_opt_ok; [exact Hr|]. eapply field_typed; [by right|exact Hk].
Qed.

Lemma strip_fits stats : conforms NetworkStats stats = true → good event_ok (LiveNetworkStrip stats "mainnet"%js).
Proof.
  intros Hs. unfold LiveNetworkStrip. page; eapply field_fits; first [eassumption|reflexivity].
Qed.

Lemma layers_lead : forallb (λ l, leads (ProtocolVisualizer.layer_docLink l)) ProtocolVisualizer.PROTOCOL_LAYERS = true.
Proof. by vm_compute. Qed.

Lemma selectedLayer_leads id : leads (ProtocolVisualizer.layer_docLink (ProtocolVisualizer.selectedLayer id)) = true.
Proof.
  unfold ProtocolVisualizer.selectedLayer. destruct (list_find _ _) as [[i l]|] eqn:Hl; [|by vm_compute].
  apply list_find_Some in Hl as (Hl & _). apply list_elem_of_lookup_2, list_elem_of_In in Hl.
  pose proof layers_lead as Hf. rewrite forallb_forall in Hf. auto.
Qed.

Lemma visualizer_fits id : Forall (sound act_ok) (map_view Home.layer_act <$> ProtocolVisualizer.render id).
Proof.
  pose proof (selectedLayer_leads id) as Hl. apply sound_fmap.
  unfold ProtocolVisualizer.render, ProtocolVisualizer.inspector, ProtocolVisualizer.layer_card. markup.
Qed.

Lemma categories_fit : fits (jeach Home.rwaCategories (λ item, Home.category_card item)).
Proof. apply good_jeach_in. unfold Home.rwaCategories. repeat constructor; unfold Home.category_card; page. Qed.

Lemma metrics_fits stats : conforms NetworkStats stats = true → fits (Home.metrics stats).
Proof. intros Hs. unfold Home.metrics. page. destruct (truthy _); apply good_txt. Qed.

Lemma feeds_fits bs ts : typed IndexedBlock bs → typed IndexedTx ts → fits (Home.feeds now bs ts).
Proof. intros Hb Ht. unfold Home.feeds, Home.home_block, Home.home_tx. page. Qed.

Lemma HomePage_fits stats bs ts bar play layer :
  conforms NetworkStats stats = true → typed IndexedBlock bs → typed IndexedTx ts →
  fits (Home.HomePage now stats bs ts bar play layer).
Proof.
  intros Hs Hb Ht. pose proof (metrics_fits _ Hs). pose proof (feeds_fits _ _ Hb Ht). pose proof (strip_fits _ Hs).
  pose proof categories_fit.
  unfold Home.HomePage, Home.hero, Home.real_world, Home.principles, Home.playground_section, Home.roadmap,
    Home.call_to_action.
  page.
  - apply good_Ok. by apply (sound_local _ _ [_]).
  - apply good_Ok, visualizer_fits.
  - apply good_Ok. by apply sound_local.
Qed.

Lemma footer_fits year h : opt_typed TNum h → good event_ok (AppFooter year h).
Proof.
  intros [Hh|Hh]; destruct h; try done;
    unfold AppFooter, footer_explore, footer_learn, footer_ecosystem, footer_bottom; page. apply good_txt.
Qed.

(** ** Header and modals *)

Definition header_ok (e : AppHeader.Event) : Prop :=
  match e with AppHeader.Nav route => leads route = true | AppHeader.Up e => event_ok e | _ => True end.

Lemma header_fits network currency theme wallet st :
  Forall (sound header_ok) (AppHeader.render network currency theme wallet st).
Proof.
  unfold AppHeader.render, AppHeader.testnet_strip, AppHeader.navigation, AppHeader.explore_menu,
    AppHeader.learn_menu, AppHeader.devs_menu, AppHeader.network_menu, AppHeader.ecosystem_menu,
    AppHeader.gov_menu, AppHeader.controls, AppHeader.wallet_button, AppHeader.mobile_menu.
  markup.
Qed.

Definition started_ok (e : GetStartedModal.Event) : Prop :=
  match e with GetStartedModal.Select route => leads route = true | GetStartedModal.Close => True end.

Lemma started_fits isOpen : Forall (sound started_ok) (GetStartedModal.render isOpen).
Proof.
  unfold GetStartedModal.render, GetStartedModal.modal.
  repeat first
    [lazymatch goal with
     | |- Forall _ (heach GetStartedModal.pathways _) => apply sound_heach_in; unfold GetStartedModal.pathways
     end
    |markup_step].
Qed.
End pages.
