(* ===== verification/ExplorerContract.v ===== *)
(** * What the explorer expects of its servers

    The types of the answers that [services/api.ts] relies on, and that every query
    then returns a value of the type it declares, whether it was answered by the
    indexer, by a node or not at all. *)
From stdpp Require Import gmap.
From S2P Require Import Prelude JsString JsStringFacts JsNumber JsJson Async Formatters View Render Types RenderTyped.
From S2P Require Import Offers MockData ExplorerTypes ExplorerApi ExplorerApiFacts.
Import MockData ExplorerTypes Formatters ExplorerApiService.

#[local] Arguments conforms : simpl never.
#[local] Arguments mock_page : simpl never.
#[local] Arguments find : simpl never.
#[local] Arguments fallback_tx : simpl never.
#[local] Arguments fallback_block : simpl never.
#[local] Arguments fallback_account : simpl never.
#[local] Arguments fallback_history : simpl never.

(** ** The contract *)

(** The answers the code types as [any], by the properties it reads. *)
Definition status_fields : list (jsstring * bool * ty) :=
  [opt "chainId"%js TStr; opt "latestBlockHeight"%js TNum; opt "height"%js TNum;
   opt "latestBlockHash"%js TStr; opt "totalTransactions"%js TNum; opt "totalAccounts"%js TNum;
   opt "activeValidators"%js TNum; opt "totalStaked"%js TStr; opt "tps"%js TNum;
   opt "stateRoot"%js TStr].

Definition IndexerStatus : ty := TObj (opt "data"%js (TObj status_fields) :: status_fields).

Definition NodeStatus : ty :=
  TObj [opt "chainId"%js TStr; opt "height"%js TNum; opt "latestBlockHash"%js TStr;
        opt "validatorCount"%js TNum; opt "stateRoot"%js TStr].

Definition NodeHeader : ty :=
  TObj [req "height"%js TNum; opt "app_hash"%js TStr; opt "last_block_id"%js (TObj [opt "hash"%js TStr]);
        opt "chain_id"%js TStr; opt "time"%js TStr; opt "proposer_address"%js TStr;
        opt "data_hash"%js TStr].

Definition NodeBlock : ty :=
  TObj [opt "header"%js NodeHeader; opt "data"%js (TObj [opt "txs"%js (TArr TAny)])].

Definition NodeTx : ty :=
  TObj [opt "hash"%js TStr; opt "height"%js TNum; opt "block_hash"%js TStr; opt "sender"%js TStr;
        opt "recipient"%js TStr; opt "amount"%js TStr; opt "nonce"%js TNum; opt "memo"%js TStr;
        opt "success"%js TBool].

Definition NodeBalance : ty := TObj [opt "balance_atto"%js TStr; opt "address_hex"%js TStr].
Definition NodeNonce : ty := TObj [opt "nonce"%js TNum].

Definition api_url (n : ExplorerApi.Network) (endpoint : jsstring) : jsstring :=
  cfg_apiBase (NETWORK_CONFIG n) ++ endpoint.
Definition rpc_url (n : ExplorerApi.Network) (endpoint : jsstring) : jsstring :=
  cfg_rpcUrl (NETWORK_CONFIG n) ++ endpoint.

(** The type of what is found at an address. *)
Inductive answers : jsstring → ty → Prop :=
| Api_status n : answers (api_url n "/blockchain/status"%js) IndexerStatus
| Rpc_status n : answers (rpc_url n "/status"%js) NodeStatus
| Api_blocks n limit offset :
    answers (api_url n ("/blocks"%js ++ paging limit offset)) (PaginatedResponse IndexedBlock)
| Rpc_latest n : answers (rpc_url n "/blocks/latest"%js) NodeBlock
| Api_block n id : answers (api_url n ("/blocks/"%js ++ id)) IndexedBlock
| Rpc_block n id : answers (rpc_url n ("/blocks/"%js ++ id)) NodeBlock
| Api_txs n limit offset :
    answers (api_url n ("/txs"%js ++ paging limit offset)) (PaginatedResponse IndexedTx)
| Api_tx n hash : answers (api_url n ("/blockchain/transactions/"%js ++ hash)) IndexedTx
| Rpc_tx n hash : answers (rpc_url n ("/txs/"%js ++ hash)) NodeTx
| Api_account n a : answers (api_url n ("/blockchain/accounts/"%js ++ a)) IndexedAccount
| Rpc_balance n a : answers (rpc_url n ("/accounts/"%js ++ a ++ "/balance"%js)) NodeBalance
| Rpc_nonce n a : answers (rpc_url n ("/accounts/"%js ++ a ++ "/nonce"%js)) NodeNonce
| Api_history n a limit offset :
    answers (api_url n ("/addresses/"%js ++ a ++ "/txs"%js ++ paging limit offset))
      (PaginatedResponse IndexedTx)
| Api_validators n : answers (api_url n "/validators"%js) (TArr IndexedValidator)
| Api_search n q : answers (api_url n ("/search?q="%js ++ q)) SearchResult.

(** An answer is no answer, or of its type. *)
Definition typed_answer (rq : fetch_request) (r : outcome response) : Prop :=
  ∀ t, answers (rq_url rq) t → opt_typed t (answered r).

Lemma failed_typed rq r : failed r → typed_answer rq r.
Proof. intros Hr t _. left. by rewrite Hr. Qed.

(** ** Values made from typed ones *)

Lemma or_str_typed v s : opt_typed TStr v → conforms TStr (or_str v s) = true.
Proof. unfold or_str, js_or. intros [Hv|Hv]; destruct v; try done. by destruct (truthy _). Qed.

Lemma or_int_typed v z : opt_typed TNum v → conforms TNum (or_int v z) = true.
Proof. unfold or_int, js_or. intros [Hv|Hv]; destruct v; try done. by destruct (truthy _). Qed.

Lemma js_or_typed t v w : opt_typed t v → opt_typed t w → opt_typed t (js_or v w).
Proof. unfold js_or. by destruct (truthy v). Qed.

Lemma truthy_typed t v : truthy v = true → opt_typed t v → conforms t v = true.
Proof. intros Hv [Hn|?]; [by destruct v|done]. Qed.

Lemma length_typed t v : opt_typed (TArr t) v → opt_typed TNum (field v "length"%js).
Proof. intros [Hv|Hv]; destruct v; try done; [by left..|by right]. Qed.

Lemma wider_typed f fields v : opt_typed (TObj (f :: fields)) v → opt_typed (TObj fields) v.
Proof.
  intros [Hv|Hv]; [by left|]. right. destruct v; try done. by apply andb_true_iff in Hv as [_ Hv].
Qed.

Lemma and_field_typed fields v k o t :
  opt_typed (TObj fields) v → field_ty fields k = Some (o, t) → opt_typed t (and_field v k).
Proof. intros Hv Hk. unfold and_field. destruct (truthy v); [by eapply field_typed|by left]. Qed.

Lemma single_typed t v : conforms t v = true → conforms (TArr t) (JArr [v]) = true.
Proof. intros Hv. unfold conforms. fold conforms. cbn. by rewrite Hv. Qed.

Lemma nullable_typed t v : conforms t v = true → conforms (TOr t TNull) v = true.
Proof. intros Hv. apply orb_true_iff. by left. Qed.

(** An object that was written out. *)
Fixpoint has_fields (fields : list (jsstring * bool * ty)) (fs : list (jsstring * jsval)) : Prop :=
  match fields with
  | [] => True
  | (k, false, t) :: fields' => conforms t (obj_get fs k) = true ∧ has_fields fields' fs
  | (k, true, t) :: fields' =>
      (obj_get fs k = JUndef ∨ conforms t (obj_get fs k) = true) ∧ has_fields fields' fs
  end.

Lemma has_fields_conforms fields fs : has_fields fields fs → conforms (TObj fields) (JObj fs) = true.
Proof.
  intros Hf. unfold conforms. fold conforms. induction fields as [|[[k o] t] fields IH]; [done|].
  destruct o, Hf as [Hk Hf]; cbn; rewrite IH by done; rewrite andb_true_r.
  - destruct Hk as [->|Hk]; [done|]. by case_match.
  - by case_match.
Qed.

Create HintDb typed.
#[export] Hint Resolve or_str_typed or_int_typed js_or_typed length_typed single_typed nullable_typed truthy_typed : typed.
(** A property of a value whose type is known or can be found. *)
Ltac typed_by lem v :=
  first [multimatch goal with Hv : opt_typed _ v |- _ => eapply lem; [exact Hv|reflexivity] end
        |eapply lem; [solve [eauto with typed]|reflexivity]].
#[export] Hint Extern 4 (opt_typed _ (field ?v _)) => typed_by field_typed v : typed.
#[export] Hint Extern 4 (opt_typed _ (and_field ?v _)) => typed_by and_field_typed v : typed.

(** The value of a key of an object that is written out. *)
Ltac entry fs k := lazymatch fs with (k, ?v) :: _ => v | _ :: ?fs' => entry fs' k end.

Ltac written :=
  apply has_fields_conforms;
  repeat lazymatch goal with
  | |- has_fields _ [] => exact I
  | |- has_fields [] _ => exact I
  | |- has_fields ?fields ?fs => let fields' := eval hnf in fields in change (has_fields fields' fs); cbn [has_fields req opt]
  | |- _ ∧ _ => split
  | |- conforms ?t (obj_get ?fs ?k) = true =>
      let v := entry fs k in change (conforms t v = true); first [reflexivity|solve [eauto with typed]|by case_match]
  | |- True => exact I
  | |- _ ∨ _ => first [left; reflexivity|right]
  end.

(** ** The queries *)

Section queries.
Context `{Host} `{UnicodeCase} (loaded : Z).

(** A query that returns a value of type [t], whatever happens in between. *)
Abbreviation returns Q c := (ensures typed_answer (λ _ : Api, True) Q c).
Definition yields (t : ty) (c : cmd Api jsval) : Prop := returns (λ v, conforms t v = true) c.

Lemma json_or_null_typed t url : answers url t → returns (opt_typed t) (json_or_null url).
Proof.
  intros Ht r Hr. specialize (Hr t Ht). unfold answered in Hr. cbn.
  destruct r as [r|e]; [|by left]. cbn. destruct (rs_ok r) eqn:Hok; cbn; [|by left].
  destruct (rs_json r) as [v|e]; cbn in *; [done|by left].
Qed.

Lemma after_json {B} (Q : B → Prop) t url (f : jsval → cmd Api B) :
  answers url t → (∀ v, opt_typed t v → returns Q (f v)) → returns Q (json_or_null url ≫= f).
Proof. intros Ht Hf. eapply ensures_bind; [by apply json_or_null_typed|done]. Qed.

Lemma after_fetch {B} (Q : B → Prop) t e (f : jsval → cmd Api B) :
  (∀ n, answers (api_url n e) t) → (∀ v, opt_typed t v → returns Q (f v)) → returns Q (fetchJson e ≫= f).
Proof. intros Ht Hf a _. exact (after_json Q t _ f (Ht _) Hf). Qed.

Lemma after_rpc {B} (Q : B → Prop) t e (f : jsval → cmd Api B) :
  (∀ n, answers (rpc_url n e) t) → (∀ v, opt_typed t v → returns Q (f v)) → returns Q (fetchRpcJson e ≫= f).
Proof. intros Ht Hf a _. exact (after_json Q t _ f (Ht _) Hf). Qed.

Lemma after_offline {B} (Q : B → Prop) b (f : unit → cmd Api B) :
  returns Q (f tt) → returns Q (set_offline b ≫= f).
Proof. by split. Qed.

Lemma after_config {B} (Q : B → Prop) (f : ApiConfig → cmd Api B) :
  (∀ n, returns Q (f (NETWORK_CONFIG n))) → returns Q (getNetworkConfig ≫= f).
Proof. intros Hf a _. apply Hf. Qed.

Lemma after_now {B} (Q : B → Prop) (f : Z → cmd Api B) :
  (∀ now, returns Q (f now)) → returns Q (now_secs ≫= f).
Proof. intros Hf a _. apply Hf. Qed.

Lemma after_time {B} (Q : B → Prop) time (f : jsval → cmd Api B) :
  (∀ n, returns Q (f (JNum n))) → returns Q (block_time time ≫= f).
Proof. intros Hf a _. cbn. destruct (truthy time); apply Hf. Qed.

(** One step of a proof that a query returns a typed value. *)
Ltac query_step :=
  lazymatch goal with
  | |- yields _ _ => unfold yields
  | |- returns _ (Ret _) => cbn [ensures]; cbv beta
  | |- returns _ (fetchJson _ ≫= _) => eapply after_fetch; [constructor|intros ? ?]
  | |- returns _ (fetchRpcJson _ ≫= _) => eapply after_rpc; [constructor|intros ? ?]
  | |- returns _ (json_or_null _ ≫= _) => eapply after_json; [constructor|intros ? ?]
  | |- returns _ (names_chain _ ≫= _) => rewrite names_chain_spec
  | |- returns _ (and_prop _ _ ≫= _) => rewrite and_prop_spec
  | |- returns _ (nonempty_page _ ≫= _) => rewrite nonempty_page_spec
  | |- returns _ (prop_opt _ _ ≫= _) => rewrite bind_prop_opt
  | |- returns _ (prop _ _ ≫= _) =>
      rewrite bind_prop by eauto using truthy_js_or, has_status_truthy, and_field_truthy
  | |- returns _ (set_offline _ ≫= _) => apply after_offline
  | |- returns _ (getNetworkConfig ≫= _) => apply after_config; intros ?
  | |- returns _ (now_secs ≫= _) => apply after_now; intros ?
  | |- returns _ (block_time _ ≫= _) => apply after_time; intros ?
  | |- returns _ (lift _ ≫= _) => apply ensures_lift; intros ? ?
  | |- returns _ (if ?b then _ else _) => destruct b eqn:?
  end.
Ltac query := repeat query_step.

Lemma has_items_truthy v : has_items v = true → truthy v = true.
Proof. unfold has_items. by destruct (truthy v). Qed.


Lemma getStats_yields : yields NetworkStats getStats.
Proof.
  unfold getStats. query; [| |done].
  - assert (opt_typed (TObj status_fields) v) by (by eapply wider_typed).
    assert (opt_typed (TObj status_fields) (js_or (field v "data"%js) v)) by eauto with typed. written.
  - written.
Qed.

Lemma rpc_block_yields rpc header height d :
  opt_typed NodeBlock rpc → truthy rpc = true → conforms NodeHeader header = true →
  conforms TNum height = true → yields IndexedBlock (rpc_block rpc header height d).
Proof.
  intros Hr Hrt Hh Hn. assert (opt_typed NodeHeader header) by (by right).
  assert (truthy header = true) by (by destruct header). unfold rpc_block. query. written.
Qed.

Lemma getBlocks_yields limit offset : yields (PaginatedResponse IndexedBlock) (getBlocks loaded limit offset).
Proof.
  unfold getBlocks. query.
  - by eapply truthy_typed; [apply has_items_truthy|].
  - assert (truthy v0 = true) by (by eapply and_field_truthy).
    assert (conforms NodeHeader (and_field v0 "header"%js) = true) by (apply truthy_typed; eauto with typed).
    eapply ensures_bind; [apply rpc_block_yields; eauto with typed|].
    intros b Hb. cbn [ensures]. written.
  - apply mock_page_typed, mock_blocks_typed.
Qed.

Lemma truthy_null t v : truthy v = true → conforms (TOr t TNull) v = true → conforms t v = true.
Proof. intros Ht [Hv|Hv]%orb_true_iff; [done|by destruct v]. Qed.

Lemma found_typed t v : truthy v = true → opt_typed t v → conforms (TOr t TNull) v = true.
Proof. intros Hv Ht. by apply nullable_typed, truthy_typed. Qed.

Lemma getBlock_yields id : yields (TOr IndexedBlock TNull) (getBlock loaded id).
Proof.
  unfold getBlock. query.
  - by apply found_typed.
  - assert (conforms NodeHeader (and_field v0 "header"%js) = true) as Hh
      by (apply truthy_typed; eauto with typed).
    destruct (req_prop _ _ "height"%js _ Hh eq_refl) as (h & Hp & Hn).
    rewrite get_prop_truthy in Hp by done. injection Hp as ->.
    eapply ensures_weaken; [|apply rpc_block_yields; eauto using and_field_truthy].
    intros b. apply nullable_typed.
  - apply fallback_block_typed.
Qed.

Lemma getTransactions_yields limit offset :
  yields (PaginatedResponse IndexedTx) (getTransactions loaded limit offset).
Proof.
  unfold getTransactions. query.
  - by eapply truthy_typed; [apply has_items_truthy|].
  - apply mock_page_typed, mock_txs_typed.
Qed.

Lemma getTransaction_yields hash : yields (TOr IndexedTx TNull) (getTransaction loaded hash).
Proof.
  unfold getTransaction. query.
  - by apply found_typed.
  - apply nullable_typed. written.
  - apply find_typed, mock_txs_typed.
Qed.

Lemma getAddress_yields address : yields (TOr IndexedAccount TNull) (getAddress address).
Proof.
  unfold getAddress. query.
  - by apply found_typed.
  - assert (truthy v0 = true) as Ht by (unfold and_field in *; by destruct (truthy v0)).
    assert (conforms TStr (and_field v0 "balance_atto"%js) = true).
    { unfold and_field in *. rewrite Ht in *.
      destruct (typed_prop _ _ "balance_atto"%js _ _ (truthy_typed _ _ Ht H2) eq_refl) as (x & Hx & [Hs|[_ ->]]);
        rewrite get_prop_truthy in Hx by done; injection Hx as Hx; rewrite Hx in *; done. }
    query. apply nullable_typed. written.
  - apply fallback_account_typed.
Qed.

Lemma getAddressTransactions_yields address limit offset :
  yields (PaginatedResponse IndexedTx) (getAddressTransactions loaded address limit offset).
Proof.
  unfold getAddressTransactions. query.
  - by eapply truthy_typed; [apply has_items_truthy|].
  - apply mock_page_typed, fallback_history_typed.
Qed.

Lemma getValidators_yields : yields (TArr IndexedValidator) getValidators.
Proof.
  unfold getValidators. query; [|by vm_compute].
  match goal with Hb : _ && _ = true |- _ => apply andb_true_iff in Hb as [Hb _] end.
  by apply truthy_typed.
Qed.

Lemma getContracts_yields : yields (TArr SmartContract) getContracts.
Proof. by vm_compute. Qed.

Lemma contracts_typed : has_type SmartContract MOCK_GENESIS_CONTRACTS.
Proof. by repeat constructor. Qed.

Lemma validators_typed : has_type IndexedValidator MOCK_GENESIS_VALIDATORS.
Proof. by repeat constructor. Qed.

Lemma member_typed t p l v : has_type t l → find p l = Some v → conforms t v = true.
Proof. intros Hl [Hv _]%find_elem. unfold has_type in Hl. rewrite Forall_forall in Hl. auto. Qed.

Lemma getContract_yields address : yields (TOr SmartContract TNull) (getContract address).
Proof.
  unfold getContract, by_address. destruct (find _ _) as [c|] eqn:Hc.
  - apply nullable_typed. eapply member_typed; [apply contracts_typed|exact Hc].
  - by destruct (includes _ _).
Qed.

(** What a search finds: its kind, and data of the kind's type. *)
Inductive finds : jsstring → ty → Prop :=
| Finds_block : finds "Block"%js IndexedBlock
| Finds_tx : finds "Transaction"%js IndexedTx
| Finds_account : finds "Address"%js IndexedAccount
| Finds_validator : finds "Validator"%js IndexedValidator
| Finds_contract : finds "Contract"%js SmartContract.

Lemma result_typed kind t data :
  finds kind t → conforms t data = true → conforms SearchResult (result kind data) = true.
Proof.
  intros Hk Hd. unfold SearchResult.
  assert (conforms (TObj [req "type"%js (TEnum [kind]); req "data"%js t]) (result kind data) = true) as Hr.
  { apply has_fields_conforms. split; [|by split]. change (conforms (TEnum [kind]) (JStr kind) = true).
    apply bool_decide_eq_true. by left. }
  destruct Hk; repeat first [exact Hr|apply orb_true_iff; right; exact Hr|apply orb_true_iff; left].
Qed.

Lemma search_found v :
  conforms SearchResult v = true →
  ∃ kind t data, finds kind t ∧ get_prop v "type"%js = Ok (JStr kind) ∧ get_prop v "data"%js = Ok data
                 ∧ conforms t data = true.
Proof.
  intros Hv.
  enough (∃ kind t, finds kind t ∧ conforms (TObj [req "type"%js (TEnum [kind]); req "data"%js t]) v = true)
    as (kind & t & Hk & Ho).
  { destruct (req_prop _ _ "type"%js _ Ho eq_refl) as (ty & Hty & He).
    destruct (req_prop _ _ "data"%js _ Ho eq_refl) as (data & Hdata & Hd). exists kind, t, data.
    split_and!; [done| |done|done]. destruct ty; try done.
    apply bool_decide_eq_true, list_elem_of_singleton in He. by subst. }
  repeat (apply orb_true_iff in Hv as [Hv|Hv]); eexists _, _; (split; [|exact Hv]); constructor.
Qed.

(** One source of a search, and what is tried when it finds nothing. *)
Lemma try_yields kind t c k :
  finds kind t → yields (TOr t TNull) c → yields (TOr SearchResult TNull) k →
  yields (TOr SearchResult TNull) (v ← c; if truthy v then Ret (result kind v) else k).
Proof.
  intros Hk Hc Hn. eapply ensures_bind; [exact Hc|]. intros v Hv. destruct (truthy v) eqn:Ht; [|done].
  apply nullable_typed. eapply result_typed; [exact Hk|]. by apply truthy_null.
Qed.

Lemma member_found kind t p l v :
  finds kind t → has_type t l → find p l = Some v → conforms (TOr SearchResult TNull) (result kind v) = true.
Proof. intros Hk Hl Hv. eapply nullable_typed, result_typed, member_typed; done. Qed.

Lemma search_named_typed q : conforms (TOr SearchResult TNull) (search_named q) = true.
Proof.
  unfold search_named. destruct (find _ _) as [v|] eqn:Hv; [|done].
  eapply member_found; [constructor|apply validators_typed|exact Hv].
Qed.

Lemma search_address_yields q : yields (TOr SearchResult TNull) (search_address q).
Proof.
  unfold search_address. query; [|apply search_named_typed].
  apply (try_yields _ _ _ (Ret (search_named q)) Finds_account); [apply getAddress_yields|apply search_named_typed].
Qed.

Lemma search_registry_yields q : yields (TOr SearchResult TNull) (search_registry q).
Proof.
  unfold search_registry, by_address.
  destruct (if startsWith _ "spraxvaloper1"%js then _ else _) as [v|] eqn:Hv.
  { destruct (startsWith _ _); [|done]. eapply member_found; [constructor|apply validators_typed|exact Hv]. }
  destruct (if startsWith _ "sprax1contract"%js then _ else _) as [c|] eqn:Hc; [|apply search_address_yields].
  destruct (startsWith _ "sprax1contract"%js); [|done].
  eapply member_found; [constructor|apply contracts_typed|exact Hc].
Qed.

Lemma search_hash_yields q : yields (TOr SearchResult TNull) (search_hash loaded q).
Proof.
  unfold search_hash. query; [|apply search_registry_yields].
  apply (try_yields _ _ _ _ Finds_tx); [apply getTransaction_yields|].
  apply (try_yields _ _ _ _ Finds_block); [apply getBlock_yields|apply search_registry_yields].
Qed.

Lemma search_yields q : yields (TOr SearchResult TNull) (search loaded q).
Proof.
  unfold search. query; [done|by apply found_typed| |apply search_hash_yields].
  apply (try_yields _ _ _ _ Finds_block); [apply getBlock_yields|apply search_hash_yields].
Qed.
End queries.
