(* ===== verification/ExplorerTyped.v ===== *)
(** * The explorer's state holds typed data

    The invariant of [App]'s state, and that every handler and every task keeps it
    when the servers' answers have the types of the contract. *)
From stdpp Require Import gmap.
From S2P Require Import Prelude JsString JsStringFacts JsNumber JsJson JsJsonFacts Async Formatters View Render Types.
From S2P Require Import RenderTyped Offers MockData ExplorerTypes ExplorerApi ExplorerApiFacts ExplorerContract.
From S2P Require Import ExplorerUi ExplorerApp.
Import ExplorerTypes Formatters ExplorerApiService ExplorerApp.

#[local] Arguments conforms : simpl never.

(** ** The invariant *)

(** The types of the results of a [Promise.all]. *)
Definition site_types (site : CallSite) : list ty :=
  match site with
  | LoadAll => [NetworkStats; PaginatedResponse IndexedBlock; PaginatedResponse IndexedTx;
                TArr IndexedValidator; TArr SmartContract]
  | Polling => [NetworkStats; PaginatedResponse IndexedBlock; PaginatedResponse IndexedTx]
  | SelectedAddress => [TOr IndexedAccount TNull; PaginatedResponse IndexedTx]
  end.

Definition slot_typed (t : ty) (s : option jsval) : Prop :=
  match s with Some v => conforms t v = true | None => True end.

Definition join_typed (id : CallSite * nat) (slots : list (option jsval)) : Prop :=
  Forall2 slot_typed (site_types id.1) slots.

Definition strings (v : jsval) : Prop := ∃ l : list jsstring, v = JArr (JStr <$> l).

(** The stored searches are what the explorer itself stores. *)
Definition stored_strings (s : Storage) : Prop :=
  ∀ t, getItem s SearchModal.recents_key = Some t → t ≠ [] → ∃ v, JSON_parse t = Ok v ∧ strings v.

Record app_ok (st : State) : Prop := {
  ok_stats : opt_typed NetworkStats (stats st);
  ok_blocks : conforms (TArr IndexedBlock) (blocks st) = true;
  ok_transactions : conforms (TArr IndexedTx) (transactions st) = true;
  ok_validators : conforms (TArr IndexedValidator) (validators st) = true;
  ok_contracts : conforms (TArr SmartContract) (contracts st) = true;
  ok_currentBlock : opt_typed IndexedBlock (currentBlock st);
  ok_currentBlockTxs : conforms (TArr IndexedTx) (currentBlockTxs st) = true;
  ok_currentTx : opt_typed IndexedTx (currentTx st);
  ok_currentAccount : opt_typed IndexedAccount (currentAccount st);
  ok_currentAccountTxs : conforms (TArr IndexedTx) (currentAccountTxs st) = true;
  ok_currentValidator : opt_typed IndexedValidator (currentValidator st);
  ok_currentContract : opt_typed SmartContract (currentContract st);
  ok_joins : map_Forall join_typed (joins st);
  ok_recents : strings (SearchModal.recents (search st));
  ok_stored : stored_strings (storage st);
}.

(** Everything but one part of the state is kept. *)
Ltac keep_app := intros; match goal with Hok : app_ok _ |- _ => destruct Hok end; constructor; cbn; auto.

(** ** Storage *)

Lemma stored_insert s k v :
  k ≠ SearchModal.recents_key → stored_strings s → stored_strings (<[k := v]> s).
Proof.
  intros Hk Hs t Ht. unfold getItem, Storage in *.
  apply lookup_insert_Some in Ht as [[? _]|[_ Ht]]; [done|by apply Hs].
Qed.

Lemma stored_delete s k : stored_strings s → stored_strings (delete k s).
Proof.
  intros Hs t Ht. unfold getItem, Storage in *. apply lookup_delete_Some in Ht as [_ Ht]. by apply Hs.
Qed.

Lemma stored_recents s l :
  stored_strings (<[SearchModal.recents_key := json_ser (JArr (JStr <$> l))]> s).
Proof.
  intros t Ht _. unfold getItem, Storage in *. rewrite lookup_insert_eq in Ht. injection Ht as <-.
  exists (JArr (JStr <$> l)). split; [apply strings_roundtrip|by exists l].
Qed.

Lemma strings_slice l i j : strings (JArr l) → strings (JArr (slice l i j)).
Proof. intros [ss Hs]. injection Hs as ->. exists (slice ss i j). unfold slice. by rewrite fmap_take, fmap_drop, length_fmap. Qed.

Lemma load_recents_strings s m :
  stored_strings s → strings (SearchModal.recents m) → strings (SearchModal.recents (SearchModal.load_recents s m)).
Proof.
  intros Hs Hm. unfold SearchModal.load_recents.
  destruct (getItem s _) as [[|c t]|] eqn:Ht; [done| |done].
  destruct (Hs _ Ht ltac:(done)) as (v & -> & l & ->). cbn. by apply strings_slice; exists l.
Qed.

Lemma push_recent_stringy q l : strings (JArr l) → ∃ l', SearchModal.push_recent q l = JStr <$> l'.
Proof. intros [ss Hs]. injection Hs as ->. rewrite push_recent_strings. eauto. Qed.

(** ** Commands *)

Abbreviation gives t c := (ensures typed_answer app_ok (λ v, conforms t v = true) c).
Abbreviation keeps c := (preserves typed_answer app_ok c).
Abbreviation all_typed := (Forall2 (λ t v, conforms t v = true)).

(** What a handler does: the state it leaves and the tasks it starts. *)
Definition handled (r : State * list (cmd State unit)) : Prop := app_ok r.1 ∧ Forall (λ c, keeps c) r.2.

Lemma zoom_ensures {A} (Q : A → Prop) (c : cmd Api A) :
  ensures typed_answer (λ _, True) Q c → ensures typed_answer app_ok Q (call c).
Proof.
  intros Hc. unfold call. induction c as [a|e|k IH|f k IH|rq k IH|k IH]; cbn in *; auto.
  destruct Hc as [_ Hc]. split; [|auto]. keep_app.
Qed.

Lemma call_gives t c : yields t c → gives t (call c).
Proof. apply zoom_ensures. Qed.

Lemma fill_ok id i t v st :
  site_types id.1 !! i = Some t → conforms t v = true → app_ok st → app_ok (fill id i v st).
Proof.
  intros Ht Hv Hok. destruct Hok. constructor; cbn; auto. intros id' slots Hs.
  apply lookup_alter_Some in Hs as [(-> & slots' & Hs & ->)|[_ Hs]]; [|by eapply ok_joins0].
  apply ok_joins0 in Hs. unfold join_typed in *. rewrite <-(list_insert_id _ _ _ Ht).
  by apply Forall2_insert.
Qed.

Lemma joined_typed id st vs : app_ok st → joined id st = Some vs → all_typed (site_types id.1) vs.
Proof.
  intros Hok Hj. unfold joined in Hj. apply bind_Some in Hj as (slots & Hs & Hj).
  apply (ok_joins _ Hok) in Hs. unfold join_typed in Hs. apply mapM_Some in Hj.
  revert vs Hj. induction Hs as [|t s ts slots Ht _ IH]; intros vs Hj; inversion Hj; subst; constructor; auto.
Qed.

Lemma one_of_keeps id k i c t :
  site_types id.1 !! i = Some t → gives t c → (∀ vs, all_typed (site_types id.1) vs → keeps (k vs)) →
  keeps (one_of id k i c).
Proof.
  intros Ht Hc Hk. eapply ensures_bind; [exact Hc|]. intros v Hv. split; [intros st; by eapply fill_ok|].
  intros st Hok. cbn. destruct (joined id st) as [vs|] eqn:Hj; [|done].
  apply Hk. by eapply joined_typed.
Qed.

Lemma promise_all_handled site cs k st :
  app_ok st → Forall2 (λ t c, gives t c) (site_types site) cs →
  (∀ vs, all_typed (site_types site) vs → keeps (k vs)) → handled (promise_all site cs k st).
Proof.
  intros Hok Hcs Hk. split; cbn.
  - destruct Hok. constructor; cbn; auto. apply map_Forall_insert_2; [|done].
    unfold join_typed. cbn. clear Hk. induction Hcs; constructor; [done|auto].
  - apply Forall_lookup_2. intros i c Hi. rewrite list_lookup_imap in Hi.
    apply fmap_Some in Hi as (c' & Hc & ->).
    destruct (Forall2_lookup_r _ _ _ _ _ Hcs Hc) as (t & Ht & Hg). by eapply one_of_keeps.
Qed.

Lemma with_items_keeps t v f :
  conforms (PaginatedResponse t) v = true →
  (∀ items st, conforms (TArr t) items = true → app_ok st → app_ok (f items st)) → keeps (with_items v f).
Proof.
  intros Hv Hf. unfold with_items. destruct (req_prop _ _ "items"%js _ Hv eq_refl) as (items & -> & Hi).
  split; [auto|done].
Qed.

(** ** Handlers *)

Section handlers.
Context `{Host} `{UnicodeCase} (loaded : Z).

(** A write that keeps the invariant, and what follows it. *)
Lemma write_then {A} Q f (k : unit → cmd State A) :
  (∀ st, app_ok st → app_ok (f st)) → ensures typed_answer app_ok Q (k tt) →
  ensures typed_answer app_ok Q (write f ≫= k).
Proof. by split. Qed.

Lemma navigateTo_keeps route : keeps (navigateTo route).
Proof. split; [keep_app|done]. Qed.

(** The results of all calls, taken apart. *)
Ltac results vs Hvs :=
  intros vs Hvs; cbn [site_types fst] in Hvs;
  repeat match goal with
  | Hvs : Forall2 _ (_ :: _) ?vs |- _ => apply Forall2_cons_inv_l in Hvs as (? & ? & ? & Hvs & ->)
  end; apply Forall2_nil_inv_l in Hvs as ->.

Lemma load_blocks_keeps s blkRes (k : cmd State unit) :
  conforms NetworkStats s = true → conforms (PaginatedResponse IndexedBlock) blkRes = true → keeps k →
  keeps (_ ← write (set_stats s); _ ← with_items blkRes set_blocks; k).
Proof.
  intros Hs Hb Hk. apply write_then; [keep_app; by right|].
  apply preserves_bind; [eapply with_items_keeps; [exact Hb|keep_app]|by intros _].
Qed.

Lemma load_txs_keeps txRes :
  conforms (PaginatedResponse IndexedTx) txRes = true → keeps (with_items txRes set_transactions).
Proof. intros Ht. eapply with_items_keeps; [exact Ht|keep_app]. Qed.

Ltac calls := cbn [site_types]; repeat (apply Forall2_cons_2; [apply call_gives|]); [..|apply Forall2_nil_2].

Lemma loadAllData_handled p q st : app_ok st → handled (loadAllData loaded p q st).
Proof.
  intros Hok. apply promise_all_handled; [done| |].
  { calls; [apply getStats_yields|apply getBlocks_yields|apply getTransactions_yields
      |apply getValidators_yields|apply getContracts_yields]. }
  results vs Hvs. apply preserves_catch; [|done]. apply load_blocks_keeps; [done..|].
  apply preserves_bind; [by apply load_txs_keeps|intros _].
  apply write_then; [keep_app|]. apply preserves_write. keep_app.
Qed.

Lemma poll_handled st : app_ok st → handled (poll loaded st).
Proof.
  intros Hok. apply promise_all_handled; [done| |].
  { calls; [apply getStats_yields|apply getBlocks_yields|apply getTransactions_yields]. }
  results vs Hvs. apply preserves_catch; [|done]. apply load_blocks_keeps; [done..|]. by apply load_txs_keeps.
Qed.

Lemma handleNetworkChange_handled n st : app_ok st → handled (handleNetworkChange loaded n st).
Proof.
  intros Hok. apply loadAllData_handled. keep_app. by apply stored_insert.
Qed.

(** The transactions of a block, among those that are loaded. *)
Lemma filter_height_typed t block l txs :
  Forall (λ x, conforms t x = true) l → filter_height block l = Ok txs → Forall (λ x, conforms t x = true) txs.
Proof.
  intros Hl. revert txs. induction Hl as [|x l Hx Hl IH]; cbn; intros txs Hf; [by injection Hf as <-|].
  destruct (get_prop x _) as [h|]; [|done]. destruct (get_prop block _) as [g|]; [|done].
  destruct (filter_height block l) as [rest|]; [|done]. injection Hf as <-.
  case_match; [constructor|]; auto.
Qed.

Lemma typed_list t l : Forall (λ x, conforms t x = true) l → conforms (TArr t) (JArr l) = true.
Proof. rewrite Forall_forall. intros Hl. apply forallb_forall. intros x Hx%list_elem_of_In. by apply Hl. Qed.

Lemma block_txs_typed transactions block txs :
  conforms (TArr IndexedTx) transactions = true → block_txs transactions block = Ok txs →
  conforms (TArr IndexedTx) txs = true.
Proof.
  intros Ht Hb. apply typed_array in Ht as (l & -> & Hl). unfold block_txs in Hb.
  destruct (filter_height block l) as [ts|] eqn:Hf; [|done]. cbn in Hb. injection Hb as <-.
  apply typed_list. case_match; [by eapply filter_height_typed|by apply Forall_take, Forall_drop].
Qed.

Lemma showBlock_keeps transactions block :
  conforms (TArr IndexedTx) transactions = true → conforms IndexedBlock block = true →
  keeps (showBlock transactions block).
Proof.
  intros Ht Hb. apply write_then; [keep_app; by right|]. apply preserves_lift. intros txs Htxs.
  apply write_then; [keep_app; exact (block_txs_typed _ _ _ Ht Htxs)|]. apply preserves_lift. intros h _.
  apply navigateTo_keeps.
Qed.

Lemma show_keeps t set route key v :
  (∀ v st, opt_typed t v → app_ok st → app_ok (set v st)) → conforms t v = true → keeps (show set route key v).
Proof.
  intros Hset Hv. apply write_then; [intros st; apply Hset; by right|]. apply preserves_lift. intros id _.
  apply navigateTo_keeps.
Qed.

(** A query followed by showing what it found. *)
Lemma shown_keeps t c f :
  yields (TOr t TNull) c → (∀ v, conforms t v = true → keeps (f v)) →
  keeps (v ← call c; if truthy v then f v else navigateTo "/404"%js).
Proof.
  intros Hc Hf. eapply ensures_bind; [by apply call_gives|]. intros v Hv.
  destruct (truthy v) eqn:Ht; [|apply navigateTo_keeps]. exact (Hf v (truthy_null _ _ Ht Hv)).
Qed.

Lemma find_validator_typed a l v :
  Forall (λ x, conforms IndexedValidator x = true) l → find_validator a l = Ok (Some v) →
  conforms IndexedValidator v = true.
Proof.
  induction 1 as [|x l Hx _ IH]; cbn; [done|]. destruct (get_prop x _) as [p|]; [|done]. cbn.
  destruct p; try done. case_bool_decide; [by intros [= <-]|done].
Qed.

Lemma handleSelectValidator_keeps vs a :
  conforms (TArr IndexedValidator) vs = true → keeps (handleSelectValidator vs a).
Proof.
  intros Hv. apply typed_array in Hv as (l & -> & Hl). unfold handleSelectValidator.
  apply preserves_lift. intros [v|] Hf; [|apply navigateTo_keeps].
  apply (show_keeps IndexedValidator); [keep_app|by eapply find_validator_typed].
Qed.

Lemma handleSelectAddress_handled a st : app_ok st → handled (handleSelectAddress loaded a st).
Proof.
  intros Hok. apply promise_all_handled; [done| |].
  { calls; [apply getAddress_yields|apply getAddressTransactions_yields]. }
  results vs Hvs.
  cbv beta iota. destruct (truthy x) eqn:Hx; [|apply navigateTo_keeps].
  apply write_then; [intros st' Hst; destruct Hst; constructor; cbn; auto; right; by eapply truthy_null|].
  apply preserves_bind; [eapply with_items_keeps; [eassumption|keep_app]|intros _].
  apply preserves_lift. intros addr _. apply navigateTo_keeps.
Qed.

Lemma handleUniversalSearch_keeps transactions q :
  conforms (TArr IndexedTx) transactions = true → keeps (handleUniversalSearch loaded transactions q).
Proof.
  intros Ht. eapply ensures_bind; [apply call_gives, search_yields|]. intros v Hv.
  destruct (truthy v) eqn:Hv'; cbn [negb]; [|apply navigateTo_keeps].
  apply truthy_null in Hv; [|done]. apply search_found in Hv as (kind & t & data & Hk & -> & -> & Hd).
  destruct Hk.
  - by apply showBlock_keeps.
  - apply (show_keeps IndexedTx); [keep_app|done].
  - apply write_then; [keep_app; by right|]. apply preserves_lift. intros a _.
    apply preserves_lift. intros s _.
    eapply ensures_bind; [apply call_gives, getAddressTransactions_yields|]. intros txs Htxs.
    apply preserves_bind; [eapply with_items_keeps; [exact Htxs|keep_app]|intros _]. apply navigateTo_keeps.
  - apply (show_keeps IndexedValidator); [keep_app|done].
  - apply (show_keeps SmartContract); [keep_app|done].
Qed.
(** ** Events *)

Lemma handled_ret st : app_ok st → handled (st, []).
Proof. by split. Qed.

Lemma openSearch_ok b st : app_ok st → app_ok (openSearch b st).
Proof. intros Hok. unfold openSearch. case_match; keep_app. by apply load_recents_strings. Qed.

Lemma apply_theme_ok prefersDark st : app_ok st → app_ok (apply_theme prefersDark st).
Proof. intros Hok. unfold apply_theme. repeat case_match; keep_app; by apply stored_insert. Qed.

Lemma handleSearchModal_handled e st : app_ok st → handled (handleSearchModal loaded e st).
Proof.
  intros Hok. destruct e as [|q|q|]; cbn [handleSearchModal].
  - by apply handled_ret, openSearch_ok.
  - apply handled_ret. keep_app.
  - unfold SearchModal.handleExecute. case_bool_decide; [by apply handled_ret|].
    destruct (ok_recents _ Hok) as [l Hl]. rewrite Hl.
    destruct (push_recent_stringy (trim q) (JStr <$> l)) as [l' Hl']; [by exists l|]. rewrite Hl'.
    split; cbn [fst snd].
    + apply openSearch_ok. keep_app; [by exists l'|apply stored_recents].
    + constructor; [|constructor]. apply handleUniversalSearch_keeps. by destruct Hok.
  - apply handled_ret. keep_app; [by exists []|by apply stored_delete].
Qed.

Lemma handleWalletModal_ok e st : app_ok st → app_ok (handleWalletModal e st).
Proof. intros Hok. destruct e; keep_app. by apply stored_delete. Qed.

Lemma walletConnected_ok i st : app_ok st → app_ok (walletConnected i st).
Proof. intros Hok. unfold walletConnected. case_match; [|done]. keep_app. by apply stored_insert. Qed.

Lemma handleKeyDown_ok meta key st : app_ok st → app_ok (handleKeyDown meta key st).
Proof. intros Hok. unfold handleKeyDown. repeat case_match; auto using openSearch_ok. Qed.

Lemma handle_handled prefersDark e st : app_ok st → handled (handle loaded prefersDark e st).
Proof.
  intros Hok. destruct e; cbn [handle].
  - apply handled_ret. keep_app.
  - by apply handleNetworkChange_handled.
  - apply handled_ret. keep_app. by apply stored_insert.
  - apply handled_ret, apply_theme_ok. keep_app.
  - by apply handled_ret, openSearch_ok.
  - by apply handled_ret, openSearch_ok.
  - apply handled_ret. keep_app.
  - apply handled_ret. keep_app.
  - apply handled_ret. keep_app.
  - case_match; [by apply handled_ret|]. apply loadAllData_handled. keep_app.
  - case_match; [by apply handled_ret|]. apply loadAllData_handled. keep_app.
  - split; [done|]. constructor; [|constructor]. apply (shown_keeps IndexedBlock); [apply getBlock_yields|].
    intros b. apply showBlock_keeps. by destruct Hok.
  - split; [done|]. constructor; [|constructor]. apply (shown_keeps IndexedTx); [apply getTransaction_yields|].
    intros t. apply (show_keeps IndexedTx). keep_app.
  - by apply handleSelectAddress_handled.
  - split; [done|]. constructor; [|constructor]. apply handleSelectValidator_keeps. by destruct Hok.
  - split; [done|]. constructor; [|constructor]. apply (shown_keeps SmartContract); [apply getContract_yields|].
    intros c. apply (show_keeps SmartContract). keep_app.
  - split; [done|]. constructor; [|constructor]. apply handleUniversalSearch_keeps. by destruct Hok.
  - by apply handled_ret, handleKeyDown_ok.
  - by apply handleSearchModal_handled.
  - by apply handled_ret, handleWalletModal_ok.
  - by apply poll_handled.
  - by apply handled_ret, walletConnected_ok.
Qed.

(** ** Runs *)

Abbreviation app_world := (world_keeps typed_answer app_ok).

Lemma launch_keeps tasks r :
  handled r → Forall (stop_preserves typed_answer app_ok) tasks → app_world (launch tasks r).
Proof.
  intros [Hs Hc] Ht. unfold launch. assert (app_world (mkWorld r.1 tasks)) as Hw by done.
  revert Hw. generalize (mkWorld r.1 tasks). induction Hc as [|c cs Hc _ IH]; intros w Hw; [done|].
  apply IH. by apply start_keeps.
Qed.

Lemma app_mounted_keeps prefersDark s path dark light now :
  stored_strings s → app_world (mounted loaded prefersDark s path dark light now).
Proof.
  intros Hs. apply launch_keeps; [|constructor]. apply loadAllData_handled, apply_theme_ok.
  constructor; cbn; try done; try (by left). by apply load_recents_strings; [|exists []].
Qed.
End handlers.
