(* ===== verification/ExplorerSafe.v ===== *)
(** * The explorer's screen

    In every state in which the data have their declared types the whole screen
    renders, and all that it offers keeps it so. *)
From stdpp Require Import gmap.
From S2P Require Import Prelude JsString JsStringFacts JsNumber JsJson Async Formatters View Render Types RenderTyped.
From S2P Require Import Offers MockData ExplorerTypes ExplorerApi ExplorerApiFacts ExplorerContract ExplorerUi ExplorerParts.
From S2P Require Import ExplorerApp ExplorerLayout ExplorerWidgets ExplorerEvents ExplorerPages ExplorerHome.
From S2P Require Import ExplorerLearn ExplorerHubs ExplorerSite ExplorerRender ExplorerTyped.
Import MockData ExplorerTypes Formatters Site.
Import ExplorerApp(Page(..), pages).

#[local] Arguments conforms : simpl never.

(** ** Filters *)

(** A condition that does not throw. *)
Definition decides (c : outcome bool) : Prop := ∃ b, c = Ok b.

Section filters.
Context `{UnicodeCase}.

Lemma decides_Ok b : decides (Ok b).
Proof. by exists b. Qed.

Lemma decides_bind {A} (m : outcome A) f :
  is_ok m = true → (∀ a, m = Ok a → decides (f a)) → decides (m ≫= f).
Proof. destruct m as [a|]; [|done]. intros _ Hf. by apply Hf. Qed.

Lemma decides_prop fields v k o t f :
  conforms (TObj fields) v = true → field_ty fields k = Some (o, t) →
  (∀ x, conforms t x = true ∨ o = true ∧ x = JUndef → decides (f x)) → decides (get_prop v k ≫= f).
Proof. intros Hv Hk Hf. destruct (typed_prop _ _ _ _ _ Hv Hk) as (x & -> & Hx). by apply Hf. Qed.

Lemma decides_or_else a b : decides a → decides b → decides (Pages.or_else a b).
Proof. intros [x ->] Hb. destruct x; [apply decides_Ok|done]. Qed.

Lemma decides_both a b : decides a → decides b → decides (both a b).
Proof. intros [x ->] [y ->]. apply decides_Ok. Qed.

Lemma decides_includes fields v k q :
  conforms (TObj fields) v = true → field_ty fields k = Some (false, TStr) →
  decides (Pages.prop_includes v k q).
Proof.
  intros Hv Hk. unfold Pages.prop_includes, string_prop.
  destruct (req_prop _ _ _ _ Hv Hk) as (x & -> & Hx). destruct x; try done. apply decides_Ok.
Qed.

Lemma decides_opt_includes fields v k o t q :
  conforms (TObj fields) v = true → field_ty fields k = Some (o, t) → t = TStr ∨ t = TOr TStr TNull →
  decides (x ← get_prop v k; if truthy x then Pages.prop_includes v k q else Ok false).
Proof.
  intros Hv Hk Ht. unfold Pages.prop_includes, string_prop.
  destruct (typed_prop _ _ _ _ _ Hv Hk) as (x & -> & Hx). cbn.
  destruct (truthy x) eqn:Htx; [|apply decides_Ok].
  destruct Ht as [-> | ->], Hx as [Hx|[_ Hx]]; destruct x; try done; apply decides_Ok.
Qed.

Lemma decides_selects fields v k o t f :
  conforms (TObj fields) v = true → field_ty fields k = Some (o, t) → decides (selects f v k).
Proof.
  intros Hv Hk. unfold selects. case_match; [apply decides_Ok|].
  eapply decides_prop; [exact Hv|exact Hk|]. intros x _. apply decides_Ok.
Qed.

Lemma decides_mentions fields v q keys :
  conforms (TObj fields) v = true → Forall (λ k, field_ty fields k = Some (false, TStr)) keys →
  decides (Ecosystem.mentions q v keys).
Proof.
  intros Hv. induction 1 as [|k keys Hk _ IH]; [apply decides_Ok|]. cbn. unfold string_prop.
  destruct (req_prop _ _ _ _ Hv Hk) as (x & -> & Hx). destruct x; try done. cbn.
  destruct (includes _ _); [apply decides_Ok|done].
Qed.

Ltac filter_step :=
  lazymatch goal with
  | |- decides (Ok _) => apply decides_Ok
  | |- decides (Pages.or_else _ _) => apply decides_or_else
  | |- decides (both _ _) => apply decides_both
  | |- decides (Pages.prop_includes _ _ _) => eapply decides_includes; [eassumption|reflexivity]
  | |- decides (selects _ _ _) => eapply decides_selects; [eassumption|reflexivity]
  | |- decides (Ecosystem.mentions _ _ _) => eapply decides_mentions; [eassumption|by repeat constructor]
  | |- decides (get_prop _ _ ≫= _) => eapply decides_prop; [eassumption|reflexivity|intros ? ?; cbv beta]
  | |- decides (if _ then _ else _) => case_match
  | |- decides (let _ := _ in _) => cbv zeta
  end.
Ltac filters := repeat filter_step.

Lemma block_decides q b : conforms IndexedBlock b = true → decides (Pages.block_matches q b).
Proof.
  intros Hb. unfold Pages.block_matches. filters.
  match goal with Hx : _ ∨ _ |- _ => destruct Hx as [Hx|[Hx _]]; [|done] end.
  destruct x; try done. apply decides_Ok.
Qed.

Lemma tx_decides ft sf q tx : conforms IndexedTx tx = true → decides (Pages.tx_matches ft sf q tx).
Proof.
  intros Ht. unfold Pages.tx_matches. apply decides_bind.
  { case_match; [done|]. by destruct (req_prop _ _ "message_type"%js _ Ht eq_refl) as (x & -> & _). }
  intros typeOk _. case_match; [apply decides_Ok|]. apply decides_bind.
  { destruct (req_prop _ _ "success"%js _ Ht eq_refl) as (x & -> & _). by repeat case_match. }
  intros statusOk _. case_match; [apply decides_Ok|]. case_match; [apply decides_Ok|]. cbv zeta.
  apply decides_or_else; [filters|]. apply decides_or_else; [filters|].
  eapply decides_opt_includes; [exact Ht|reflexivity|by right].
Qed.

Lemma account_tx_decides f account tx :
  conforms IndexedAccount account = true → conforms IndexedTx tx = true →
  decides (Pages.account_tx_matches f account tx).
Proof.
  intros Ha Ht. unfold Pages.account_tx_matches.
  filters; [by apply is_in_typed|by apply is_out_typed].
Qed.

Lemma validator_decides sf q v :
  conforms IndexedValidator v = true → decides (Pages.validator_matches sf q v).
Proof.
  intros Hv. unfold Pages.validator_matches. filters. apply decides_bind.
  { unfold string_prop. destruct (req_prop _ _ "status"%js _ Hv eq_refl) as (x & -> & Hx). by destruct x. }
  intros status _. filters.
Qed.

Lemma contract_decides q c : conforms SmartContract c = true → decides (Pages.contract_matches q c).
Proof.
  intros Hc. unfold Pages.contract_matches. case_match; [apply decides_Ok|]. cbv zeta.
  apply decides_or_else; [filters|]. apply decides_or_else; [filters|].
  eapply decides_opt_includes; [exact Hc|reflexivity|by left].
Qed.

Lemma sip_decides c s v : conforms SIPItem v = true → decides (Governance.sip_matches c s v).
Proof. intros Hv. unfold Governance.sip_matches. filters. Qed.

Lemma project_decides c q v : conforms EcosystemProject v = true → decides (Ecosystem.project_matches c q v).
Proof. intros Hv. unfold Ecosystem.project_matches. filters. Qed.

Lemma paper_decides c v : conforms ResearchPaper v = true → decides (selects c v "category"%js).
Proof. intros Hv. filters. Qed.

(** Filtering typed values gives typed values. *)
Lemma keep_typed t f l :
  Forall (λ x, conforms t x = true) l → (∀ x, conforms t x = true → decides (f x)) →
  ∃ l', keep f l = Ok l' ∧ Forall (λ x, conforms t x = true) l'.
Proof.
  intros Hl Hf. induction Hl as [|x l Hx _ (l' & Hk & Hl')]; [by eexists|].
  destruct (Hf x Hx) as [b Hb]. cbn. rewrite Hb, Hk. cbn. eexists. split; [done|].
  destruct b; [by constructor|done].
Qed.

Lemma good_keep {E} (P : E → Prop) t f l (g : list jsval → jsx E) :
  Forall (λ x, conforms t x = true) l → (∀ x, conforms t x = true → decides (f x)) →
  (∀ l', Forall (λ x, conforms t x = true) l' → good P (g l')) → good P (keep f l ≫= g).
Proof. intros Hl Hf Hg. destruct (keep_typed _ _ _ Hl Hf) as (l' & -> & Hl'). by apply Hg. Qed.

Lemma good_array {E} (P : E → Prop) t v m (g : list jsval → jsx E) :
  conforms (TArr t) v = true → (∀ l, Forall (λ x, conforms t x = true) l → good P (g l)) →
  good P (as_array v m ≫= g).
Proof. intros Hv Hg. apply typed_array in Hv as (l & -> & Hl). by apply Hg. Qed.
End filters.

(** ** Pages and their hooks *)

Abbreviation typed t l := (Forall (λ x, conforms t x = true) l).

(** The data of a page have their types. *)
Definition page_ok (p : Page) : Prop :=
  match p with
  | HomePage stats recentBlocks recentTxs =>
      conforms NetworkStats stats = true ∧ conforms (TArr IndexedBlock) recentBlocks = true
      ∧ conforms (TArr IndexedTx) recentTxs = true
  | BlocksPage blocks _ _ _ => conforms (TArr IndexedBlock) blocks = true
  | BlockDetailsPage block txs => conforms IndexedBlock block = true ∧ conforms (TArr IndexedTx) txs = true
  | TransactionsPage txs _ _ _ => conforms (TArr IndexedTx) txs = true
  | TxDetailsPage tx _ => conforms IndexedTx tx = true
  | AddressPage account txs _ => conforms IndexedAccount account = true ∧ conforms (TArr IndexedTx) txs = true
  | NetworkStatusPage stats => conforms NetworkStats stats = true
  | ValidatorsPage validators | StakingPage validators _ => conforms (TArr IndexedValidator) validators = true
  | ValidatorDetailsPage validator => conforms IndexedValidator validator = true
  | ContractsPage contracts => conforms (TArr SmartContract) contracts = true
  | ContractDetailsPage contract => conforms SmartContract contract = true
  | _ => True
  end.

Definition hooks_ok (h : Hooks) : Prop :=
  match h with
  | EcosystemHooks st =>
      typed EcosystemProject (Ecosystem.projects st) ∧ typed MarketAsset (Ecosystem.marketAssets st)
  | GovernanceHooks st =>
      typed GovernanceProposal (Governance.proposals st) ∧ typed SIPItem (Governance.sips st)
      ∧ opt_typed SIPItem (Governance.selectedSip st)
      ∧ Forall (λ kv, ∃ s, kv.2 = JStr s) (Governance.votedProposals st)
  | ResearchHooks st => typed ResearchPaper (Research.papers st)
  | AnalyticsHooks st => ∀ i, hover_ok i (default None (Analytics.hovers st !! i))
  | _ => True
  end.

Lemma showing_ok b p : (b = true → page_ok p) → Forall page_ok (ExplorerApp.showing b p).
Proof. destruct b; constructor; auto. Qed.

Lemma pages_ok st : app_ok st → Forall page_ok (pages st).
Proof.
  intros Hok. unfold pages, ExplorerApp.core_pages, ExplorerApp.hub_pages.
  repeat (apply Forall_app; split); apply showing_ok; intros Hb; cbn; try exact I;
    destruct Hok; rewrite ?andb_true_iff in Hb; split_and?; try done;
    apply truthy_typed; tauto.
Qed.

Lemma mount_ok p : hooks_ok (mount p).
Proof. destruct p; try done; cbn; repeat split; try constructor; try done. by intros [|[|[|[|]]]]. Qed.

Lemma obj_set_strings fs k s :
  Forall (λ kv : jsstring * jsval, ∃ s, kv.2 = JStr s) fs →
  Forall (λ kv : jsstring * jsval, ∃ s, kv.2 = JStr s) (obj_set fs k (JStr s)).
Proof.
  induction 1 as [|[k' v'] fs Hv Hf IH]; cbn; [by repeat econstructor|].
  repeat case_match; repeat (constructor; [by eauto|]); by repeat (constructor || done).
Qed.

Lemma typed_check t l : forallb (conforms t) l = true → typed t l.
Proof. rewrite forallb_forall, Forall_forall. intros Hl x Hx. by apply Hl, list_elem_of_In. Qed.

Lemma load_ok h : hooks_ok h → hooks_ok (load h).
Proof.
  destruct h; try done; cbn.
  - intros _. split; apply typed_check; by vm_compute.
  - intros (_ & _ & Hs & Hv). split_and!; [apply typed_check; by vm_compute..|done|done].
  - intros _. apply typed_check. by vm_compute.
Qed.

Lemma timeout_ok t h : hooks_ok h → hooks_ok (timeout t h).
Proof. destruct t, h; try done. cbn. by destruct timers. Qed.

Section screen.
Context `{Host} `{UnicodeCase}.

Lemma handle_page_ok e h : act_ok (Own e) → hooks_ok h → hooks_ok (handle_page e h).1.
Proof.
  intros He Hh. destruct h as [| | | | | | | | |st|st|st|st|];
    [by destruct e; cbn; repeat case_match..| | | | |by destruct e; cbn; repeat case_match].
  - by destruct e.
  - destruct Hh as (Hp & Hs & Hsel & Hv). destruct e; try done. cbn. split_and!; [done..|].
    by apply obj_set_strings.
  - by destruct e.
  - destruct e; try done. destruct e as [r|h]; [done|]. cbn. intros j.
    destruct (decide (i = j)) as [<-|Hj]; [|by rewrite list_lookup_insert_ne].
    destruct (decide (i < length (Analytics.hovers st))%nat) as [Hi|Hi].
    + by rewrite list_lookup_insert_eq.
    + rewrite list_insert_ge by lia. apply Hh.
Qed.

Lemma render_page_fits now p h : page_ok p → hooks_ok h → good act_ok (render_page now p h).
Proof.
  intros Hp Hh. pose proof statics_fit as Hst. rewrite !Forall_app in Hst. destruct Hst as (Hw & Hab & Hbk).
  destruct p, h; try apply good_none; try (by apply good_Ok); try apply NotFoundPage_fits; cbn [render_page page_ok hooks_ok] in *.
  - destruct Hp as (Hs & Hb & Ht). eapply good_array; [exact Hb|]. intros bs Hbs.
    eapply good_array; [exact Ht|]. intros ts Hts.
    apply HomePage_fits; [done|by apply Forall_take, Forall_drop..].
  - eapply good_array; [exact Hp|]. intros l Hl.
    eapply good_keep; [exact Hl|apply block_decides|]. intros l' Hl'. by apply BlocksPage_fits.
  - destruct Hp as [Hb Ht]. eapply good_array; [exact Ht|]. intros l Hl. by apply BlockDetailsPage_fits.
  - eapply good_array; [exact Hp|]. intros l Hl.
    eapply good_keep; [exact Hl|apply tx_decides|]. intros l' Hl'. by apply TransactionsPage_fits.
  - by apply TxDetailsPage_fits.
  - destruct Hp as [Ha Ht]. eapply good_array; [exact Ht|]. intros l Hl.
    eapply good_keep; [exact Hl|intros x; by apply account_tx_decides|]. intros l' Hl'. by apply AddressPage_fits.
  - apply good_Ok, LearnPage_fits.
  - apply good_Ok, PortalPage_fits.
  - by apply NetworkStatusPage_fits.
  - eapply good_array; [exact Hp|]. intros l Hl.
    eapply good_keep; [exact Hl|apply validator_decides|]. intros l' Hl'. by apply ValidatorsPage_fits.
  - by apply ValidatorDetailsPage_fits.
  - eapply good_array; [exact Hp|]. intros l Hl. by apply StakingPage_fits.
  - eapply good_array; [exact Hp|]. intros l Hl.
    eapply good_keep; [exact Hl|apply contract_decides|]. intros l' Hl'. by apply ContractsPage_fits.
  - by apply ContractDetailsPage_fits.
  - destruct Hh as [Hpr Has]. eapply good_keep; [exact Hpr|apply project_decides|]. intros l Hl.
    by apply EcosystemPage_fits.
  - destruct Hh as (Hpr & Hs & Hsel & Hv). eapply good_keep; [exact Hs|apply sip_decides|]. intros l Hl.
    by apply GovernancePage_fits.
  - eapply good_keep; [exact Hh|intros x; apply paper_decides|]. intros l Hl. by apply ResearchPage_fits.
  - by apply AnalyticsPage_fits.
  - apply good_Ok. by apply (sound_local _ _ [_]).
Qed.

(** ** The whole screen *)

Definition site_event_ok (e : Event) : Prop :=
  match e with
  | OnHeader e => header_ok e
  | OnPage e => act_ok (Own e)
  | OnApp e => event_ok e
  | OnStarted e => started_ok e
  end.

Lemma recents_fit m b : strings (SearchModal.recents m) → good (λ _, True) (SearchModal.render b m).
Proof.
  intros [l Hl]. unfold SearchModal.render. destruct b; [|by apply good_Ok].
  cbn [negb]. rewrite Hl.
  assert (good (λ _ : SearchModal.Event, True)
            (SearchModal.recents_view (JArr (JStr <$> l)) (bool_decide (trim (SearchModal.query m) = [])))) as (vs & -> & _).
  { assert (good (λ _ : SearchModal.Event, True) (jeach (JStr <$> l) SearchModal.recent_button)) as Hj.
    { apply good_jeach_in, Forall_fmap, Forall_true. intros s. unfold compose, SearchModal.recent_button. parts_good. }
    unfold SearchModal.recents_view. parts_good. }
  cbn [mbind outcome_bind]. apply good_Ok, Forall_true. intros v. by apply sound_any.
Qed.

Context (year loaded : Z).

Definition main_ok (m : option (nat * Hooks)) : Prop := match m with Some (_, h) => hooks_ok h | None => True end.

Lemma App_fits st hd m : app_ok st → main_ok m → good site_event_ok (App year st hd m).
Proof.
  intros Hok Hm. unfold App. apply good_el; [constructor|]. repeat (apply Forall_cons; split); [..|constructor].
  - apply good_Ok, sound_fmap, header_fits.
  - case_match; parts_good.
  - apply good_el; [constructor|]. repeat constructor. unfold main_view.
    pose proof (pages_ok _ Hok) as Hp. destruct (pages st) as [|p l]; [apply good_none|].
    destruct m as [[n h]|]; [|apply good_none]. apply Forall_cons in Hp as [Hp _].
    apply good_map. eapply good_impl; [|by apply render_page_fits]. by intros [].
  - apply good_map, footer_fits. eapply field_typed; [by destruct Hok|reflexivity].
  - apply good_map. eapply good_impl; [|apply recents_fit; by destruct Hok]. done.
  - apply good_Ok, sound_fmap, started_fits.
  - apply good_Ok. by apply sound_local.
Qed.
(** ** Runs *)

Record site_ok (s : State) : Prop := {
  site_failure : failure s = None;
  site_app : world_keeps typed_answer app_ok (app s);
  site_main : main_ok (main s);
}.

Abbreviation reaction_step := (step year loaded typed_answer).

Lemma screen_fits s : site_ok s → good site_event_ok (screen year s).
Proof. intros [Hf [Ha _] Hm]. unfold screen. rewrite Hf. by apply App_fits. Qed.

Lemma place_ok st m : main_ok m → main_ok (place st m).
Proof.
  intros Hm. unfold place. destruct (pages st) as [|p l]; [done|].
  destruct m as [[n h]|]; [case_match|]; first [done|apply mount_ok].
Qed.

Lemma commit_ok s : site_ok s → site_ok (commit year s).
Proof.
  intros [Hf Ha Hm]. unfold commit. rewrite Hf.
  destruct (App_fits (state (app s)) (header s) (place (state (app s)) (main s))) as (vs & -> & _);
    [by destruct Ha|by apply place_ok|]. constructor; [done|done|by apply place_ok].
Qed.

Lemma perform_ok prefersDark e s : site_ok s → site_ok (perform loaded prefersDark e s).
Proof.
  intros [Hf [Ha Ht] Hm]. constructor; [done| |done]. apply launch_keeps; [|done]. by apply handle_handled.
Qed.

Lemma perform_opt_ok prefersDark e s : site_ok s → site_ok (perform_opt loaded prefersDark e s).
Proof. destruct e; [apply perform_ok|done]. Qed.

Lemma react_ok prefersDark e s : site_event_ok e → site_ok s → site_ok (react loaded prefersDark e s).
Proof.
  intros He Hs. destruct e as [e|e|e|e]; cbn.
  - destruct (AppHeader.handle e (header s)) as [hd up]. apply perform_opt_ok. by destruct Hs.
  - destruct (main s) as [[n h]|] eqn:Hm; [|done]. pose proof (handle_page_ok e h He) as Hh.
    destruct (handle_page e h) as [h' up]. apply perform_opt_ok. destruct Hs as [Hf Ha Hs].
    rewrite Hm in Hs. constructor; [done|done|by apply Hh].
  - by apply perform_ok.
  - revert s Hs. generalize (GetStartedModal.handle e). intros l. induction l as [|a l IH]; intros s Hs; [done|].
    apply IH. by apply perform_ok.
Qed.

Lemma upd_hooks_ok f s : (∀ h, hooks_ok h → hooks_ok (f h)) → site_ok s → site_ok (upd_hooks f s).
Proof. intros Hf [H1 H2 H3]. constructor; [done|done|]. cbn. destruct (main s) as [[n h]|]; [by apply Hf|done]. Qed.

Lemma clock_ok now st : app_ok st →
  app_ok (ExplorerApp.upd_api (λ a, mkApi (api_network a) (api_offline a) now) st).
Proof. keep_app. Qed.

Lemma site_step_ok s s' : site_ok s → reaction_step s s' → site_ok s'.
Proof.
  intros Hs Hstep. destruct Hstep as [b e vs s Hv He|b e s _|id s|t s|s|i rq k r s Hi Hr|i k s Hi|now s];
    apply commit_ok.
  - apply react_ok; [|done]. destruct (screen_fits s Hs) as (vs' & Hv' & Hso). rewrite Hv in Hv'.
    injection Hv' as <-. by eapply sound_all.
  - by apply perform_ok.
  - by destruct Hs.
  - apply upd_hooks_ok; [apply timeout_ok|done].
  - apply upd_hooks_ok; [apply load_ok|done].
  - destruct Hs as [H1 H2 H3]. constructor; [done|by eapply respond_keeps|done].
  - destruct Hs as [H1 H2 H3]. constructor; [done|by eapply resume_keeps|done].
  - destruct Hs as [H1 [Ha Ht] H3]. constructor; [done| |done]. split; [by apply clock_ok|done].
Qed.

Lemma boot_ok prefersDark storage path dark light now :
  stored_strings storage → site_ok (boot year loaded prefersDark storage path dark light now).
Proof. intros Hs. apply commit_ok. constructor; [done| |done]. by apply app_mounted_keeps. Qed.

Lemma site_reachable_ok prefersDark storage path dark light now s :
  stored_strings storage → rtc reaction_step (boot year loaded prefersDark storage path dark light now) s →
  site_ok s.
Proof.
  intros Hs Hr. pose proof (boot_ok prefersDark _ path dark light now Hs) as Hb. revert Hb.
  induction Hr as [|s1 s2 s3 Hst _ IH]; [done|]. intros Hb. apply IH. by eapply site_step_ok.
Qed.
(** ** Links *)

Lemma showing_nil b p : ExplorerApp.showing b p = [] → b = false.
Proof. by destruct b. Qed.

(** A route that shows nothing is not one that leads somewhere. *)
Lemma no_page_leads st :
  truthy (ExplorerApp.stats st) = true → pages st = [] → leads (ExplorerApp.currentRoute st) = false.
Proof.
  intros Ht Hp. unfold pages, ExplorerApp.core_pages, ExplorerApp.hub_pages in Hp. rewrite Ht in Hp.
  repeat match goal with Hl : _ ++ _ = [] |- _ => apply app_nil in Hl as [? Hl] end.
  repeat match goal with Hb : ExplorerApp.showing _ _ = [] |- _ => apply showing_nil in Hb end.
  unfold ExplorerApp.at_route, ExplorerApp.under in *. rewrite ?andb_true_r, ?orb_false_iff in *. destruct_and?.
  unfold leads. cbn [existsb]. repeat (apply orb_false_iff; split); try reflexivity;
    lazymatch goal with
    | |- bool_decide (?r = ?x) = false =>
        lazymatch goal with Hb : bool_decide (r = x) = false |- _ => exact Hb end
    | |- startsWith ?r ?x = false => lazymatch goal with Hb : startsWith r x = false |- _ => exact Hb end
    end.
Qed.

(** The route an event leads to. *)
Definition navigates (e : Event) : option jsstring :=
  match e with
  | OnHeader (AppHeader.Nav r) | OnHeader (AppHeader.Up (ExplorerApp.Navigate r))
  | OnApp (ExplorerApp.Navigate r) | OnStarted (GetStartedModal.Select r) => Some r
  | _ => None
  end.

Lemma navigates_leads e r : site_event_ok e → navigates e = Some r → leads r = true.
Proof.
  destruct e as [e|e|e|e]; [destruct e as [| | | |e]|..]; try destruct e; cbn; try done; by intros ? [= <-].
Qed.

Lemma react_navigates prefersDark e r s :
  navigates e = Some r →
  let st := state (app (react loaded prefersDark e s)) in
  ExplorerApp.currentRoute st = r ∧ ExplorerApp.stats st = ExplorerApp.stats (state (app s)).
Proof.
  intros Hn st.
  assert (state (app (react loaded prefersDark e s)) = ExplorerApp.set_currentRoute r (state (app s))
          ∨ state (app (react loaded prefersDark e s))
            = ExplorerApp.set_getStartedModalOpen false (ExplorerApp.set_currentRoute r (state (app s)))) as [Hs|Hs].
  { destruct e as [e|e|e|e]; [destruct e as [| | | |e]|..]; try destruct e; try discriminate Hn;
      injection Hn as <-; first [left; reflexivity|right; reflexivity]. }
  all: subst st; rewrite Hs; by destruct (state (app s)).
Qed.
End screen.

(** C5. When the answers of the servers have the types the explorer relies on, or there
    are none, every reachable state shows a screen: nothing the user does, and no order
    of answers, failures, timers and clicks, makes a component throw. *)
Theorem explorer_never_crashes `{Host} `{UnicodeCase} (year loaded : Z) (prefersDark dark light : bool)
    (storage : Storage) (path : jsstring) (now : Z) (s : State) :
  stored_strings storage →
  rtc (step year loaded typed_answer) (boot year loaded prefersDark storage path dark light now) s →
  failure s = None ∧ is_ok (screen year s) = true.
Proof.
  intros Hs Hr. pose proof (site_reachable_ok _ _ _ _ _ _ _ _ _ Hs Hr) as Hok. split; [by destruct Hok|].
  by destruct (screen_fits year s Hok) as (vs & -> & _).
Qed.

(** C14. Every link leads somewhere: following a navigation that the screen offers shows
    a page, once the statistics are loaded. *)
Theorem links_lead `{Host} `{UnicodeCase} (year loaded : Z) (prefersDark dark light b : bool)
    (storage : Storage) (path : jsstring) (now : Z) (s : State) (vs : list (view Event)) (e : Event) (r : jsstring) :
  stored_strings storage →
  rtc (step year loaded typed_answer) (boot year loaded prefersDark storage path dark light now) s →
  screen year s = Ok vs → Exists (λ v, fires v e) vs → navigates e = Some r →
  truthy (ExplorerApp.stats (state (app s))) = true →
  pages (state (app (react loaded b e s))) ≠ [].
Proof.
  intros Hs Hr Hv He Hn Ht Hp. pose proof (site_reachable_ok _ _ _ _ _ _ _ _ _ Hs Hr) as Hok.
  destruct (screen_fits year s Hok) as (vs' & Hv' & Hso). rewrite Hv in Hv'. injection Hv' as <-.
  apply (sound_all _ _ _ Hso) in He. apply (navigates_leads _ _ He) in Hn as Hl.
  destruct (react_navigates loaded b e r s Hn) as [Hroute Hstats].
  apply no_page_leads in Hp; [|by rewrite Hstats]. rewrite Hroute in Hp. congruence.
Qed.
