(* ===== verification/ExplorerLoad.v ===== *)
(** * The explorer's first load

    [Promise.all] resumes its caller once every call has settled, in whatever order
    the answers come; so the page appears after a bounded number of answers. *)
From stdpp Require Import gmap.
From S2P Require Import Prelude JsString JsStringFacts JsNumber JsJson Async Formatters View Render MockData.
From S2P Require Import ExplorerApi ExplorerApiFacts ExplorerUi ExplorerApp.
Import Formatters ExplorerApiService ExplorerApp.

(** ** Calls of a [Promise.all] *)

(** A write that concerns neither the collected results nor the route. *)
Definition quiet (f : State → State) : Prop :=
  ∀ st, joins (f st) = joins st ∧ currentRoute (f st) = currentRoute st.

(** A call that does not reject, waits at most [n] times and returns a value that
    satisfies [Q]. *)
Fixpoint settles_within (n : nat) (Q : jsval → Prop) (c : cmd State jsval) : Prop :=
  match c with
  | Ret v => Q v
  | Raise _ => False
  | Read k => ∀ s, settles_within n Q (k s)
  | Write f k => quiet f ∧ settles_within n Q k
  | Fetch _ k => match n with O => False | S m => ∀ r, settles_within m Q (k r) end
  | Yield k => match n with O => False | S m => settles_within m Q k end
  end.

Section promise_all.
(** The call of [Promise.all], what is awaited of each result, what is done with them,
    and what this establishes. *)
Context (id : CallSite * nat) (Q : nat → jsval → Prop) (k : list jsval → cmd State unit).
Context (size : nat) (route : jsstring) (P : State → Prop).

(** The end of every call. *)
Definition collect : cmd State unit :=
  Read (λ st, match joined id st with Some vs => Yield (k vs) | None => Ret tt end).

(** A task that will store the [i]th result after waiting at most [n] times. *)
Fixpoint stores (n i : nat) (c : cmd State unit) : Prop :=
  match c with
  | Ret _ | Raise _ => False
  | Read k => ∀ s, stores n i (k s)
  | Write f k => (quiet f ∧ stores n i k) ∨ (∃ v, Q i v ∧ f = fill id i v ∧ k = collect)
  | Fetch _ k => match n with O => False | S m => ∀ r, stores m i (k r) end
  | Yield k => match n with O => False | S m => stores m i k end
  end.

Definition stop_stores (p : nat * nat) (s : stop State unit) : Prop :=
  match s, p.2 with
  | Awaiting _ k, S m => ∀ r, stores m p.1 (k r)
  | Yielded k, S m => stores m p.1 k
  | _, _ => False
  end.

Lemma one_of_stores n i c : settles_within n (Q i) c → stores n i (one_of id k i c).
Proof.
  unfold one_of. revert n. induction c as [v|e|g IH|f c IH|rq g IH|c IH]; cbn; intros n Hc; auto.
  - right. eauto.
  - destruct Hc as [Hf Hc]. left. auto.
  - destruct n; [done|]. auto.
  - destruct n; [done|]. auto.
Qed.

Lemma fill_lookup i v st slots :
  joins st !! id = Some slots → joins (fill id i v st) !! id = Some (<[i := Some v]> slots).
Proof. intros Hs. cbn. by rewrite lookup_alter_eq, Hs. Qed.

(** Running such a task: it waits again, or it has stored its result. *)
Lemma advance_stores n i c st slots :
  stores n i c → joins st !! id = Some slots →
  let '(st', s) := advance c st in
  currentRoute st' = currentRoute st
  ∧ ((joins st' !! id = Some slots ∧ stop_stores (i, n) s)
     ∨ ∃ v, Q i v ∧ joins st' !! id = Some (<[i := Some v]> slots)
            ∧ s = match mapM (λ s, s) (<[i := Some v]> slots) with
                  | Some vs => Yielded (k vs)
                  | None => Finished (Ok tt)
                  end).
Proof.
  revert n st. induction c as [v|e|g IH|f c IH|rq g IH|c IH]; cbn [stores advance]; intros n st Hc Hs; try done.
  - by apply IH.
  - destruct Hc as [[Hf Hc]|(v & Hv & -> & ->)].
    + destruct (Hf st) as [Hj Hr]. specialize (IH n (f st) Hc). rewrite Hj in IH. specialize (IH Hs).
      destruct (advance c (f st)) as [st' s]. by rewrite <-Hr.
    + pose proof (fill_lookup i v st slots Hs) as Hf. unfold collect. cbn [advance].
      unfold joined. rewrite Hf. cbn [mbind option_bind].
      destruct (mapM (λ s, s) (<[i:=Some v]> slots)) as [vs|] eqn:Hm; cbn [advance];
        (split; [done|]); right; exists v; rewrite Hm; (split; [done|]); (split; [exact Hf|reflexivity]).
  - destruct n; [done|]. split; [done|]. by left.
  - destruct n; [done|]. split; [done|]. by left.
Qed.
(** ** Progress *)

(** The calls [l] that have not settled, with what they still need. *)
Definition pending (l : list (nat * nat)) (slots : list (option jsval)) : Prop :=
  NoDup l.*1 ∧ ∀ i, slots !! i = Some None ↔ i ∈ l.*1.

Definition collected (slots : list (option jsval)) : Prop :=
  length slots = size ∧ ∀ i v, slots !! i = Some (Some v) → Q i v.

Definition cost (l : list (nat * nat)) : nat := sum_list_with snd l.

(** What is left to wait for: calls, then the caller; [cs] have not been started. *)
Inductive loading : nat → list (cmd State unit) → world State → Prop :=
| Loading slots ps us cs w :
    joins (state w) !! id = Some slots → collected slots → currentRoute (state w) = route →
    Forall2 stop_stores ps (tasks w) → Forall2 (λ p c, stores p.2 p.1 c) us cs →
    pending (ps ++ us) slots → ps ++ us ≠ [] → loading (S (cost (ps ++ us))) cs w
| Loaded vs w :
    length vs = size → (∀ i v, vs !! i = Some v → Q i v) → currentRoute (state w) = route →
    tasks w = [Yielded (k vs)] → loading 1 [] w
| Done w : tasks w = [] → P (state w) → loading 0 [] w.

Lemma pending_perm l l' slots : l.*1 ≡ₚ l'.*1 → pending l slots → pending l' slots.
Proof. intros Hl [Hn Hp]. unfold pending. by setoid_rewrite <-Hl. Qed.

Lemma pending_fill i n l v slots : pending ((i, n) :: l) slots → pending l (<[i := Some v]> slots).
Proof.
  intros [Hn Hp]. cbn in *. apply NoDup_cons in Hn as [Hi Hn]. split; [done|]. intros j.
  destruct (decide (i = j)) as [<-|Hj].
  - split; [|by intros ?%Hi]. intros Hs. apply list_lookup_insert_Some in Hs as [(_ & [=] & _)|[? _]]; done.
  - rewrite list_lookup_insert_ne by done. rewrite Hp, elem_of_cons. naive_solver.
Qed.

Lemma collected_fill i v slots : Q i v → collected slots → collected (<[i := Some v]> slots).
Proof.
  intros Hv [Hl Hc]. split; [by rewrite length_insert|]. intros j w Hs.
  apply list_lookup_insert_Some in Hs as [(<- & [= <-] & _)|[_ Hs]]; [done|by apply Hc].
Qed.

(** All results are there when no call is pending. *)
Lemma mapM_pending l slots :
  pending l slots →
  match mapM (λ s, s) slots with
  | Some vs => l = [] ∧ slots = Some <$> vs
  | None => l ≠ []
  end.
Proof.
  intros [Hn Hp]. destruct (mapM (λ s, s) slots) as [vs|] eqn:Hm.
  - apply mapM_Some in Hm. assert (slots = Some <$> vs) as -> by (clear -Hm; induction Hm; by f_equal/=).
    split; [|done]. destruct l as [|[i n] l]; [done|]. assert (i ∈ ((i, n) :: l).*1) as Hi by (by left).
    apply Hp, list_lookup_fmap_Some in Hi. naive_solver.
  - apply mapM_None, Exists_exists in Hm as (s & Hs & ->). apply list_elem_of_lookup in Hs as [i Hi].
    apply Hp in Hi. intros ->. by apply elem_of_nil in Hi.
Qed.

(** Starting, or going on with, one of the calls. *)
Lemma start_loading slots ps us cs i n c w :
  joins (state w) !! id = Some slots → collected slots → currentRoute (state w) = route →
  Forall2 stop_stores ps (tasks w) → Forall2 (λ p c, stores p.2 p.1 c) us cs →
  stores n i c → pending (ps ++ (i, n) :: us) slots →
  ∃ m, (m ≤ S (n + cost (ps ++ us)))%nat ∧ loading m cs (start c w).
Proof.
  intros Hj Hc Hr Hps Hus Hst Hp. unfold start.
  pose proof (advance_stores n i c (state w) slots Hst Hj) as Ha.
  destruct (advance c (state w)) as [st' s]. destruct Ha as (Hr' & [[Hj' Hs]|(v & Hv & Hj' & ->)]).
  - exists (S (cost ((ps ++ [(i, n)]) ++ us))). split.
    { unfold cost. rewrite !sum_list_with_app. cbn. lia. }
    destruct s as [o|rq g|g]; [by destruct n| |];
      (eapply Loading; [exact Hj'|done|exact (eq_trans Hr' Hr)|by apply Forall2_app; [|by constructor]|done| |]);
      rewrite <-?(assoc_L (++)); try done; by destruct ps.
  - assert (pending ((i, n) :: ps ++ us) slots) as Hp'.
    { eapply pending_perm; [|exact Hp]. by rewrite Permutation_middle. }
    apply (pending_fill i n _ v) in Hp'. apply (collected_fill i v) in Hc; [|done].
    pose proof (mapM_pending _ _ Hp') as Hm. destruct (mapM _ _) as [vs|].
    + destruct Hm as [Hl Hvs]. apply app_nil in Hl as [-> ->]. inversion Hps. inversion Hus; subst.
      exists 1. split; [lia|]. destruct Hc as [Hlen Hc]. rewrite Hvs in Hlen, Hc. rewrite length_fmap in Hlen.
      apply (Loaded vs); [done| |exact (eq_trans Hr' Hr)|by cbn; congruence].
      intros j x Hx. apply Hc. by rewrite list_lookup_fmap, Hx.
    + exists (S (cost (ps ++ us))). split; [lia|]. eapply Loading; try done. exact (eq_trans Hr' Hr).
Qed.
Lemma launch_loading n cs w :
  loading n cs w → ∃ m, (m ≤ n)%nat ∧ loading m [] (foldl (λ w c, start c w) w cs).
Proof.
  revert n w. induction cs as [|c cs IH]; intros n w Hl; [by exists n|].
  inversion Hl as [slots ps us' cs' w' Hj Hc Hr Hps Hus Hp Hne| |]; subst.
  apply Forall2_cons_inv_r in Hus as ([i j] & us & Hst & Hus & ->).
  destruct (start_loading slots ps us cs i j c w) as (m & Hm & Hl'); [done..|].
  destruct (IH _ _ Hl') as (m' & Hm' & Hf). exists m'. split; [|done].
  unfold cost in *. rewrite sum_list_with_app in *. cbn. lia.
Qed.

(** What is done with the results ends at once and establishes [P]. *)
Definition resumes : Prop :=
  ∀ vs st, length vs = size → (∀ i v, vs !! i = Some v → Q i v) → currentRoute st = route →
  ∃ st' o, advance (k vs) st = (st', Finished o) ∧ P st'.

(** One task goes on: with any answer when it waits for one. *)
Inductive delivery : world State → world State → Prop :=
| Answered i rq g r w :
    tasks w !! i = Some (Awaiting rq g) →
    delivery w (start (g r) (mkWorld (state w) (remove_at i (tasks w))))
| Resumed i g w :
    tasks w !! i = Some (Yielded g) →
    delivery w (start g (mkWorld (state w) (remove_at i (tasks w)))).

Lemma remove_perm {A} (l : list A) i x : l !! i = Some x → l ≡ₚ x :: remove_at i l.
Proof. intros Hi. unfold remove_at. rewrite <-(take_drop_middle l i x Hi) at 1. by rewrite Permutation_middle. Qed.

Lemma cost_remove ps i p : ps !! i = Some p → cost ps = (p.2 + cost (remove_at i ps))%nat.
Proof.
  intros Hi. unfold cost, remove_at. rewrite <-(take_drop_middle ps i p Hi) at 1.
  rewrite !sum_list_with_app. cbn. lia.
Qed.

Lemma Forall2_remove {A B} (R : A → B → Prop) l l' i :
  Forall2 R l l' → Forall2 R (remove_at i l) (remove_at i l').
Proof. intros Hl. apply Forall2_app; [by apply Forall2_take|by apply Forall2_drop]. Qed.

(** A waiting task of the load, by its place. *)
Lemma continue_loading n w i s :
  loading n [] w → tasks w !! i = Some s →
  (∃ vs, s = Yielded (k vs) ∧ tasks w = [s] ∧ n = 1%nat ∧ length vs = size
         ∧ (∀ i v, vs !! i = Some v → Q i v) ∧ currentRoute (state w) = route)
  ∨ ∃ p, stop_stores p s
     ∧ ∀ c, stores (pred p.2) p.1 c →
       ∃ m, (m < n)%nat ∧ loading m [] (start c (mkWorld (state w) (remove_at i (tasks w)))).
Proof.
  intros Hl Hi. inversion Hl as [slots ps us cs w' Hj Hc Hr Hps Hus Hp Hne|vs w' Hv HQ Hr Ht|w' Ht HP]; subst.
  - right. inversion Hus; subst. rewrite app_nil_r in *.
    destruct (Forall2_lookup_r _ _ _ _ _ Hps Hi) as ([j b] & Hpi & Hst). exists (j, b). split; [done|].
    intros c Hc'. destruct b as [|b]; [by destruct s|].
    destruct (start_loading slots (remove_at i ps) [] [] j b c (mkWorld (state w) (remove_at i (tasks w))))
      as (m & Hm & Hl'); try done.
    { by apply Forall2_remove. }
    { eapply pending_perm; [|exact Hp]. rewrite fmap_app. cbn. rewrite <-Permutation_cons_append.
      exact (fmap_Permutation fst _ _ (remove_perm _ _ _ Hpi)). }
    exists m. split; [|done]. rewrite app_nil_r in Hm. rewrite (cost_remove _ _ _ Hpi). cbn. lia.
  - left. rewrite Ht in Hi. apply list_lookup_singleton_Some in Hi as [-> <-]. exists vs. split_and!; done.
  - rewrite Ht in Hi. done.
Qed.
Lemma delivery_loading n w w' :
  resumes → loading n [] w → delivery w w' → ∃ m, (m < n)%nat ∧ loading m [] w'.
Proof.
  intros Hk Hl Hd. destruct Hd as [i rq g r w Hi|i g w Hi];
    destruct (continue_loading n w i _ Hl Hi) as [(vs & Hs & Ht & -> & Hlen & HQ & Hr)|([j [|b]] & Hs & Hc)];
    try done.
  - by apply (Hc (g r)).
  - injection Hs as ->. exists 0%nat. split; [lia|].
    destruct (Hk vs (state w) Hlen HQ Hr) as (st' & o & Ha & HP).
    unfold start. cbn [state]. rewrite Ha. rewrite Ht in *.
    apply list_lookup_singleton_Some in Hi as [-> _]. by apply Done.
  - by apply (Hc g).
Qed.
End promise_all.

(** ** The queries of the service *)

(** The same for a query. *)
Fixpoint calm {A} (n : nat) (Q : A → Prop) (c : cmd Api A) : Prop :=
  match c with
  | Ret v => Q v
  | Raise _ => False
  | Read k => ∀ s, calm n Q (k s)
  | Write _ k => calm n Q k
  | Fetch _ k => match n with O => False | S m => ∀ r, calm m Q (k r) end
  | Yield k => match n with O => False | S m => calm m Q k end
  end.

Lemma call_settles n Q c : calm n Q c → settles_within n Q (call c).
Proof.
  unfold call. revert n. induction c as [v|e|g IH|f c IH|rq g IH|c IH]; cbn; intros n Hc; auto.
  - split; [by intros st|auto].
  - destruct n; [done|]. auto.
  - destruct n; [done|]. auto.
Qed.

Lemma calm_weaken {A} n m (Q : A → Prop) c : (n ≤ m)%nat → calm n Q c → calm m Q c.
Proof.
  revert n m. induction c as [v|e|g IH|h c IH|rq g IH|c IH]; cbn; intros n m Hm Hc; eauto.
  - destruct n, m; try done; try lia. intros r. eapply IH; [|apply Hc]. lia.
  - destruct n, m; try done; try lia. eapply IH; [|exact Hc]. lia.
Qed.

Section queries.
Context `{Host} `{UnicodeCase} (loaded : Z).

(** A request and the reading of its answer. *)
Lemma calm_json {B} m (R : B → Prop) url f :
  (∀ v, calm m R (f v)) → calm (S (S m)) R (json_or_null url ≫= f).
Proof.
  intros Hf r. cbn. destruct r as [r|e]; cbn; [|eapply calm_weaken; [|apply Hf]; lia].
  destruct (rs_ok r); cbn; [|eapply calm_weaken; [|apply Hf]; lia].
  destruct (rs_json r); apply Hf.
Qed.

Lemma calm_fetch {B} m (R : B → Prop) e f :
  (∀ v, calm m R (f v)) → calm (S (S m)) R (fetchJson e ≫= f).
Proof. intros Hf a. exact (calm_json m R _ f Hf). Qed.

Lemma calm_rpc {B} m (R : B → Prop) e f :
  (∀ v, calm m R (f v)) → calm (S (S m)) R (fetchRpcJson e ≫= f).
Proof. intros Hf a. exact (calm_json m R _ f Hf). Qed.

Lemma calm_offline {B} m (R : B → Prop) b f : calm m R (f tt) → calm m R (set_offline b ≫= f).
Proof. done. Qed.

Lemma calm_config {B} m (R : B → Prop) f :
  (∀ n, calm m R (f (NETWORK_CONFIG n))) → calm m R (getNetworkConfig ≫= f).
Proof. intros Hf a. apply Hf. Qed.

Lemma calm_time {B} m (R : B → Prop) time f : (∀ v, calm m R (f v)) → calm m R (block_time time ≫= f).
Proof. intros Hf a. apply Hf. Qed.

Lemma calm_then {A B} m (R : B → Prop) (c : cmd Api A) f :
  calm 0 (λ _, True) c → (∀ a, calm m R (f a)) → calm m R (c ≫= f).
Proof. intros Hc Hf. induction c; cbn in *; try done; auto. Qed.

Ltac calm_step :=
  lazymatch goal with
  | |- calm _ _ (Ret _) => cbn [calm]; cbv beta
  | |- calm _ _ (fetchJson _ ≫= _) => apply calm_fetch; intros ?
  | |- calm _ _ (fetchRpcJson _ ≫= _) => apply calm_rpc; intros ?
  | |- calm _ _ (names_chain _ ≫= _) => rewrite names_chain_spec
  | |- calm _ _ (and_prop _ _ ≫= _) => rewrite and_prop_spec
  | |- calm _ _ (nonempty_page _ ≫= _) => rewrite nonempty_page_spec
  | |- calm _ _ (prop_opt _ _ ≫= _) => rewrite bind_prop_opt
  | |- calm _ _ (prop _ _ ≫= _) =>
      rewrite bind_prop by eauto using truthy_js_or, has_status_truthy, and_field_truthy
  | |- calm _ _ (getNetworkConfig ≫= _) => apply calm_config; intros ?
  | |- calm _ _ (block_time _ ≫= _) => apply calm_time; intros ?
  | |- calm _ _ (set_offline _ ≫= _) => apply calm_offline
  | |- calm _ _ (if ?b then _ else _) => destruct b eqn:?
  end.

Lemma getStats_calm : calm 4 (λ v, truthy v = true) getStats.
Proof. unfold getStats. by repeat calm_step. Qed.

Lemma rpc_block_calm rpc header height d :
  truthy rpc = true → truthy header = true → calm 0 (λ _, True) (rpc_block rpc header height d).
Proof. intros Hr Hh. unfold rpc_block. by repeat calm_step. Qed.

Lemma getBlocks_calm limit offset : calm 4 (λ _, True) (getBlocks loaded limit offset).
Proof.
  unfold getBlocks. repeat calm_step; try done.
  apply calm_then; [|done]. apply rpc_block_calm; [by eapply and_field_truthy|done].
Qed.

Lemma getTransactions_calm limit offset : calm 2 (λ _, True) (getTransactions loaded limit offset).
Proof. unfold getTransactions. by repeat calm_step. Qed.

Lemma getValidators_calm : calm 2 (λ _, True) getValidators.
Proof. unfold getValidators. by repeat calm_step. Qed.
(** ** The first load *)

(** What the load needs of its results. *)
Definition stats_first (i : nat) (v : jsval) : Prop := i = 0%nat → truthy v = true.

Definition home_shown (st : State) : Prop := truthy (stats st) = true ∧ currentRoute st = "/"%js.

(** What [loadAllData] does with the results. *)
Definition store_all (vs : list jsval) : cmd State unit :=
  match vs with
  | [s; blkRes; txRes; valList; ctList] =>
      catch
        (_ ← write (set_stats s);
         _ ← with_items blkRes set_blocks;
         _ ← with_items txRes set_transactions;
         _ ← write (set_validators valList);
         write (set_contracts ctList))
        (λ _, Ret tt)
  | _ => Ret tt
  end.

Lemma store_all_resumes : resumes stats_first store_all 5 "/"%js home_shown.
Proof.
  intros vs st Hlen HQ Hr. destruct vs as [|s [|b [|t [|v [|c [|]]]]]]; try done.
  specialize (HQ 0%nat s eq_refl eq_refl). unfold store_all, with_items.
  destruct (get_prop b _) as [bs|]; [destruct (get_prop t _) as [ts|]|]; cbn; eexists _, _; by split.
Qed.

Lemma query_stores id n i c :
  calm n (stats_first i) c → stores id stats_first store_all n i (one_of id store_all i (call c)).
Proof. intros Hc. by apply one_of_stores, call_settles. Qed.

Lemma calm_imp {A} n (Q Q' : A → Prop) c : (∀ v, Q v → Q' v) → calm n Q c → calm n Q' c.
Proof.
  intros HQ. revert n. induction c as [v|e|g IH|f c IH|rq g IH|c IH]; cbn; intros n Hc; eauto;
    destruct n; [done|auto|done|auto].
Qed.

(** What each of the five calls may need. *)
Definition waits : list (nat * nat) := [(0, 4); (1, 4); (2, 2); (3, 2); (4, 0)]%nat.

Lemma loadAllData_loading p q st :
  currentRoute st = "/"%js →
  let r := loadAllData loaded p q st in
  loading (LoadAll, nextJoin st) stats_first store_all 5 "/"%js home_shown 13 r.2 (mkWorld r.1 []).
Proof.
  intros Hr. set (id := (LoadAll, nextJoin st)).
  apply (Loading id stats_first store_all 5 _ _ (replicate 5 None) [] waits).
  - cbn. by rewrite lookup_insert_eq.
  - split; [done|]. intros i v Hv. by apply lookup_replicate in Hv as [[=] _].
  - exact Hr.
  - constructor.
  - apply Forall2_cons_2; [|apply Forall2_cons_2; [|apply Forall2_cons_2; [|apply Forall2_cons_2;
      [|apply Forall2_cons_2; [|constructor]]]]]; apply query_stores; cbn [fst snd].
    + eapply calm_imp; [|exact getStats_calm]. by intros v Hv _.
    + eapply calm_imp; [|apply getBlocks_calm]. done.
    + eapply calm_imp; [|apply getTransactions_calm]. done.
    + eapply calm_imp; [|apply getValidators_calm]. done.
    + done.
  - split; [by apply (bool_decide_unpack _); vm_compute|]. intros i.
    do 5 (destruct i as [|i]; [split; [intros _; apply (bool_decide_unpack _); by vm_compute|done]|]).
    split; [done|]. change (([] ++ waits).*1) with [0; 1; 2; 3; 4]%nat. intros Hi.
    repeat (apply elem_of_cons in Hi as [Hi|Hi]; [lia|]). by apply elem_of_nil in Hi.
  - done.
Qed.

Lemma mounted_loading prefersDark s dark light now :
  ∃ id m, (m ≤ 13)%nat
  ∧ loading id stats_first store_all 5 "/"%js home_shown m [] (mounted loaded prefersDark s "/"%js dark light now).
Proof.
  set (st := apply_theme prefersDark (init s "/"%js dark light now)).
  assert (currentRoute st = "/"%js) as Hr.
  { unfold st, apply_theme. by repeat case_bool_decide. }
  exists (LoadAll, nextJoin st). apply launch_loading, loadAllData_loading, Hr.
Qed.

(** Nothing is left to wait for only when the page is there. *)
Lemma loading_stuck id n w :
  loading id stats_first store_all 5 "/"%js home_shown n [] w → (∀ w', ¬ delivery w w') →
  tasks w = [] ∧ home_shown (state w).
Proof.
  intros Hl Hw. inversion Hl as [slots ps us cs w' Hj Hc Hr Hps Hus Hp Hne|vs w' Hv HQ Hr Ht|w' Ht HP]; subst; [| |done].
  - exfalso. inversion Hus; subst. rewrite app_nil_r in *.
    destruct ps as [|[i b] ps]; [done|]. apply Forall2_cons_inv_l in Hps as (s & ss & Hs & _ & Ht).
    destruct b as [|b]; destruct s as [o|rq g|g]; try done.
    + apply (Hw (start (g (Throw (JsErr [] []))) (mkWorld (state w) (remove_at 0 (tasks w))))).
      apply (Answered 0 rq). by rewrite Ht.
    + apply (Hw (start g (mkWorld (state w) (remove_at 0 (tasks w))))). apply Resumed. by rewrite Ht.
  - exfalso. apply (Hw (start (store_all vs) (mkWorld (state w) (remove_at 0 (tasks w))))).
    apply Resumed. by rewrite Ht.
Qed.

Lemma deliveries_loading id n m w w' :
  loading id stats_first store_all 5 "/"%js home_shown m [] w → nsteps delivery n w w' →
  ∃ m', (m' + n ≤ m)%nat ∧ loading id stats_first store_all 5 "/"%js home_shown m' [] w'.
Proof.
  intros Hl Hn. revert m Hl. induction Hn as [w|n w1 w2 w3 Hd _ IH]; intros m Hl; [exists m; split; [lia|done]|].
  destruct (delivery_loading _ _ _ _ _ _ _ _ _ store_all_resumes Hl Hd) as (m1 & Hm1 & Hl1).
  destruct (IH m1 Hl1) as (m2 & Hm2 & Hl2). exists m2. split; [lia|done].
Qed.

Lemma home_pages st : home_shown st → pages st = [HomePage (stats st) (blocks st) (transactions st)].
Proof.
  intros [Ht Hr]. unfold pages, core_pages, hub_pages, at_route, under. by rewrite Hr, Ht.
Qed.

End queries.
