(* ===== verification/ExplorerVisits.v ===== *)
(** * The explorer's pages as the user meets them

    Votes, the RPC console, deep links and the tabs of the hubs. *)
From stdpp Require Import gmap.
From S2P Require Import Prelude JsString JsStringFacts JsNumber JsJson JsJsonFacts Async Formatters View Render Types RenderTyped.
From S2P Require Import Offers MockData ExplorerTypes ExplorerApi ExplorerUi ExplorerParts ExplorerApp ExplorerLayout ExplorerWidgets.
From S2P Require Import ExplorerEvents ExplorerPages ExplorerHome ExplorerLearn ExplorerHubs ExplorerSite ExplorerRender.
From S2P Require Import ExplorerContract ExplorerTyped ExplorerSafe ExplorerLoad.

(** ** What a render offers, if it succeeds *)

Section within.
Context {E : Type} (P : E → Prop).

Definition within (r : jsx E) : Prop := ∀ vs, r = Ok vs → Forall (sound P) vs.

Lemma within_bind {A} (m : outcome A) f : (∀ a, m = Ok a → within (f a)) → within (m ≫= f).
Proof. intros Hf. destruct m as [a|e]; [by apply Hf|by intros vs]. Qed.

Lemma within_children l : Forall within l → within (children l).
Proof.
  induction 1 as [|r l Hr _ IH]; [by intros vs [= <-]|]. intros vs Hvs. cbn in Hvs.
  destruct r as [us|]; [|done]. cbn in Hvs. destruct (children l) as [ws|]; [|done]. injection Hvs as <-.
  apply Forall_app. split; [by apply Hr|by apply IH].
Qed.

Lemma within_el tag attrs on l : Forall (handler_all P) on → Forall within l → within (el tag attrs on l).
Proof.
  intros Ho Hl vs Hvs. unfold el in Hvs. destruct (children l) as [cs|] eqn:Hc; [|done]. injection Hvs as <-.
  constructor; [|constructor]. apply sound_El. split; [done|]. by apply (within_children l Hl).
Qed.

Lemma within_txt s : within (txt s).
Proof. intros vs [= <-]. by repeat constructor. Qed.

Lemma within_jwhen b r : within r → within (jwhen b r).
Proof. destruct b; [done|]. by intros _ vs [= <-]. Qed.

Lemma within_jeach {A} (l : list A) f : (∀ x, within (f x)) → within (jeach l f).
Proof. intros Hf. apply within_children, Forall_fmap, Forall_true. intros x. apply Hf. Qed.

Lemma within_child v : within (child v).
Proof. intros vs. apply child_sound. Qed.

Lemma within_show v k : within (show v k).
Proof. apply within_bind. intros x _. apply within_child. Qed.
End within.

Ltac within_step :=
  lazymatch goal with
  | |- Forall _ [] => constructor
  | |- Forall _ (_ :: _) => constructor; cbv beta
  | |- handler_all _ _ => first [exact I|intros ?; exact I|assumption]
  | |- within _ (el _ _ _ _) => apply within_el
  | |- within _ (jdiv _) => apply within_el
  | |- within _ (jspan _) => apply within_el
  | |- within _ (jp _) => apply within_el
  | |- within _ (txt _) => apply within_txt
  | |- within _ (show _ _) => apply within_show
  | |- within _ (child _) => apply within_child
  | |- within _ (jwhen _ _) => apply within_jwhen
  | |- within _ (jeach _ _) => apply within_jeach; intros ?
  | |- within _ (if ?b then _ else _) => destruct b eqn:?
  | |- within _ (mbind _ _) => apply within_bind; intros ? ?; cbv beta
  end.

(** ** Votes *)

(** A vote on a proposal that has none. *)
Definition new_vote (voted : list (jsstring * jsval)) (a : Act) : Prop :=
  match a with
  | Own (Vote id _) => truthy (obj_get voted (to_string id)) = false
  | _ => True
  end.

Lemma Governance_within st : within (new_vote (Governance.votedProposals st)) (Governance.render st).
Proof.
  unfold Governance.render, Governance.GovernancePage, Governance.gov_banner, Governance.sip_filters,
    Governance.sip_card, Governance.grants, Governance.bug_bounty, Governance.sip_modal, Governance.proposal_card.
  repeat within_step.
Qed.

Lemma obj_get_set_ne fs k k' v : k' ≠ k → obj_get (obj_set fs k v) k' = obj_get fs k'.
Proof.
  intros Hk. induction fs as [|[k1 v1] fs IH]; cbn; [by rewrite bool_decide_false|].
  case_bool_decide as Hk1; [subst; cbn; by rewrite !bool_decide_false|].
  assert (bool_decide (k = k') = false) as Hb by (by apply bool_decide_false).
  destruct (array_index k) as [i|], (array_index k1) as [j|]; try destruct (i <? j)%N; cbn; by rewrite ?Hb, ?IH.
Qed.

(** C34. A vote is final: whatever the user does on the governance page, a proposal they
    have voted on keeps that vote, since the page offers votes only for the others. *)
Theorem vote_is_final (st : Governance.State) (vs : list (view Act)) (e : PageEvent) (k : jsstring) :
  Governance.render st = Ok vs → Exists (λ v, fires v (Own e)) vs →
  truthy (obj_get (Governance.votedProposals st) k) = true →
  obj_get (Governance.votedProposals (Governance.handle e st)) k = obj_get (Governance.votedProposals st) k.
Proof.
  intros Hr He Hk. apply (sound_all _ _ _ (Governance_within st vs Hr)) in He.
  destruct e; try done. cbn in *. rewrite obj_get_set_ne; [done|]. intros ->. congruence.
Qed.

(** ** The RPC console *)

Definition selected (e : PageEvent) : option jsstring := match e with SelectMethod m => Some m | _ => None end.

Lemma Portal_timers es st :
  ∃ l, Portal.rpcTimers (foldl (λ st e, Portal.handle e st) st es) = Portal.rpcTimers st ++ l.
Proof.
  revert st. induction es as [|e es IH]; intros st; [exists []; by rewrite app_nil_r|].
  assert (∃ l, Portal.rpcTimers (Portal.handle e st) = Portal.rpcTimers st ++ l) as [l Hl].
  { destruct e; try (exists []; by rewrite app_nil_r); cbn.
    - exists []. rewrite app_nil_r. unfold Portal.handleSelectMethod. by case_match.
    - by eexists. }
  destruct (IH (Portal.handle e st)) as [l' Hl']. exists (l ++ l'). cbn. by rewrite Hl', Hl, (assoc_L (++)).
Qed.

Lemma Portal_selected es st :
  Portal.selectedMethod (foldl (λ st e, Portal.handle e st) st es)
  = default (Portal.selectedMethod st) (last (omap selected es)).
Proof.
  revert st. induction es as [|e es IH]; intros st; [done|]. cbn [foldl]. rewrite IH.
  destruct e; try done. cbn [omap list_omap selected]. rewrite last_cons.
  destruct (last _); cbn; [done|]. unfold Portal.handleSelectMethod. by case_match.
Qed.

(** C39. The RPC console shows the answer to the method that was selected when it was
    run, whatever the user selects or types before the answer is there: the answer may
    belong to another method than the one shown, and the parameters have no part in it. *)
Theorem rpc_answers_the_start (st : Portal.Developers) (es : list PageEvent) :
  let st1 := foldl (λ st e, Portal.handle e st) (Portal.handle RunRpc st) es in
  let st2 := Portal.rpcTimeout (length (Portal.rpcTimers st)) st1 in
  Portal.rpcResponse st2 = Some (Portal.rpc_answer (Portal.selectedMethod st))
  ∧ Portal.selectedMethod st2 = default (Portal.selectedMethod st) (last (omap selected es))
  ∧ Portal.isExecutingRpc st2 = false.
Proof.
  intros st1 st2. subst st1 st2. destruct (Portal_timers es (Portal.handle RunRpc st)) as [l Hl].
  pose proof (Portal_selected es (Portal.handle RunRpc st)) as Hs.
  set (st1 := foldl _ _ _) in *. unfold Portal.rpcTimeout. rewrite Hl.
  cbn [Portal.handle Portal.handleRunRpc Portal.rpcTimers Portal.set_rpcTimers].
  rewrite <-(assoc_L (++)), lookup_app_r, Nat.sub_diag by done. cbn. by rewrite Hs.
Qed.

(** ** Deep links *)

Section deep_links.
Context `{Host} `{UnicodeCase} (loaded : Z).
Import ExplorerApiService ExplorerApp.

(** The application while the user does nothing: answers, the interval, the clock. *)
Inductive idle : world State → world State → Prop :=
| Idle_interval prefersDark w : idle w (launch (tasks w) (handle loaded prefersDark Interval (state w)))
| Idle_response i rq k r w :
    tasks w !! i = Some (Awaiting rq k) → idle w (start (k r) (mkWorld (state w) (remove_at i (tasks w))))
| Idle_yield i k w :
    tasks w !! i = Some (Yielded k) → idle w (start k (mkWorld (state w) (remove_at i (tasks w))))
| Idle_clock now w :
    idle w (mkWorld (upd_api (λ a, mkApi (api_network a) (api_offline a) now) (state w)) (tasks w)).

(** The route is kept and nothing is selected. *)
Definition unselected (route : jsstring) (st : State) : Prop :=
  currentRoute st = route ∧ currentBlock st = JNull ∧ currentTx st = JNull ∧ currentAccount st = JNull
  ∧ currentValidator st = JNull ∧ currentContract st = JNull.

Definition any_answer (rq : fetch_request) (r : outcome response) : Prop := True.

Abbreviation still route := (preserves any_answer (unselected route)).

Lemma call_still route {A} (c : cmd Api A) : still route (call c).
Proof. unfold call, preserves. induction c as [a|e|k IH|f k IH|rq k IH|k IH]; cbn; auto. Qed.

Lemma promise_all_still route site cs k st :
  unselected route st → (∀ vs, still route (k vs)) → Forall (λ c, still route c) cs →
  let r := promise_all site cs k st in unselected route r.1 ∧ Forall (λ c, still route c) r.2.
Proof.
  intros Hst Hk Hcs. split; [done|]. cbn. apply Forall_lookup_2. intros i c Hi. rewrite list_lookup_imap in Hi.
  apply fmap_Some in Hi as (c' & Hc & ->). unfold one_of. rewrite Forall_lookup in Hcs.
  apply preserves_bind; [by eapply Hcs|]. intros v. split; [by intros st'|]. intros st' _. cbn.
  destruct (joined _ st'); [apply Hk|done].
Qed.

Lemma with_items_still route v f :
  (∀ x st, unselected route st → unselected route (f x st)) → still route (with_items v f).
Proof. intros Hf. apply preserves_lift. intros x _. split; [apply Hf|done]. Qed.

Ltac still_step :=
  lazymatch goal with
  | |- ensures _ _ _ (Ret _) => exact I
  | |- preserves _ _ (Ret _) => exact I
  | |- preserves _ _ (catch _ _) => apply preserves_catch; [|intros ?]
  | |- preserves _ _ (write _ ≫= _) => apply preserves_bind; [|intros ?]
  | |- preserves _ _ (with_items _ _ ≫= _) => apply preserves_bind; [|intros ?]
  | |- preserves _ _ (with_items _ _) => by apply with_items_still
  | |- preserves _ _ (write _) => by apply preserves_write
  end.

Lemma loadAllData_still route p q st :
  unselected route st →
  unselected route (loadAllData loaded p q st).1 ∧ Forall (λ c, still route c) (loadAllData loaded p q st).2.
Proof.
  intros Hst. apply promise_all_still; [done| |repeat constructor; apply call_still].
  intros vs. do 6 (destruct vs as [|? vs]; try exact I). repeat still_step.
Qed.

Lemma poll_still route st :
  unselected route st → unselected route (poll loaded st).1 ∧ Forall (λ c, still route c) (poll loaded st).2.
Proof.
  intros Hst. apply promise_all_still; [done| |repeat constructor; apply call_still].
  intros vs. do 4 (destruct vs as [|? vs]; try exact I). repeat still_step.
Qed.

Lemma launch_still route tasks r :
  unselected route r.1 → Forall (λ c, still route c) r.2 →
  Forall (stop_preserves any_answer (unselected route)) tasks →
  world_keeps any_answer (unselected route) (launch tasks r).
Proof.
  intros Hs Hc Ht. unfold launch.
  assert (world_keeps any_answer (unselected route) (mkWorld r.1 tasks)) as Hw by done.
  revert Hw. generalize (mkWorld r.1 tasks). induction Hc as [|c cs Hc _ IH]; intros w Hw; [done|].
  apply IH. by apply start_keeps.
Qed.

Lemma idle_still route w w' :
  idle w w' → world_keeps any_answer (unselected route) w → world_keeps any_answer (unselected route) w'.
Proof.
  intros Hi Hw. destruct Hi as [b w|i rq k r w Hi|i k w Hi|now w].
  - destruct Hw as [Hs Ht]. destruct (poll_still route (state w) Hs). by apply launch_still.
  - by eapply respond_keeps.
  - by eapply resume_keeps.
  - done.
Qed.

Lemma mounted_still prefersDark s path dark light now :
  path ≠ [] → world_keeps any_answer (unselected path) (mounted loaded prefersDark s path dark light now).
Proof.
  intros Hp. unfold mounted.
  assert (unselected path (apply_theme prefersDark (init s path dark light now))) as Hu.
  { assert (unselected path (init s path dark light now)) as Hu.
    { split_and!; try done. cbn. by rewrite bool_decide_false. }
    unfold apply_theme. by repeat case_match. }
  destruct (loadAllData_still path 1 1 _ Hu). by apply launch_still.
Qed.

(** The routes of what is selected in a list. *)
Definition detail_routes : list jsstring :=
  ["/block/"%js; "/tx/"%js; "/address/"%js; "/validator/"%js; "/contract/"%js].

Lemma unselected_blank p x st : p ∈ detail_routes → unselected (p ++ x) st → pages st = [].
Proof.
  intros Hp (Hr & Hb & Ht & Ha & Hv & Hc). unfold pages, core_pages, hub_pages, at_route, under.
  rewrite Hr, Hb, Ht, Ha, Hv, Hc. change (truthy JNull) with false. rewrite !andb_false_r. unfold detail_routes in Hp.
  repeat (apply elem_of_cons in Hp as [->|Hp]; [by vm_compute|]). by apply elem_of_nil in Hp.
Qed.

(** C37. The address of a block, a transaction, an account, a validator or a contract
    cannot be opened directly: an explorer that starts there shows no page, whatever
    the servers answer and however long the user waits. *)
Theorem deep_link_blank (prefersDark dark light : bool) (s : Storage) (p x : jsstring) (now : Z) (w : world State) :
  p ∈ detail_routes → rtc idle (mounted loaded prefersDark s (p ++ x) dark light now) w → pages (state w) = [].
Proof.
  intros Hp Hr. apply (unselected_blank p x); [done|].
  assert (p ++ x ≠ []) as Hne.
  { intros [-> _]%app_nil. unfold detail_routes in Hp.
    repeat (apply elem_of_cons in Hp as [[=]|Hp]). by apply elem_of_nil in Hp. }
  pose proof (mounted_still prefersDark s (p ++ x) dark light now Hne) as Hw. revert Hw.
  induction Hr as [w|w1 w2 w3 Hi _ IH]; [by intros []|]. intros Hw. by eapply IH, idle_still.
Qed.
End deep_links.

(** ** Tabs *)

Section tabs.
Context `{Host} `{UnicodeCase} (year loaded : Z).
Import Site ExplorerApp(pages).

(** The child of [main] is the page there is. *)
Definition placed (s : State) : Prop :=
  match pages (state (app s)), main s with
  | [], None => True
  | p :: _, Some (n, _) => n = slot (ExplorerApp.currentRoute (state (app s))) p
  | _, _ => False
  end.

Lemma commit_placed s : failure (commit year s) = None → placed (commit year s).
Proof.
  unfold commit. destruct (failure s) eqn:Hf; [congruence|].
  destruct (App _ _ _ _) as [vs|e]; [|done]. intros _. unfold placed, place. cbn.
  destruct (pages _) as [|p l]; [done|]. destruct (main s) as [[n h]|]; [|done].
  by destruct (n =? _)%nat eqn:E.
Qed.

(** A hub keeps its place while the routes stay under it. *)
Definition hubs : list (jsstring * nat) :=
  [("/learn"%js, 7%nat); ("/developers"%js, 8%nat); ("/ecosystem"%js, 15%nat); ("/governance"%js, 16%nat)].

Lemma hub_page hub n st :
  (hub, n) ∈ hubs → startsWith (ExplorerApp.currentRoute st) hub = true →
  ∃ p l, pages st = p :: l ∧ slot (ExplorerApp.currentRoute st) p = n.
Proof.
  intros Hh Hs. pose proof Hs as [x Hx]%startsWith_split. unfold pages, ExplorerApp.core_pages,
    ExplorerApp.hub_pages, ExplorerApp.at_route, ExplorerApp.under. unfold hubs in Hh.
  repeat (apply elem_of_cons in Hh as [[= -> ->]|Hh];
    [rewrite Hs, Hx; vm_compute; eexists _, _; split; reflexivity|]). by apply elem_of_nil in Hh.
Qed.

Lemma step_commits T s s' : step year loaded T s s' → ∃ s0, s' = commit year s0.
Proof. destruct 1; by eexists. Qed.

Lemma boot_commits prefersDark storage path dark light now :
  ∃ s0, boot year loaded prefersDark storage path dark light now = commit year s0.
Proof. by eexists. Qed.

Lemma reachable_placed prefersDark storage path dark light now s :
  stored_strings storage →
  rtc (step year loaded typed_answer) (boot year loaded prefersDark storage path dark light now) s → placed s.
Proof.
  intros Hs Hr. pose proof (site_failure _ (site_reachable_ok _ _ _ _ _ _ _ _ _ Hs Hr)) as Hf.
  assert (∃ s0, s = commit year s0) as [s0 ->].
  { apply rtc_inv_r in Hr as [<-|(s' & _ & Hst)]; [apply boot_commits|by eapply step_commits]. }
  by apply commit_placed.
Qed.

Lemma navigates_main prefersDark e r s :
  navigates e = Some r → main (react loaded prefersDark e s) = main s
  ∧ failure (react loaded prefersDark e s) = failure s.
Proof.
  destruct e as [e|e|e|e]; [destruct e as [| | | |e]|..]; try destruct e; try discriminate; by intros [= <-].
Qed.

(** C38. The links inside a hub have no effect: on a page of the lessons, the developers'
    portal, the ecosystem or the governance, following a link the screen offers to
    another route of the same hub leaves the page with the tab it had. *)
Theorem hub_tab_kept (prefersDark dark light b : bool) (storage : Storage) (path : jsstring) (now : Z)
    (s : State) (vs : list (view Event)) (e : Event) (r hub : jsstring) (n : nat) :
  stored_strings storage →
  rtc (step year loaded typed_answer) (boot year loaded prefersDark storage path dark light now) s →
  screen year s = Ok vs → Exists (λ v, fires v e) vs → navigates e = Some r →
  (hub, n) ∈ hubs → startsWith (ExplorerApp.currentRoute (state (app s))) hub = true →
  startsWith r hub = true →
  ∃ h, main s = Some (n, h) ∧ main (commit year (react loaded b e s)) = Some (n, h).
Proof.
  intros Hs Hr Hv He Hn Hh Hroute Hr'. pose proof (site_reachable_ok _ _ _ _ _ _ _ _ _ Hs Hr) as Hok.
  pose proof (reachable_placed _ _ _ _ _ _ _ Hs Hr) as Hp.
  destruct (hub_page _ _ _ Hh Hroute) as (p & l & Hpl & Hsl). unfold placed in Hp. rewrite Hpl in Hp.
  destruct (main s) as [[n' h]|] eqn:Hm; [|done]. rewrite Hsl in Hp. subst n'. exists h. split; [done|].
  destruct (react_navigates loaded b e r s Hn) as [Hcr _]. destruct (navigates_main b e r s Hn) as [Hmain Hfail].
  pose proof (site_failure _ (site_step_ok _ _ _ _ Hok (Step_user year loaded typed_answer b e vs s Hv He))) as Hf.
  rewrite <-Hcr in Hr'. destruct (hub_page _ _ _ Hh Hr') as (p' & l' & Hpl' & Hsl').
  unfold commit in *. rewrite Hfail, (site_failure _ Hok) in *. destruct (App _ _ _ _); [|done].
  cbn. unfold place. by rewrite Hpl', Hmain, Hm, Hsl', Nat.eqb_refl.
Qed.
End tabs.
