(* ===== verification/ExplorerRuns.v ===== *)
(** * Runs of the explorer

    Sequences of clicks and answers, evaluated: instances of the theorems about the whole
    explorer. *)
From stdpp Require Import gmap.
From S2P Require Import Prelude JsString JsStringFacts JsNumber JsJson JsJsonFacts Async Formatters View Render Types RenderTyped.
From S2P Require Import Offers MockData ExplorerTypes ExplorerApi ExplorerUi ExplorerParts ExplorerApp ExplorerLayout ExplorerWidgets.
From S2P Require Import ExplorerEvents ExplorerPages ExplorerHome ExplorerLearn ExplorerHubs ExplorerSite ExplorerRender.
From S2P Require Import ExplorerContract ExplorerTyped ExplorerSafe ExplorerLoad.
From S2P Require Import ExplorerVisits.

#[local] Existing Instances plain_host ascii_case.
Import Site.

(** The events of the clicks a view offers. *)
Definition click {E} (a : action E) : option E := match a with Do e => Some e | _ => None end.
Definition clicks {E} (v : view E) : list E := omap click (actions v).

Lemma clicks_fire {E} (v : view E) e : e ∈ clicks v → fires v e.
Proof.
  intros (a & Ha & Hc)%list_elem_of_omap. apply Exists_exists. exists a. split; [done|].
  destruct a; try done. by injection Hc as ->.
Qed.

(** The first task goes on; a request fails. *)
Definition proceed (s : State) : State :=
  match tasks (app s) !! 0%nat with
  | Some (Awaiting rq k) =>
      commit 2026 (set_app (start (k (Throw (JsErr "TypeError"%js "Failed to fetch"%js)))
        (mkWorld (state (app s)) (remove_at 0 (tasks (app s))))) s)
  | Some (Yielded k) => commit 2026 (set_app (start k (mkWorld (state (app s)) (remove_at 0 (tasks (app s))))) s)
  | _ => s
  end.

Abbreviation booted path := (boot 2026 0 true ∅ path true false 0).
Definition offline (path : jsstring) : State := Nat.iter 13 proceed (booted path).
Definition links (s : State) : list jsstring :=
  match screen 2026 s with Ok vs => omap navigates (vs ≫= clicks) | Throw _ => [] end.

Lemma proceed_reachable s0 s :
  rtc (step 2026 0 typed_answer) s0 s → rtc (step 2026 0 typed_answer) s0 (proceed s).
Proof.
  intros Hs. unfold proceed. destruct (tasks (app s) !! 0%nat) as [[o|rq k|k]|] eqn:E; try done.
  - eapply rtc_r; [exact Hs|]. eapply Step_response; [exact E|]. by apply failed_typed.
  - eapply rtc_r; [exact Hs|]. by eapply Step_yield.
Qed.

Lemma proceeds_reachable n s : rtc (step 2026 0 typed_answer) s (Nat.iter n proceed s).
Proof.
  induction n as [|n IH]; [apply rtc_refl|].
  change (Nat.iter (S n) proceed s) with (proceed (Nat.iter n proceed s)). exact (proceed_reachable _ _ IH).
Qed.

Lemma offline_reachable path : rtc (step 2026 0 typed_answer) (booted path) (offline path).
Proof. exact (proceeds_reachable 13 (booted path)). Qed.

Lemma nothing_stored : stored_strings ∅.
Proof. done. Qed.

(** A link of the screen is one the user can follow. *)
Lemma links_offered s r :
  r ∈ links s → ∃ vs e, screen 2026 s = Ok vs ∧ Exists (λ v, fires v e) vs ∧ navigates e = Some r.
Proof.
  unfold links. destruct (screen 2026 s) as [vs|]; [|by intros ?%elem_of_nil].
  intros (e & (v & He & Hv)%list_elem_of_bind & Hn)%list_elem_of_omap. exists vs, e. split; [done|]. split; [|done].
  apply Exists_exists. exists v. split; [done|]. by apply clicks_fire.
Qed.

Lemma explorer_never_crashes_witness :
  failure (offline "/"%js) = None ∧ is_ok (screen 2026 (offline "/"%js)) = true.
Proof.
  exact (explorer_never_crashes 2026 0 true true false ∅ "/"%js 0 (offline "/"%js) nothing_stored
    (offline_reachable "/"%js)).
Defined.

Lemma links_lead_witness :
  ∃ e, navigates e = Some "/staking"%js
  ∧ ExplorerApp.pages (state (app (react 0 true e (offline "/"%js)))) ≠ [].
Proof.
  destruct (links_offered (offline "/"%js) "/staking"%js) as (vs & e & Hv & He & Hn).
  { apply (bool_decide_unpack _). by vm_compute. }
  exists e. split; [exact Hn|].
  refine (links_lead 2026 0 true true false true ∅ "/"%js 0 (offline "/"%js) vs e "/staking"%js nothing_stored
    (offline_reachable "/"%js) Hv He Hn _). by vm_compute.
Defined.

Lemma hub_tab_kept_witness :
  ∃ e h, navigates e = Some "/learn/tokenomics"%js ∧ main (offline "/learn"%js) = Some (7%nat, h)
  ∧ main (commit 2026 (react 0 true e (offline "/learn"%js))) = Some (7%nat, h).
Proof.
  destruct (links_offered (offline "/learn"%js) "/learn/tokenomics"%js) as (vs & e & Hv & He & Hn).
  { apply (bool_decide_unpack _). by vm_compute. }
  destruct (hub_tab_kept 2026 0 true true false true ∅ "/learn"%js 0 (offline "/learn"%js) vs e
    "/learn/tokenomics"%js "/learn"%js 7 nothing_stored (offline_reachable "/learn"%js) Hv He Hn) as (h & Hm & Hm').
  - by left.
  - by vm_compute.
  - by vm_compute.
  - exists e, h. split; [exact Hn|]. split; assumption.
Defined.

Lemma deep_link_blank_witness :
  ExplorerApp.pages (state (ExplorerApp.mounted 0 true ∅ "/block/7"%js true false 0)) = [].
Proof. apply (deep_link_blank 0 true true false ∅ "/block/"%js "7"%js 0); [by left|apply rtc_refl]. Defined.

(** The page of votes, with one vote. *)
Definition voted : Governance.State :=
  Governance.handleVote (JNum (NInt 12)) "Yes"%js
    (Governance.loaded MockData.MOCK_GOVERNANCE_PROPOSALS MockData.MOCK_SIPS (Governance.init "/governance"%js)).

Lemma voted_offers :
  match Governance.render voted with Ok vs => (vs ≫= clicks) !! 5%nat | Throw _ => None end
  = Some (Own (Vote (JNum (NInt 11)) "No"%js)).
Proof. by vm_compute. Qed.

Lemma vote_is_final_witness :
  obj_get (Governance.votedProposals (Governance.handle (Vote (JNum (NInt 11)) "No"%js) voted)) "12"%js
  = obj_get (Governance.votedProposals voted) "12"%js.
Proof.
  pose proof voted_offers as Ho. destruct (Governance.render voted) as [vs|] eqn:Hr; [|discriminate Ho].
  refine (vote_is_final voted vs _ "12"%js Hr _ _); [|by vm_compute].
  apply list_elem_of_lookup_2, list_elem_of_bind in Ho as (v & Hc & Hv).
  apply Exists_exists. exists v. split; [exact Hv|]. by apply clicks_fire.
Defined.

(** The first load while the network is down. *)
Definition fail_first (w : world ExplorerApp.State) : world ExplorerApp.State :=
  match tasks w !! 0%nat with
  | Some (Awaiting rq k) =>
      start (k (Throw (JsErr "TypeError"%js "Failed to fetch"%js))) (mkWorld (state w) (remove_at 0 (tasks w)))
  | Some (Yielded k) => start k (mkWorld (state w) (remove_at 0 (tasks w)))
  | _ => w
  end.

Lemma fail_first_delivers w :
  match tasks w with (Awaiting _ _ | Yielded _) :: _ => true | _ => false end = true →
  delivery w (fail_first w).
Proof.
  intros Hw. unfold fail_first. destruct (tasks w) as [|[o|rq k|k] l] eqn:Ht; try discriminate Hw;
    cbn [lookup list_lookup].
  - rewrite <-Ht. apply Answered with (i := 0%nat) (rq := rq). by rewrite Ht.
  - rewrite <-Ht. apply Resumed with (i := 0%nat). by rewrite Ht.
Qed.

Abbreviation first_load := (ExplorerApp.mounted 0 true ∅ "/"%js true false 0).

Lemma first_load_steps : nsteps delivery 7 first_load (Nat.iter 7 fail_first first_load).
Proof.
  change (Nat.iter 7 fail_first first_load)
    with (fail_first (fail_first (fail_first (fail_first (fail_first (fail_first (fail_first first_load))))))).
  do 7 (eapply nsteps_l; [apply fail_first_delivers; by vm_compute|]). apply nsteps_O.
Qed.

