(* ===== verification/ExplorerAppFacts.v ===== *)
(** * Facts about the explorer application *)
From stdpp Require Import gmap.
From S2P Require Import Prelude JsString JsStringFacts JsNumber JsNumberFacts JsJson Async.
From S2P Require Import Formatters Render MockData ExplorerApi ExplorerApiFacts ExplorerUi ExplorerApp.
Import Formatters MockData ExplorerApiService ExplorerApp.

Section facts.
Context `{Host} `{UnicodeCase} (loaded : Z).

(** ** Routing *)

(** What is left to show when the route, or its beginning, is known. *)
Ltac route_known E :=
  first [apply bool_decide_eq_true in E|apply startsWith_split in E as [? E]];
  rewrite E; vm_compute; repeat case_match; simpl; lia.

(** At most one page is shown, whatever the route: the routes of the pages
    exclude each other. *)
Lemma at_most_one_page (st : State) : (length (pages st) ≤ 1)%nat.
Proof.
  unfold pages, core_pages, hub_pages, at_route, under. rewrite !length_app.
  repeat match goal with
  | |- context [bool_decide (currentRoute st = ?s)] =>
      destruct (bool_decide (currentRoute st = s)) eqn:E; [route_known E|clear E]
  | |- context [startsWith (currentRoute st) ?s] =>
      destruct (startsWith (currentRoute st) s) eqn:E; [route_known E|clear E]
  end.
  simpl. lia.
Qed.

(** ** Search *)

Lemma eval_call {A} (c : cmd Api A) st rs o a :
  eval c (api st) rs = Some (o, a) → eval (call c) st rs = Some (o, set_api a st).
Proof.
  apply (eval_zoom api upd_api).
  - done.
  - done.
  - intros s. by destruct s.
  - intros f g s E. unfold upd_api. by rewrite E.
Qed.

Lemma filter_height_total block l :
  truthy block = true → Forall (λ t, is_nullish t = false) l →
  ∃ txs, filter_height block l = Ok txs.
Proof.
  intros Hb. induction 1 as [|t l Ht _ [txs IH]]; [by eexists|]. simpl.
  rewrite (get_prop_truthy block) by done. destruct t; try done; simpl; rewrite IH; by eexists.
Qed.

Lemma get_height b n :
  field_num b "height"%js = NInt n → get_prop b "height"%js = Ok (JNum (NInt n)).
Proof.
  destruct b as [| | | | | |fs]; try done. unfold field_num, get_prop.
  by destruct (obj_get fs _); try done; intros ->.
Qed.

Lemma handleExecute_clean q m s :
  trim q ≠ [] → ∃ m' s', SearchModal.handleExecute true q m s = (m', s', Some (trim q)).
Proof.
  intros Hq. unfold SearchModal.handleExecute. rewrite bool_decide_false by done.
  destruct (SearchModal.recents m); by do 2 eexists.
Qed.

Lemma openSearch_closed st :
  searchModalOpen (openSearch false st) = false ∧ api (openSearch false st) = api st.
Proof. unfold openSearch. by destruct (Bool.eqb false _). Qed.

Lemma run_showBlock st l b n :
  truthy b = true → Forall (λ t, is_nullish t = false) l → field_num b "height"%js = NInt n →
  ∃ txs, run (showBlock (JArr l) b) st []
         = Some (Ok tt, set_currentRoute ("/block/"%js ++ num_to_string (NInt n))
                          (set_currentBlockTxs txs (set_currentBlock b st)), []).
Proof.
  intros Hb Hl Hh. destruct (filter_height_total b l Hb Hl) as [txs Hf].
  unfold showBlock, block_txs. rewrite Hf, (get_height _ _ Hh). by eexists.
Qed.

Lemma pages_block st r :
  currentRoute st = "/block/"%js ++ r → truthy (currentBlock st) = true →
  pages st = [BlockDetailsPage (currentBlock st) (currentBlockTxs st)].
Proof. intros E Hb. unfold pages, core_pages, hub_pages, at_route, under. by rewrite E, startsWith_app, Hb. Qed.

(** C26. Searching for a block number in the modal opens that block's page: with no
    server in reach and any loaded list of transactions, the search ends on the
    route of the number with a block of that height on the page. *)
Theorem search_shows_block (st : State) (q : jsstring) (l : list jsval)
    (r1 r2 r3 : outcome response) :
  failed r1 → failed r2 → failed r3 →
  is_decimal (trim q) = true → safe_int (Z.of_N (dec_value (trim q))) →
  transactions st = JArr l → Forall (λ t, is_nullish t = false) l →
  ∃ st1 clean st2 b txs,
    handle loaded false (OnSearchModal (SearchModal.Execute q)) st
      = (st1, [handleUniversalSearch loaded (transactions st) clean])
    ∧ searchModalOpen st1 = false
    ∧ eval (handleUniversalSearch loaded (transactions st) clean) st1 [r1; r2; r3]
      = Some (Ok tt, st2)
    ∧ currentRoute st2 = "/block/"%js ++ Z_to_string (Z.of_N (dec_value (trim q)))
    ∧ pages st2 = [BlockDetailsPage b txs]
    ∧ field_num b "height"%js = NInt (Z.of_N (dec_value (trim q))).
Proof.
  intros H1 H2 H3 Hq Hz Ht Hl.
  destruct (search_height loaded (api st) (trim q) r1 r2 r3 H1 H2 H3) as (b & Hs & Hh & _);
    [by rewrite trim_idemp..|]. rewrite trim_idemp in Hh.
  assert (trim q ≠ []) as Hn by (by apply is_decimal_spec in Hq as [? _]).
  destruct (handleExecute_clean q (search st) (storage st) Hn) as (m & s & Hx).
  set (st0 := set_storage s (set_search m st)).
  destruct (openSearch_closed st0) as [Ho Ha]. set (st1 := openSearch false st0) in *.
  assert (truthy b = true) as Hb by (by destruct b).
  destruct (run_showBlock (set_api (api st) st1) l b _ Hb Hl Hh) as [txs Hr].
  eexists st1, (trim q), _, b, txs. split_and!.
  - cbn. rewrite Hx. done.
  - done.
  - rewrite Ht. unfold handleUniversalSearch.
    apply (eval_bind_last _ _ _ _ (result "Block"%js b) (set_api (api st) st1)); [|exact Hr].
    apply eval_call. rewrite Ha. exact Hs.
  - rewrite <- (num_to_string_safe _ Hz). reflexivity.
  - erewrite pages_block; [reflexivity|reflexivity|done].
  - done.
Qed.

(** ** The network *)

(** A task that waits for an answer of the local development server. *)
Definition asks_local (t : stop State unit) : bool :=
  match t with
  | Awaiting rq _ => startsWith (rq_url rq) "http://127.0.0.1:8000/api/v1/"%js
  | _ => false
  end.

(** When the application starts, the network it shows is the stored one or
    mainnet, but all its queries go to the local development server, which the
    service is created with. *)
Lemma start_queries_local (prefersDark dark light : bool) (s : Storage) (path : jsstring) (now : Z) :
  let w := mounted loaded prefersDark s path dark light now in
  network (state w) = stored_or s "sprx_network"%js "mainnet"%js
  ∧ length (tasks w) = 4%nat ∧ forallb asks_local (tasks w) = true.
Proof.
  cbv zeta. unfold mounted, apply_theme.
  set (st := setItem _ _ _). destruct (bool_decide (theme _ = "dark"%js)); [done|].
  by destruct (bool_decide (theme _ = "light"%js)).
Qed.

(** After a choice of network, what is shown and what is asked agree. *)
Lemma network_change_synced n st :
  let st' := (handle loaded false (NetworkChange n) st).1 in
  network st' = Network_value n ∧ api_network (api st') = n
  ∧ getItem (storage st') "sprx_network"%js = Some (Network_value n).
Proof. split_and!; [done..|]. apply lookup_insert_eq. Qed.

(** Disconnecting in the modal leaves the wallet the application shows. *)
Lemma disconnect_keeps_wallet st :
  let st' := (handle loaded false (OnWalletModal ConnectWalletModal.Disconnect) st).1 in
  connectedWallet st' = connectedWallet st
  ∧ ConnectWalletModal.connectedAddress (wallet st') = None
  ∧ ConnectWalletModal.stored_wallet (storage st') = None.
Proof.
  split_and!; [done..|]. unfold ConnectWalletModal.stored_wallet.
  assert (getItem (delete ConnectWalletModal.wallet_key (storage st)) ConnectWalletModal.wallet_key
          = None) as E by apply lookup_delete_eq.
  change (match getItem (delete ConnectWalletModal.wallet_key (storage st))
                  ConnectWalletModal.wallet_key with
          | None | Some [] => None | Some s => Some s end = None). by rewrite E.
Qed.
End facts.

(** ** Runs *)

Section runs.
#[local] Existing Instances plain_host ascii_case.

Lemma search_shows_block_witness :
  ∃ st1 clean st2 b txs,
    handle 0 false (OnSearchModal (SearchModal.Execute " 42"%js)) (init ∅ "/"%js false false 0)
      = (st1, [handleUniversalSearch 0 (JArr []) clean])
    ∧ eval (handleUniversalSearch 0 (JArr []) clean) st1 [rejected; rejected; rejected]
      = Some (Ok tt, st2)
    ∧ pages st2 = [BlockDetailsPage b txs] ∧ field_num b "height"%js = NInt 42.
Proof.
  destruct (search_shows_block 0 (init ∅ "/"%js false false 0) " 42"%js [] rejected rejected rejected)
    as (st1 & clean & st2 & b & txs & Hh & _ & He & _ & Hp & Hn);
    [reflexivity..|vm_compute; discriminate|reflexivity|constructor|].
  exists st1, clean, st2, b, txs.
  exact (conj Hh (conj He (conj Hp Hn))).
Defined.

(** The first task that waits gets an answer: none, when it made a request. *)
Definition deliver (w : world State) : world State :=
  match tasks w with
  | Awaiting _ k :: ts => start (k rejected) (mkWorld (state w) ts)
  | Yielded k :: ts => start k (mkWorld (state w) ts)
  | _ => w
  end.

Definition perform (e : Event) (w : world State) : world State :=
  launch (tasks w) (handle 0 false e (state w)).

Lemma deliver_reachable w0 w : rtc (step 0) w0 w → rtc (step 0) w0 (deliver w).
Proof.
  intros Hw. unfold deliver. destruct (tasks w) as [|[o|rq k|k] ts] eqn:E; try done.
  - eapply rtc_r; [done|]. pose proof (Step_response 0 0 rq k rejected w) as Hs.
    rewrite E in Hs. by apply Hs.
  - eapply rtc_r; [done|]. pose proof (Step_yield 0 0 k w) as Hs. rewrite E in Hs. by apply Hs.
Qed.

Lemma perform_reachable w0 e w : rtc (step 0) w0 w → rtc (step 0) w0 (perform e w).
Proof. intros Hw. eapply rtc_r; [done|]. apply Step_event. Qed.

Definition at_blocks : world State := mounted 0 false ∅ "/blocks"%js false false 1700000000000.

(** Page two of the blocks, then the interval. *)
Definition second_page : world State := Nat.iter 20 deliver (perform (SetBlocksPage 2) (Nat.iter 20 deliver at_blocks)).
Definition polled : world State := Nat.iter 20 deliver (perform Interval second_page).

Definition heights (l : list jsval) : list num := (λ b, field_num b "height"%js) <$> l.

Definition shows (w : world State) (l : list jsval) (page : Z) : bool :=
  match tasks w, pages (state w) with
  | [], [BlocksPage (JArr l') _ p _] => bool_decide (heights l' = heights l) && (p =? page)%Z
  | _, _ => false
  end.

(** The interval replaces the page of blocks the user is on by the first page:
    on page two, with everything loaded, the next poll leaves the page number at
    two and lists the blocks of page one. *)
Lemma poll_overwrites_page :
  ∃ w w', rtc (step 0) at_blocks w ∧ rtc (step 0) w w'
    ∧ shows w (drop 15 (MOCK_GENESIS_BLOCKS 0)) 2 = true
    ∧ shows w' (take 15 (MOCK_GENESIS_BLOCKS 0)) 2 = true.
Proof.
  exists second_page, polled. split_and!.
  - do 20 apply deliver_reachable. apply perform_reachable. by do 20 apply deliver_reachable.
  - do 20 apply deliver_reachable. by apply perform_reachable.
  - by vm_compute.
  - by vm_compute.
Qed.
End runs.
