(* ===== verification/AdminTypes.v ===== *)
(** * Data types of the admin panel: [apps/admin-panel/src/types/index.ts]

    As for the explorer, each interface is a description that [conforms] checks
    values against. *)
From S2P Require Import Prelude JsString JsNumber JsJson Types.

Module AdminTypes.

Definition Environment : ty :=
  TEnum ["LOCAL"%js; "TESTNET"%js; "MAINNET"%js].

Definition AdminRole : ty :=
  TEnum ["super_admin"%js; "admin"%js; "operations"%js; "viewer"%js].

Definition AdminUser : ty :=
  TObj [req "id"%js (TStr);
    req "username"%js (TStr);
    req "role"%js (AdminRole);
    req "is_active"%js (TBool);
    req "created_at"%js (TOr (TStr) (TNull));
    req "last_login"%js (TOr (TStr) (TNull))].

Definition AdminProfile : ty :=
  TObj [req "id"%js (TStr);
    req "username"%js (TStr);
    req "role"%js (AdminRole);
    req "permissions"%js (TArr (TStr));
    req "environment"%js (Environment)].

Definition DashboardKpis : ty :=
  TObj [req "current_block_height"%js (TNum);
    req "total_transactions"%js (TNum);
    req "active_validators"%js (TNum);
    req "total_staked_sprx"%js (TStr);
    req "indexer_height"%js (TNum);
    req "indexer_lag"%js (TNum);
    req "rpc_status"%js (TStr);
    req "api_health"%js (TStr);
    req "registered_users"%js (TNum);
    req "active_sessions"%js (TNum)].

Definition SubsystemHealth : ty :=
  TObj [req "status"%js (TEnum ["OPERATIONAL"%js; "HEALTHY"%js; "SYNCING"%js; "DEGRADED"%js; "OUTAGE"%js; "TESTNET ONLY (PROD BLOCKED)"%js]);
    opt "latency_ms"%js (TNum);
    opt "lag"%js (TNum);
    opt "connections"%js (TNum);
    opt "queued_jobs"%js (TNum);
    opt "uptime"%js (TStr)].

Definition SystemService : ty :=
  TObj [req "name"%js (TStr);
    req "type"%js (TStr);
    req "status"%js (TStr);
    req "uptime"%js (TStr);
    opt "latency"%js (TStr);
    opt "lag"%js (TNum);
    opt "active_clients"%js (TNum)].

Definition AppUser : ty :=
  TObj [req "id"%js (TStr);
    req "address"%js (TStr);
    req "display_name"%js (TOr (TStr) (TNull));
    req "is_active"%js (TBool);
    req "created_at"%js (TOr (TStr) (TNull))].

Definition AppVersionConfig : ty :=
  TObj [req "platform"%js (TStr);
    req "min_version"%js (TStr);
    req "latest_version"%js (TStr);
    req "recommended_version"%js (TStr);
    req "force_update"%js (TBool);
    req "maintenance_mode"%js (TBool);
    req "maintenance_message"%js (TStr);
    req "update_url_android"%js (TStr)].

Definition BlockchainStats : ty :=
  TObj [req "chain_id"%js (TStr);
    req "environment"%js (Environment);
    req "latest_height"%js (TNum);
    req "latest_block_hash"%js (TStr);
    req "total_transactions"%js (TNum);
    req "validator_count"%js (TNum);
    req "avg_block_time_ms"%js (TNum);
    req "gas_limit_per_block"%js (TNum);
    req "rpc_endpoint"%js (TStr);
    req "consensus"%js (TStr)].

Definition BlockItem : ty :=
  TObj [req "height"%js (TNum);
    req "hash"%js (TStr);
    req "parent_hash"%js (TOr (TStr) (TNull));
    req "proposer"%js (TOr (TStr) (TNull));
    req "tx_count"%js (TNum);
    req "gas_used"%js (TNum);
    req "timestamp"%js (TStr)].

Definition TransactionItem : ty :=
  TObj [req "hash"%js (TStr);
    req "block_height"%js (TNum);
    req "sender"%js (TStr);
    req "recipient"%js (TOr (TStr) (TNull));
    req "amount"%js (TStr);
    req "fee"%js (TStr);
    req "tx_type"%js (TStr);
    req "status"%js (TStr);
    req "timestamp"%js (TStr)].

Definition IndexerStatus : ty :=
  TObj [req "chain_height"%js (TNum);
    req "indexed_height"%js (TNum);
    req "lag_blocks"%js (TNum);
    req "is_syncing"%js (TBool);
    req "status"%js (TStr);
    req "last_error"%js (TOr (TStr) (TNull));
    req "updated_at"%js (TStr)].

Definition MarketAsset : ty :=
  TObj [req "symbol"%js (TStr);
    req "name"%js (TStr);
    req "decimals"%js (TNum);
    req "price_usd"%js (TStr);
    req "change_24h"%js (TStr);
    req "is_active"%js (TBool)].

Definition MarketPair : ty :=
  TObj [req "symbol"%js (TStr);
    req "base"%js (TStr);
    req "quote"%js (TStr);
    req "last_price"%js (TStr);
    req "is_active"%js (TBool)].

Definition DiscoverProject : ty :=
  TObj [req "id"%js (TStr);
    req "name"%js (TStr);
    req "category"%js (TStr);
    req "description"%js (TOr (TStr) (TNull));
    req "website"%js (TOr (TStr) (TNull));
    req "is_active"%js (TBool);
    req "is_featured"%js (TBool);
    req "is_verified"%js (TBool)].

Definition ValidatorItem : ty :=
  TObj [req "id"%js (TStr);
    req "address"%js (TStr);
    req "name"%js (TStr);
    req "total_stake"%js (TStr);
    req "commission_rate"%js (TStr);
    req "is_active"%js (TBool);
    req "is_jailed"%js (TBool);
    req "uptime_pct"%js (TStr)].

Definition PerpMarketItem : ty :=
  TObj [req "symbol"%js (TStr);
    req "base"%js (TStr);
    req "quote"%js (TStr);
    req "mark_price"%js (TStr);
    req "index_price"%js (TStr);
    req "funding_rate"%js (TStr);
    req "open_interest"%js (TStr);
    req "max_leverage"%js (TNum);
    req "is_active"%js (TBool)].

Definition FeatureFlagItem : ty :=
  TObj [req "name"%js (TStr);
    req "is_enabled"%js (TBool);
    req "description"%js (TOr (TStr) (TNull))].

Definition AuditLogItem : ty :=
  TObj [req "id"%js (TStr);
    req "actor"%js (TStr);
    req "action"%js (TStr);
    req "resource"%js (TOr (TStr) (TNull));
    req "result"%js (TStr);
    req "metadata"%js (TOr (TRecord (TAny)) (TNull));
    req "created_at"%js (TStr)].

Definition SystemAnnouncementItem : ty :=
  TObj [req "id"%js (TStr);
    req "title"%js (TStr);
    req "body"%js (TStr);
    req "type"%js (TStr);
    req "is_active"%js (TBool);
    req "created_at"%js (TOr (TStr) (TNull))].

(** What the client's methods are declared to return, in [services/api.ts]. *)

Definition DashboardData : ty :=
  TObj [req "environment"%js (TStr);
    req "chain_id"%js (TStr);
    req "kpis"%js (DashboardKpis);
    req "charts"%js (TObj [req "tx_volume_24h"%js
      (TArr (TObj [req "time"%js (TStr); req "txs"%js (TNum); req "blocks"%js (TNum)]))]);
    req "subsystems"%js (TRecord TAny)].

Definition HealthData : ty :=
  TObj [req "status"%js (TStr);
    req "environment"%js (TStr);
    req "services"%js (TArr SystemService)].

Definition AppUsersData : ty :=
  TObj [req "total"%js (TNum);
    req "users"%js (TArr AppUser)].

Definition BlocksData : ty := TObj [req "blocks"%js (TArr BlockItem)].

Definition TransactionsData : ty := TObj [req "transactions"%js (TArr TransactionItem)].

Definition RetryData : ty := TObj [req "message"%js (TStr)].

Definition MarketsData : ty :=
  TObj [req "assets"%js (TArr MarketAsset);
    req "pairs"%js (TArr MarketPair);
    req "providers"%js (TArr TAny)].

Definition PerpsData : ty :=
  TObj [req "environment_mode"%js (TStr);
    req "is_production_active"%js (TBool);
    req "active_markets_count"%js (TNum);
    req "open_positions_count"%js (TNum);
    req "open_orders_count"%js (TNum);
    req "markets"%js (TArr PerpMarketItem);
    req "risk_alerts"%js (TArr TAny)].

Definition AuditLogsData : ty :=
  TObj [req "total"%js (TNum);
    req "logs"%js (TArr AuditLogItem)].
End AdminTypes.
