(* ===== verification/AdminUi.v ===== *)
(** * Shared components of the admin panel: [apps/admin-panel/src/components/common]

    [DataTable.tsx], [ConfirmModal.tsx], [KpiCard.tsx] and [StatusBadge.tsx]. *)
From stdpp Require Import gmap.
From S2P Require Import Prelude JsString JsStringFacts JsNumber JsJson Formatters View Render.

(** [new Date(t).toLocaleString()] and [new Date(t).toLocaleTimeString()] *)
Class DateLocale := {
  locale_date : num → jsstring;
  locale_time : num → jsstring;
}.

Definition plain_dates : DateLocale := {| locale_date := num_to_string; locale_time := num_to_string |}.

(** ** [DataTable] *)
Module DataTable.

(** The component's state hooks, with their setters. *)
Record State := mkState {
  searchTerm : jsstring;
  currentPage : Z;
}.
Definition set_searchTerm (x : jsstring) (st : State) : State := mkState x (currentPage st).
Definition set_currentPage (x : Z) (st : State) : State := mkState (searchTerm st) x.

Definition init : State := mkState [] 1.

Record Column (E : Type) := mkColumn {
  header : jsstring;
  accessorKey : option jsstring;
  cell : option (jsval → jsx E);
}.
Arguments mkColumn {E} header accessorKey cell.
Arguments header {E} c : rename.
Arguments accessorKey {E} c : rename.
Arguments cell {E} c : rename.

(** The number of pages is the one of the render the button belongs to. *)
Inductive Event := Search (s : jsstring) | PrevPage | NextPage (totalPages : Z).

Definition handle (e : Event) (st : State) : State :=
  match e with
  | Search s => set_currentPage 1 (set_searchTerm s st)
  | PrevPage => set_currentPage (Z.max 1 (currentPage st - 1)) st
  | NextPage total => set_currentPage (Z.min total (currentPage st + 1)) st
  end.

Section table.
Context `{UnicodeCase}.

Definition matches (searchTerm : jsstring) (item : jsval) : outcome bool :=
  if bool_decide (searchTerm = []) then Ok true
  else
    vals ← Object_values item;
    Ok (existsb (λ v, truthy v && includes (toLowerCase (to_string v)) (toLowerCase searchTerm)) vals).

Fixpoint filter_rows (searchTerm : jsstring) (l : list jsval) : outcome (list jsval) :=
  match l with
  | [] => Ok []
  | x :: l' =>
      b ← matches searchTerm x;
      rest ← filter_rows searchTerm l';
      Ok (if b : bool then x :: rest else rest)
  end.

Definition filteredData (data : jsval) (searchTerm : jsstring) : outcome (list jsval) :=
  match data with
  | JArr l => filter_rows searchTerm l
  | JUndef => type_error "Cannot read properties of undefined (reading 'filter')"%js
  | JNull => type_error "Cannot read properties of null (reading 'filter')"%js
  | _ => type_error "data.filter is not a function"%js
  end.

(** [Math.ceil(n / pageSize) || 1] *)
Definition totalPages (n pageSize : Z) : Z :=
  let pages := ((n + pageSize - 1) / pageSize)%Z in
  if (pages =? 0)%Z then 1 else pages.

Definition paginatedData (rows : list jsval) (currentPage pageSize : Z) : list jsval :=
  slice rows ((currentPage - 1) * pageSize) (currentPage * pageSize).

Section render.
Context {E : Type} (emit : Event → E).

Definition cell_view (item : jsval) (col : Column E) : jsx E :=
  el "td"%js [] []
    [match cell col, accessorKey col with
     | Some f, _ => f item
     | None, Some (_ :: _ as k) =>
         v ← get_prop item k; txt (to_string (js_nullish v (JStr [])))
     | None, _ => txt []
     end].

Definition row_view (columns : list (Column E)) (onRowClick : option (jsval → E)) (item : jsval) : jsx E :=
  el "tr"%js [] (match onRowClick with Some f => [OnClick (f item)] | None => [] end)
    (cell_view item <$> columns).

Definition body_view (columns : list (Column E)) (onRowClick : option (jsval → E))
    (isLoading : bool) (emptyMessage : jsstring) (rows : list jsval) : jsx E :=
  if isLoading then el "tr"%js [] [] [el "td"%js [] [] [jdiv [jdiv []; txt "Loading data..."%js]]]
  else
    match rows with
    | [] => el "tr"%js [] [] [el "td"%js [] [] [txt emptyMessage]]
    | _ => children (row_view columns onRowClick <$> rows)
    end.

Definition render (columns : list (Column E)) (searchPlaceholder emptyMessage : jsstring)
    (pageSize : Z) (onRowClick : option (jsval → E)) (data : jsval) (isLoading : bool)
    (st : State) : jsx E :=
  rows ← filteredData data (searchTerm st);
  let n := Z.of_nat (length rows) in
  let total := totalPages n pageSize in
  jdiv [
    jdiv [jdiv [static (input [("type"%js, "text"%js); ("placeholder"%js, searchPlaceholder)]
                          (searchTerm st) (λ s, emit (Search s)))];
          jdiv [txt "Showing "%js; jspan [txt (Z_to_string n)]; txt " total entries"%js]];
    jdiv [el "table"%js [] [] [
      el "thead"%js [] [] [el "tr"%js [] [] ((λ c, el "th"%js [] [] [txt (header c)]) <$> columns)];
      el "tbody"%js [] []
        [body_view columns onRowClick isLoading emptyMessage (paginatedData rows (currentPage st) pageSize)]]];
    jdiv [jdiv [txt "Page "%js; txt (Z_to_string (currentPage st)); txt " of "%js;
                txt (Z_to_string total)];
          jdiv [jbutton (currentPage st =? 1)%Z (emit PrevPage) [];
                jbutton (currentPage st =? total)%Z (emit (NextPage total)) []]]].
End render.
End table.
End DataTable.

(** ** [ConfirmModal]

    Its only hook is [typedValue], a string. *)
Module ConfirmModal.

Definition isConfirmed (confirmPhrase : option jsstring) (typedValue : jsstring) : bool :=
  match confirmPhrase with
  | None | Some [] => true
  | Some phrase => bool_decide (typedValue = phrase)
  end.

Inductive Event := TypeValue (s : jsstring) | Confirm | Cancel.

Record Props := mkProps {
  isOpen : bool;
  title : jsstring;
  message : jsstring;
  confirmPhrase : option jsstring;
  confirmLabel : jsstring;
}.

(** The new [typedValue], and whether the confirmation's click runs [onConfirm]. *)
Definition handle (props : Props) (e : Event) (typedValue : jsstring) : jsstring * bool :=
  match e with
  | TypeValue s => (s, false)
  | Confirm => if isConfirmed (confirmPhrase props) typedValue then ([], true) else (typedValue, false)
  | Cancel => (typedValue, false)
  end.

Section render.
Context {E : Type} (emit : Event → E).

Definition phrase_view (phrase : option jsstring) (typedValue : jsstring) : jsx E :=
  match phrase with
  | None | Some [] => none
  | Some p =>
      jdiv [el "label"%js [] [] [txt "Type "%js; jspan [txt p]; txt " to continue:"%js];
            static (input [("type"%js, "text"%js); ("placeholder"%js, p)] typedValue
                      (λ s, emit (TypeValue s)))]
  end.

Definition render (props : Props) (typedValue : jsstring) : jsx E :=
  if negb (isOpen props) then none
  else
    jdiv [jdiv [
      jbutton false (emit Cancel) [];
      jdiv [jdiv []; jh "h3"%js (title props)];
      jp [txt (message props)];
      phrase_view (confirmPhrase props) typedValue;
      jdiv [jbutton false (emit Cancel) [txt "Cancel"%js];
            jbutton (negb (isConfirmed (confirmPhrase props) typedValue)) (emit Confirm)
              [txt (confirmLabel props)]]]].
End render.
End ConfirmModal.

(** ** [StatusBadge] *)
Module StatusBadge.

Definition style (normalized : jsstring) : jsstring :=
  if bool_decide (normalized ∈ ["OPERATIONAL"%js; "HEALTHY"%js; "ACTIVE"%js; "SUCCESS"%js;
                                "ONLINE"%js; "CONFIRMED"%js; "ENABLED"%js])
  then "bg-emerald-950/60 text-emerald-400 border-emerald-800/80"%js
  else if bool_decide (normalized ∈ ["SYNCING"%js; "WARNING"%js; "PENDING"%js; "DEGRADED"%js;
                                     "DEMO"%js; "TESTNET"%js])
  then "bg-amber-950/60 text-amber-400 border-amber-800/80"%js
  else if bool_decide (normalized ∈ ["OUTAGE"%js; "CRITICAL"%js; "FAILED"%js; "STOPPED"%js;
                                     "DISABLED"%js; "JAILED"%js; "TESTNET ONLY (PROD BLOCKED)"%js])
  then "bg-rose-950/60 text-rose-400 border-rose-800/80"%js
  else if bool_decide (normalized ∈ ["MAINNET"%js])
  then "bg-cyan-950/60 text-cyan-400 border-cyan-800/80"%js
  else "bg-gray-800 text-gray-300 border-gray-700"%js.

Definition render `{UnicodeCase} {E} (status : jsval) : jsx E :=
  s ← as_string status "toUpperCase"%js;
  el "span"%js [("class"%js, style (toUpperCase s))] [] [jspan []; txt s].

(** A literal status. *)
Definition badge `{UnicodeCase} {E} (s : jsstring) : jsx E := render (JStr s).
End StatusBadge.

(** ** [KpiCard] *)
Module KpiCard.

(** [value], [subtitle] and the text of [trend]; [badge] is a child. *)
Definition render {E} (title : jsstring) (value subtitle : jsval) (trend : option jsstring)
    (badge : jsx E) : jsx E :=
  jdiv [
    jdiv [jspan [txt title]; jdiv []];
    jdiv [jdiv [child value]; badge];
    jwhen (truthy subtitle || bool_decide (is_Some trend))
      (jdiv [match trend with Some t => jspan [txt t] | None => none end;
             if truthy subtitle then jspan [child subtitle] else child subtitle])].
End KpiCard.
