(* ===== verification/AdminState.v ===== *)
(** * State of the admin panel

    The hooks of its pages, each a record with a setter per hook, and the state of
    the whole panel. *)
From stdpp Require Import gmap.
From S2P Require Import Prelude JsString JsNumber JsJson View Render AdminUi.

(** ** Pages *)

(** A page with one table: [AppUsersPage], [BlocksPage], [TransactionsPage], [DiscoverPage],
    [ValidatorsPage] and [AuditLogsPage]. *)
Module Listing.
Record State := mkState {
  rows : jsval;
  isLoading : bool;
  table : DataTable.State;
}.
Definition set_rows (x : jsval) (st : State) : State :=
  mkState x (isLoading st) (table st).
Definition set_isLoading (x : bool) (st : State) : State :=
  mkState (rows st) x (table st).
Definition set_table (x : DataTable.State) (st : State) : State :=
  mkState (rows st) (isLoading st) x.
Definition init : State := mkState (JArr []) true DataTable.init.
End Listing.

(** [DashboardPage]; [lastRefreshed] is the time of the [Date]. *)
Module DashboardPage.
Record State := mkState {
  data : jsval;
  isLoading : bool;
  lastRefreshed : Z;
}.
Definition set_data (x : jsval) (st : State) : State :=
  mkState x (isLoading st) (lastRefreshed st).
Definition set_isLoading (x : bool) (st : State) : State :=
  mkState (data st) x (lastRefreshed st).
Definition set_lastRefreshed (x : Z) (st : State) : State :=
  mkState (data st) (isLoading st) x.
Definition init (now : Z) : State := mkState JNull true now.
End DashboardPage.

(** [AppVersionsPage] *)
Module AppVersionsPage.
Record State := mkState {
  config : jsval;
  isSaving : bool;
  saveSuccess : bool;
}.
Definition set_config (x : jsval) (st : State) : State :=
  mkState x (isSaving st) (saveSuccess st).
Definition set_isSaving (x : bool) (st : State) : State :=
  mkState (config st) x (saveSuccess st).
Definition set_saveSuccess (x : bool) (st : State) : State :=
  mkState (config st) (isSaving st) x.
Definition init : State := mkState 
  (JObj [("platform"%js, JStr "android"%js); ("min_version"%js, JStr "1.0.0"%js);
         ("latest_version"%js, JStr "1.0.0"%js); ("recommended_version"%js, JStr "1.0.0"%js);
         ("force_update"%js, JBool false); ("maintenance_mode"%js, JBool false);
         ("maintenance_message"%js, JStr "SPRX Network is undergoing scheduled maintenance."%js);
         ("update_url_android"%js, JStr "https://github.com/sprax-chain/sprax-chain/releases/latest"%js)])
  false false.
End AppVersionsPage.

(** A page that shows what it fetched: [BlockchainOverviewPage], [StakingPage], [OperationsPage]. *)
Module Fetched.
Record State := mkState {
  data : jsval;
  isLoading : bool;
}.
Definition set_data (x : jsval) (st : State) : State :=
  mkState x (isLoading st).
Definition set_isLoading (x : bool) (st : State) : State :=
  mkState (data st) x.
Definition init (data : jsval) : State := mkState data true.
End Fetched.

(** [IndexerMonitorPage], with the hook of its [ConfirmModal]. *)
Module IndexerMonitorPage.
Record State := mkState {
  status : jsval;
  isLoading : bool;
  showRetryModal : bool;
  retryMessage : jsval;
  typedValue : jsstring;
}.
Definition set_status (x : jsval) (st : State) : State :=
  mkState x (isLoading st) (showRetryModal st) (retryMessage st) (typedValue st).
Definition set_isLoading (x : bool) (st : State) : State :=
  mkState (status st) x (showRetryModal st) (retryMessage st) (typedValue st).
Definition set_showRetryModal (x : bool) (st : State) : State :=
  mkState (status st) (isLoading st) x (retryMessage st) (typedValue st).
Definition set_retryMessage (x : jsval) (st : State) : State :=
  mkState (status st) (isLoading st) (showRetryModal st) x (typedValue st).
Definition set_typedValue (x : jsstring) (st : State) : State :=
  mkState (status st) (isLoading st) (showRetryModal st) (retryMessage st) x.
Definition init : State := mkState JNull true false JNull [].
End IndexerMonitorPage.

(** [MarketsPage] and its two tables. *)
Module MarketsPage.
Record State := mkState {
  assets : jsval;
  pairs : jsval;
  providers : jsval;
  isLoading : bool;
  assetTable : DataTable.State;
  pairTable : DataTable.State;
}.
Definition set_assets (x : jsval) (st : State) : State :=
  mkState x (pairs st) (providers st) (isLoading st) (assetTable st) (pairTable st).
Definition set_pairs (x : jsval) (st : State) : State :=
  mkState (assets st) x (providers st) (isLoading st) (assetTable st) (pairTable st).
Definition set_providers (x : jsval) (st : State) : State :=
  mkState (assets st) (pairs st) x (isLoading st) (assetTable st) (pairTable st).
Definition set_isLoading (x : bool) (st : State) : State :=
  mkState (assets st) (pairs st) (providers st) x (assetTable st) (pairTable st).
Definition set_assetTable (x : DataTable.State) (st : State) : State :=
  mkState (assets st) (pairs st) (providers st) (isLoading st) x (pairTable st).
Definition set_pairTable (x : DataTable.State) (st : State) : State :=
  mkState (assets st) (pairs st) (providers st) (isLoading st) (assetTable st) x.
Definition init : State := mkState (JArr []) (JArr []) (JArr []) true DataTable.init DataTable.init.
End MarketsPage.

(** [PerpsRiskPage] *)
Module PerpsRiskPage.
Record State := mkState {
  data : jsval;
  isLoading : bool;
  table : DataTable.State;
}.
Definition set_data (x : jsval) (st : State) : State :=
  mkState x (isLoading st) (table st).
Definition set_isLoading (x : bool) (st : State) : State :=
  mkState (data st) x (table st).
Definition set_table (x : DataTable.State) (st : State) : State :=
  mkState (data st) (isLoading st) x.
Definition init : State := mkState JNull true DataTable.init.
End PerpsRiskPage.

(** [NotificationsPage] *)
Module NotificationsPage.
Record State := mkState {
  announcements : jsval;
  isLoading : bool;
  title : jsstring;
  body : jsstring;
  type : jsstring;
  isSending : bool;
  successMsg : option jsstring;
  table : DataTable.State;
}.
Definition set_announcements (x : jsval) (st : State) : State :=
  mkState x (isLoading st) (title st) (body st) (type st) (isSending st) (successMsg st)
    (table st).
Definition set_isLoading (x : bool) (st : State) : State :=
  mkState (announcements st) x (title st) (body st) (type st) (isSending st) (successMsg st)
    (table st).
Definition set_title (x : jsstring) (st : State) : State :=
  mkState (announcements st) (isLoading st) x (body st) (type st) (isSending st)
    (successMsg st) (table st).
Definition set_body (x : jsstring) (st : State) : State :=
  mkState (announcements st) (isLoading st) (title st) x (type st) (isSending st)
    (successMsg st) (table st).
Definition set_type (x : jsstring) (st : State) : State :=
  mkState (announcements st) (isLoading st) (title st) (body st) x (isSending st)
    (successMsg st) (table st).
Definition set_isSending (x : bool) (st : State) : State :=
  mkState (announcements st) (isLoading st) (title st) (body st) (type st) x (successMsg st)
    (table st).
Definition set_successMsg (x : option jsstring) (st : State) : State :=
  mkState (announcements st) (isLoading st) (title st) (body st) (type st) (isSending st) x
    (table st).
Definition set_table (x : DataTable.State) (st : State) : State :=
  mkState (announcements st) (isLoading st) (title st) (body st) (type st) (isSending st)
    (successMsg st) x.
Definition init : State := mkState (JArr []) true [] [] "general"%js false None DataTable.init.
End NotificationsPage.

(** [SecurityAdminsPage] *)
Module SecurityAdminsPage.
Record State := mkState {
  admins : jsval;
  isLoading : bool;
  showCreateModal : bool;
  newUsername : jsstring;
  newPassword : jsstring;
  newRole : jsstring;
  table : DataTable.State;
}.
Definition set_admins (x : jsval) (st : State) : State :=
  mkState x (isLoading st) (showCreateModal st) (newUsername st) (newPassword st)
    (newRole st) (table st).
Definition set_isLoading (x : bool) (st : State) : State :=
  mkState (admins st) x (showCreateModal st) (newUsername st) (newPassword st) (newRole st)
    (table st).
Definition set_showCreateModal (x : bool) (st : State) : State :=
  mkState (admins st) (isLoading st) x (newUsername st) (newPassword st) (newRole st)
    (table st).
Definition set_newUsername (x : jsstring) (st : State) : State :=
  mkState (admins st) (isLoading st) (showCreateModal st) x (newPassword st) (newRole st)
    (table st).
Definition set_newPassword (x : jsstring) (st : State) : State :=
  mkState (admins st) (isLoading st) (showCreateModal st) (newUsername st) x (newRole st)
    (table st).
Definition set_newRole (x : jsstring) (st : State) : State :=
  mkState (admins st) (isLoading st) (showCreateModal st) (newUsername st) (newPassword st)
    x (table st).
Definition set_table (x : DataTable.State) (st : State) : State :=
  mkState (admins st) (isLoading st) (showCreateModal st) (newUsername st) (newPassword st)
    (newRole st) x.
Definition init : State := mkState (JArr []) true false [] [] "viewer"%js DataTable.init.
End SecurityAdminsPage.

(** [FeatureFlagsPage], with the hook of its [ConfirmModal]. A pending flag is its name and the
    state it is to get. *)
Module FeatureFlagsPage.
Record State := mkState {
  flags : jsval;
  pendingFlag : option (jsval * bool);
  typedValue : jsstring;
}.
Definition set_flags (x : jsval) (st : State) : State :=
  mkState x (pendingFlag st) (typedValue st).
Definition set_pendingFlag (x : option (jsval * bool)) (st : State) : State :=
  mkState (flags st) x (typedValue st).
Definition set_typedValue (x : jsstring) (st : State) : State :=
  mkState (flags st) (pendingFlag st) x.
Definition init : State := mkState (JArr []) None [].
End FeatureFlagsPage.

Inductive Page :=
| DashboardPage | AppUsersPage | AppVersionsPage | BlockchainOverviewPage | BlocksPage
| TransactionsPage | IndexerMonitorPage | MarketsPage | DiscoverPage | SearchIndexPage
| ValidatorsPage | StakingPage | PerpsRiskPage | NotificationsPage | OperationsPage
| SecurityAdminsPage | AuditLogsPage | FeatureFlagsPage.

#[global] Instance Page_eq_dec : EqDecision Page.
Proof. solve_decision. Defined.

(** The hooks of the page that is shown. *)
Inductive PageState :=
| OfListing (st : Listing.State)
| OfDashboard (st : DashboardPage.State)
| OfAppVersions (st : AppVersionsPage.State)
| OfFetched (st : Fetched.State)
| OfIndexer (st : IndexerMonitorPage.State)
| OfMarkets (st : MarketsPage.State)
| OfPerps (st : PerpsRiskPage.State)
| OfNotifications (st : NotificationsPage.State)
| OfAdmins (st : SecurityAdminsPage.State)
| OfFlags (st : FeatureFlagsPage.State)
| NoHooks.

Definition on_listing (f : Listing.State → Listing.State) (p : PageState) : PageState :=
  match p with OfListing st => OfListing (f st) | _ => p end.
Definition on_dashboard (f : DashboardPage.State → DashboardPage.State) (p : PageState) : PageState :=
  match p with OfDashboard st => OfDashboard (f st) | _ => p end.
Definition on_versions (f : AppVersionsPage.State → AppVersionsPage.State) (p : PageState) : PageState :=
  match p with OfAppVersions st => OfAppVersions (f st) | _ => p end.
Definition on_fetched (f : Fetched.State → Fetched.State) (p : PageState) : PageState :=
  match p with OfFetched st => OfFetched (f st) | _ => p end.
Definition on_indexer (f : IndexerMonitorPage.State → IndexerMonitorPage.State) (p : PageState) : PageState :=
  match p with OfIndexer st => OfIndexer (f st) | _ => p end.
Definition on_markets (f : MarketsPage.State → MarketsPage.State) (p : PageState) : PageState :=
  match p with OfMarkets st => OfMarkets (f st) | _ => p end.
Definition on_perps (f : PerpsRiskPage.State → PerpsRiskPage.State) (p : PageState) : PageState :=
  match p with OfPerps st => OfPerps (f st) | _ => p end.
Definition on_notifications (f : NotificationsPage.State → NotificationsPage.State) (p : PageState) : PageState :=
  match p with OfNotifications st => OfNotifications (f st) | _ => p end.
Definition on_admins (f : SecurityAdminsPage.State → SecurityAdminsPage.State) (p : PageState) : PageState :=
  match p with OfAdmins st => OfAdmins (f st) | _ => p end.
Definition on_flags (f : FeatureFlagsPage.State → FeatureFlagsPage.State) (p : PageState) : PageState :=
  match p with OfFlags st => OfFlags (f st) | _ => p end.

(** ** The panel *)

(** An instance of a page: its component and a number that tells it from earlier ones. *)
Abbreviation instance := (Page * nat)%type.

(** What a handler starts without awaiting it: the listener of
    [sprax_auth_changed], the fetch of a page's instance, a timer of it. *)
Inductive Job :=
| AuthChanged
| Reload (i : instance)
| ClearMessage (i : instance).

(** The hooks of [LoginPage], with their setters. *)
Record Login := mkLogin {
  login_username : jsstring;
  login_password : jsstring;
  login_error : option jsstring;
  login_isSubmitting : bool;
}.
Definition set_login_username (x : jsstring) (st : Login) : Login :=
  mkLogin x (login_password st) (login_error st) (login_isSubmitting st).
Definition set_login_password (x : jsstring) (st : Login) : Login :=
  mkLogin (login_username st) x (login_error st) (login_isSubmitting st).
Definition set_login_error (x : option jsstring) (st : Login) : Login :=
  mkLogin (login_username st) (login_password st) x (login_isSubmitting st).
Definition set_login_isSubmitting (x : bool) (st : Login) : Login :=
  mkLogin (login_username st) (login_password st) (login_error st) x.

Module Admin.

(** The hooks of [AuthProvider], [App], [AdminShell] and [TopNavbar]; the login form
    and the page that are mounted, by instance; the browser's storage and clock, the
    messages of [alert], what the running handler has started, and whether a render
    threw, after which React shows nothing. *)
Record State := mkState {
  user : jsval;
  isLoading : bool;
  activeTab : jsstring;
  login_form : option (nat * Login);
  page : option (instance * PageState);
  nextId : nat;
  collapsed : bool;
  showProfileMenu : bool;
  storage : Storage;
  clock : Z;
  alerts : list jsstring;
  queue : list Job;
  crashed : bool;
}.
Definition set_user (x : jsval) (st : State) : State :=
  mkState x (isLoading st) (activeTab st) (login_form st) (page st) (nextId st)
    (collapsed st) (showProfileMenu st) (storage st) (clock st) (alerts st) (queue st)
    (crashed st).
Definition set_isLoading (x : bool) (st : State) : State :=
  mkState (user st) x (activeTab st) (login_form st) (page st) (nextId st) (collapsed st)
    (showProfileMenu st) (storage st) (clock st) (alerts st) (queue st) (crashed st).
Definition set_activeTab (x : jsstring) (st : State) : State :=
  mkState (user st) (isLoading st) x (login_form st) (page st) (nextId st) (collapsed st)
    (showProfileMenu st) (storage st) (clock st) (alerts st) (queue st) (crashed st).
Definition set_login_form (x : option (nat * Login)) (st : State) : State :=
  mkState (user st) (isLoading st) (activeTab st) x (page st) (nextId st) (collapsed st)
    (showProfileMenu st) (storage st) (clock st) (alerts st) (queue st) (crashed st).
Definition set_page (x : option (instance * PageState)) (st : State) : State :=
  mkState (user st) (isLoading st) (activeTab st) (login_form st) x (nextId st)
    (collapsed st) (showProfileMenu st) (storage st) (clock st) (alerts st) (queue st)
    (crashed st).
Definition set_nextId (x : nat) (st : State) : State :=
  mkState (user st) (isLoading st) (activeTab st) (login_form st) (page st) x (collapsed st)
    (showProfileMenu st) (storage st) (clock st) (alerts st) (queue st) (crashed st).
Definition set_collapsed (x : bool) (st : State) : State :=
  mkState (user st) (isLoading st) (activeTab st) (login_form st) (page st) (nextId st) x
    (showProfileMenu st) (storage st) (clock st) (alerts st) (queue st) (crashed st).
Definition set_showProfileMenu (x : bool) (st : State) : State :=
  mkState (user st) (isLoading st) (activeTab st) (login_form st) (page st) (nextId st)
    (collapsed st) x (storage st) (clock st) (alerts st) (queue st) (crashed st).
Definition set_storage (x : Storage) (st : State) : State :=
  mkState (user st) (isLoading st) (activeTab st) (login_form st) (page st) (nextId st)
    (collapsed st) (showProfileMenu st) x (clock st) (alerts st) (queue st) (crashed st).
Definition set_clock (x : Z) (st : State) : State :=
  mkState (user st) (isLoading st) (activeTab st) (login_form st) (page st) (nextId st)
    (collapsed st) (showProfileMenu st) (storage st) x (alerts st) (queue st) (crashed st).
Definition set_alerts (x : list jsstring) (st : State) : State :=
  mkState (user st) (isLoading st) (activeTab st) (login_form st) (page st) (nextId st)
    (collapsed st) (showProfileMenu st) (storage st) (clock st) x (queue st) (crashed st).
Definition set_queue (x : list Job) (st : State) : State :=
  mkState (user st) (isLoading st) (activeTab st) (login_form st) (page st) (nextId st)
    (collapsed st) (showProfileMenu st) (storage st) (clock st) (alerts st) x (crashed st).
Definition set_crashed (x : bool) (st : State) : State :=
  mkState (user st) (isLoading st) (activeTab st) (login_form st) (page st) (nextId st)
    (collapsed st) (showProfileMenu st) (storage st) (clock st) (alerts st) (queue st) x.

Definition init (s : Storage) (now : Z) : State :=
  mkState JNull true "dashboard"%js None None 0 false false s now [] [] false.

(** [alert(message)], and the start of a job. *)
Definition alert (message : jsstring) (st : State) : State := set_alerts (alerts st ++ [message]) st.
Definition enqueue (j : Job) (st : State) : State := set_queue (queue st ++ [j]) st.

(** Setting hooks of an instance that is no longer mounted does nothing. *)
Definition upd_login (id : nat) (f : Login → Login) (st : State) : State :=
  set_login_form (match login_form st with
                  | Some (i, l) => if (i =? id)%nat then Some (i, f l) else Some (i, l)
                  | None => None end) st.

Definition upd_page (i : instance) (f : PageState → PageState) (st : State) : State :=
  set_page (match page st with
            | Some (j, p) => if bool_decide (j = i) then Some (j, f p) else Some (j, p)
            | None => None end) st.
End Admin.
