(* ===== verification/AdminApi.v ===== *)
(** * The admin panel's client and session

    [apps/admin-panel/src/services/api.ts] and [context/AuthContext.tsx]. *)
From stdpp Require Import gmap.
From S2P Require Import Prelude JsString JsStringFacts JsNumber JsJson Async View Render AdminState.
Import Admin.

(** [import.meta.env?.VITE_API_URL] *)
Class AdminEnv := VITE_API_URL : option jsstring.

Module AdminApi.

Definition token_key : jsstring := "sprax_admin_token"%js.
Definition user_key : jsstring := "sprax_admin_user"%js.

Section admin.
Context `{AdminEnv}.

Definition API_BASE : jsstring :=
  match VITE_API_URL with None | Some [] => "/api/v1"%js | Some u => u end.

(** ** The client *)

Definition getToken (st : State) : option jsstring := getItem (storage st) token_key.

(** [window.dispatchEvent(new Event("sprax_auth_changed"))]: its listener starts when
    the running code ends, and nothing that code still does concerns it. *)
Definition dispatch (st : State) : State := enqueue AuthChanged st.

Definition clear_session (st : State) : State :=
  set_storage (delete user_key (delete token_key (storage st))) st.

Definition Content_Type : jsstring * jsstring := ("Content-Type"%js, "application/json"%js).

(** The headers of a request; an empty token is falsy. *)
Definition auth_headers (token : option jsstring) : list (jsstring * jsstring) :=
  Content_Type :: match token with
                  | None | Some [] => []
                  | Some t => [("Authorization"%js, "Bearer "%js ++ t)]
                  end.

Definition request (method : jsstring) (path : jsstring) (body : option jsval) : cmd State jsval :=
  st ← get;
  response ← fetch (mkRequest (API_BASE ++ path) method (auth_headers (getToken st))
                      (json_ser <$> body));
  if (rs_status response =? 401)%Z then
    _ ← write (λ st, dispatch (clear_session st));
    throw_error "Unauthorized. Please log in."%js
  else
    v ← json response;
    if negb (rs_ok response) then
      error ← lift (get_prop v "error"%js);
      message ← lift (get_prop_opt error "message"%js);
      detail ← lift (get_prop v "detail"%js);
      throw_error (to_string (js_or message (js_or detail (JStr "Request failed"%js))))
    else
      data ← lift (get_prop v "data"%js);
      Ret (if is_undef data then v else data).

Definition GET (path : jsstring) : cmd State jsval := request "GET"%js path None.

Definition api_login (username password : jsstring) : cmd State jsval :=
  res ← fetch (mkRequest (API_BASE ++ "/admin/login"%js) "POST"%js [Content_Type]
                 (Some (json_ser (JObj [("username"%js, JStr username);
                                        ("password"%js, JStr password)]))));
  v ← json res;
  if negb (rs_ok res) then
    detail ← lift (get_prop v "detail"%js);
    throw_error (to_string (js_or detail (JStr "Login failed"%js)))
  else
    data ← lift (get_prop v "data"%js);
    access_token ← lift (get_prop data "access_token"%js);
    _ ← write (λ st, set_storage (<[token_key := to_string access_token]> (storage st)) st);
    username ← lift (get_prop data "username"%js);
    role ← lift (get_prop data "role"%js);
    _ ← write (λ st, dispatch (set_storage
          (<[user_key := json_ser (JObj [("username"%js, username); ("role"%js, role)])]>
             (storage st)) st));
    Ret data.

Definition api_logout (st : State) : State := dispatch (clear_session st).

Definition getMe : cmd State jsval := GET "/admin/me"%js.
Definition getDashboard : cmd State jsval := GET "/admin/dashboard"%js.
Definition getSystemHealth : cmd State jsval := GET "/admin/system/health"%js.
Definition getAppUsers (limit offset : Z) : cmd State jsval :=
  GET ("/admin/app/users?limit="%js ++ Z_to_string limit ++ "&offset="%js ++ Z_to_string offset).
Definition getAppVersions : cmd State jsval := GET "/admin/app/versions"%js.
Definition updateAppVersions (config : jsval) : cmd State jsval :=
  request "PATCH"%js "/admin/app/versions"%js (Some config).
Definition getBlockchainStats : cmd State jsval := GET "/admin/blockchain/stats"%js.
Definition getBlocks (limit : Z) : cmd State jsval :=
  res ← GET ("/explorer/blocks?limit="%js ++ Z_to_string limit);
  blocks ← lift (get_prop res "blocks"%js); Ret (js_or blocks (JArr [])).
Definition getTransactions (limit : Z) : cmd State jsval :=
  res ← GET ("/explorer/transactions?limit="%js ++ Z_to_string limit);
  txs ← lift (get_prop res "transactions"%js); Ret (js_or txs (JArr [])).
Definition getIndexerStatus : cmd State jsval := GET "/admin/indexer/status"%js.
Definition retryIndexer : cmd State jsval := request "POST"%js "/admin/indexer/retry"%js None.
Definition getMarkets : cmd State jsval := GET "/admin/markets"%js.
Definition getDiscover : cmd State jsval := GET "/admin/discover"%js.
Definition updateDiscoverProject (id : jsstring) (updates : jsval) : cmd State jsval :=
  request "PATCH"%js ("/admin/discover/"%js ++ id) (Some updates).
Definition getValidators : cmd State jsval := GET "/admin/validators"%js.
Definition getPerpsStatus : cmd State jsval := GET "/admin/perps/status"%js.
Definition getNotifications : cmd State jsval := GET "/admin/notifications"%js.
Definition broadcastNotification (data : jsval) : cmd State jsval :=
  request "POST"%js "/admin/notifications/broadcast"%js (Some data).
Definition getFeatureFlags : cmd State jsval := GET "/admin/feature-flags"%js.
Definition updateFeatureFlag (name : jsstring) (is_enabled : bool) : cmd State jsval :=
  request "PATCH"%js ("/admin/feature-flags/"%js ++ name)
    (Some (JObj [("is_enabled"%js, JBool is_enabled)])).
Definition getAuditLogs (limit : Z) : cmd State jsval :=
  GET ("/admin/audit-logs?limit="%js ++ Z_to_string limit).
Definition getAdmins : cmd State jsval := GET "/admin/admins"%js.
Definition createAdmin (data : jsval) : cmd State jsval :=
  request "POST"%js "/admin/admins"%js (Some data).

(** ** The session *)

Definition checkAuth : cmd State unit :=
  st ← get;
  match getToken st with
  | None | Some [] => write (λ st, set_isLoading false (set_user JNull st))
  | Some _ =>
      finally
        (catch (profile ← getMe; write (set_user profile)) (λ _, write (set_user JNull)))
        (set_isLoading false)
  end.

Definition login (u p : jsstring) : cmd State unit := _ ← api_login u p; checkAuth.

Definition logout (st : State) : State := set_user JNull (api_logout st).

Definition isAuthenticated (st : State) : bool := truthy (user st).

(** [perms.includes(x)] *)
Definition perms_include (perms : jsval) (x : jsstring) : outcome bool :=
  match perms with
  | JArr l => Ok (existsb (λ v, strict_eq v (JStr x)) l)
  | JStr s => Ok (includes s x)
  | JUndef => type_error "Cannot read properties of undefined (reading 'includes')"%js
  | JNull => type_error "Cannot read properties of null (reading 'includes')"%js
  | _ => type_error "user.permissions.includes is not a function"%js
  end.

Definition domain (perm : jsstring) : jsstring := default [] (head (split_on 46 perm)).

Definition hasPermission (user : jsval) (perm : jsstring) : outcome bool :=
  if negb (truthy user) then Ok false
  else
    role ← get_prop user "role"%js;
    if strict_eq role (JStr "super_admin"%js) then Ok true
    else
      perms ← get_prop user "permissions"%js;
      all ← perms_include perms "*"%js;
      if all : bool then Ok true
      else
        exact ← perms_include perms perm;
        if exact : bool then Ok true
        else perms_include perms (domain perm ++ ".*"%js).
End admin.
End AdminApi.
