(* ===== verification/AdminPages.v ===== *)
(** * What the pages of the admin panel do

    The fetches and handlers of [apps/admin-panel/src/pages]. A command gets the
    instance [i] of the page it belongs to, so that what it sets after the page was left
    is lost, and the values its closure captured. *)
From stdpp Require Import gmap.
From S2P Require Import Prelude JsString JsStringFacts JsNumber JsJson Async View Render AdminUi AdminState AdminApi.
Import Admin AdminApi.

Module AdminPages.
Section pages.
Context `{AdminEnv}.

(** [try { c } catch (err) { console.error(...) }] *)
Definition logged (c : cmd State unit) : cmd State unit := catch c (λ _, Ret tt).

(** [try { c } catch (err) { alert(err instanceof Error ? err.message : ...) }]: what is
    thrown is always an [Error]. *)
Definition alerted (c : cmd State unit) : cmd State unit :=
  catch c (λ err, write (alert (err_message err))).

(** ** Fetches *)

Definition set_loading (i : instance) (b : bool) : State → State :=
  upd_page i (λ p, match p with
    | OfListing st => OfListing (Listing.set_isLoading b st)
    | OfDashboard st => OfDashboard (DashboardPage.set_isLoading b st)
    | OfFetched st => OfFetched (Fetched.set_isLoading b st)
    | OfIndexer st => OfIndexer (IndexerMonitorPage.set_isLoading b st)
    | OfMarkets st => OfMarkets (MarketsPage.set_isLoading b st)
    | OfPerps st => OfPerps (PerpsRiskPage.set_isLoading b st)
    | OfNotifications st => OfNotifications (NotificationsPage.set_isLoading b st)
    | OfAdmins st => OfAdmins (SecurityAdminsPage.set_isLoading b st)
    | p => p
    end).

(** [try { c } catch (err) { console.error(...) } finally { setIsLoading(false) }] *)
Definition settled (i : instance) (c : cmd State unit) : cmd State unit :=
  finally (logged c) (set_loading i false).

(** The same after [setIsLoading(true)]. *)
Definition loading (i : instance) (c : cmd State unit) : cmd State unit :=
  _ ← write (set_loading i true); settled i c.

Definition setRows (i : instance) (v : jsval) : cmd State unit :=
  write (upd_page i (on_listing (Listing.set_rows v))).

Definition fetchDashboard (i : instance) : cmd State unit :=
  loading i (res ← getDashboard;
              write (λ st, upd_page i (on_dashboard (λ d,
                DashboardPage.set_lastRefreshed (clock st) (DashboardPage.set_data res d))) st)).

Definition fetchUsers (i : instance) : cmd State unit :=
  loading i (res ← getAppUsers 50 0; users ← lift (get_prop res "users"%js); setRows i users).

Definition fetchConfig (i : instance) : cmd State unit :=
  logged (res ← getAppVersions; write (upd_page i (on_versions (AppVersionsPage.set_config res)))).

Definition fetchStats (i : instance) : cmd State unit :=
  settled i (res ← getBlockchainStats; write (upd_page i (on_fetched (Fetched.set_data res)))).

Definition fetchBlocks (i : instance) : cmd State unit :=
  loading i (res ← getBlocks 50; setRows i res).

Definition fetchTxs (i : instance) : cmd State unit :=
  loading i (res ← getTransactions 50; setRows i res).

Definition fetchStatus (i : instance) : cmd State unit :=
  loading i (res ← getIndexerStatus;
              write (upd_page i (on_indexer (IndexerMonitorPage.set_status res)))).

Definition fetchMarkets (i : instance) : cmd State unit :=
  loading i (res ← getMarkets;
              assets ← lift (get_prop res "assets"%js);
              _ ← write (upd_page i (on_markets (MarketsPage.set_assets assets)));
              pairs ← lift (get_prop res "pairs"%js);
              _ ← write (upd_page i (on_markets (MarketsPage.set_pairs pairs)));
              providers ← lift (get_prop res "providers"%js);
              write (upd_page i (on_markets (MarketsPage.set_providers providers)))).

Definition fetchDiscover (i : instance) : cmd State unit :=
  loading i (res ← getDiscover; setRows i res).

Definition fetchValidators (i : instance) : cmd State unit :=
  loading i (res ← getValidators; setRows i res).

Definition fetchStaking (i : instance) : cmd State unit :=
  settled i (res ← getValidators; write (upd_page i (on_fetched (Fetched.set_data res)))).

Definition fetchPerps (i : instance) : cmd State unit :=
  loading i (res ← getPerpsStatus; write (upd_page i (on_perps (PerpsRiskPage.set_data res)))).

Definition fetchAnnouncements (i : instance) : cmd State unit :=
  loading i (res ← getNotifications;
              write (upd_page i (on_notifications (NotificationsPage.set_announcements res)))).

Definition fetchHealth (i : instance) : cmd State unit :=
  loading i (res ← getSystemHealth; services ← lift (get_prop res "services"%js);
              write (upd_page i (on_fetched (Fetched.set_data services)))).

Definition fetchAdmins (i : instance) : cmd State unit :=
  loading i (res ← getAdmins; write (upd_page i (on_admins (SecurityAdminsPage.set_admins res)))).

Definition fetchLogs (i : instance) : cmd State unit :=
  loading i (res ← getAuditLogs 100; logs ← lift (get_prop res "logs"%js); setRows i logs).

Definition fetchFlags (i : instance) : cmd State unit :=
  logged (res ← getFeatureFlags; write (upd_page i (on_flags (FeatureFlagsPage.set_flags res)))).

(** The effect of a page when it is mounted. *)
Definition effect (i : instance) : cmd State unit :=
  match i.1 with
  | DashboardPage => fetchDashboard i
  | AppUsersPage => fetchUsers i
  | AppVersionsPage => fetchConfig i
  | BlockchainOverviewPage => fetchStats i
  | BlocksPage => fetchBlocks i
  | TransactionsPage => fetchTxs i
  | IndexerMonitorPage => fetchStatus i
  | MarketsPage => fetchMarkets i
  | DiscoverPage => fetchDiscover i
  | SearchIndexPage => Ret tt
  | ValidatorsPage => fetchValidators i
  | StakingPage => fetchStaking i
  | PerpsRiskPage => fetchPerps i
  | NotificationsPage => fetchAnnouncements i
  | OperationsPage => fetchHealth i
  | SecurityAdminsPage => fetchAdmins i
  | AuditLogsPage => fetchLogs i
  | FeatureFlagsPage => fetchFlags i
  end.

(** The pages that repeat their fetch by [setInterval]. *)
Definition has_interval (page : Page) : bool :=
  match page with DashboardPage | IndexerMonitorPage | OperationsPage => true | _ => false end.

(** The hooks of a page when it is mounted. *)
Definition new_page (page : Page) (now : Z) : PageState :=
  match page with
  | DashboardPage => OfDashboard (DashboardPage.init now)
  | AppUsersPage | BlocksPage | TransactionsPage | DiscoverPage | ValidatorsPage | AuditLogsPage =>
      OfListing Listing.init
  | AppVersionsPage => OfAppVersions AppVersionsPage.init
  | BlockchainOverviewPage => OfFetched (Fetched.init JNull)
  | StakingPage | OperationsPage => OfFetched (Fetched.init (JArr []))
  | IndexerMonitorPage => OfIndexer IndexerMonitorPage.init
  | MarketsPage => OfMarkets MarketsPage.init
  | SearchIndexPage => NoHooks
  | PerpsRiskPage => OfPerps PerpsRiskPage.init
  | NotificationsPage => OfNotifications NotificationsPage.init
  | SecurityAdminsPage => OfAdmins SecurityAdminsPage.init
  | FeatureFlagsPage => OfFlags FeatureFlagsPage.init
  end.

(** ** Handlers *)

Definition handleSave (i : instance) (config : jsval) : cmd State unit :=
  _ ← write (upd_page i (on_versions (λ v,
        AppVersionsPage.set_saveSuccess false (AppVersionsPage.set_isSaving true v))));
  finally
    (alerted (_ ← updateAppVersions config;
              write (λ st, enqueue (ClearMessage i)
                (upd_page i (on_versions (AppVersionsPage.set_saveSuccess true)) st))))
    (upd_page i (on_versions (AppVersionsPage.set_isSaving false))).

Definition handleRetrySync (i : instance) : cmd State unit :=
  alerted (res ← retryIndexer;
           message ← lift (get_prop res "message"%js);
           write (λ st, enqueue (ClearMessage i)
             (enqueue (Reload i)
               (upd_page i (on_indexer (λ m, IndexerMonitorPage.set_showRetryModal false
                                                (IndexerMonitorPage.set_retryMessage message m))) st)))).

Definition handleToggle (i : instance) (id : jsval) (field : jsstring) (currentVal : jsval) : cmd State unit :=
  alerted (_ ← updateDiscoverProject (to_string id) (JObj [(field, JBool (negb (truthy currentVal)))]);
           write (enqueue (Reload i))).

Definition broadcast_done : jsstring := "Announcement broadcasted to all mobile & web clients!"%js.

Definition handleBroadcast (i : instance) (title body type : jsstring) : cmd State unit :=
  if bool_decide (title = []) || bool_decide (body = []) then Ret tt
  else
    _ ← write (upd_page i (on_notifications (NotificationsPage.set_isSending true)));
    finally
      (alerted (_ ← broadcastNotification (JObj [("title"%js, JStr title); ("body"%js, JStr body);
                                                 ("type"%js, JStr type)]);
                write (λ st, enqueue (ClearMessage i)
                  (enqueue (Reload i)
                    (upd_page i (on_notifications (λ n,
                       NotificationsPage.set_successMsg (Some broadcast_done)
                         (NotificationsPage.set_body [] (NotificationsPage.set_title [] n)))) st)))))
      (upd_page i (on_notifications (NotificationsPage.set_isSending false))).

Definition handleCreate (i : instance) (username password role : jsstring) : cmd State unit :=
  alerted (_ ← createAdmin (JObj [("username"%js, JStr username); ("password"%js, JStr password);
                                  ("role"%js, JStr role)]);
           write (λ st, enqueue (Reload i)
             (upd_page i (on_admins (λ a,
                SecurityAdminsPage.set_newPassword [] (SecurityAdminsPage.set_newUsername []
                  (SecurityAdminsPage.set_showCreateModal false a)))) st))).

Definition handleConfirmToggle (i : instance) (pendingFlag : option (jsval * bool)) : cmd State unit :=
  match pendingFlag with
  | None => Ret tt
  | Some (name, targetState) =>
      catch
        (_ ← updateFeatureFlag (to_string name) targetState;
         write (λ st, enqueue (Reload i)
           (upd_page i (on_flags (FeatureFlagsPage.set_pendingFlag None)) st)))
        (λ err, write (λ st, upd_page i (on_flags (FeatureFlagsPage.set_pendingFlag None))
                               (alert (err_message err) st)))
  end.

(** The callback of a page's timer. *)
Definition clear_message (i : instance) : State → State :=
  upd_page i (λ p, match p with
    | OfAppVersions st => OfAppVersions (AppVersionsPage.set_saveSuccess false st)
    | OfIndexer st => OfIndexer (IndexerMonitorPage.set_retryMessage JNull st)
    | OfNotifications st => OfNotifications (NotificationsPage.set_successMsg None st)
    | p => p
    end).

(** A timer runs its callback some time later. *)
Definition job (j : Job) : cmd State unit :=
  match j with
  | AuthChanged => checkAuth
  | Reload i => effect i
  | ClearMessage i => Yield (write (clear_message i))
  end.
End pages.
End AdminPages.
