(* ===== verification/AdminViews.v ===== *)
(** * What the pages of the admin panel show

    The columns and the markup of [apps/admin-panel/src/pages]; icons and styling are
    left out. *)
From stdpp Require Import gmap.
From S2P Require Import Prelude JsString JsStringFacts JsNumber JsJson Formatters View Render AdminUi AdminState.

Inductive PageEvent :=
| OnTable (e : DataTable.Event)
| OnPairTable (e : DataTable.Event)
| Refresh
| SetConfig (k : jsstring) (x : jsval)
| SaveVersions
| OpenRetry
| OnRetryModal (e : ConfirmModal.Event)
| ToggleProject (id : jsval) (field : jsstring) (currentVal : jsval)
| SetTitle (s : jsstring)
| SetBody (s : jsstring)
| SetType (s : jsstring)
| Broadcast
| OpenCreate
| CloseCreate
| SetNewUsername (s : jsstring)
| SetNewPassword (s : jsstring)
| SetNewRole (s : jsstring)
| CreateAdmin
| ToggleFlag (name currentState : jsval)
| OnFlagModal (e : ConfirmModal.Event).

Module AdminViews.
Import DataTable StatusBadge.
Section views.
Context `{Host} `{UnicodeCase} `{DateLocale}.

Abbreviation jsx := (outcome (list (view PageEvent))).
Abbreviation Column := (DataTable.Column PageEvent).

(** ** Cells *)

(** [v.slice(i, j)] and [v.slice(i)] in a template string *)
Definition slice_text (v : jsval) (f : ∀ A, list A → list A) : outcome jsstring :=
  match v with
  | JStr s => Ok (f _ s)
  | JArr l => Ok (to_string (JArr (f _ l)))
  | JUndef => type_error "Cannot read properties of undefined (reading 'slice')"%js
  | JNull => type_error "Cannot read properties of null (reading 'slice')"%js
  | _ => type_error "slice is not a function"%js
  end.

(** [{v.length > limit ? `${v.slice(0, a)}...${v.slice(-b)}` : v}] *)
Definition shortened (limit a b : Z) (v : jsval) : jsx :=
  len ← get_prop v "length"%js;
  if js_gt len (NInt limit) then
    x ← slice_text v (λ _ l, slice l 0 a);
    y ← slice_text v (λ _ l, slice_from l (- b));
    txt (x ++ "..."%js ++ y)
  else child v.

(** [Number(v.k).toFixed(d)] and [(Number(v.k) / 1e18).toLocaleString()] *)
Definition fixed (v : jsval) (k : jsstring) (d : nat) : outcome jsstring :=
  x ← get_prop v k; Ok (toFixed (to_number x) d).
Definition one_sprx : num := NInt (10 ^ 18).
Definition in_sprx (v : jsval) (k : jsstring) : outcome num :=
  x ← get_prop v k; Ok (num_div (to_number x) one_sprx).

(** [v.k ? yes : no] as the status of a badge *)
Definition badge_if (v : jsval) (k yes no : jsstring) : jsx :=
  b ← get_prop v k; badge (if truthy b then yes else no).

(** [v.k ? new Date(v.k).toLocaleString() : missing] *)
Definition date_cell (v : jsval) (k missing : jsstring) : jsx :=
  d ← get_prop v k;
  txt (if truthy d then locale_date (date_parse d) else missing).

(** [new Date(v.k).toLocaleTimeString()] *)
Definition time_cell (v : jsval) (k : jsstring) : jsx :=
  d ← get_prop v k; jspan [txt (locale_time (date_parse d))].

Definition col (header key : jsstring) (f : jsval → jsx) : Column := mkColumn header (Some key) (Some f).
Definition col_free (header : jsstring) (f : jsval → jsx) : Column := mkColumn header None (Some f).

(** [<DataTable>] with the defaults of its properties. *)
Definition table (emit : DataTable.Event → PageEvent) (columns : list Column) (placeholder : jsstring)
    (data : jsval) (isLoading : bool) (st : DataTable.State) : jsx :=
  DataTable.render emit columns placeholder "No records found."%js 10 None data isLoading st.

Definition intro (title subtitle : jsstring) : jsx := jdiv [jh "h1"%js title; jp [txt subtitle]].

(** ** Tables *)

Definition AppUsers_columns : list Column :=
  [col "Wallet Address"%js "address"%js (λ u, jspan [show u "address"%js]);
   col "Display Name"%js "display_name"%js
     (λ u, n ← get_prop u "display_name"%js;
           if truthy n then child n else jspan [txt "Unset"%js]);
   col_free "Status"%js (λ u, badge_if u "is_active"%js "ACTIVE"%js "INACTIVE"%js);
   col "Joined At"%js "created_at"%js (λ u, date_cell u "created_at"%js "--"%js)].

Definition AppUsersPage (st : Listing.State) : jsx :=
  jdiv [intro "App Users Directory"%js "Registered mobile wallet and web wallet backend accounts."%js;
        table OnTable AppUsers_columns "Search by address or display name..."%js
          (Listing.rows st) (Listing.isLoading st) (Listing.table st)].

Definition Blocks_columns : list Column :=
  [col "Height"%js "height"%js (λ b, jspan [txt "#"%js; show b "height"%js]);
   col "Block Hash"%js "hash"%js (λ b, h ← get_prop b "hash"%js; jspan [shortened 20 10 8 h]);
   col "Proposer / Validator"%js "proposer"%js
     (λ b, p ← get_prop b "proposer"%js;
           jspan [if truthy p then s ← slice_text p (λ _ l, slice l 0 12); txt (s ++ "..."%js)
                  else txt "System"%js]);
   col "Transactions"%js "tx_count"%js (λ b, jspan [show b "tx_count"%js; txt " txs"%js]);
   col "Gas Used"%js "gas_used"%js
     (λ b, g ← get_prop b "gas_used"%js; s ← locale_string g; jspan [txt s]);
   col "Timestamp"%js "timestamp"%js (λ b, time_cell b "timestamp"%js)].

Definition BlocksPage (st : Listing.State) : jsx :=
  jdiv [intro "Block Explorer"%js
          "Recent blocks proposed, validated, and finalized by the consensus engine."%js;
        table OnTable Blocks_columns "Search by block height or hash..."%js
          (Listing.rows st) (Listing.isLoading st) (Listing.table st)].

Definition Transactions_columns : list Column :=
  [col "Tx Hash"%js "hash"%js (λ t, h ← get_prop t "hash"%js; jspan [shortened 18 8 6 h]);
   col "Block"%js "block_height"%js (λ t, jspan [txt "#"%js; show t "block_height"%js]);
   col "Sender"%js "sender"%js (λ t, s ← get_prop t "sender"%js; jspan [shortened 18 8 6 s]);
   col "Recipient"%js "recipient"%js
     (λ t, r ← get_prop t "recipient"%js;
           jspan [if truthy r then shortened 18 8 6 r else txt "--"%js]);
   col "Amount (SPRX)"%js "amount"%js
     (λ t, x ← in_sprx t "amount"%js; jspan [txt (toFixed x 4); txt " SPRX"%js]);
   col "Status"%js "status"%js (λ t, s ← get_prop t "status"%js; StatusBadge.render s);
   col "Timestamp"%js "timestamp"%js (λ t, time_cell t "timestamp"%js)].

Definition TransactionsPage (st : Listing.State) : jsx :=
  jdiv [intro "Transaction Explorer"%js "Real-time transaction stream indexed across the Sprax Chain."%js;
        table OnTable Transactions_columns "Search by transaction hash, sender, recipient..."%js
          (Listing.rows st) (Listing.isLoading st) (Listing.table st)].

Definition Discover_columns : list Column :=
  [col "Project Name"%js "name"%js (λ p, jdiv [jdiv [show p "name"%js]; jdiv [show p "description"%js]]);
   col "Category"%js "category"%js (λ p, jspan [show p "category"%js]);
   col_free "Featured"%js
     (λ p, id ← get_prop p "id"%js; f ← get_prop p "is_featured"%js;
           jbutton false (ToggleProject id "is_featured"%js f)
             [txt (if truthy f then "Featured"%js else "Standard"%js)]);
   col_free "Verified"%js
     (λ p, id ← get_prop p "id"%js; f ← get_prop p "is_verified"%js;
           jbutton false (ToggleProject id "is_verified"%js f)
             [txt (if truthy f then "Verified"%js else "Unverified"%js)]);
   col_free "Status"%js (λ p, badge_if p "is_active"%js "ACTIVE"%js "INACTIVE"%js);
   col_free "Website"%js
     (λ p, w ← get_prop p "website"%js;
           if truthy w then el "a"%js [("href"%js, to_string w)] [] [txt "Visit "%js]
           else txt "--"%js)].

Definition DiscoverPage (st : Listing.State) : jsx :=
  jdiv [intro "Discover & Ecosystem dApps"%js
          "Manage curated ecosystem projects, featured highlights, and verified badges."%js;
        table OnTable Discover_columns "Search projects by name or category..."%js
          (Listing.rows st) (Listing.isLoading st) (Listing.table st)].

Definition Validators_columns : list Column :=
  [col "Validator Name"%js "name"%js (λ v, jdiv [jdiv [show v "name"%js]; jdiv [show v "address"%js]]);
   col "Total Stake"%js "total_stake"%js
     (λ v, x ← in_sprx v "total_stake"%js;
           jspan [txt (host_toLocaleString x 0 3); txt " SPRX"%js]);
   col "Commission"%js "commission_rate"%js
     (λ v, x ← get_prop v "commission_rate"%js;
           jspan [txt (toFixed (num_mul (to_number x) (NInt 100)) 1); txt "%"%js]);
   col "Uptime"%js "uptime_pct"%js (λ v, s ← fixed v "uptime_pct"%js 1; jspan [txt s; txt "%"%js]);
   col_free "Status"%js
     (λ v, j ← get_prop v "is_jailed"%js;
           if truthy j then badge "JAILED"%js
           else badge_if v "is_active"%js "ACTIVE"%js "INACTIVE"%js)].

Definition ValidatorsPage (st : Listing.State) : jsx :=
  jdiv [intro "Active Validator Set"%js "BFT-PoS consensus nodes securing the Sprax Chain ledger."%js;
        table OnTable Validators_columns "Search validators by name or address..."%js
          (Listing.rows st) (Listing.isLoading st) (Listing.table st)].

Definition AuditLogs_columns : list Column :=
  [col "Actor"%js "actor"%js (λ l, jspan [show l "actor"%js]);
   col "Action"%js "action"%js (λ l, jspan [show l "action"%js]);
   col "Resource"%js "resource"%js
     (λ l, r ← get_prop l "resource"%js; jspan [child (js_or r (JStr "--"%js))]);
   col_free "Result"%js (λ l, r ← get_prop l "result"%js; StatusBadge.render r);
   col_free "Metadata / Context"%js
     (λ l, m ← get_prop l "metadata"%js; jspan [txt (if truthy m then json_ser m else "--"%js)]);
   col "Timestamp"%js "created_at"%js (λ l, date_cell l "created_at"%js "--"%js)].

Definition AuditLogsPage (st : Listing.State) : jsx :=
  jdiv [intro "Immutable Audit Trail"%js
          "Complete historical record of administrative actions, config mutations, and security events."%js;
        table OnTable AuditLogs_columns "Search audit logs by actor, action, or resource..."%js
          (Listing.rows st) (Listing.isLoading st) (Listing.table st)].

(** ** Figures *)

Definition kpi (title : jsstring) (value subtitle : jsval) : jsx := KpiCard.render title value subtitle None none.
Definition kpi_badge (title : jsstring) (value subtitle : jsval) (b : jsx) : jsx :=
  KpiCard.render title value subtitle None b.
Definition kpi_trend (title : jsstring) (value subtitle : jsval) (trend : jsstring) : jsx :=
  KpiCard.render title value subtitle (Some trend) none.

(** [v?.k ?? fallback] *)
Definition field_or (v : jsval) (k : jsstring) (fallback : jsval) : jsval := js_nullish (field v k) fallback.
Definition dashes : jsval := JStr "--"%js.

Definition subsystems : list (jsstring * jsstring * jsstring) :=
  [("FastAPI Backend Core"%js, "12ms"%js, "OPERATIONAL"%js);
   ("PostgreSQL Database"%js, "4ms"%js, "OPERATIONAL"%js);
   ("Redis Cache & PubSub"%js, "2ms"%js, "OPERATIONAL"%js);
   ("Sprax Blockchain Node (RPC)"%js, "45ms"%js, "OPERATIONAL"%js);
   ("Sprax Indexer Engine"%js, "0 lag"%js, "HEALTHY"%js);
   ("WebSocket Realtime Hub"%js, "142 clients"%js, "OPERATIONAL"%js)].

(** The height of a bar in percent. *)
Definition heightPct (txs : jsval) : num :=
  num_min (NInt 100) (num_max (NInt 15) (num_mul (num_div (to_number txs) (NInt 5000)) (NInt 100))).

Definition bar_view (bar : jsval) : jsx :=
  txs ← get_prop bar "txs"%js;
  jdiv [jdiv [child txs];
        el "div"%js [("height"%js, num_to_string (heightPct txs) ++ "%"%js)] [] [];
        jdiv [show bar "time"%js]].

(** [{data?.charts?.tx_volume_24h?.map(...)}] *)
Definition chart (data : jsval) : jsx :=
  let bars := field (field data "charts"%js) "tx_volume_24h"%js in
  if is_nullish bars then none
  else map_over "data?.charts?.tx_volume_24h?"%js bars (λ _ bar, bar_view bar).

Definition staked (kpis : jsval) : outcome jsval :=
  if truthy kpis then
    x ← in_sprx kpis "total_staked_sprx"%js; Ok (JStr (host_toLocaleString x 0 3 ++ " SPRX"%js))
  else Ok dashes.

Definition DashboardPage (st : DashboardPage.State) : jsx :=
  let data := DashboardPage.data st in
  let kpis := field data "kpis"%js in
  total ← staked kpis;
  jdiv [
    jdiv [jdiv [jh "h1"%js "Ecosystem Control Center"%js;
                jp [txt "Real-time operations, node consensus, and backend status for "%js;
                    jspan [child (js_or (field data "chain_id"%js) (JStr "sprax-testnet-1"%js))]]];
          jdiv [jdiv [txt "Updated: "%js; txt (locale_time (NInt (DashboardPage.lastRefreshed st)))];
                jbutton (DashboardPage.isLoading st) Refresh []]];
    jdiv [kpi "Current Block Height"%js (field_or kpis "current_block_height"%js dashes)
            (JStr "Avg Block Time: 2.0s"%js);
          kpi_trend "Total Transactions"%js (field_or kpis "total_transactions"%js dashes)
            (JStr "Settled on-chain"%js) "+18.4% 24h"%js;
          kpi_badge "Active Validators"%js (field_or kpis "active_validators"%js dashes)
            (JStr "BFT-PoS Consensus"%js) (badge "100% ONLINE"%js);
          kpi "Total Staked SPRX"%js total (JStr "Staking APR ~12.5%"%js)];
    jdiv [kpi_badge "Indexer Height & Lag"%js (field_or kpis "indexer_height"%js dashes)
            (JStr ("Lag: "%js ++ to_string (field_or kpis "indexer_lag"%js (JNum (NInt 0))) ++ " blocks"%js))
            (badge (if strict_eq (field kpis "indexer_lag"%js) (JNum (NInt 0)) then "HEALTHY"%js
                    else "SYNCING"%js));
          kpi_badge "RPC Node Latency"%js (JStr "45ms"%js) (JStr "127.0.0.1:8545"%js) (badge "ONLINE"%js);
          kpi "Registered App Users"%js (field_or kpis "registered_users"%js dashes)
            (JStr "Flutter & Web Wallet"%js);
          kpi "Active Sessions"%js (field_or kpis "active_sessions"%js dashes)
            (JStr "Realtime JWT connections"%js)];
    jdiv [
      jdiv [jdiv [jdiv [jh "h3"%js "24-Hour Transaction Throughput"%js;
                        jp [txt "On-chain transaction execution volume"%js]];
                  jdiv [jspan []; txt "Transactions / Hour"%js]];
            jdiv [chart data];
            jdiv [jspan [txt "Peak: 4,100 txs/hr"%js]; jspan [txt "Total 24h: 15,650 txs"%js]]];
      jdiv [jdiv [jh "h3"%js "Subsystems Health"%js; badge "ALL SYSTEMS OPERATIONAL"%js];
            jdiv ((λ '(name, latency, status),
                     jdiv [jdiv [jspan [txt name]]; jdiv [jspan [txt latency]; badge status]])
                  <$> subsystems)]]].

Definition BlockchainOverviewPage (st : Fetched.State) : jsx :=
  let stats := Fetched.data st in
  let ms := field stats "avg_block_time_ms"%js in
  let time := if truthy ms then num_to_string (num_div (to_number ms) (NInt 1000)) else "2"%js in
  let gas := field stats "gas_limit_per_block"%js in
  limit ← (if is_nullish gas then Ok JUndef else s ← locale_string gas; Ok (JStr s));
  jdiv [
    intro "Blockchain Architecture & Nodes"%js
      "Core Sprax Chain consensus metrics, block finality, and node parameters."%js;
    jdiv [kpi "Chain ID"%js (field_or stats "chain_id"%js (JStr "sprax-testnet-1"%js)) (JStr "Network Protocol"%js);
          kpi "Block Height"%js (field_or stats "latest_height"%js dashes) (JStr "Latest Finalized Block"%js);
          kpi_badge "Consensus Engine"%js (JStr "BFT-PoS"%js) (JStr "Tendermint Core"%js) (badge "ACTIVE"%js);
          kpi "Block Time"%js (JStr (time ++ "s"%js)) (JStr "Deterministic finality"%js)];
    jdiv [jh "h3"%js "Chain Parameters & RPC Endpoints"%js;
          jdiv [jdiv [jspan [txt "Primary JSON-RPC Node:"%js];
                      jdiv [child (js_or (field stats "rpc_endpoint"%js) (JStr "http://127.0.0.1:8545"%js))]];
                jdiv [jspan [txt "Block Gas Limit:"%js];
                      jdiv [child (js_or limit (JStr "20,000,000"%js)); txt " gas"%js]];
                jdiv [jspan [txt "Native Token & Decimals:"%js]; jdiv [txt "SPRX (18 decimals, 10^18 atto)"%js]];
                jdiv [jspan [txt "Address Format:"%js]; jdiv [txt "Bech32 (sprax1...)"%js]]]]].

Definition SearchIndexPage : jsx :=
  jdiv [
    intro "Global Search Index Health"%js
      "Monitor search index freshness, indexed entity breakdown, and query latency."%js;
    jdiv [kpi_badge "Search Index Status"%js (JStr "HEALTHY"%js) (JStr "PostgreSQL Trigram & FullText"%js)
            (badge "ACTIVE"%js);
          kpi "Indexed Addresses"%js (JStr "1,420"%js) (JStr "Bech32 Account Index"%js);
          kpi "Indexed Blocks"%js (JStr "12,850"%js) (JStr "Full Block Header Cache"%js);
          kpi "Avg Query Latency"%js (JStr "6.2ms"%js) (JStr "P95 search execution time"%js)];
    jdiv [jh "h3"%js "Search Capabilities"%js;
          el "ul"%js [] []
            [el "li"%js [] [] [txt "• Instant lookup by 64-char transaction hash or 66-char block hash."%js];
             el "li"%js [] [] [txt "• Instant resolution of Bech32 addresses ("%js;
                               el "code"%js [] [] [txt "sprax1..."%js]; txt ")."%js];
             el "li"%js [] [] [txt "• Substring matching for discover projects, ecosystem tokens, and validator names."%js]]]].

(** [validators.reduce((acc, v) => acc + Number(v.total_stake) / 1e18, 0)] *)
Fixpoint sum_stake (acc : num) (l : list jsval) : outcome num :=
  match l with
  | [] => Ok acc
  | v :: l' => x ← in_sprx v "total_stake"%js; sum_stake (num_add acc x) l'
  end.

Definition totalStaked (validators : jsval) : outcome num :=
  match validators with
  | JArr l => sum_stake (NInt 0) l
  | JUndef => type_error "Cannot read properties of undefined (reading 'reduce')"%js
  | JNull => type_error "Cannot read properties of null (reading 'reduce')"%js
  | _ => type_error "validators.reduce is not a function"%js
  end.

Definition StakingPage (st : Fetched.State) : jsx :=
  total ← totalStaked (Fetched.data st);
  jdiv [
    intro "Staking & Delegations Overview"%js
      "Total bonded SPRX, estimated staking rewards, unbonding queue, and validator distribution."%js;
    jdiv [kpi "Total Bonded Stake"%js (JStr (host_toLocaleString total 0 3 ++ " SPRX"%js)) (JStr "Securing consensus"%js);
          kpi_trend "Estimated APR"%js (JStr "~12.5%"%js) (JStr "Annualized block rewards"%js) "Target: 12-15%"%js;
          kpi "Unbonding Period"%js (JStr "21 Days"%js) (JStr "Security unbonding gate"%js);
          kpi "Staking Ratio"%js (JStr "64.8%"%js) (JStr "Of circulating testnet supply"%js)];
    jdiv [jh "h3"%js "Staking Parameters & Slashing Safeguards"%js;
          jdiv [jdiv [jspan [txt "Double Sign (Equivocation) Penalty:"%js]; jdiv [txt "5% Slash + Permanent Tombstone"%js]];
                jdiv [jspan [txt "Downtime / Liveness Slash:"%js]; jdiv [txt "0.1% Slash + 10-Minute Jailing"%js]];
                jdiv [jspan [txt "Minimum Validator Self-Stake:"%js]; jdiv [txt "100,000 SPRX"%js]];
                jdiv [jspan [txt "Reward Distribution:"%js]; jdiv [txt "Continuous Per-Block Settlement"%js]]]]].

(** ** Markets *)

Definition Perps_columns : list Column :=
  [col "Market"%js "symbol"%js (λ m, jspan [show m "symbol"%js]);
   col "Mark Price"%js "mark_price"%js (λ m, s ← fixed m "mark_price"%js 4; jspan [txt "$"%js; txt s]);
   col "Index Price"%js "index_price"%js (λ m, s ← fixed m "index_price"%js 4; jspan [txt "$"%js; txt s]);
   col "Funding Rate (8h)"%js "funding_rate"%js
     (λ m, x ← get_prop m "funding_rate"%js;
           jspan [txt (toFixed (num_mul (to_number x) (NInt 100)) 4); txt "%"%js]);
   col "Max Leverage"%js "max_leverage"%js (λ m, jspan [show m "max_leverage"%js; txt "x"%js]);
   col_free "Status"%js (λ m, badge_if m "is_active"%js "TESTNET"%js "DISABLED"%js)].

Definition PerpsRiskPage (st : PerpsRiskPage.State) : jsx :=
  let data := PerpsRiskPage.data st in
  jdiv [
    jdiv [jdiv [jdiv []; jdiv [jdiv [txt "Perpetuals Protocol Risk Monitor — Isolated Testnet Sandbox"%js];
                               jdiv [txt "Production mainnet perps are permanently locked pending security audits. Automated activation is prohibited."%js]]];
          badge "PRODUCTION BLOCKED"%js];
    jdiv [kpi "Active Testnet Markets"%js (field_or data "active_markets_count"%js (JNum (NInt 0)))
            (JStr "Isolated perpetual pairs"%js);
          kpi "Open Positions"%js (field_or data "open_positions_count"%js (JNum (NInt 0)))
            (JStr "Testnet simulated volume"%js);
          kpi_badge "Oracle Discrepancy"%js (JStr "0.01%"%js) (JStr "Mark vs Index divergence"%js)
            (badge "HEALTHY"%js);
          kpi_badge "Mainnet Gate Status"%js (JStr "LOCKED"%js) (JStr "Multi-sig production gate"%js)
            (badge "LOCKED"%js)];
    jdiv [jh "h3"%js "Perpetual Markets (Testnet Sandbox)"%js;
          table OnTable Perps_columns "Search perp markets..."%js
            (js_or (field data "markets"%js) (JArr [])) (PerpsRiskPage.isLoading st)
            (PerpsRiskPage.table st)]].

Definition asset_columns : list Column :=
  [col "Asset"%js "name"%js (λ a, jdiv [jspan [show a "name"%js]; jspan [show a "symbol"%js]]);
   col "USD Price"%js "price_usd"%js (λ a, s ← fixed a "price_usd"%js 4; jspan [txt "$"%js; txt s]);
   col "24h Change"%js "change_24h"%js
     (λ a, x ← get_prop a "change_24h"%js;
           jspan [txt (if num_leb (NInt 0) (to_number x) then "+"%js else []);
                  txt (toFixed (to_number x) 2); txt "%"%js]);
   col_free "Status"%js (λ a, badge_if a "is_active"%js "ACTIVE"%js "INACTIVE"%js)].

Definition pair_columns : list Column :=
  [col "Pair"%js "symbol"%js (λ p, jspan [show p "symbol"%js]);
   col_free "Base / Quote"%js (λ p, jspan [show p "base"%js; txt " / "%js; show p "quote"%js]);
   col "Last Price"%js "last_price"%js (λ p, s ← fixed p "last_price"%js 4; jspan [txt "$"%js; txt s]);
   col_free "Status"%js (λ p, badge_if p "is_active"%js "ACTIVE"%js "INACTIVE"%js)].

Definition fx_rates : list (jsstring * jsstring * jsstring * jsstring) :=
  [("USD"%js, "$"%js, "1.0000"%js, "Base"%js); ("INR"%js, "₹"%js, "85.5000"%js, "+0.12%"%js);
   ("EUR"%js, "€"%js, "0.9200"%js, "-0.05%"%js); ("GBP"%js, "£"%js, "0.7850"%js, "+0.02%"%js);
   ("JPY"%js, "¥"%js, "154.200"%js, "+0.45%"%js)].

Definition MarketsPage (st : MarketsPage.State) : jsx :=
  jdiv [
    intro "Markets, Assets & FX Rates"%js
      "Configured display assets, external pricing oracles, and fiat conversion rates (INR, USD, EUR, GBP, JPY)."%js;
    jdiv [jh "h3"%js "Supported Display Currencies (Floating Rates)"%js;
          jdiv ((λ '(code, symbol, rate, change),
                   jdiv [jdiv [txt code; txt " ("%js; txt symbol; txt ")"%js]; jdiv [txt rate]; jdiv [txt change]])
                <$> fx_rates)];
    jdiv [jh "h3"%js "Ecosystem Assets"%js;
          table OnTable asset_columns "Search assets..."%js (MarketsPage.assets st)
            (MarketsPage.isLoading st) (MarketsPage.assetTable st)];
    jdiv [jh "h3"%js "Spot Display Pairs"%js;
          table OnPairTable pair_columns "Search pairs..."%js (MarketsPage.pairs st)
            (MarketsPage.isLoading st) (MarketsPage.pairTable st)]].

(** ** Operations *)

Definition service_metric (svc : jsval) : outcome jsval :=
  latency ← get_prop svc "latency"%js;
  if truthy latency then Ok latency
  else
    lag ← get_prop svc "lag"%js;
    if negb (is_undef lag) then Ok (JStr (to_string lag ++ " lag"%js))
    else n ← get_prop svc "active_clients"%js; Ok (JStr (to_string n ++ " clients"%js)).

Definition service_view (svc : jsval) : jsx :=
  status ← get_prop svc "status"%js;
  metric ← service_metric svc;
  jdiv [jdiv [jdiv [jspan [show svc "name"%js]]; StatusBadge.render status];
        jdiv [jdiv [jspan [txt "Uptime"%js]; jspan [show svc "uptime"%js]];
              jdiv [jspan [txt "Metric"%js]; jspan [child metric]]]].

Definition OperationsPage (st : Fetched.State) : jsx :=
  jdiv [
    jdiv [intro "Ecosystem Operations & Health Center"%js
            "Real-time status, latency, and uptime across backend, RPC, database, cache, and oracles."%js;
          jbutton false Refresh []];
    jdiv [map_over "services"%js (Fetched.data st) (λ _ svc, service_view svc)]].

Definition retry_props (st : IndexerMonitorPage.State) : ConfirmModal.Props :=
  ConfirmModal.mkProps (IndexerMonitorPage.showRetryModal st) "Retry Indexer Synchronization"%js
    "This will signal the indexer worker to resume synchronization from the last verified block checkpoint."%js
    None "Trigger Retry"%js.

Definition IndexerMonitorPage (st : IndexerMonitorPage.State) : jsx :=
  let status := IndexerMonitorPage.status st in
  let lag := field status "lag_blocks"%js in
  let error := field status "last_error"%js in
  let message := IndexerMonitorPage.retryMessage st in
  jdiv [
    jdiv [intro "Indexer Synchronization Monitor"%js
            "Real-time pipeline monitoring blocks and event logs from Sprax Chain into PostgreSQL."%js;
          jbutton false OpenRetry [txt "Trigger Sync Retry"%js]];
    (if truthy message then jdiv [child message] else child message);
    jdiv [kpi "Chain Height"%js (field_or status "chain_height"%js dashes) (JStr "Blockchain Node Height"%js);
          kpi "Indexed Height"%js (field_or status "indexed_height"%js dashes) (JStr "PostgreSQL Stored Height"%js);
          kpi_badge "Sync Lag"%js (JStr (to_string (js_nullish lag (JNum (NInt 0))) ++ " blocks"%js))
            (JStr (if strict_eq lag (JNum (NInt 0)) then "Fully Synchronized"%js else "Catching up..."%js))
            (StatusBadge.render (js_or (field status "status"%js) (JStr "HEALTHY"%js)));
          kpi "Last Error"%js (JStr (if truthy error then "Error Detected"%js else "None"%js))
            (js_or error (JStr "Clean execution"%js))];
    jdiv [jh "h3"%js "Pipeline Specifications"%js;
          jdiv [jp [txt "• The indexer fetches blocks sequentially via JSON-RPC from "%js;
                    el "code"%js [] [] [txt "127.0.0.1:8545"%js]; txt "."%js];
                jp [txt "• Transactions, addresses, transfers, and validator updates are committed atomically within PostgreSQL transactions."%js];
                jp [txt "• Fast block-event broadcast streams live to explorer WebSocket subscribers."%js]]];
    ConfirmModal.render OnRetryModal (retry_props st) (IndexerMonitorPage.typedValue st)].

(** ** Forms *)

(** A control whose value is dynamic: [undefined] and [null] leave it uncontrolled. *)
Definition value_attr (v : jsval) : list (jsstring * jsstring) :=
  if is_nullish v then [] else [("value"%js, to_string v)].

Definition text_field (config : jsval) (tag k : jsstring) : jsx :=
  v ← get_prop config k;
  el tag ((if bool_decide (tag = "input"%js) then [("type"%js, "text"%js)] else []) ++ value_attr v)
    [OnChange (λ s, SetConfig k (JStr s))] [].

Definition checkbox (config : jsval) (k : jsstring) : jsx :=
  v ← get_prop config k;
  el "input"%js ([("type"%js, "checkbox"%js)] ++ (if truthy v then [("checked"%js, []%N)] else []))
    [OnClick (SetConfig k (JBool (negb (truthy v))))] [].

Definition label (s : jsstring) : jsx := el "label"%js [] [] [txt s].

Definition AppVersionsPage (st : AppVersionsPage.State) : jsx :=
  let config := AppVersionsPage.config st in
  jdiv [
    intro "Mobile App Version Control"%js
      "Configure minimum supported versions, force update policies, and remote maintenance alerts."%js;
    el "form"%js [] [OnSubmit SaveVersions] [
      jdiv [jdiv [label "Minimum Supported Version"%js; text_field config "input"%js "min_version"%js];
            jdiv [label "Latest Released Version"%js; text_field config "input"%js "latest_version"%js]];
      jdiv [label "Android APK Download URL"%js; text_field config "input"%js "update_url_android"%js];
      jdiv [jdiv [jdiv [jdiv [txt "Force App Update"%js];
                        jdiv [txt "Block users below the minimum version from transacting"%js]];
                  checkbox config "force_update"%js];
            jdiv [jdiv [jdiv [txt "App Maintenance Mode"%js];
                        jdiv [txt "Show maintenance banner in Flutter wallet"%js]];
                  checkbox config "maintenance_mode"%js]];
      jdiv [label "Maintenance Message"%js; text_field config "textarea"%js "maintenance_message"%js];
      jdiv [if AppVersionsPage.saveSuccess st then jdiv [txt "Settings updated and audited successfully!"%js]
            else jdiv [];
            el "button"%js ([("type"%js, "submit"%js)] ++ disabled_attr (AppVersionsPage.isSaving st)) []
              [txt (if AppVersionsPage.isSaving st then "Saving..."%js else "Save Configuration"%js)]]]].

Definition Notifications_columns : list Column :=
  [col "Announcement Title"%js "title"%js (λ a, jdiv [jdiv [show a "title"%js]; jdiv [show a "body"%js]]);
   col "Category"%js "type"%js (λ a, jspan [show a "type"%js]);
   col_free "Status"%js (λ a, badge_if a "is_active"%js "ACTIVE"%js "EXPIRED"%js);
   col "Published At"%js "created_at"%js (λ a, date_cell a "created_at"%js "--"%js)].

Definition NotificationsPage (st : NotificationsPage.State) : jsx :=
  let title := NotificationsPage.title st in
  let body := NotificationsPage.body st in
  let isSending := NotificationsPage.isSending st in
  jdiv [
    intro "System Announcements & Push Broadcasts"%js
      "Broadcast ecosystem news, maintenance advisories, and protocol updates to connected wallets."%js;
    el "form"%js [] [OnSubmit Broadcast] [
      jh "h3"%js "Compose Global Announcement"%js;
      jdiv [label "Title"%js;
            static (input [("type"%js, "text"%js);
                           ("placeholder"%js, "e.g. Scheduled Testnet Maintenance Upgrade"%js)]
                      title SetTitle)];
      jdiv [label "Category"%js;
            static (select (NotificationsPage.type st) SetType
              [("general"%js, "General Update"%js); ("maintenance"%js, "Maintenance Advisory"%js);
               ("security"%js, "Security Alert"%js); ("staking"%js, "Staking / Rewards"%js)])];
      jdiv [label "Message Content"%js;
            el "textarea"%js
              [("placeholder"%js, "Detailed broadcast body message visible in wallet notification trays..."%js);
               ("value"%js, body)] [OnChange SetBody] []];
      jdiv [match NotificationsPage.successMsg st with
            | None | Some [] => jdiv []
            | Some m => jdiv [txt m]
            end;
            el "button"%js ([("type"%js, "submit"%js)]
                            ++ disabled_attr (isSending || bool_decide (title = []) || bool_decide (body = []))) []
              [txt (if isSending then "Sending..."%js else "Broadcast Announcement"%js)]]];
    jdiv [jh "h3"%js "Broadcast History"%js;
          table OnTable Notifications_columns "Search broadcasts..."%js
            (NotificationsPage.announcements st) (NotificationsPage.isLoading st)
            (NotificationsPage.table st)]].

Definition Admins_columns : list Column :=
  [col "Username"%js "username"%js
     (λ a, s ← string_prop a "username"%js "charAt"%js;
           jdiv [jdiv [txt (toUpperCase (slice s 0 1))]; jspan [txt s]]);
   col "RBAC Role"%js "role"%js (λ a, jspan [show a "role"%js]);
   col_free "Status"%js (λ a, badge_if a "is_active"%js "ACTIVE"%js "INACTIVE"%js);
   col "Created At"%js "created_at"%js (λ a, date_cell a "created_at"%js "--"%js);
   col "Last Login"%js "last_login"%js (λ a, date_cell a "last_login"%js "Never"%js)].

Definition roles : list (jsstring * jsstring) :=
  [("viewer"%js, "Viewer (Read-only)"%js); ("operations"%js, "Operations (Node & Indexer controls)"%js);
   ("admin"%js, "Admin (All ecosystem modules)"%js); ("super_admin"%js, "Super Admin (Root authority)"%js)].

Definition create_form (st : SecurityAdminsPage.State) : jsx :=
  jdiv [jdiv [
    jh "h3"%js "Create Admin Account"%js;
    el "form"%js [] [OnSubmit CreateAdmin] [
      jdiv [label "Username"%js;
            static (input [("type"%js, "text"%js); ("required"%js, []%N)] (SecurityAdminsPage.newUsername st)
                      SetNewUsername)];
      jdiv [label "Initial Password"%js;
            static (input [("type"%js, "password"%js); ("required"%js, []%N)] (SecurityAdminsPage.newPassword st)
                      SetNewPassword)];
      jdiv [label "RBAC Role"%js; static (select (SecurityAdminsPage.newRole st) SetNewRole roles)];
      jdiv [el "button"%js [("type"%js, "button"%js)] [OnClick CloseCreate] [txt "Cancel"%js];
            el "button"%js [("type"%js, "submit"%js)] [] [txt "Create Admin"%js]]]]].

(** [user] is the one of the session. *)
Definition SecurityAdminsPage (user : jsval) (st : SecurityAdminsPage.State) : jsx :=
  jdiv [
    jdiv [intro "Admin Accounts & RBAC Matrix"%js
            "Manage authorized staff identities, MFA policies, and granular operational permissions."%js;
          jwhen (strict_eq (field user "role"%js) (JStr "super_admin"%js))
            (jbutton false OpenCreate [txt "Add Admin User"%js])];
    table OnTable Admins_columns "Search admin users..."%js
      (SecurityAdminsPage.admins st) (SecurityAdminsPage.isLoading st) (SecurityAdminsPage.table st);
    jwhen (SecurityAdminsPage.showCreateModal st) (create_form st)].

(** ** Feature flags *)

Definition is_critical (name : jsval) : bool :=
  strict_eq name (JStr "perps_enabled"%js) || strict_eq name (JStr "mainnet_enabled"%js).

Definition flag_view (f : jsval) : jsx :=
  name ← get_prop f "name"%js;
  description ← get_prop f "description"%js;
  enabled ← get_prop f "is_enabled"%js;
  jdiv [jdiv [jdiv [jspan [child name];
                    jwhen (is_critical name) (jspan [txt "CRITICAL PROTECTION"%js])];
              jdiv [child (js_or description (JStr "Controls runtime module enablement."%js))]];
        jdiv [badge (if truthy enabled then "ENABLED"%js else "DISABLED"%js);
              jbutton false (ToggleFlag name enabled) [jspan []]]].

(** The properties of the dialog for the pending flag; a critical name is a string. *)
Definition flag_props (pendingFlag : option (jsval * bool)) : ConfirmModal.Props :=
  match pendingFlag with
  | None =>
      ConfirmModal.mkProps false "Confirm Feature Flag Mutation"%js
        "Are you sure you want to toggle 'undefined' to DISABLED? This action will be audited immediately."%js
        None "Update Feature Flag"%js
  | Some (name, target) =>
      let n := to_string name in
      if is_critical name then
        ConfirmModal.mkProps true "Critical Multi-Sig Authorization Guard"%js
          ("Enabling '"%js ++ n ++ "' activates mission-critical protocol layers. Automated activation is forbidden without formal multi-sig governance approval."%js)
          (Some ("ENABLE "%js ++ toUpperCase n)) "Confirm Critical Authorization"%js
      else
        ConfirmModal.mkProps true "Confirm Feature Flag Mutation"%js
          ("Are you sure you want to toggle '"%js ++ n ++ "' to "%js
           ++ (if target then "ENABLED"%js else "DISABLED"%js)
           ++ "? This action will be audited immediately."%js)
          None "Update Feature Flag"%js
  end.

Definition FeatureFlagsPage (st : FeatureFlagsPage.State) : jsx :=
  jdiv [
    intro "Ecosystem Runtime Feature Flags"%js
      "Dynamic runtime switches controlling module visibility across backend, Flutter mobile wallet, and Explorer."%js;
    jdiv [map_over "flags"%js (FeatureFlagsPage.flags st) (λ _ f, flag_view f)];
    ConfirmModal.render OnFlagModal (flag_props (FeatureFlagsPage.pendingFlag st))
      (FeatureFlagsPage.typedValue st)].

(** ** The page that is mounted *)

Definition page_view (user : jsval) (page : Page) (p : PageState) : jsx :=
  match page, p with
  | AdminState.DashboardPage, OfDashboard st => DashboardPage st
  | AdminState.AppUsersPage, OfListing st => AppUsersPage st
  | AdminState.AppVersionsPage, OfAppVersions st => AppVersionsPage st
  | AdminState.BlockchainOverviewPage, OfFetched st => BlockchainOverviewPage st
  | AdminState.BlocksPage, OfListing st => BlocksPage st
  | AdminState.TransactionsPage, OfListing st => TransactionsPage st
  | AdminState.IndexerMonitorPage, OfIndexer st => IndexerMonitorPage st
  | AdminState.MarketsPage, OfMarkets st => MarketsPage st
  | AdminState.DiscoverPage, OfListing st => DiscoverPage st
  | AdminState.SearchIndexPage, _ => SearchIndexPage
  | AdminState.ValidatorsPage, OfListing st => ValidatorsPage st
  | AdminState.StakingPage, OfFetched st => StakingPage st
  | AdminState.PerpsRiskPage, OfPerps st => PerpsRiskPage st
  | AdminState.NotificationsPage, OfNotifications st => NotificationsPage st
  | AdminState.OperationsPage, OfFetched st => OperationsPage st
  | AdminState.SecurityAdminsPage, OfAdmins st => SecurityAdminsPage user st
  | AdminState.AuditLogsPage, OfListing st => AuditLogsPage st
  | AdminState.FeatureFlagsPage, OfFlags st => FeatureFlagsPage st
  | _, _ => none
  end.
End views.
End AdminViews.
