(* ===== verification/AdminRender.v ===== *)
(** * The pages of the admin panel render typed data

    For each page, that what it shows is defined when its data have their declared
    types. *)
From stdpp Require Import gmap.
From S2P Require Import Prelude JsString JsStringFacts JsNumber JsJson Formatters View Render Types RenderTyped.
From S2P Require Import AdminTypes AdminUi AdminState AdminViews.
Import AdminTypes AdminViews.

(** The declared types with any string for a role or an environment. *)
Definition AnyAdminUser : ty := Eval cbv [loose AdminUser AdminRole map req opt] in loose AdminUser.
Definition AnyAdminProfile : ty :=
  Eval cbv [loose AdminProfile AdminRole Environment map req opt] in loose AdminProfile.
Definition AnyBlockchainStats : ty :=
  Eval cbv [loose BlockchainStats Environment map req opt] in loose BlockchainStats.

(** One step of a proof that a component renders: elements by their children, values
    by their types. *)
Ltac jsx_step :=
  lazymatch goal with
  | |- Forall _ [] => constructor
  | |- Forall _ (_ :: _) => constructor; cbv beta
  | |- is_ok (el _ _ _ _) = true => apply el_ok
  | |- is_ok (jdiv _) = true => apply el_ok
  | |- is_ok (jspan _) = true => apply el_ok
  | |- is_ok (jp _) = true => apply el_ok
  | |- is_ok (jh _ _) = true => reflexivity
  | |- is_ok (jbutton _ _ _) = true => apply el_ok
  | |- is_ok (txt _) = true => reflexivity
  | |- is_ok none = true => reflexivity
  | |- is_ok (static _) = true => reflexivity
  | |- is_ok (jwhen _ _) = true => apply jwhen_ok
  | |- is_ok (show _ _) = true => eapply show_ok; [eassumption|reflexivity|reflexivity]
  | |- is_ok (StatusBadge.badge _) = true => reflexivity
  | |- is_ok (mbind _ (get_prop _ _)) = true =>
      eapply prop_bind_ok; [eassumption|let x := fresh "x" in let Hx := fresh "Hx" in intros x Hx]
  | |- is_ok (if ?b then _ else _) = true => destruct b eqn:?
  | |- is_ok (let '(_, _) := ?p in _) = true => destruct p
  end.
Ltac jsx_ok := repeat jsx_step.

(** Use the type of a property that was read. *)
Ltac prop_type H v :=
  let x := fresh "y" in let Hx := fresh "Hy" in let Ht := fresh "Ht" in
  lazymatch type of H with
  | get_prop v ?k = Ok _ =>
      let Hc := lazymatch goal with Hc : conforms _ v = true |- _ => Hc end in
      destruct (req_prop _ v k _ Hc eq_refl) as (x & Hx & Ht);
      rewrite Hx in H; injection H as <-
  end.

Section render.
Context `{Host} `{UnicodeCase} `{DateLocale}.

(** ** Tables *)

Definition column_ok (t : ty) (c : DataTable.Column PageEvent) : Prop :=
  ∀ v, conforms t v = true → is_ok (DataTable.cell_view v c) = true.

Lemma filter_rows_ok fields term l :
  Forall (λ v, conforms (TObj fields) v = true) l →
  ∃ rows, DataTable.filter_rows term l = Ok rows ∧ Forall (λ v, conforms (TObj fields) v = true) rows.
Proof.
  induction 1 as [|v l Hv _ (rows & IH & Hr)]; [by exists []|]. cbn [DataTable.filter_rows]. rewrite IH.
  unfold DataTable.matches. case_bool_decide; [exists (v :: rows); eauto|].
  destruct v as [| | | | | |fs]; try done. cbn. case_match; eauto.
Qed.

Lemma slice_Forall {A} (P : A → Prop) l i j : Forall P l → Forall P (slice l i j).
Proof. intros Hl. unfold slice. by repeat first [apply Forall_take|apply Forall_drop]. Qed.

Lemma table_ok fields emit columns placeholder data isLoading st :
  conforms (TArr (TObj fields)) data = true → Forall (column_ok (TObj fields)) columns →
  is_ok (table emit columns placeholder data isLoading st) = true.
Proof.
  intros (l & -> & Hl)%typed_array Hc. unfold table, DataTable.render.
  destruct (filter_rows_ok fields (DataTable.searchTerm st) l Hl) as (rows & Hr & Ht).
  cbn [DataTable.filteredData]. rewrite Hr. cbn [mbind outcome_bind]. cbv zeta. jsx_ok.
  - apply Forall_forall. intros r (c & -> & _)%list_elem_of_fmap. reflexivity.
  - unfold DataTable.body_view. destruct isLoading; [reflexivity|].
    pose proof (slice_Forall _ _ ((DataTable.currentPage st - 1) * 10) (DataTable.currentPage st * 10) Ht) as Hp.
    fold (DataTable.paginatedData rows (DataTable.currentPage st) 10) in Hp.
    destruct (DataTable.paginatedData _ _ _) as [|v vs]; [reflexivity|].
    apply children_ok, Forall_fmap. eapply Forall_impl; [exact Hp|]. intros x Hx. cbn.
    unfold DataTable.row_view. apply el_ok, Forall_fmap. eapply Forall_impl; [exact Hc|]. intros c Hcx. by apply Hcx.
Qed.

Lemma cell_ok t h k f :
  (∀ v, conforms t v = true → is_ok (f v) = true) → column_ok t (col h k f).
Proof. intros Hf v Hv. apply el_ok. constructor; [by apply Hf|constructor]. Qed.

Lemma cell_free_ok t h f :
  (∀ v, conforms t v = true → is_ok (f v) = true) → column_ok t (col_free h f).
Proof. intros Hf v Hv. apply el_ok. constructor; [by apply Hf|constructor]. Qed.

Lemma shortened_ok limit a b s : is_ok (shortened limit a b (JStr s)) = true.
Proof. unfold shortened. cbn [get_prop mbind outcome_bind]. destruct (js_gt _ _); reflexivity. Qed.

Lemma in_sprx_ok {B} fields v k (f : num → outcome B) :
  conforms (TObj fields) v = true → (∀ n, is_ok (f n) = true) → is_ok (in_sprx v k ≫= f) = true.
Proof. intros Hv Hf. destruct v; try done. apply Hf. Qed.

Lemma fixed_ok {B} fields v k d (f : jsstring → outcome B) :
  conforms (TObj fields) v = true → (∀ s, is_ok (f s) = true) → is_ok (fixed v k d ≫= f) = true.
Proof. intros Hv Hf. destruct v; try done. apply Hf. Qed.

Ltac jsx_numbers :=
  repeat first [jsx_step|eapply in_sprx_ok; [eassumption|intros ?]
               |eapply fixed_ok; [eassumption|intros ?]].

Ltac columns_ok :=
  repeat (constructor; [first [apply cell_ok|apply cell_free_ok]; intros v Hv; cbv beta|]); [..|constructor].

Lemma AppUsers_ok : Forall (column_ok AppUser) AppUsers_columns.
Proof.
  columns_ok; unfold badge_if, date_cell; jsx_ok.
  prop_type Hx v. by eapply child_ok; [|exact Ht].
Qed.

Lemma Blocks_ok : Forall (column_ok BlockItem) Blocks_columns.
Proof.
  columns_ok; unfold badge_if, time_cell; jsx_ok; prop_type Hx v.
  - destruct y; try done. apply shortened_ok.
  - by destruct y.
  - by destruct y.
Qed.

Lemma Transactions_ok : Forall (column_ok TransactionItem) Transactions_columns.
Proof.
  columns_ok; unfold time_cell; jsx_numbers; prop_type Hx v; try (by destruct y).
  - destruct y; try done. apply shortened_ok.
  - destruct y; try done. apply shortened_ok.
  - destruct y; try done. apply shortened_ok.
Qed.

Lemma Discover_ok : Forall (column_ok DiscoverProject) Discover_columns.
Proof. columns_ok; unfold badge_if; jsx_ok. Qed.

Lemma Validators_ok : Forall (column_ok ValidatorItem) Validators_columns.
Proof. columns_ok; unfold badge_if; jsx_numbers. Qed.

Lemma AuditLogs_ok : Forall (column_ok AuditLogItem) AuditLogs_columns.
Proof.
  columns_ok; unfold date_cell; jsx_ok; prop_type Hx v.
  - by eapply child_or_ok; [|right; exact Ht|].
  - by destruct y.
Qed.

Lemma Perps_ok : Forall (column_ok PerpMarketItem) Perps_columns.
Proof. columns_ok; unfold badge_if; jsx_numbers. Qed.

Lemma assets_ok : Forall (column_ok MarketAsset) asset_columns.
Proof. columns_ok; unfold badge_if; jsx_numbers. Qed.

Lemma pairs_ok : Forall (column_ok MarketPair) pair_columns.
Proof. columns_ok; unfold badge_if; jsx_numbers. Qed.

Lemma Notifications_ok : Forall (column_ok SystemAnnouncementItem) Notifications_columns.
Proof. columns_ok; unfold badge_if, date_cell; jsx_ok. Qed.

Lemma Admins_ok : Forall (column_ok AnyAdminUser) Admins_columns.
Proof.
  columns_ok; unfold string_prop, badge_if, date_cell; jsx_ok.
  edestruct (req_prop _ v "username"%js _ Hv eq_refl) as (y & -> & Ht). by destruct y.
Qed.

(** ** Pages *)

(** The data of a page have their types, or are the initial ones. *)
Definition page_ok (page : Page) (p : PageState) : Prop :=
  match page, p with
  | AdminState.DashboardPage, OfDashboard st => opt_typed DashboardData (DashboardPage.data st)
  | AdminState.AppUsersPage, OfListing st => conforms (TArr AppUser) (Listing.rows st) = true
  | AdminState.AppVersionsPage, OfAppVersions st => is_nullish (AppVersionsPage.config st) = false
  | AdminState.BlockchainOverviewPage, OfFetched st => opt_typed AnyBlockchainStats (Fetched.data st)
  | AdminState.BlocksPage, OfListing st => conforms (TArr BlockItem) (Listing.rows st) = true
  | AdminState.TransactionsPage, OfListing st => conforms (TArr TransactionItem) (Listing.rows st) = true
  | AdminState.IndexerMonitorPage, OfIndexer st =>
      opt_typed IndexerStatus (IndexerMonitorPage.status st)
      ∧ opt_typed TStr (IndexerMonitorPage.retryMessage st)
  | AdminState.MarketsPage, OfMarkets st =>
      conforms (TArr MarketAsset) (MarketsPage.assets st) = true
      ∧ conforms (TArr MarketPair) (MarketsPage.pairs st) = true
  | AdminState.DiscoverPage, OfListing st => conforms (TArr DiscoverProject) (Listing.rows st) = true
  | AdminState.SearchIndexPage, NoHooks => True
  | AdminState.ValidatorsPage, OfListing st => conforms (TArr ValidatorItem) (Listing.rows st) = true
  | AdminState.StakingPage, OfFetched st => conforms (TArr ValidatorItem) (Fetched.data st) = true
  | AdminState.PerpsRiskPage, OfPerps st => opt_typed PerpsData (PerpsRiskPage.data st)
  | AdminState.NotificationsPage, OfNotifications st =>
      conforms (TArr SystemAnnouncementItem) (NotificationsPage.announcements st) = true
  | AdminState.OperationsPage, OfFetched st => conforms (TArr SystemService) (Fetched.data st) = true
  | AdminState.SecurityAdminsPage, OfAdmins st =>
      conforms (TArr AnyAdminUser) (SecurityAdminsPage.admins st) = true
  | AdminState.AuditLogsPage, OfListing st => conforms (TArr AuditLogItem) (Listing.rows st) = true
  | AdminState.FeatureFlagsPage, OfFlags st =>
      conforms (TArr FeatureFlagItem) (FeatureFlagsPage.flags st) = true
  | _, _ => False
  end.

Lemma kpi_ok title value subtitle trend (b : jsx PageEvent) :
  is_ok (child (E := PageEvent) value) = true → is_ok (child (E := PageEvent) subtitle) = true →
  is_ok b = true → is_ok (KpiCard.render title value subtitle trend b) = true.
Proof.
  intros Hv Hs Hb. unfold KpiCard.render. jsx_ok; try done.
  - by destruct trend.
Qed.

Lemma field_or_ok fields v k o t s :
  opt_typed (TObj fields) v → field_ty fields k = Some (o, t) → renderable t = true →
  is_ok (child (E := PageEvent) (field_or v k (JStr s))) = true.
Proof. intros Hv Hk Hr. eapply child_nullish_ok; [exact Hr|by eapply field_typed|done]. Qed.

Lemma field_or_num_ok fields v k o t n :
  opt_typed (TObj fields) v → field_ty fields k = Some (o, t) → renderable t = true →
  is_ok (child (E := PageEvent) (field_or v k (JNum n))) = true.
Proof. intros Hv Hk Hr. eapply child_nullish_ok; [exact Hr|by eapply field_typed|done]. Qed.

Lemma confirm_ok (emit : ConfirmModal.Event → PageEvent) props typed :
  is_ok (ConfirmModal.render emit props typed) = true.
Proof.
  unfold ConfirmModal.render, ConfirmModal.phrase_view. jsx_ok.
  destruct (ConfirmModal.confirmPhrase props) as [[|c p]|]; reflexivity.
Qed.

(** A figure whose value and subtitle are literals or typed fields. *)
Ltac kpi_step :=
  first [reflexivity
        |eapply field_or_ok; [eassumption|reflexivity|reflexivity]
        |eapply field_or_num_ok; [eassumption|reflexivity|reflexivity]].
Ltac kpi_render :=
  lazymatch goal with
  | |- is_ok (intro _ _) = true => reflexivity
  | |- is_ok (label _) = true => reflexivity
  | |- is_ok (kpi _ _ _) = true => apply kpi_ok; [try kpi_step..|]
  | |- is_ok (kpi_badge _ _ _ _) = true => apply kpi_ok; [try kpi_step..|]
  | |- is_ok (kpi_trend _ _ _ _) = true => apply kpi_ok; [try kpi_step..|]
  end.
Ltac kpis_ok := repeat first [jsx_step|kpi_render].

Lemma bar_ok bar :
  conforms (TObj [req "time"%js TStr; req "txs"%js TNum; req "blocks"%js TNum]) bar = true →
  is_ok (bar_view bar) = true.
Proof. intros Hv. unfold bar_view. jsx_ok. prop_type Hx bar. by eapply child_ok; [|exact Ht]. Qed.

Lemma Dashboard_ok st : opt_typed DashboardData (DashboardPage.data st) → is_ok (DashboardPage st) = true.
Proof.
  intros Hd. unfold DashboardPage. set (data := DashboardPage.data st) in *.
  assert (opt_typed DashboardKpis (field data "kpis"%js)) as Hk by (by eapply field_typed).
  set (kpis := field data "kpis"%js) in *. cbv zeta.
  assert (∃ s, staked kpis = Ok (JStr s)) as [s ->].
  { unfold staked. destruct Hk as [Hk|Hk].
    - assert (truthy kpis = false) as -> by (by destruct kpis). by eexists.
    - rewrite (typed_truthy _ _ Hk). destruct kpis; try done. by eexists. }
  cbn [mbind outcome_bind]. kpis_ok.
  - eapply child_or_ok; [|eapply field_typed; [exact Hd|reflexivity]|]; reflexivity.
  - unfold chart.
    pose proof (field_typed _ data "charts"%js _ _ Hd eq_refl) as Hc.
    destruct (field_typed _ _ "tx_volume_24h"%js _ _ Hc eq_refl) as [->|Hb]; [reflexivity|].
    destruct (is_nullish _); [reflexivity|]. eapply map_over_ok; [exact Hb|]. intros _ x Hx. by apply bar_ok.
  - apply Forall_fmap. by repeat constructor.
Qed.

Lemma BlockchainOverview_ok st :
  opt_typed AnyBlockchainStats (Fetched.data st) → is_ok (BlockchainOverviewPage st) = true.
Proof.
  intros Hd. unfold BlockchainOverviewPage. set (stats := Fetched.data st) in *. cbv zeta.
  assert (∃ v, (if is_nullish (field stats "gas_limit_per_block"%js) then Ok JUndef
                else s ← locale_string (field stats "gas_limit_per_block"%js); Ok (JStr s)) = Ok v
               ∧ opt_typed TStr v) as (v & -> & Hv).
  { edestruct (field_typed _ stats "gas_limit_per_block"%js _ _ Hd eq_refl) as [->|Hg].
    - eexists. split; [done|by left].
    - destruct (field stats _); try done. eexists. split; [done|by right]. }
  cbn [mbind outcome_bind]. kpis_ok.
  - eapply child_or_ok; [|eapply field_typed; [exact Hd|reflexivity]|]; reflexivity.
  - by eapply child_or_ok; [|exact Hv|].
Qed.

Lemma Staking_ok st :
  conforms (TArr ValidatorItem) (Fetched.data st) = true → is_ok (StakingPage st) = true.
Proof.
  intros (l & E & Hl)%typed_array. unfold StakingPage. rewrite E. cbn [totalStaked].
  apply bind_ok; [|intros n _; by kpis_ok]. clear E. generalize (NInt 0).
  induction Hl as [|v l Hv _ IH]; intros n; [done|]. cbn [sum_stake].
  eapply in_sprx_ok; [exact Hv|]. intros m. apply IH.
Qed.

Lemma service_ok svc : conforms SystemService svc = true → is_ok (service_view svc) = true.
Proof.
  intros Hv. unfold service_view, service_metric.
  edestruct (req_prop _ svc "status"%js _ Hv eq_refl) as (s & -> & Hs).
  edestruct (typed_prop _ svc "latency"%js _ _ Hv eq_refl) as (y & -> & Hy).
  edestruct (typed_prop _ svc "lag"%js _ _ Hv eq_refl) as (z & -> & _).
  edestruct (typed_prop _ svc "active_clients"%js _ _ Hv eq_refl) as (n & -> & _).
  cbn [mbind outcome_bind]. apply bind_ok.
  { destruct (truthy y); [done|]. by destruct (negb (is_undef z)). }
  intros m Hm. jsx_ok; [by destruct s|].
  destruct (truthy y); [injection Hm as <-; destruct Hy as [Hy|[_ ->]]; [by eapply child_ok; [|exact Hy]|done]|].
  destruct (negb (is_undef z)); by injection Hm as <-.
Qed.

Lemma flag_ok f : conforms FeatureFlagItem f = true → is_ok (flag_view f) = true.
Proof.
  intros Hv. unfold flag_view. jsx_ok.
  - prop_type Hx f. by eapply child_ok; [|exact Ht].
  - prop_type Hx0 f. by eapply child_or_ok; [|right; exact Ht|].
Qed.

Lemma Indexer_ok st :
  opt_typed IndexerStatus (IndexerMonitorPage.status st) →
  opt_typed TStr (IndexerMonitorPage.retryMessage st) → is_ok (IndexerMonitorPage st) = true.
Proof.
  intros Hs Hm. unfold IndexerMonitorPage. set (status := IndexerMonitorPage.status st) in *. cbv zeta.
  kpis_ok; try (by eapply child_opt_ok; [|exact Hm]).
  - destruct (field_typed _ _ "status"%js _ _ Hs eq_refl) as [Hf|Hf]; unfold js_or;
      destruct (field status "status"%js); try done; by destruct (truthy _).
  - eapply child_or_ok; [|eapply field_typed; [exact Hs|reflexivity]|]; reflexivity.
  - apply confirm_ok.
Qed.

Lemma Perps_page_ok st : opt_typed PerpsData (PerpsRiskPage.data st) → is_ok (PerpsRiskPage st) = true.
Proof.
  intros Hd. unfold PerpsRiskPage. set (data := PerpsRiskPage.data st) in *. cbv zeta. kpis_ok.
  eapply table_ok; [|apply Perps_ok].
  destruct (field_typed _ _ "markets"%js _ _ Hd eq_refl) as [Hf|Hf]; unfold js_or;
    by destruct (field data "markets"%js).
Qed.

Lemma Notifications_page_ok st :
  conforms (TArr SystemAnnouncementItem) (NotificationsPage.announcements st) = true →
  is_ok (NotificationsPage st) = true.
Proof.
  intros Hd. unfold NotificationsPage. cbv zeta. kpis_ok.
  - destruct (NotificationsPage.successMsg st) as [[|c m]|]; reflexivity.
  - by eapply table_ok; [|apply Notifications_ok].
Qed.

Lemma AppVersions_ok st : is_nullish (AppVersionsPage.config st) = false → is_ok (AppVersionsPage st) = true.
Proof.
  intros Hc. unfold AppVersionsPage. cbv zeta. kpis_ok; unfold text_field, checkbox;
    destruct (AppVersionsPage.config st); try done; reflexivity.
Qed.

Lemma Admins_page_ok user st :
  conforms (TArr AnyAdminUser) (SecurityAdminsPage.admins st) = true → is_ok (SecurityAdminsPage user st) = true.
Proof.
  intros Hd. unfold SecurityAdminsPage, create_form. kpis_ok. by eapply table_ok; [|apply Admins_ok].
Qed.

Lemma Markets_page_ok st :
  conforms (TArr MarketAsset) (MarketsPage.assets st) = true →
  conforms (TArr MarketPair) (MarketsPage.pairs st) = true → is_ok (MarketsPage st) = true.
Proof.
  intros Ha Hp. unfold MarketsPage. kpis_ok.
  - apply Forall_fmap. by repeat constructor.
  - by eapply table_ok; [|apply assets_ok].
  - by eapply table_ok; [|apply pairs_ok].
Qed.

(** Every page renders when its data have their types. *)
Lemma page_view_ok user page p : page_ok page p → is_ok (page_view user page p) = true.
Proof.
  destruct page, p; try done; cbn [page_ok page_view];
    try (intros Hd; unfold AppUsersPage, BlocksPage, TransactionsPage, DiscoverPage, ValidatorsPage, AuditLogsPage;
         kpis_ok;
         by eapply table_ok; [|first [apply AppUsers_ok|apply Blocks_ok|apply Transactions_ok
                                     |apply Discover_ok|apply Validators_ok|apply AuditLogs_ok]]).
  - apply Dashboard_ok.
  - apply AppVersions_ok.
  - apply BlockchainOverview_ok.
  - intros [??]. by apply Indexer_ok.
  - intros [??]. by apply Markets_page_ok.
  - apply Staking_ok.
  - apply Perps_page_ok.
  - apply Notifications_page_ok.
  - intros Hd. unfold OperationsPage. kpis_ok. eapply map_over_ok; [exact Hd|]. intros _ x. apply service_ok.
  - apply Admins_page_ok.
  - intros Hd. unfold FeatureFlagsPage. kpis_ok; [|apply confirm_ok].
    eapply map_over_ok; [exact Hd|]. intros _ x. apply flag_ok.
Qed.
End render.
