(* ===== verification/AdminApp.v ===== *)
(** * The admin panel: [apps/admin-panel/src/App.tsx]

    The login form, the navigation of [components/layout], [App] and the panel as a
    running application. *)
From stdpp Require Import gmap.
From S2P Require Import Prelude JsString JsStringFacts JsNumber JsJson Async Formatters View Render.
From S2P Require Import AdminUi AdminState AdminApi AdminPages AdminViews.
Import Admin AdminApi AdminPages.

Module AdminApp.
Section admin.
Context `{AdminEnv} `{Host} `{UnicodeCase} `{DateLocale}.

(** ** The login form *)

(** [handleSubmit] of the instance [id] with the values of its render. *)
Definition handleSubmit (id : nat) (l : Login) : cmd State unit :=
  _ ← write (upd_login id (λ l, set_login_isSubmitting true (set_login_error None l)));
  finally
    (catch (login (login_username l) (login_password l))
       (λ err, write (upd_login id (set_login_error (Some (err_message err))))))
    (upd_login id (set_login_isSubmitting false)).

(** ** Navigation *)

Record NavItem := mkNavItem {
  nav_id : jsstring; nav_label : jsstring; nav_section : jsstring;
  nav_permission : option jsstring; nav_badge : option jsstring;
}.

Definition navItems : list NavItem :=
  [mkNavItem "dashboard"%js "Overview"%js "Core"%js None None;
   mkNavItem "app_users"%js "App Users"%js "App Management"%js (Some "users.read"%js) None;
   mkNavItem "app_versions"%js "App Versions"%js "App Management"%js (Some "users.manage"%js) None;
   mkNavItem "blockchain"%js "Network & Nodes"%js "Blockchain"%js (Some "blockchain.read"%js) None;
   mkNavItem "blocks"%js "Blocks"%js "Blockchain"%js (Some "blockchain.read"%js) None;
   mkNavItem "transactions"%js "Transactions"%js "Blockchain"%js (Some "blockchain.read"%js) None;
   mkNavItem "indexer"%js "Indexer Monitor"%js "Explorer"%js (Some "explorer.read"%js) None;
   mkNavItem "markets"%js "Markets & FX"%js "Ecosystem"%js (Some "markets.read"%js) None;
   mkNavItem "discover"%js "Discover & dApps"%js "Ecosystem"%js (Some "discover.read"%js) None;
   mkNavItem "search_index"%js "Search Health"%js "Ecosystem"%js None None;
   mkNavItem "validators"%js "Validators"%js "Consensus"%js (Some "validators.read"%js) None;
   mkNavItem "staking"%js "Staking Overview"%js "Consensus"%js (Some "staking.read"%js) None;
   mkNavItem "perps_risk"%js "Perps Risk Monitor"%js "Perps"%js (Some "perps.read"%js) (Some "TESTNET"%js);
   mkNavItem "notifications"%js "Announcements"%js "Operations"%js (Some "notifications.read"%js) None;
   mkNavItem "operations"%js "System Operations"%js "Operations"%js (Some "operations.read"%js) None;
   mkNavItem "security_admins"%js "Admin Users & RBAC"%js "Security"%js (Some "admin.manage"%js) None;
   mkNavItem "audit_logs"%js "Audit Trail"%js "Security"%js (Some "admin.read"%js) None;
   mkNavItem "feature_flags"%js "Feature Flags"%js "Settings"%js (Some "feature_flags.read"%js) None].

Inductive Event :=
| SelectTab (id : jsstring)
| ToggleSidebar
| ToggleProfileMenu
| SignOut
| TypeUsername (s : jsstring)
| TypePassword (s : jsstring)
| Submit
| OnPage (e : PageEvent).

Definition visible (user : jsval) (item : NavItem) : outcome bool :=
  match nav_permission item with
  | None | Some [] => Ok true
  | Some perm => hasPermission user perm
  end.

(** [Array.from(new Set(navItems.map((i) => i.section)))] *)
Definition sections : list jsstring :=
  reverse (foldl (λ acc s, if bool_decide (s ∈ acc) then acc else s :: acc) [] (nav_section <$> navItems)).

Fixpoint section_items (user : jsval) (section : jsstring) (l : list NavItem) :
    outcome (list NavItem) :=
  match l with
  | [] => Ok []
  | i :: l' =>
      if bool_decide (nav_section i = section) then
        b ← visible user i;
        rest ← section_items user section l';
        Ok (if b : bool then i :: rest else rest)
      else section_items user section l'
  end.

Definition nav_button (collapsed : bool) (i : NavItem) : view Event :=
  El "button"%js (if collapsed then [("title"%js, nav_label i)] else []) [OnClick (SelectTab (nav_id i))]
    (if collapsed then []
     else [span [Text (nav_label i)]]
          ++ match nav_badge i with Some b => [span [Text b]] | None => [] end).

Fixpoint section_views (user : jsval) (collapsed : bool) (ss : list jsstring) :
    outcome (list (view Event)) :=
  match ss with
  | [] => Ok []
  | s :: ss' =>
      items ← section_items user s navItems;
      rest ← section_views user collapsed ss';
      Ok (match items with
          | [] => rest
          | _ => div ((if collapsed then [] else [div [Text s]]) ++ (nav_button collapsed <$> items)) :: rest
          end)
  end.

Definition Sidebar (st : State) : outcome (view Event) :=
  nav ← section_views (user st) (collapsed st) sections;
  Ok (El "aside"%js [] []
        [div ([div [Text "S"%js]]
              ++ when (negb (collapsed st))
                   (div [div [Text "SPRX "%js; span [Text "ADMIN"%js]]; div [Text "Ecosystem Control"%js]]));
         div nav;
         div (if collapsed st then []
              else [div [div [Text "Environment"%js]; div [Text "SPRAX TESTNET-1"%js]]])]).

(** ** [TopNavbar] *)

(** [user?.username.charAt(0).toUpperCase() || 'A'] *)
Definition initial (user : jsval) : outcome jsstring :=
  if is_nullish user then Ok "A"%js
  else
    match field user "username"%js with
    | JStr s => Ok (match toUpperCase (slice s 0 1) with [] => "A"%js | c => c end)
    | JUndef => type_error "Cannot read properties of undefined (reading 'charAt')"%js
    | JNull => type_error "Cannot read properties of null (reading 'charAt')"%js
    | _ => type_error "user?.username.charAt is not a function"%js
    end.

Definition TopNavbar (st : State) : jsx Event :=
  letter ← initial (user st);
  let username := child (field (user st) "username"%js) in
  let role := child (field (user st) "role"%js) in
  el "header"%js [] [] [
    jdiv [jbutton false ToggleSidebar [];
          jdiv [el "input"%js [("type"%js, "text"%js);
                  ("placeholder"%js, "Search address, tx, block, validator, user..."%js)] [] []]];
    jdiv [jdiv [jspan []; txt "TESTNET"%js]; jdiv [txt "RPC: 127.0.0.1:8545 (Online)"%js];
          el "button"%js [] [] [jspan []];
          jdiv [jbutton false ToggleProfileMenu
                  [jdiv [txt letter]; jdiv [jdiv [username]; jdiv [role]]];
                jwhen (showProfileMenu st)
                  (jdiv [jdiv [jdiv [username]; jdiv [txt "Role: "%js; role]];
                         jdiv [txt "MFA Authenticated"%js];
                         jbutton false SignOut [txt "Sign Out"%js]])]]].

(** ** [LoginPage] *)

Definition LoginPage (l : Login) : view Event :=
  div [div (
    [div [div [Text "S"%js]; heading "h1"%js "SPRX Admin Control"%js;
          p [Text "Centralized operations & monitoring center for Sprax Chain."%js]]]
    ++ match login_error l with
       | Some e => when (negb (bool_decide (e = []))) (div [Text e])
       | None => []
       end
    ++ [El "form"%js [] [OnSubmit Submit]
          [div [El "label"%js [] [] [Text "Username"%js];
                div [input [("type"%js, "text"%js); ("required"%js, []); ("placeholder"%js, "admin"%js)]
                       (login_username l) TypeUsername]];
           div [El "label"%js [] [] [Text "Password"%js];
                div [input [("type"%js, "password"%js); ("required"%js, []);
                            ("placeholder"%js, "••••••••••••"%js)]
                       (login_password l) TypePassword]];
           El "button"%js ([("type"%js, "submit"%js)]
                           ++ disabled_attr (login_isSubmitting l || bool_decide (login_username l = [])
                                             || bool_decide (login_password l = []))) []
             [Text (if login_isSubmitting l then "Authenticating..."%js
                    else "Sign In to Admin Center"%js)]];
        div [div [span [Text "MFA Protected"%js]];
             span [Text "Environment: "%js; El "strong"%js [] [] [Text "TESTNET"%js]]]])].

(** ** [App] *)

Definition tab_pages : list (jsstring * Page) :=
  [("dashboard"%js, DashboardPage); ("app_users"%js, AppUsersPage);
   ("app_versions"%js, AppVersionsPage); ("blockchain"%js, BlockchainOverviewPage);
   ("blocks"%js, BlocksPage); ("transactions"%js, TransactionsPage);
   ("indexer"%js, IndexerMonitorPage); ("markets"%js, MarketsPage); ("discover"%js, DiscoverPage);
   ("search_index"%js, SearchIndexPage); ("validators"%js, ValidatorsPage);
   ("staking"%js, StakingPage); ("perps_risk"%js, PerpsRiskPage);
   ("notifications"%js, NotificationsPage); ("operations"%js, OperationsPage);
   ("security_admins"%js, SecurityAdminsPage); ("audit_logs"%js, AuditLogsPage);
   ("feature_flags"%js, FeatureFlagsPage)].

Definition renderContent (activeTab : jsstring) : Page :=
  match list_find (λ tp, tp.1 = activeTab) tab_pages with
  | Some (_, (_, p)) => p
  | None => DashboardPage
  end.

(** What [App] shows: nothing after a render that threw, a notice, the login form, or
    the shell with a page. *)
Inductive Screen :=
| Blank
| Initializing
| LoginScreen (form : view Event)
| Shell (sidebar : view Event) (navbar : list (view Event)) (page : Page) (content : list (view PageEvent)).

Definition App (st : State) : outcome Screen :=
  if crashed st then Ok Blank
  else if isLoading st then Ok Initializing
  else if negb (isAuthenticated st) then
    Ok (match login_form st with Some (_, l) => LoginScreen (LoginPage l) | None => Initializing end)
  else
    side ← Sidebar st;
    nav ← TopNavbar st;
    match page st with
    | Some (i, p) => content ← AdminViews.page_view (user st) i.1 p; Ok (Shell side nav i.1 content)
    | None => Ok (Shell side nav (renderContent (activeTab st)) [])
    end.

Definition offers (s : outcome Screen) (e : Event) : Prop :=
  match s with
  | Ok (LoginScreen form) => fires form e
  | Ok (Shell side nav _ content) =>
      fires side e ∨ Exists (λ v, fires v e) nav
      ∨ ∃ pe, e = OnPage pe ∧ Exists (λ v, fires v pe) content
  | _ => False
  end.

(** ** Events *)

Definition table_event (e : DataTable.Event) (p : PageState) : PageState :=
  match p with
  | OfListing st => OfListing (Listing.set_table (DataTable.handle e (Listing.table st)) st)
  | OfMarkets st => OfMarkets (MarketsPage.set_assetTable (DataTable.handle e (MarketsPage.assetTable st)) st)
  | OfPerps st => OfPerps (PerpsRiskPage.set_table (DataTable.handle e (PerpsRiskPage.table st)) st)
  | OfNotifications st =>
      OfNotifications (NotificationsPage.set_table (DataTable.handle e (NotificationsPage.table st)) st)
  | OfAdmins st => OfAdmins (SecurityAdminsPage.set_table (DataTable.handle e (SecurityAdminsPage.table st)) st)
  | p => p
  end.

(** The clicks of the dialogs; [typedValue] is set to what [ConfirmModal] sets it to. *)
Definition retry_event (i : instance) (st : IndexerMonitorPage.State) (e : ConfirmModal.Event) : cmd State unit :=
  let '(typed, confirmed) :=
    ConfirmModal.handle (AdminViews.retry_props st) e (IndexerMonitorPage.typedValue st) in
  _ ← write (upd_page i (on_indexer (λ m,
        match e with
        | ConfirmModal.Cancel => IndexerMonitorPage.set_showRetryModal false m
        | _ => IndexerMonitorPage.set_typedValue typed m
        end)));
  if confirmed : bool then handleRetrySync i else Ret tt.

Definition flag_event (i : instance) (st : FeatureFlagsPage.State) (e : ConfirmModal.Event) : cmd State unit :=
  let '(typed, confirmed) :=
    ConfirmModal.handle (AdminViews.flag_props (FeatureFlagsPage.pendingFlag st)) e
      (FeatureFlagsPage.typedValue st) in
  _ ← write (upd_page i (on_flags (λ f,
        match e with
        | ConfirmModal.Cancel => FeatureFlagsPage.set_pendingFlag None f
        | _ => FeatureFlagsPage.set_typedValue typed f
        end)));
  if confirmed : bool then handleConfirmToggle i (FeatureFlagsPage.pendingFlag st) else Ret tt.

Definition handle_page (i : instance) (p : PageState) (e : PageEvent) : cmd State unit :=
  match e, p with
  | OnTable t, _ => write (upd_page i (table_event t))
  | OnPairTable t, _ =>
      write (upd_page i (on_markets (λ m,
        MarketsPage.set_pairTable (DataTable.handle t (MarketsPage.pairTable m)) m)))
  | Refresh, _ => effect i
  | SetConfig k x, OfAppVersions st =>
      write (upd_page i (on_versions
        (AppVersionsPage.set_config (spread_with (AppVersionsPage.config st) k x))))
  | SaveVersions, OfAppVersions st => handleSave i (AppVersionsPage.config st)
  | OpenRetry, _ => write (upd_page i (on_indexer (IndexerMonitorPage.set_showRetryModal true)))
  | OnRetryModal e, OfIndexer st => retry_event i st e
  | ToggleProject pid field v, _ => handleToggle i pid field v
  | SetTitle s, _ => write (upd_page i (on_notifications (NotificationsPage.set_title s)))
  | SetBody s, _ => write (upd_page i (on_notifications (NotificationsPage.set_body s)))
  | SetType s, _ => write (upd_page i (on_notifications (NotificationsPage.set_type s)))
  | Broadcast, OfNotifications st =>
      handleBroadcast i (NotificationsPage.title st) (NotificationsPage.body st) (NotificationsPage.type st)
  | OpenCreate, _ => write (upd_page i (on_admins (SecurityAdminsPage.set_showCreateModal true)))
  | CloseCreate, _ => write (upd_page i (on_admins (SecurityAdminsPage.set_showCreateModal false)))
  | SetNewUsername s, _ => write (upd_page i (on_admins (SecurityAdminsPage.set_newUsername s)))
  | SetNewPassword s, _ => write (upd_page i (on_admins (SecurityAdminsPage.set_newPassword s)))
  | SetNewRole s, _ => write (upd_page i (on_admins (SecurityAdminsPage.set_newRole s)))
  | CreateAdmin, OfAdmins st =>
      handleCreate i (SecurityAdminsPage.newUsername st) (SecurityAdminsPage.newPassword st)
        (SecurityAdminsPage.newRole st)
  | ToggleFlag name current, _ =>
      write (upd_page i (on_flags (FeatureFlagsPage.set_pendingFlag (Some (name, negb (truthy current))))))
  | OnFlagModal e, OfFlags st => flag_event i st e
  | _, _ => Ret tt
  end.

Definition handle (e : Event) (st : State) : cmd State unit :=
  match e with
  | SelectTab id => write (set_activeTab id)
  | ToggleSidebar => write (set_collapsed (negb (collapsed st)))
  | ToggleProfileMenu => write (set_showProfileMenu (negb (showProfileMenu st)))
  | SignOut => write (λ st, logout (set_showProfileMenu false st))
  | TypeUsername s =>
      match login_form st with
      | Some (id, _) => write (upd_login id (set_login_username s))
      | None => Ret tt
      end
  | TypePassword s =>
      match login_form st with
      | Some (id, _) => write (upd_login id (set_login_password s))
      | None => Ret tt
      end
  | Submit => match login_form st with Some (id, l) => handleSubmit id l | None => Ret tt end
  | OnPage e => match page st with Some (i, p) => handle_page i p e | None => Ret tt end
  end.

(** ** The running application *)

Definition new_login : Login := mkLogin [] [] None false.

(** Mount what the state calls for, unmount the rest; a page that is mounted starts
    its effect. *)
Definition commit (w : world State) : world State :=
  let st := state w in
  if crashed st then w
  else if isLoading st || negb (isAuthenticated st) then
    let st := set_collapsed false (set_showProfileMenu false (set_page None st)) in
    let st :=
      if isLoading st then set_login_form None st
      else match login_form st with
           | Some _ => st
           | None => set_nextId (S (nextId st)) (set_login_form (Some (nextId st, new_login)) st)
           end in
    mkWorld st (tasks w)
  else
    let st := set_login_form None st in
    let pg := renderContent (activeTab st) in
    if match page st with Some (j, _) => bool_decide (j.1 = pg) | None => false end
    then mkWorld st (tasks w)
    else
      let i := (pg, nextId st) in
      start (effect i)
        (mkWorld (set_nextId (S (nextId st)) (set_page (Some (i, new_page pg (clock st))) st)) (tasks w)).

(** A render that throws unmounts the application. *)
Definition guard (w : world State) : world State :=
  match App (state w) with
  | Ok _ => w
  | Throw _ => mkWorld (set_crashed true (set_page None (set_login_form None (state w)))) (tasks w)
  end.

(** Start what the handler started, then commit. *)
Definition settle (w : world State) : world State :=
  guard (commit (foldl (λ w j, start (job j) w)
                   (mkWorld (set_queue [] (state w)) (tasks w)) (queue (state w)))).

Definition mounted (s : Storage) (now : Z) : world State :=
  settle (start checkAuth (mkWorld (init s now) [])).

(** The servers' responses satisfy [T]. *)
Inductive step (T : fetch_request → outcome response → Prop) : world State → world State → Prop :=
| Step_event e w : offers (App (state w)) e → step T w (settle (start (handle e (state w)) w))
| Step_interval i p w :
    page (state w) = Some (i, p) → has_interval i.1 = true → step T w (settle (start (effect i) w))
| Step_response i rq k r w :
    tasks w !! i = Some (Awaiting rq k) → T rq r →
    step T w (settle (start (k r) (mkWorld (state w) (remove_at i (tasks w)))))
| Step_yield i k w :
    tasks w !! i = Some (Yielded k) →
    step T w (settle (start k (mkWorld (state w) (remove_at i (tasks w)))))
| Step_tick t w : (clock (state w) ≤ t)%Z → step T w (mkWorld (set_clock t (state w)) (tasks w)).
End admin.
End AdminApp.
