(* ===== verification/AdminTyped.v ===== *)
(** * The admin panel never crashes on well-typed answers

    When every successful answer carries what the client's methods are declared to
    return, no render of the panel throws, whatever the user does and in whatever order
    the answers arrive. *)
From stdpp Require Import gmap.
From S2P Require Import Prelude JsString JsStringFacts JsNumber JsJson Async Formatters View Render Types RenderTyped.
From S2P Require Import AdminTypes AdminUi AdminState AdminApi AdminPages AdminViews AdminRender AdminApp.
Import AdminTypes Admin AdminApi AdminPages AdminApp.

(** ** The contract of the server *)

(** The requests whose answers are shown, with the declared types of their results: an
    environment or a role may be any string, and the explorer's endpoints may answer
    with a bare list, as the backend does. *)
Definition api_types : list (jsstring * jsstring * ty) :=
  [("GET"%js, "/admin/me"%js, AnyAdminProfile);
   ("GET"%js, "/admin/dashboard"%js, DashboardData);
   ("GET"%js, "/admin/system/health"%js, HealthData);
   ("GET"%js, "/admin/app/users?limit=50&offset=0"%js, AppUsersData);
   ("GET"%js, "/admin/app/versions"%js, AppVersionConfig);
   ("GET"%js, "/admin/blockchain/stats"%js, AnyBlockchainStats);
   ("GET"%js, "/explorer/blocks?limit=50"%js, TOr BlocksData (TArr TAny));
   ("GET"%js, "/explorer/transactions?limit=50"%js, TOr TransactionsData (TArr TAny));
   ("GET"%js, "/admin/indexer/status"%js, IndexerStatus);
   ("POST"%js, "/admin/indexer/retry"%js, RetryData);
   ("GET"%js, "/admin/markets"%js, MarketsData);
   ("GET"%js, "/admin/discover"%js, TArr DiscoverProject);
   ("GET"%js, "/admin/validators"%js, TArr ValidatorItem);
   ("GET"%js, "/admin/perps/status"%js, PerpsData);
   ("GET"%js, "/admin/notifications"%js, TArr SystemAnnouncementItem);
   ("GET"%js, "/admin/feature-flags"%js, TArr FeatureFlagItem);
   ("GET"%js, "/admin/audit-logs?limit=100"%js, AuditLogsData);
   ("GET"%js, "/admin/admins"%js, TArr AnyAdminUser)].

(** What [request] returns of a body. *)
Definition payload (v : jsval) : jsval :=
  if is_undef (field v "data"%js) then v else field v "data"%js.

Section typed.
Context `{AdminEnv} `{Host} `{UnicodeCase} `{DateLocale}.

(** A successful answer holds a value of the declared type; failures are free. *)
Definition declared (rq : fetch_request) (r : outcome response) : Prop :=
  ∀ resp v m p t,
    r = Ok resp → rs_ok resp = true → rs_json resp = Ok v → (m, p, t) ∈ api_types →
    rq_method rq = m → rq_url rq = API_BASE ++ p → conforms t (payload v) = true.

Definition panel_ok (st : State) : Prop :=
  opt_typed AnyAdminProfile (user st)
  ∧ match page st with Some (i, p) => page_ok i.1 p | None => True end
  ∧ crashed st = false.

(** ** Writes *)

Lemma upd_page_ok i f st :
  (∀ p, page_ok i.1 p → page_ok i.1 (f p)) → panel_ok st → panel_ok (upd_page i f st).
Proof.
  intros Hf (Hu & Hp & Hc). split_and!; [done| |done]. cbn. destruct (page st) as [[j p]|]; [|done].
  case_bool_decide; subst; auto.
Qed.

Lemma set_user_ok v st : opt_typed AnyAdminProfile v → panel_ok st → panel_ok (set_user v st).
Proof. by intros Hv (_ & Hp & Hc). Qed.

(** ** The client *)

Lemma request_ensures m p body (Q : jsval → Prop) :
  (∀ rq r resp v, declared rq r → rq_method rq = m → rq_url rq = API_BASE ++ p → r = Ok resp →
     rs_ok resp = true → rs_json resp = Ok v → Q (payload v)) →
  ensures declared panel_ok Q (request m p body).
Proof.
  intros HQ. unfold request. cbn. intros st _ r Hr. destruct r as [resp|]; [|done].
  cbn. destruct (rs_status resp =? 401)%Z; [split; [intros s Hs; exact Hs|done]|].
  cbn. destruct (rs_json resp) as [v|] eqn:Ev; [|done]. cbn.
  destruct (rs_ok resp) eqn:Eo; cbn.
  - specialize (HQ _ _ resp v Hr eq_refl eq_refl eq_refl Eo Ev). unfold payload, field, get_prop_opt in HQ.
    destruct (is_nullish v) eqn:En; [by destruct v|]. destruct (get_prop v "data"%js) as [d|]; [|done].
    cbn. by destruct (is_undef d).
  - by repeat (first [apply ensures_lift; intros ? ?|done]).
Qed.

Lemma request_typed m p body t :
  (m, p, t) ∈ api_types → ensures declared panel_ok (λ v, conforms t v = true) (request m p body).
Proof. intros Ht. apply request_ensures. intros rq r resp v Hr Hm Hu -> Ho Hv. by eapply Hr. Qed.

Lemma request_any m p body : preserves declared panel_ok (request m p body).
Proof. by apply request_ensures. Qed.

(** ** The session *)

Lemma user_write f : (∀ st, panel_ok st → panel_ok (f st)) → preserves declared panel_ok (write f).
Proof. apply preserves_write. Qed.

Lemma checkAuth_typed : preserves declared panel_ok checkAuth.
Proof.
  unfold checkAuth. apply preserves_bind; [done|]. intros st.
  assert (preserves declared panel_ok
            (write (λ st, Admin.set_isLoading false (set_user JNull st)))) as Hn.
  { apply user_write. intros s Hs. by apply (set_user_ok JNull); [left|]. }
  destruct (getToken st) as [[|c t]|]; [exact Hn| |exact Hn].
  apply preserves_finally; [|intros s Hs; exact Hs].
  apply preserves_catch; [|intros e; apply user_write; intros s; apply set_user_ok; by left].
  eapply ensures_bind; [eapply request_typed; by left|]. intros profile Hp.
  apply user_write. intros s. apply set_user_ok. by right.
Qed.

Lemma api_login_typed u p : preserves declared panel_ok (api_login u p).
Proof.
  unfold api_login. cbn. intros r _. destruct r as [res|]; [|done]. cbn.
  destruct (rs_json res) as [v|]; [|done]. cbn. destruct (rs_ok res); cbn.
  - repeat first [apply preserves_lift; intros ? ?|split; [intros s Hs; exact Hs|]|done].
  - by apply preserves_lift.
Qed.

Lemma handleSubmit_typed id l : preserves declared panel_ok (handleSubmit id l).
Proof.
  unfold handleSubmit. apply preserves_bind; [by apply user_write|]. intros _.
  apply preserves_finally; [|done]. apply preserves_catch; [|intros e; by apply user_write].
  apply preserves_bind; [apply api_login_typed|]. intros _. apply checkAuth_typed.
Qed.

(** ** Fetches *)

Lemma logged_typed c : preserves declared panel_ok c → preserves declared panel_ok (logged c).
Proof. intros Hc. by apply preserves_catch. Qed.

Lemma alerted_typed c : preserves declared panel_ok c → preserves declared panel_ok (alerted c).
Proof. intros Hc. apply preserves_catch; [done|]. intros e. by apply user_write. Qed.

Lemma set_loading_ok i b st : panel_ok st → panel_ok (set_loading i b st).
Proof. apply upd_page_ok. intros p. by destruct (i.1), p. Qed.

Lemma settled_typed i c : preserves declared panel_ok c → preserves declared panel_ok (settled i c).
Proof. intros Hc. apply preserves_finally; [by apply logged_typed|]. apply set_loading_ok. Qed.

Lemma loading_typed i c : preserves declared panel_ok c → preserves declared panel_ok (loading i c).
Proof.
  intros Hc. apply preserves_bind; [apply user_write, set_loading_ok|]. intros _. by apply settled_typed.
Qed.

(** A write of a typed value into the page. *)
Lemma page_write i f :
  (∀ p, page_ok i.1 p → page_ok i.1 (f p)) → preserves declared panel_ok (write (upd_page i f)).
Proof. intros Hf. apply user_write. intros st. by apply upd_page_ok. Qed.

(** The result of a request, with its declared type. *)
Ltac typed_result :=
  eapply ensures_bind; [eapply request_typed; by repeat constructor|];
  let v := fresh "v" in let Hv := fresh "Hv" in intros v Hv; cbv beta in Hv.
Ltac typed_field Hv k :=
  let x := fresh "x" in let Hx := fresh "Hx" in let Ht := fresh "Ht" in
  destruct (req_prop _ _ k _ Hv eq_refl) as (x & Hx & Ht); rewrite Hx; clear Hx;
  apply preserves_lift; intros ? [= <-].
Ltac into_page := apply page_write; let q := fresh "q" in intros q; destruct q; try done.

Lemma effect_typed i : preserves declared panel_ok (effect i).
Proof.
  destruct i as [pg n]. destruct pg; cbn [effect fst];
    try (apply loading_typed); try (apply settled_typed); try (apply logged_typed).
  - typed_result. apply user_write. intros st. apply upd_page_ok. intros p; destruct p; try done. by right.
  - typed_result. typed_field Hv "users"%js. by into_page.
  - typed_result. into_page. by destruct v.
  - typed_result. into_page. by right.
  - apply (ensures_bind _ _ (λ v, conforms (TArr BlockItem) v = true)); [|intros v Hv; into_page].
    typed_result. apply orb_true_iff in Hv as [Hv|Hv]; [|by destruct v].
    destruct (req_prop _ _ "blocks"%js _ Hv eq_refl) as (x & -> & Ht). by destruct x.
  - apply (ensures_bind _ _ (λ v, conforms (TArr TransactionItem) v = true)); [|intros v Hv; into_page].
    typed_result. apply orb_true_iff in Hv as [Hv|Hv]; [|by destruct v].
    destruct (req_prop _ _ "transactions"%js _ Hv eq_refl) as (x & -> & Ht). by destruct x.
  - typed_result. into_page. intros [_ Hm]. split; [by right|done].
  - typed_result. typed_field Hv "assets"%js.
    apply preserves_bind; [into_page; by intros [_ ?]|]. intros _. typed_field Hv "pairs"%js.
    apply preserves_bind; [into_page; by intros [? _]|]. intros _. typed_field Hv "providers"%js.
    by into_page.
  - typed_result. by into_page.
  - done.
  - typed_result. by into_page.
  - typed_result. by into_page.
  - typed_result. into_page. by right.
  - typed_result. by into_page.
  - typed_result. typed_field Hv "services"%js. by into_page.
  - typed_result. by into_page.
  - typed_result. typed_field Hv "logs"%js. by into_page.
  - typed_result. by into_page.
Qed.

(** ** Handlers *)

Lemma handleSave_typed i config : preserves declared panel_ok (handleSave i config).
Proof.
  unfold handleSave. apply preserves_bind; [into_page; by destruct i as [[] n]|]. intros _.
  apply preserves_finally; [|intros st; apply upd_page_ok; destruct i as [[] n], p; done].
  apply alerted_typed, preserves_bind; [apply request_any|]. intros _. apply user_write. intros st Hs.
  change (panel_ok (upd_page i (on_versions (AppVersionsPage.set_saveSuccess true)) st)).
  revert Hs. apply upd_page_ok. by destruct i as [[] n], p.
Qed.

Lemma handleRetrySync_typed i : preserves declared panel_ok (handleRetrySync i).
Proof.
  apply alerted_typed. typed_result. typed_field Hv "message"%js. apply user_write. intros st.
  apply (upd_page_ok i (on_indexer (λ m, IndexerMonitorPage.set_showRetryModal false
                                           (IndexerMonitorPage.set_retryMessage x m)))).
  destruct i as [[] n], p; try done. intros [Hs _]. split; [done|by right].
Qed.

Lemma handleToggle_typed i id k v : preserves declared panel_ok (handleToggle i id k v).
Proof. apply alerted_typed, preserves_bind; [apply request_any|]. intros _. by apply user_write. Qed.

Lemma handleBroadcast_typed i title body type : preserves declared panel_ok (handleBroadcast i title body type).
Proof.
  unfold handleBroadcast. destruct (_ || _); [done|].
  apply preserves_bind; [into_page; by destruct i as [[] n]|]. intros _.
  apply preserves_finally; [|intros st; apply upd_page_ok; destruct i as [[] n], p; done].
  apply alerted_typed, preserves_bind; [apply request_any|]. intros _. apply user_write. intros st.
  apply (upd_page_ok i (on_notifications (λ n, NotificationsPage.set_successMsg (Some broadcast_done)
           (NotificationsPage.set_body [] (NotificationsPage.set_title [] n))))).
  by destruct i as [[] n], p.
Qed.

Lemma handleCreate_typed i u p r : preserves declared panel_ok (handleCreate i u p r).
Proof.
  apply alerted_typed, preserves_bind; [apply request_any|]. intros _. apply user_write. intros st.
  apply (upd_page_ok i (on_admins (λ a, SecurityAdminsPage.set_newPassword []
           (SecurityAdminsPage.set_newUsername [] (SecurityAdminsPage.set_showCreateModal false a))))).
  by destruct i as [[] n], p0.
Qed.

Lemma pending_ok i v st : panel_ok st → panel_ok (upd_page i (on_flags (FeatureFlagsPage.set_pendingFlag v)) st).
Proof. apply upd_page_ok. by destruct i as [[] n], p. Qed.

Lemma handleConfirmToggle_typed i pending : preserves declared panel_ok (handleConfirmToggle i pending).
Proof.
  destruct pending as [[name target]|]; [|done]. apply preserves_catch.
  - apply preserves_bind; [apply request_any|]. intros _. apply user_write. intros st. apply pending_ok.
  - intros e. apply user_write. intros st Hs. by apply pending_ok.
Qed.

Lemma handle_page_typed i p e : preserves declared panel_ok (handle_page i p e).
Proof.
  destruct i as [pg n].
  destruct e; cbn [handle_page]; try (into_page; by destruct pg);
    try apply effect_typed; try apply handleToggle_typed; destruct p; try done.
  - into_page. by destruct pg.
  - apply handleSave_typed.
  - unfold retry_event. destruct (ConfirmModal.handle _ _ _) as [typed confirmed].
    apply preserves_bind; [into_page; by destruct pg, e|]. intros _.
    destruct confirmed; [apply handleRetrySync_typed|done].
  - apply handleBroadcast_typed.
  - apply handleCreate_typed.
  - unfold flag_event. destruct (ConfirmModal.handle _ _ _) as [typed confirmed].
    apply preserves_bind; [into_page; by destruct pg, e|]. intros _.
    destruct confirmed; [apply handleConfirmToggle_typed|done].
Qed.

Lemma handle_typed e st : preserves declared panel_ok (handle e st).
Proof.
  destruct e; cbn [handle]; try (by apply user_write).
  - apply user_write. intros s (Hu & Hp & Hc). split_and!; [by left|done..].
  - destruct (login_form st) as [[id l]|]; [by apply user_write|done].
  - destruct (login_form st) as [[id l]|]; [by apply user_write|done].
  - destruct (login_form st) as [[id l]|]; [apply handleSubmit_typed|done].
  - destruct (page st) as [[i p]|]; [apply handle_page_typed|done].
Qed.

Lemma job_typed j : preserves declared panel_ok (job j).
Proof.
  destruct j as [|i|i]; [apply checkAuth_typed|apply effect_typed|].
  apply (page_write i). intros p. destruct i as [[] n], p; try done. intros [Hs _]. split; [done|by left].
Qed.

(** ** What is shown *)

Lemma perms_include_ok perms x : conforms (TArr TStr) perms = true → is_ok (perms_include perms x) = true.
Proof. by destruct perms. Qed.

Lemma hasPermission_ok u perm : opt_typed AnyAdminProfile u → is_ok (hasPermission u perm) = true.
Proof.
  intros [Hu|Hu]; unfold hasPermission; [by destruct u|]. rewrite (typed_truthy _ _ Hu). cbn [negb].
  destruct (req_prop _ _ "role"%js _ Hu eq_refl) as (role & -> & _).
  destruct (req_prop _ _ "permissions"%js _ Hu eq_refl) as (perms & -> & Hp).
  cbn [mbind outcome_bind]. destruct (strict_eq role _); [done|].
  apply bind_ok; [by apply perms_include_ok|]. intros [] _; [done|].
  apply bind_ok; [by apply perms_include_ok|]. intros [] _; [done|]. by apply perms_include_ok.
Qed.

Lemma visible_ok u item : opt_typed AnyAdminProfile u → is_ok (visible u item) = true.
Proof.
  intros Hu. unfold visible. destruct (nav_permission item) as [[|c p]|]; [done| |done].
  by apply hasPermission_ok.
Qed.

Lemma section_items_ok u s l : opt_typed AnyAdminProfile u → is_ok (section_items u s l) = true.
Proof.
  intros Hu. induction l as [|i l IH]; [done|]. cbn [section_items]. destruct (bool_decide _); [|done].
  apply bind_ok; [by apply visible_ok|]. intros b _. by apply bind_ok.
Qed.

Lemma Sidebar_ok st : opt_typed AnyAdminProfile (user st) → is_ok (Sidebar st) = true.
Proof.
  intros Hu. unfold Sidebar. apply bind_ok; [|done]. induction sections as [|s ss IH]; [done|].
  cbn [section_views]. apply bind_ok; [by apply section_items_ok|]. intros items _. by apply bind_ok.
Qed.

Lemma TopNavbar_ok st : opt_typed AnyAdminProfile (user st) → is_ok (TopNavbar st) = true.
Proof.
  intros Hu. unfold TopNavbar.
  assert (∀ k o t, field_ty [req "id"%js TStr; req "username"%js TStr; req "role"%js TStr;
            req "permissions"%js (TArr TStr); req "environment"%js TStr] k = Some (o, t) →
          renderable t = true → is_ok (child (E := Event) (field (user st) k)) = true) as Hf.
  { intros k o t Hk Ht. by eapply child_opt_ok; [|eapply field_typed]. }
  apply bind_ok.
  - unfold initial. destruct Hu as [->|Hu]; [done|]. rewrite (typed_not_nullish _ _ Hu).
    destruct (req_prop _ _ "username"%js _ Hu eq_refl) as (x & Hx & Ht). unfold field, get_prop_opt.
    rewrite (typed_not_nullish _ _ Hu), Hx. by destruct x.
  - intros letter _. cbv zeta. jsx_ok; first [by eapply (Hf "username"%js)|by eapply (Hf "role"%js)].
Qed.

Lemma App_ok st : panel_ok st → is_ok (App st) = true.
Proof.
  intros (Hu & Hp & Hc). unfold App. rewrite Hc. destruct (Admin.isLoading st); [done|].
  destruct (negb _); [done|]. apply bind_ok; [by apply Sidebar_ok|]. intros side _.
  apply bind_ok; [by apply TopNavbar_ok|]. intros nav _. destruct (page st) as [[i p]|]; [|done].
  apply bind_ok; [by apply page_view_ok|done].
Qed.

Lemma App_not_blank st : crashed st = false → App st ≠ Ok Blank.
Proof.
  intros Hc. unfold App. rewrite Hc. destruct (Admin.isLoading st); [discriminate|].
  destruct (negb _); [destruct (login_form st) as [[id l]|]; discriminate|].
  destruct (Sidebar st) as [side|]; [|discriminate]. cbn [mbind outcome_bind].
  destruct (TopNavbar st) as [nav|]; [|discriminate]. cbn [mbind outcome_bind].
  destruct (page st) as [[i p]|]; [|discriminate].
  destruct (AdminViews.page_view _ _ _); discriminate.
Qed.

(** ** Steps *)

Lemma new_page_ok pg now : page_ok pg (new_page pg now).
Proof. destruct pg; try done; try (by left); split; by left. Qed.

Abbreviation keeps := (world_keeps declared panel_ok).

Lemma commit_keeps w : keeps w → keeps (commit w).
Proof.
  intros Hw. pose proof Hw as [(Hu & Hp & Hc) Ht]. unfold commit. rewrite Hc.
  destruct (_ || _).
  - split; [|done]. cbn. destruct (Admin.isLoading (state w)); [done|]. by destruct (login_form (state w)).
  - cbv zeta. cbn [page set_login_form].
    destruct (match page (state w) with Some _ => _ | None => _ end); [done|].
    apply start_keeps; [apply effect_typed|]. split; [|done]. split_and!; [done| |done]. apply new_page_ok.
Qed.

Lemma settle_keeps w : keeps w → keeps (settle w).
Proof.
  intros Hw. unfold settle, guard.
  assert (keeps (foldl (λ w j, start (job j) w) (mkWorld (set_queue [] (state w)) (tasks w))
                   (queue (state w)))) as Hj.
  { generalize (queue (state w)) as q. assert (keeps (mkWorld (set_queue [] (state w)) (tasks w))) as Hw0 by done.
    revert Hw0. generalize (mkWorld (set_queue [] (state w)) (tasks w)). intros w0 Hw0 q. revert w0 Hw0.
    induction q as [|j q IH]; intros w0 Hw0; [done|]. apply IH. by apply start_keeps; [apply job_typed|]. }
  apply commit_keeps in Hj. pose proof (App_ok _ (proj1 Hj)) as Ha. by destruct (App _).
Qed.

Lemma step_keeps w w' : step declared w w' → keeps w → keeps w'.
Proof.
  destruct 1 as [e w _|i p w _ _|i rq k r w Hi Hr|i k w Hi|t w _]; intros Hw; try apply settle_keeps.
  - by apply start_keeps; [apply handle_typed|].
  - by apply start_keeps; [apply effect_typed|].
  - by eapply respond_keeps.
  - by apply resume_keeps.
  - exact Hw.
Qed.

Lemma mounted_keeps s now : keeps (mounted s now).
Proof.
  apply settle_keeps, start_keeps; [apply checkAuth_typed|]. split; [|constructor].
  split_and!; [by left|done..].
Qed.

(** C7. When every successful answer has the type the client declares for it, no render
    of the panel throws: in every state the panel reaches, whatever the user does and
    in whatever order answers, failures, intervals and timers come, it shows a screen. *)
Theorem panel_never_crashes (s : Storage) (now : Z) (w : world State) :
  rtc (step declared) (mounted s now) w →
  ∃ screen, App (state w) = Ok screen ∧ screen ≠ Blank.
Proof.
  intros Hr. assert (keeps w) as Hw.
  { pose proof (mounted_keeps s now) as Hm. revert Hr Hm. generalize (mounted s now). intros w0.
    induction 1 as [|w1 w2 w3 H12 _ IH]; [done|]. intros Hw. by eapply IH, step_keeps. }
  destruct Hw as [Hp _]. pose proof (App_ok _ Hp) as Ha. destruct (App (state w)) as [screen|] eqn:E; [|done].
  exists screen. split; [done|]. intros Eb. subst screen. destruct Hp as (_ & _ & Hc). exact (App_not_blank _ Hc E).
Qed.
End typed.
