(* ===== verification/AdminFacts.v ===== *)
(** * Facts about the admin panel

    Permissions, and the menu they give. *)
From stdpp Require Import gmap.
From S2P Require Import Prelude JsString JsStringFacts JsNumber JsJson Async Formatters View Render.
From S2P Require Import AdminUi AdminState AdminApi AdminPages AdminViews AdminApp.
Import Admin AdminApi AdminPages AdminApp.

(** ** Permissions *)

(** A profile with a role and a list of permissions. *)
Definition profile (username role : jsstring) (permissions : list jsstring) : jsval :=
  JObj [("id"%js, JStr "1"%js); ("username"%js, JStr username); ("role"%js, JStr role);
        ("permissions"%js, JArr (JStr <$> permissions)); ("environment"%js, JStr "TESTNET"%js)].

Definition holds (permissions : list jsstring) (x : jsstring) : bool :=
  existsb (λ y, bool_decide (y = x)) permissions.

Lemma holds_spec permissions x : holds permissions x = true ↔ x ∈ permissions.
Proof.
  unfold holds. rewrite existsb_exists. setoid_rewrite bool_decide_eq_true.
  setoid_rewrite <- list_elem_of_In. naive_solver.
Qed.

Lemma perms_include_strings (l : list jsstring) x :
  perms_include (JArr (JStr <$> l)) x = Ok (holds l x).
Proof.
  unfold perms_include, holds. f_equal. induction l as [|y l IH]; [done|].
  rewrite fmap_cons. cbn [existsb strict_eq]. by rewrite IH.
Qed.


(** ** The menu *)

Lemma fires_nav_button collapsed i e :
  fires (nav_button collapsed i) e ↔ e = SelectTab (nav_id i).
Proof.
  unfold nav_button. rewrite fires_El. split.
  - intros [Hf|Hf].
    + apply Exists_cons in Hf as [Hf|Hf]; [|by apply Exists_nil in Hf].
      destruct collapsed; cbn in Hf; by apply Exists_cons in Hf as [?|?%Exists_nil].
    + destruct collapsed; [by apply Exists_nil in Hf|]. destruct (nav_badge i); fires_inv Hf.
  - intros ->. left. apply Exists_cons. left. destruct collapsed; cbn; by constructor.
Qed.

Lemma section_items_spec u s l items :
  section_items u s l = Ok items →
  ∀ i, i ∈ items ↔ i ∈ l ∧ nav_section i = s ∧ visible u i = Ok true.
Proof.
  revert items. induction l as [|x l IH]; simpl; intros items E i.
  { injection E as <-. set_solver. }
  destruct (bool_decide (nav_section x = s)) eqn:Es.
  - apply bool_decide_eq_true in Es. destruct (visible u x) as [b|] eqn:Ev; [|done].
    simpl in E. destruct (section_items u s l) as [rest|]; [|done].
    injection E as <-. specialize (IH _ eq_refl i). rewrite elem_of_cons.
    destruct b; [rewrite elem_of_cons|]; rewrite IH; split.
    + intros [->|(? & ? & ?)]; auto.
    + intros ([->|?] & ? & ?); auto.
    + intros (? & ? & ?); auto.
    + intros ([->|?] & ? & ?); [congruence|auto].
  - apply bool_decide_eq_false in Es. rewrite (IH _ E), elem_of_cons. split.
    + intros (? & ? & ?); auto.
    + intros ([->|?] & ? & ?); [done|auto].
Qed.

Lemma section_views_spec u c ss vs :
  section_views u c ss = Ok vs →
  ∀ e, Exists (λ v, fires v e) vs
       ↔ ∃ i, i ∈ navItems ∧ nav_section i ∈ ss ∧ visible u i = Ok true ∧ e = SelectTab (nav_id i).
Proof.
  revert vs. induction ss as [|s ss IH]; intros vs E e; cbn [section_views] in E.
  { injection E as <-. rewrite Exists_nil. split; [done|]. by intros (i & _ & ?%elem_of_nil & _). }
  destruct (section_items u s navItems) as [items|] eqn:Ei; [|done]. simpl in E.
  destruct (section_views u c ss) as [rest|]; [|done]. injection E as E. subst vs.
  pose proof (section_items_spec _ _ _ _ Ei) as Hi. specialize (IH _ eq_refl e).
  assert (Exists (λ v, fires v e) (nav_button c <$> items)
          ↔ ∃ i, i ∈ items ∧ e = SelectTab (nav_id i)) as Hb.
  { rewrite Exists_fmap, Exists_exists. by setoid_rewrite fires_nav_button. }
  destruct items as [|i0 items0].
  - rewrite IH. split.
    { intros (i & Hn & Hs & Hv & He). exists i. rewrite elem_of_cons. auto. }
    intros (i & Hn & [Hs|Hs]%elem_of_cons & Hv & He); [|by exists i].
    exfalso. apply (not_elem_of_nil i), Hi. auto.
  - rewrite Exists_cons, IH. cbv beta. unfold div at 1. rewrite fires_El, Exists_app, Hb.
    split.
    + intros [[Hf%Exists_nil|[Hf|(i & (Hn & Hs & Hv)%Hi & He)]]|(i & Hn & Hs & Hv & He)]; [done| |..].
      * destruct c; [by apply Exists_nil in Hf|]. fires_inv Hf.
      * exists i. rewrite elem_of_cons. auto.
      * exists i. rewrite elem_of_cons. auto.
    + intros (i & Hn & [Hs|Hs]%elem_of_cons & Hv & He).
      * left. right. right. exists i. split; [by apply Hi|done].
      * right. by exists i.
Qed.

Lemma navItems_sections i : i ∈ navItems → nav_section i ∈ sections.
Proof.
  revert i. apply Forall_forall.
  assert (forallb (λ i, bool_decide (nav_section i ∈ sections)) navItems = true) as H by reflexivity.
  apply forallb_Forall_true in H. eapply Forall_impl; [exact H|]. intros i Hi. exact (bool_decide_eq_true_1 _ Hi).
Qed.

