(* ===== verification/AdminSession.v ===== *)
(** * The session of the admin panel

    What ends it: an answer that refuses the token, to whatever the panel asked. *)
From stdpp Require Import gmap.
From S2P Require Import Prelude JsString JsStringFacts JsNumber JsJson Async Formatters View Render.
From S2P Require Import AdminUi AdminState AdminApi AdminPages AdminViews AdminApp.
Import Admin AdminApi AdminPages AdminApp.

Section session.
Context `{AdminEnv} `{Host} `{UnicodeCase} `{DateLocale}.

(** ** Commands that heed a refusal *)

Definition login_url : jsstring := API_BASE ++ "/admin/login"%js.

(** What the end of a session concerns. *)
Definition session (st : State) : Storage * list Job * bool := (storage st, queue st, crashed st).

(** The credentials are gone, and the listener is to run. *)
Definition gone (st st' : State) : Prop :=
  session st' = (delete user_key (delete token_key (storage st)), queue st ++ [AuthChanged], crashed st).

(** A command that ends at once and leaves the credentials and the queue alone. *)
Definition calm {A} (c : cmd State A) : Prop :=
  ∀ st, ∃ st' o, advance c st = (st', Finished o) ∧ session st' = session st.

(** Whenever a request other than the login is answered with 401, the command ends at
    once with an outcome in [Q], having removed the credentials. *)
Fixpoint heeds {A} (Q : outcome A → Prop) (c : cmd State A) : Prop :=
  match c with
  | Ret _ | Raise _ => True
  | Read k => ∀ s, heeds Q (k s)
  | Write _ k => heeds Q k
  | Fetch rq k =>
      (rq_url rq ≠ login_url → ∀ resp, rs_status resp = 401%Z → ∀ st,
         ∃ st' o, advance (k (Ok resp)) st = (st', Finished o) ∧ gone st st' ∧ Q o)
      ∧ ∀ r, heeds Q (k r)
  | Yield k => heeds Q k
  end.

Definition thrown {A} (o : outcome A) : Prop := is_ok o = false.
Definition ended {A} (o : outcome A) : Prop := True.

Lemma heeds_weaken {A} (Q R : outcome A → Prop) c : (∀ o, Q o → R o) → heeds Q c → heeds R c.
Proof.
  intros HQ. induction c as [a|e|k IH|f k IH|rq k IH|k IH]; cbn; auto.
  intros [Hk Hr]. split; [|auto]. intros Hu resp Hs st.
  destruct (Hk Hu resp Hs st) as (st' & o & Ha & Hg & Hq). eauto 10.
Qed.

Lemma heeds_bind {A B} Q (c : cmd State A) (f : A → cmd State B) :
  heeds thrown c → (∀ a, heeds Q (f a)) → (∀ e, Q (Throw e)) → heeds Q (c ≫= f).
Proof.
  intros Hc Hf HQ. unfold mbind, cmd_bind. induction c as [a|e|k IH|g k IH|rq k IH|k IH]; cbn in *; auto.
  destruct Hc as [Hk Hr]. split; [|auto]. intros Hu resp Hs st.
  destruct (Hk Hu resp Hs st) as (st' & o & Ha & Hg & Ho). destruct o as [a|e]; [done|].
  exists st', (Throw e). split; [|done]. pose proof (advance_bind (k (Ok resp)) f st) as E.
  rewrite Ha in E. exact E.
Qed.

Lemma heeds_lift {A B} Q (m : outcome A) (f : A → cmd State B) :
  (∀ a, heeds Q (f a)) → heeds Q (lift m ≫= f).
Proof. intros Hf. destruct m; cbn; auto. Qed.

Lemma heeds_catch {A} Q (c : cmd State A) h :
  heeds Q c → (∀ e, heeds ended (h e)) → (∀ e, calm (h e)) → heeds ended (catch c h).
Proof.
  intros Hc Hh Hm. induction c as [a|e|k IH|g k IH|rq k IH|k IH]; cbn in *; auto.
  destruct Hc as [Hk Hr]. split; [|auto]. intros Hu resp Hs st.
  destruct (Hk Hu resp Hs st) as (st' & o & Ha & Hg & _). rewrite advance_catch, Ha.
  destruct o as [a|e]; [by exists st', (Ok a)|].
  destruct (Hm e st') as (st'' & o & -> & Es). exists st'', o. split; [done|].
  split; [|done]. unfold gone. by rewrite Es.
Qed.

Definition leaves_session (f : State → State) : Prop :=
  ∀ st, session (f st) = session st.

Lemma heeds_finally {A} Q (c : cmd State A) f : heeds Q c → leaves_session f → heeds Q (finally c f).
Proof.
  intros Hc Hf. induction c as [a|e|k IH|g k IH|rq k IH|k IH]; cbn in *; auto.
  destruct Hc as [Hk Hr]. split; [|auto]. intros Hu resp Hs st.
  destruct (Hk Hu resp Hs st) as (st' & o & Ha & Hg & Ho). rewrite advance_finally, Ha.
  exists (f st'), o. split; [done|]. split; [|done]. unfold gone. by rewrite Hf.
Qed.

Lemma calm_write f : leaves_session f → calm (write f).
Proof. intros Hf st. exists (f st), (Ok tt). exact (conj eq_refl (Hf st)). Qed.

(** ** The commands of the panel *)

Lemma request_heeds m p body : heeds thrown (request m p body).
Proof.
  unfold request. cbn. intros st. split.
  - intros _ resp Hs st'. cbn. rewrite Hs. cbn. by eexists _, _.
  - intros [resp|e]; [|done]. cbn. destruct (_ =? _)%Z; [done|]. cbn. apply heeds_lift. intros v.
    destruct (negb _); repeat first [apply heeds_lift; intros ?|done].
Qed.

Lemma checkAuth_heeds : heeds ended checkAuth.
Proof.
  unfold checkAuth. apply heeds_bind; [done| |done]. intros st.
  destruct (getToken st) as [[|c t]|]; [done| |done].
  apply heeds_finally; [|done]. apply (heeds_catch thrown); [|done|intros e; by apply calm_write].
  by apply heeds_bind; [apply request_heeds| |].
Qed.

Lemma api_login_heeds u p : heeds thrown (api_login u p).
Proof.
  unfold api_login. cbn. split; [by intros []|]. intros [resp|e]; [|done]. cbn. apply heeds_lift. intros v.
  destruct (negb _); repeat first [apply heeds_lift; intros ?|done].
Qed.

Lemma handleSubmit_heeds id l : heeds ended (handleSubmit id l).
Proof.
  unfold handleSubmit. apply heeds_bind; [done| |done]. intros _. apply heeds_finally; [|done].
  apply (heeds_catch ended); [|done|intros e; by apply calm_write].
  apply heeds_bind; [apply api_login_heeds| |done]. intros _. apply checkAuth_heeds.
Qed.

Lemma logged_heeds c : heeds thrown c → heeds ended (logged c).
Proof.
  intros Hc. apply (heeds_catch thrown); [done..|]. intros e st. by exists st, (Ok tt).
Qed.

Lemma alerted_heeds c : heeds thrown c → heeds ended (alerted c).
Proof. intros Hc. apply (heeds_catch thrown); [done..|]. intros e. by apply calm_write. Qed.

Lemma settled_heeds i c : heeds thrown c → heeds ended (settled i c).
Proof. intros Hc. apply heeds_finally; [by apply logged_heeds|done]. Qed.

Lemma loading_heeds i c : heeds thrown c → heeds ended (loading i c).
Proof. intros Hc. apply heeds_bind; [done| |done]. intros _. by apply settled_heeds. Qed.

(** A request, then synchronous code. *)
Ltac heeds_request :=
  repeat first [done|apply heeds_lift; intros ?|apply heeds_bind; [apply request_heeds| |done]; intros ?
               |apply heeds_bind; [done| |done]; intros ?].

Lemma effect_heeds i : heeds ended (effect i).
Proof.
  destruct i as [[] n]; cbn [effect fst]; try (apply loading_heeds); try (apply settled_heeds);
    try (apply logged_heeds); try (by heeds_request).
  - apply heeds_bind; [|done..]. by heeds_request.
  - apply heeds_bind; [|done..]. by heeds_request.
Qed.

Lemma job_heeds j : heeds ended (job j).
Proof. destruct j; [apply checkAuth_heeds|apply effect_heeds|done]. Qed.

Lemma handleSave_heeds i c : heeds ended (handleSave i c).
Proof.
  apply heeds_bind; [done| |done]. intros _. apply heeds_finally; [|done]. apply alerted_heeds. heeds_request.
Qed.

Lemma handleBroadcast_heeds i title body type : heeds ended (handleBroadcast i title body type).
Proof.
  unfold handleBroadcast. destruct (_ || _); [done|]. apply heeds_bind; [done| |done]. intros _.
  apply heeds_finally; [|done]. apply alerted_heeds. heeds_request.
Qed.

Lemma handleConfirmToggle_heeds i pending : heeds ended (handleConfirmToggle i pending).
Proof.
  destruct pending as [[name target]|]; [|done].
  apply (heeds_catch thrown); [|done|intros e; by apply calm_write]. heeds_request.
Qed.

Lemma handle_page_heeds i p e : heeds ended (handle_page i p e).
Proof.
  destruct e; cbn [handle_page]; try done; try apply effect_heeds; try (apply alerted_heeds; by heeds_request);
    destruct p; try done.
  - apply handleSave_heeds.
  - unfold retry_event. destruct (ConfirmModal.handle _ _ _) as [typed []]; (apply heeds_bind; [done| |done]);
      intros _; [apply alerted_heeds; by heeds_request|done].
  - apply handleBroadcast_heeds.
  - apply alerted_heeds. heeds_request.
  - unfold flag_event. destruct (ConfirmModal.handle _ _ _) as [typed []]; (apply heeds_bind; [done| |done]);
      intros _; [apply handleConfirmToggle_heeds|done].
Qed.

Lemma handle_heeds e st : heeds ended (handle e st).
Proof.
  destruct e; cbn [handle]; try done; try (by destruct (login_form st) as [[id l]|]).
  - destruct (login_form st) as [[id l]|]; [apply handleSubmit_heeds|done].
  - destruct (page st) as [[i p]|]; [apply handle_page_heeds|done].
Qed.

(** ** The running panel *)

Definition stop_heeds (t : stop State unit) : Prop :=
  match t with
  | Finished _ => True
  | Awaiting rq k => heeds ended (Fetch rq k)
  | Yielded k => heeds ended k
  end.

(** Every command in flight heeds a refusal, and nothing is left to start. *)
Definition attentive (w : world State) : Prop := Forall stop_heeds (tasks w) ∧ queue (state w) = [].

Lemma advance_heeds (c : cmd State unit) st : heeds ended c → stop_heeds (advance c st).2.
Proof. revert st. induction c as [a|e|k IH|f k IH|rq k IH|k IH]; cbn; intros st Hc; auto. Qed.

Lemma start_heeds c w :
  heeds ended c → Forall stop_heeds (tasks w) → Forall stop_heeds (tasks (start c w)).
Proof.
  intros Hc Ht. unfold start. pose proof (advance_heeds c (state w) Hc) as Ha.
  destruct (advance c (state w)) as [st' t]. cbn in *.
  destruct t; [done|apply Forall_app; split; [done|by constructor]..].
Qed.

(** What is started by itself enqueues nothing before its first answer. *)
Lemma start_queue c w : (∀ st, queue (advance c st).1 = queue st) → queue (state (start c w)) = queue (state w).
Proof. intros Hc. unfold start. specialize (Hc (state w)). by destruct (advance c (state w)). Qed.

Lemma checkAuth_queue st : queue (advance checkAuth st).1 = queue st.
Proof. unfold checkAuth. cbn. by destruct (storage st !! _) as [[|c t]|]. Qed.

Lemma effect_queue i st : queue (advance (effect i) st).1 = queue st.
Proof. by destruct i as [[] n]. Qed.

Lemma job_queue j st : queue (advance (job j) st).1 = queue st.
Proof. destruct j; [apply checkAuth_queue|apply effect_queue|done]. Qed.

Lemma jobs_attentive q w : attentive w → attentive (foldl (λ w j, start (job j) w) w q).
Proof.
  revert w. induction q as [|j q IH]; intros w [Ht Hq]; [done|]. apply IH. split.
  - apply start_heeds; [apply job_heeds|done].
  - by rewrite start_queue; [|apply job_queue].
Qed.

Lemma commit_attentive w : attentive w → attentive (commit w).
Proof.
  intros [Ht Hq]. unfold commit. destruct (crashed (state w)); [done|]. destruct (_ || _); cbn.
  - split; [done|]. cbn. destruct (Admin.isLoading (state w)); [done|]. by destruct (login_form (state w)).
  - destruct (match page (state w) with Some _ => _ | None => _ end); [done|]. split.
    + apply start_heeds; [apply effect_heeds|done].
    + by rewrite start_queue; [|apply effect_queue].
Qed.

Lemma settle_attentive w : Forall stop_heeds (tasks w) → attentive (settle w).
Proof.
  intros Ht. unfold settle, guard.
  assert (attentive (commit (foldl (λ w j, start (job j) w) (mkWorld (set_queue [] (state w)) (tasks w))
                               (queue (state w))))) as Hc
    by (by apply commit_attentive, jobs_attentive).
  destruct (App _); [done|]. exact Hc.
Qed.

Lemma remove_heeds i (ts : list (stop State unit)) : Forall stop_heeds ts → Forall stop_heeds (remove_at i ts).
Proof. intros Ht. apply Forall_app. split; [by apply Forall_take|by apply Forall_drop]. Qed.

Lemma step_attentive T w w' : step T w w' → attentive w → attentive w'.
Proof.
  destruct 1 as [e w _|i p w _ _|i rq k r w Hi Hr|i k w Hi|t w _]; intros [Ht Hq];
    try apply settle_attentive; try (by split).
  - by apply start_heeds; [apply handle_heeds|].
  - by apply start_heeds; [apply effect_heeds|].
  - apply start_heeds; [|by apply remove_heeds]. destruct (Forall_lookup_1 _ _ _ _ Ht Hi) as [_ Hk]. apply Hk.
  - apply start_heeds; [|by apply remove_heeds]. exact (Forall_lookup_1 _ _ _ _ Ht Hi).
Qed.

Lemma reachable_attentive T s now w : rtc (step T) (mounted s now) w → attentive w.
Proof.
  assert (attentive (mounted s now)) as Hm
    by (apply settle_attentive, start_heeds; [apply checkAuth_heeds|constructor]).
  revert Hm. generalize (mounted s now). intros w0 Hm. induction 1; [done|]. eauto using step_attentive.
Qed.

(** ** The end of a session *)

Lemma no_token st s :
  storage st = delete user_key (delete token_key s) → getToken st = None.
Proof.
  unfold getToken. intros ->.
  transitivity (getItem (delete token_key s) token_key); [by apply lookup_delete_ne|apply lookup_delete_eq].
Qed.

Lemma App_login st id l :
  crashed st = false → Admin.isLoading st = false → user st = JNull → login_form st = Some (id, l) →
  App st = Ok (LoginScreen (LoginPage l)).
Proof. intros Hc Hl Hu Hf. unfold App, isAuthenticated. by rewrite Hc, Hl, Hu, Hf. Qed.

Lemma start_checkAuth w :
  getToken (state w) = None →
  start checkAuth w = mkWorld (Admin.set_isLoading false (set_user JNull (state w))) (tasks w).
Proof.
  intros Ht. unfold start, checkAuth. rewrite advance_bind. cbn [get advance]. by rewrite Ht.
Qed.

(** The listener of an end of the session, in a state without credentials. *)
Lemma settle_gone w :
  getToken (state w) = None → queue (state w) = [AuthChanged] →
  getToken (state (settle w)) = None ∧ user (state (settle w)) = JNull
  ∧ (crashed (state w) = false → ∃ form, App (state (settle w)) = Ok (LoginScreen form)).
Proof.
  intros Ht Hq. unfold settle. rewrite Hq. cbn [foldl job].
  rewrite (start_checkAuth (mkWorld (set_queue [] (state w)) (tasks w)) Ht). cbn [state tasks].
  set (st := Admin.set_isLoading false (set_user JNull (set_queue [] (state w)))). unfold commit. cbn [state].
  destruct (crashed st) eqn:Ec.
  { unfold guard, App. cbn [state]. rewrite Ec. split_and!; [exact Ht|done|]. intros Ef. exfalso.
    assert (crashed st = crashed (state w)) as E by reflexivity. congruence. }
  change (Admin.isLoading st || negb (isAuthenticated st)) with true. cbv iota.
  change (Admin.isLoading _) with false. cbv iota zeta. unfold guard. cbn [state].
  destruct (login_form _) as [[id l]|] eqn:El.
  - erewrite App_login by done. split_and!; [exact Ht|done|]. intros _. by erewrite App_login by done; eexists.
  - erewrite App_login by done. split_and!; [exact Ht|done|]. intros _. by erewrite App_login by done; eexists.
Qed.

(** C8. An answer of 401 ends the session, whatever the panel had asked: the token is
    removed, the user is unset, and unless a render had thrown the login form is
    shown. Only the answer to a login itself is treated as a wrong password. *)
Theorem session_ends_on_401 T (s : Storage) (now : Z) (w : world State) i rq k resp :
  rtc (step T) (mounted s now) w → tasks w !! i = Some (Awaiting rq k) →
  rq_url rq ≠ login_url → rs_status resp = 401%Z →
  let w' := settle (start (k (Ok resp)) (mkWorld (state w) (remove_at i (tasks w)))) in
  getToken (state w') = None ∧ user (state w') = JNull
  ∧ (crashed (state w) = false → ∃ form, App (state w') = Ok (LoginScreen form)).
Proof.
  intros [Ht Hq]%reachable_attentive Hi Hu Hs w'. destruct (Forall_lookup_1 _ _ _ _ Ht Hi) as [Hk _].
  destruct (Hk Hu resp Hs (state w)) as (st' & o & Ha & Hg & _). injection Hg as Es Eq Ec.
  unfold w', start. cbn [state]. rewrite Ha. cbn [tasks]. rewrite <- Ec.
  apply (settle_gone (mkWorld st' (remove_at i (tasks w)))); [by eapply no_token|].
  cbn [state]. by rewrite Eq, Hq.
Qed.
End session.
