(* ===== verification/AdminPageFacts.v ===== *)
(** * The pages of the admin panel do what they show

    Tables cut their rows into pages without losing or repeating one; every fetch of a
    page ends and takes its spinner away; a critical feature flag is only sent after its
    phrase was typed; a refused broadcast keeps its draft; and what the backend's
    paginated answers become on the way to the block and transaction lists. *)
From stdpp Require Import gmap.
From S2P Require Import Prelude JsString JsStringFacts JsNumber JsJson Async Formatters View Render AdminUi AdminState AdminApi.
From S2P Require Import AdminPages AdminViews AdminApp.
Import Admin AdminApi AdminPages AdminApp.

(** ** Tables *)

Lemma paginatedData_page rows (size k : nat) :
  DataTable.paginatedData rows (Z.of_nat (S k)) (Z.of_nat size) = take size (drop (k * size) rows).
Proof.
  unfold DataTable.paginatedData. rewrite <- slice_page. f_equal; lia.
Qed.

Lemma totalPages_spec n size :
  (0 < size → 0 ≤ n →
   1 ≤ DataTable.totalPages n size ∧ n ≤ DataTable.totalPages n size * size
   ∧ (0 < n → (DataTable.totalPages n size - 1) * size < n))%Z.
Proof.
  intros Hs Hn. unfold DataTable.totalPages.
  pose proof (Z.div_mod (n + size - 1) size ltac:(lia)) as E.
  pose proof (Z.mod_pos_bound (n + size - 1) size Hs) as B.
  assert (0 ≤ (n + size - 1) / size)%Z by (apply Z.div_pos; lia).
  destruct (Z.eqb_spec ((n + size - 1) / size) 0) as [E0|E0]; [rewrite E0 in E|]; nia.
Qed.

(** C19. The pages of a [DataTable] are its rows: shown in order they give every filtered
    row once, no page of a non-empty table is empty, and the two buttons lead from a
    page of the table to a page of the table. *)
Theorem table_pages (rows : list jsval) (size : nat) :
  let total := DataTable.totalPages (Z.of_nat (length rows)) (Z.of_nat size) in
  (0 < size)%nat →
  concat ((λ k, DataTable.paginatedData rows (Z.of_nat (S k)) (Z.of_nat size)) <$> seq 0 (Z.to_nat total))
    = rows
  ∧ ∀ st, (1 ≤ DataTable.currentPage st ≤ total)%Z →
      (rows ≠ [] → DataTable.paginatedData rows (DataTable.currentPage st) (Z.of_nat size) ≠ [])
      ∧ ∀ e, e = DataTable.PrevPage ∨ e = DataTable.NextPage total →
          (1 ≤ DataTable.currentPage (DataTable.handle e st) ≤ total)%Z.
Proof.
  intros total Hs. destruct (totalPages_spec (Z.of_nat (length rows)) (Z.of_nat size)) as (H1 & H2 & H3);
    [lia..|]. fold total in H1, H2, H3. split.
  - erewrite list_fmap_ext by (intros; apply paginatedData_page).
    rewrite pages_concat. apply take_ge. nia.
  - intros st Hp. split.
    + intros Hr E. destruct rows as [|x rows]; [done|].
      replace (DataTable.currentPage st) with (Z.of_nat (S (Z.to_nat (DataTable.currentPage st - 1)))) in E by lia.
      rewrite paginatedData_page in E. apply (f_equal length) in E.
      rewrite length_take, length_drop in E. cbn [length] in *. nia.
    + intros e [-> | ->]; cbn; lia.
Qed.

Lemma table_pages_witness :
  concat ((λ k, DataTable.paginatedData (JBool <$> [true; false; true]) (Z.of_nat (S k)) 2) <$> seq 0 2)
  = JBool <$> [true; false; true].
Proof. exact (proj1 (table_pages (JBool <$> [true; false; true]) 2 ltac:(lia))). Defined.

Section facts.
Context `{AdminEnv}.

(** ** Fetches end *)

Definition shows_loading (p : PageState) : bool :=
  match p with
  | OfListing st => Listing.isLoading st
  | OfDashboard st => DashboardPage.isLoading st
  | OfFetched st => Fetched.isLoading st
  | OfIndexer st => IndexerMonitorPage.isLoading st
  | OfMarkets st => MarketsPage.isLoading st
  | OfPerps st => PerpsRiskPage.isLoading st
  | OfNotifications st => NotificationsPage.isLoading st
  | OfAdmins st => SecurityAdminsPage.isLoading st
  | OfAppVersions _ | OfFlags _ | NoHooks => false
  end.

Definition is_loaded (i : instance) (st : State) : Prop :=
  ∀ p, page st = Some (i, p) → shows_loading p = false.

Lemma set_loading_loaded i st : is_loaded i (set_loading i false st).
Proof.
  intros p. unfold set_loading, upd_page. cbn.
  destruct (page st) as [[j q]|]; [|done].
  case_bool_decide as Ej; cbn; intros [= <- <-]; [by destruct q|done].
Qed.

Lemma request_once m p body : at_most (λ _, true) 1 (request m p body).
Proof.
  unfold request. cbn. intros st [r|e]; cbn; [|done]. destruct (_ =? _)%Z; [done|]. cbn.
  apply (at_most_bind _ 0 0); [apply at_most_lift|]. intros v.
  destruct (negb _); repeat (apply (at_most_bind _ 0 0); [apply at_most_lift|intros ?]); done.
Qed.

Lemma logged_once c : at_most (λ _, true) 1 c → at_most (λ _, true) 1 (logged c).
Proof. intros Hc. by apply at_most_catch. Qed.

Lemma settled_settles i c st rs :
  at_most (λ _, true) 1 c → (1 ≤ length rs)%nat →
  ∃ st' rqs, run (settled i c) st rs = Some (Ok tt, st', rqs) ∧ (length rqs ≤ 1)%nat ∧ is_loaded i st'.
Proof.
  intros Hc Hr. apply logged_once in Hc.
  destruct (run_total 1 (logged c) st rs Hc Hr) as [[[o st'] rqs] E].
  pose proof (run_never_raises _ _ _ _ _ _ (never_raises_catch c (λ _, Ret tt) (λ _, I)) E) as Ho.
  unfold settled. rewrite run_finally, E. destruct o as [[]|]; [|done].
  eexists _, _. split; [done|]. split; [by eapply run_requests|apply set_loading_loaded].
Qed.

Lemma loading_settles i c st rs :
  at_most (λ _, true) 1 c → (1 ≤ length rs)%nat →
  ∃ st' rqs, run (loading i c) st rs = Some (Ok tt, st', rqs) ∧ (length rqs ≤ 1)%nat ∧ is_loaded i st'.
Proof. exact (settled_settles i c (set_loading i true st) rs). Qed.

Lemma logged_settles i c st rs :
  at_most (λ _, true) 1 c → preserves any_response (is_loaded i) c → (1 ≤ length rs)%nat → is_loaded i st →
  ∃ st' rqs, run (logged c) st rs = Some (Ok tt, st', rqs) ∧ (length rqs ≤ 1)%nat ∧ is_loaded i st'.
Proof.
  intros Hc Hi Hr Hs. apply logged_once in Hc.
  destruct (run_total 1 (logged c) st rs Hc Hr) as [[[o st'] rqs] E].
  pose proof (run_never_raises _ _ _ _ _ _ (never_raises_catch c (λ _, Ret tt) (λ _, I)) E) as Ho.
  destruct o as [[]|]; [|done]. eexists _, _. split; [done|]. split; [by eapply run_requests|].
  refine (run_ensures any_response (is_loaded i) _ _ _ _ _ _ _ (λ _ _, I) _ Hs E).
  by apply preserves_catch.
Qed.

Ltac one_request :=
  repeat first
    [ apply request_once | apply at_most_lift | exact I
    | apply (at_most_bind _ 1 0); [solve [one_request]|intros ?]
    | apply (at_most_bind _ 0 0); [solve [apply at_most_lift | exact I]|intros ?] ].

Lemma upd_page_loaded i f st :
  (∀ p, shows_loading (f p) = shows_loading p) → is_loaded i st → is_loaded i (upd_page i f st).
Proof.
  intros Hf Hs p. unfold upd_page, is_loaded in *. cbn. destruct (page st) as [[j q]|]; [|done].
  case_bool_decide; intros [= -> <-]; [rewrite Hf|]; by apply Hs.
Qed.

Lemma request_then_loaded i m p body f :
  (∀ v q, shows_loading (f v q) = shows_loading q) →
  preserves any_response (is_loaded i) (v ← request m p body; write (upd_page i (f v))).
Proof.
  intros Hf. apply preserves_bind.
  - unfold request. cbn. intros st Hs [r|e] _; cbn; [|done]. destruct (_ =? _)%Z; [by cbn|].
    cbn. apply preserves_lift. intros v _.
    destruct (negb _); repeat first [apply preserves_lift; intros ? _|done].
  - intros v. apply preserves_write. intros st. by apply upd_page_loaded.
Qed.

(** C16. Whatever page of the panel is mounted and whatever the backend answers, a
    failed connection included, the fetch of the page ends after at most one request,
    it does not throw, and if the page is still there it has stopped loading. *)
Theorem page_settles (i : instance) (now : Z) (st : State) (r : outcome response) :
  page st = Some (i, new_page i.1 now) →
  ∃ st' rqs, run (effect i) st [r] = Some (Ok tt, st', rqs) ∧ (length rqs ≤ 1)%nat ∧ is_loaded i st'.
Proof.
  intros Hp. destruct i as [pg n]. destruct pg; cbn [effect fst].
  all: try (first [apply (loading_settles (_, n)) | apply (settled_settles (_, n))];
              [solve [one_request]|done]).
  all: try (apply (logged_settles (_, n));
              [solve [one_request]|apply request_then_loaded; by intros ? []|done|]).
  - intros p Hq. rewrite Hp in Hq. by injection Hq as <-.
  - exists st, []. cbn. split; [done|]. split; [lia|].
    intros p Hq. rewrite Hp in Hq. by injection Hq as <-.
  - intros p Hq. rewrite Hp in Hq. by injection Hq as <-.
Qed.

(** ** Feature flags *)

Lemma request_is m p body (P : fetch_request → Prop) :
  (∀ hs, P (mkRequest (API_BASE ++ p) m hs (json_ser <$> body))) → requests_only P (request m p body).
Proof.
  intros HP. unfold request. cbn. intros st. split; [apply HP|]. intros [r|e]; cbn; [|done].
  destruct (_ =? _)%Z; [done|]. cbn. apply requests_only_lift. intros v _.
  destruct (negb _); repeat first [apply requests_only_lift; intros ? _|done].
Qed.

Context `{Host} `{UnicodeCase} `{DateLocale}.

(** The update of the pending flag that a dialog may send: the flag is the one the dialog
    was opened for, with the state it announced, and a critical flag's phrase was typed. *)
Definition authorized (st : FeatureFlagsPage.State) (rq : fetch_request) : Prop :=
  ∃ name target, FeatureFlagsPage.pendingFlag st = Some (name, target)
    ∧ rq_url rq = API_BASE ++ "/admin/feature-flags/"%js ++ to_string name
    ∧ rq_method rq = "PATCH"%js
    ∧ rq_body rq = Some (json_ser (JObj [("is_enabled"%js, JBool target)]))
    ∧ (AdminViews.is_critical name = true →
       FeatureFlagsPage.typedValue st = "ENABLE "%js ++ toUpperCase (to_string name)).

(** C15. The dialog of the feature flags sends nothing but the update of the flag it was
    opened for, at most once per click, and for a critical flag only if the phrase the
    dialog asks for was typed. *)
Theorem flag_dialog_guards (i : instance) (st : FeatureFlagsPage.State) (e : ConfirmModal.Event) :
  requests_only (authorized st) (flag_event i st e) ∧ at_most (λ _, true) 1 (flag_event i st e).
Proof.
  unfold flag_event. destruct (FeatureFlagsPage.pendingFlag st) as [[name target]|] eqn:Ep;
    [|destruct e; cbn; by rewrite ?if_same].
  destruct e as [s| |]; [by cbn| |by cbn].
  unfold ConfirmModal.handle. destruct (ConfirmModal.isConfirmed _ _) eqn:Ec; [|by cbn].
  unfold handleConfirmToggle. split.
  - apply requests_only_bind; [done|]. intros _. apply requests_only_catch; [|done].
    apply requests_only_bind; [|done]. apply request_is. intros hs.
    exists name, target. split_and!; try done. intros Hcr. unfold AdminViews.flag_props in Ec.
    rewrite Hcr in Ec. by apply bool_decide_eq_true in Ec.
  - apply (at_most_bind _ 0 1); [done|]. intros _. apply at_most_catch; [|done].
    apply (at_most_bind _ 1 0); [apply request_once|done].
Qed.

(** ** Broadcasts *)

(** An error answer with the backend's explanation. *)
Definition refusal (r : response) (msg : jsstring) : Prop :=
  rs_ok r = false ∧ rs_status r ≠ 401%Z ∧ msg ≠ []
  ∧ rs_json r = Ok (JObj [("detail"%js, JStr msg)]).

Lemma request_refused m p body st r rs msg :
  refusal r msg →
  run (request m p body) st (Ok r :: rs)
  = Some (Throw (JsErr "Error"%js msg), st,
          [mkRequest (API_BASE ++ p) m (auth_headers (getToken st)) (json_ser <$> body)]).
Proof.
  intros (Hok & Hs & Hm & Hj). unfold request. cbn.
  apply Z.eqb_neq in Hs. rewrite Hs. cbn. rewrite Hj. cbn. rewrite Hok. cbn. by destruct msg.
Qed.

(** A broadcast the backend refuses loses nothing: the reason is shown, the draft
    stays as it was typed, the button works again, and no reload is started. *)
Lemma broadcast_refused (i : instance) (n : NotificationsPage.State) (st : State)
    (r : response) (msg : jsstring) :
  page st = Some (i, OfNotifications n) →
  NotificationsPage.title n ≠ [] → NotificationsPage.body n ≠ [] → refusal r msg →
  ∃ st' rq, run (handle_page i (OfNotifications n) AdminViews.Broadcast) st [Ok r] = Some (Ok tt, st', [rq])
    ∧ page st' = Some (i, OfNotifications (NotificationsPage.set_isSending false n))
    ∧ alerts st' = alerts (alert msg st) ∧ queue st' = queue st.
Proof.
  intros Hp Ht Hb Hr. cbn [handle_page]. unfold handleBroadcast.
  rewrite !bool_decide_eq_false_2 by done. cbn [orb].
  eexists _, _. split.
  - change (run (write ?f ≫= λ _, ?c) st ?rs) with (run c (f st) rs).
    rewrite run_finally. unfold alerted.
    erewrite run_catch_write; [done|]. apply run_bind_throw. by apply request_refused.
  - unfold upd_page. cbn. rewrite Hp. cbn. rewrite !bool_decide_eq_true_2 by done. by destruct n.
Qed.

(** ** The lists of blocks and transactions *)

Lemma request_data m p body st r rs v data :
  rs_status r = 200%Z → rs_json r = Ok v → get_prop v "data"%js = Ok data → data ≠ JUndef →
  run (request m p body) st (Ok r :: rs)
  = Some (Ok data, st, [mkRequest (API_BASE ++ p) m (auth_headers (getToken st)) (json_ser <$> body)]).
Proof.
  intros Hs Hj Hd Hu. destruct r as [status text j t]. cbn in Hs, Hj. subst. cbn.
  rewrite Hd. by destruct data.
Qed.

(** The backend answers the explorer's lists with the rows under [data], not under
    [data.blocks] and [data.transactions]: from every such answer the panel's client
    makes the empty list, so its block and transaction tables never have a row. *)
Lemma lists_dropped (st : State) (limit : Z) (r : response) (v : jsval) (rows : list jsval) :
  rs_status r = 200%Z → rs_json r = Ok v → get_prop v "data"%js = Ok (JArr rows) →
  (∃ rq, run (getBlocks limit) st [Ok r] = Some (Ok (JArr []), st, [rq]))
  ∧ ∃ rq, run (getTransactions limit) st [Ok r] = Some (Ok (JArr []), st, [rq]).
Proof.
  intros Hs Hj Hd.
  split; eexists; eapply run_bind_last; first [by eapply request_data|done].
Qed.
End facts.

(** ** Examples *)

#[local] Existing Instances plain_host ascii_case plain_dates.
#[local] Instance default_env : AdminEnv := None.

Lemma page_settles_witness :
  ∃ st' rqs, run (effect (DashboardPage, 0%nat))
      (set_page (Some ((DashboardPage, 0%nat), new_page DashboardPage 0)) (init ∅ 0))
      [Throw (JsErr "TypeError"%js "Failed to fetch"%js)] = Some (Ok tt, st', rqs)
    ∧ (length rqs ≤ 1)%nat ∧ is_loaded (DashboardPage, 0%nat) st'.
Proof. by apply (page_settles (DashboardPage, 0%nat) 0). Defined.

