(* ===== verification/AdminRuns.v ===== *)
(** * Runs of the admin panel

    Sequences of clicks and answers, evaluated: what they lead to is a theorem about a
    reachable state of the panel. *)
From stdpp Require Import gmap.
From S2P Require Import Prelude JsString JsStringFacts JsNumber JsJson Async Formatters View Render Types RenderTyped.
From S2P Require Import AdminTypes AdminUi AdminState AdminApi AdminPages AdminViews AdminRender AdminApp AdminTyped AdminFacts AdminSession.
Import AdminTypes Admin AdminApi AdminPages AdminApp.

#[local] Existing Instances plain_host ascii_case plain_dates.
#[local] Instance default_env : AdminEnv := None.

(** ** Executing steps *)

Definition perform (e : Event) (w : world State) : world State := settle (start (handle e (state w)) w).

(** The [i]th task gets the answer [r], if it made a request, and goes on. *)
Definition answer (i : nat) (r : outcome response) (w : world State) : world State :=
  match tasks w !! i with
  | Some (Awaiting rq k) => settle (start (k r) (mkWorld (state w) (remove_at i (tasks w))))
  | Some (Yielded k) => settle (start k (mkWorld (state w) (remove_at i (tasks w))))
  | _ => w
  end.

Abbreviation panel := (step any_response).

Lemma answer_reachable w0 i r w : rtc panel w0 w → rtc panel w0 (answer i r w).
Proof.
  intros Hw. unfold answer. destruct (tasks w !! i) as [[o|rq k|k]|] eqn:E; try done.
  - eapply rtc_r; [done|]. by eapply Step_response.
  - eapply rtc_r; [done|]. by eapply Step_yield.
Qed.

Lemma event_reachable w0 e w :
  offers (App (state w)) e → rtc panel w0 w → rtc panel w0 (perform e w).
Proof. intros He Hw. eapply rtc_r; [done|]. by apply Step_event. Qed.

(** That the user can cause an event of an evaluated screen. *)
Ltac find_action :=
  first [apply Exists_cons_hd; first [reflexivity|eexists; reflexivity]|apply Exists_cons_tl; find_action].
Ltac offered :=
  vm_compute;
  first [find_action
        |left; find_action
        |right; left; first [apply Exists_cons_hd; find_action|apply Exists_cons_tl, Exists_cons_hd; find_action]
        |right; right; eexists; split; [reflexivity|apply Exists_cons_hd; find_action]].

(** An answer with a JSON body. *)
Definition ok_json (v : jsval) : outcome response :=
  Ok (mkResponse 200 "OK"%js (Ok v) (Ok (json_ser v))).

Definition data_of (v : jsval) : jsval := JObj [("success"%js, JBool true); ("data"%js, v)].

Definition root_profile : jsval := profile "root"%js "super_admin"%js ["*"%js].
Definition login_answer (name role : jsstring) : outcome response :=
  ok_json (data_of (JObj [("access_token"%js, JStr "t0"%js); ("role"%js, JStr role);
                          ("username"%js, JStr name); ("admin_id"%js, JStr "1"%js)])).

(** ** Resuming a session *)

(** A browser that kept a token asks for the profile. *)
Definition resumed : world State := mounted {[ token_key := "t0"%js ]} 0.

Lemma profile_declared rq :
  rq_url rq = "/api/v1/admin/me"%js → declared rq (ok_json (data_of root_profile)).
Proof.
  intros Hu resp v m p t [= <-] _ [= <-] Hin _ Hp. rewrite Hu in Hp.
  repeat (apply elem_of_cons in Hin as [[= -> -> ->]|Hin]; [first [discriminate Hp|by vm_compute]|]).
  by apply elem_of_nil in Hin.
Qed.

Lemma resumed_step :
  match tasks resumed !! 0%nat with
  | Some (Awaiting rq k) => rq_url rq = "/api/v1/admin/me"%js
  | _ => False
  end.
Proof. by vm_compute. Qed.

Definition welcome : world State := answer 0 (ok_json (data_of root_profile)) resumed.

Lemma welcome_reachable : rtc (step declared) resumed welcome.
Proof.
  pose proof resumed_step as Hr. unfold welcome, answer.
  destruct (tasks resumed !! 0%nat) as [[o|rq k|k]|] eqn:E; try done.
  apply rtc_once. eapply Step_response; [exact E|]. by apply profile_declared.
Qed.

Lemma panel_never_crashes_witness : ∃ screen, App (state welcome) = Ok screen ∧ screen ≠ Blank.
Proof. exact (panel_never_crashes _ 0 welcome welcome_reachable). Defined.

Definition unauthorized : response := mkResponse 401 "Unauthorized"%js (Ok JNull) (Ok []).

Lemma session_ends_on_401_witness :
  match tasks resumed !! 0%nat with
  | Some (Awaiting rq k) =>
      getToken (state (settle (start (k (Ok unauthorized))
        (mkWorld (state resumed) (remove_at 0 (tasks resumed)))))) = None
  | _ => False
  end.
Proof.
  pose proof resumed_step as Hr. destruct (tasks resumed !! 0%nat) as [[o|rq k|k]|] eqn:E; try done.
  refine (proj1 (session_ends_on_401 any_response _ 0 resumed 0 rq k unauthorized _ E _ eq_refl)).
  - apply rtc_refl.
  - rewrite Hr. discriminate.
Defined.

Lemma root_sidebar : is_ok (Sidebar (set_user root_profile (init ∅ 0))) = true.
Proof. by vm_compute. Qed.


(** ** Signing out while the profile is on its way *)

Definition at_login : world State := mounted ∅ 0.
Definition typed_in : world State :=
  perform (TypePassword "pw"%js) (perform (TypeUsername "root"%js) at_login).
Definition submitted : world State := perform Submit typed_in.
(** The login is answered, which starts two queries of the profile. *)
Definition logged_in : world State :=
  answer 0 (ok_json JNull) (answer 0 (login_answer "root"%js "super_admin"%js) submitted).
(** The first is answered. *)
Definition inside : world State :=
  answer 1 (ok_json JNull) (answer 0 (ok_json (data_of root_profile)) logged_in).
Definition signed_out : world State := perform SignOut (perform ToggleProfileMenu inside).

Definition shows_login (w : world State) : bool :=
  match App (state w) with Ok (LoginScreen _) => true | _ => false end.
Definition shows_page (w : world State) (pg : Page) : bool :=
  match App (state w) with Ok (Shell _ _ pg' _) => bool_decide (pg' = pg) | _ => false end.

(** The answer to the second query arrives after that. *)
Definition back_inside : world State :=
  answer 1 (ok_json JNull) (answer 0 (ok_json (data_of root_profile)) signed_out).

Lemma inside_reachable : rtc panel at_login (perform ToggleProfileMenu inside).
Proof.
  apply event_reachable; [offered|]. do 4 apply answer_reachable.
  apply event_reachable; [offered|]. apply event_reachable; [offered|].
  by apply event_reachable; [offered|].
Qed.

Lemma back_inside_reachable : rtc panel (perform SignOut (perform ToggleProfileMenu inside)) back_inside.
Proof. unfold back_inside, signed_out. do 2 apply answer_reachable. apply rtc_refl. Qed.


(** ** A backend *)

Definition flag (name : jsstring) (enabled : bool) : jsval :=
  JObj [("name"%js, JStr name); ("is_enabled"%js, JBool enabled); ("description"%js, JNull)].

Definition refused : outcome response :=
  Ok (mkResponse 403 "Forbidden"%js (Ok (JObj [("detail"%js, JStr "Admin access required"%js)])) (Ok [])).

(** One that knows its user and a critical flag. *)
Definition backend (name role : jsstring) (perms : list jsstring) (rq : fetch_request) : outcome response :=
  if bool_decide (rq_url rq = "/api/v1/admin/login"%js) then login_answer name role
  else if bool_decide (rq_url rq = "/api/v1/admin/me"%js) then ok_json (data_of (profile name role perms))
  else if bool_decide (rq_url rq = "/api/v1/admin/feature-flags"%js)
  then ok_json (data_of (JArr [flag "perps_enabled"%js false]))
  else refused.

(** Answer what is in flight, oldest first, up to [n] times. *)
Fixpoint serve (n : nat) (server : fetch_request → outcome response) (w : world State) : world State :=
  match n, tasks w with
  | S n', Awaiting rq _ :: _ => serve n' server (answer 0 (server rq) w)
  | S n', _ :: _ => serve n' server (answer 0 refused w)
  | _, _ => w
  end.

Lemma serve_reachable n server w0 w : rtc panel w0 w → rtc panel w0 (serve n server w).
Proof.
  revert w. induction n as [|n IH]; intros w Hw; [done|]. cbn.
  destruct (tasks w) as [|[o|rq k|k] ts]; [done|..]; by apply IH, answer_reachable.
Qed.

Definition log_in (name : jsstring) (server : fetch_request → outcome response) (w : world State) : world State :=
  serve 20 server (perform Submit (perform (TypePassword "pw"%js) (perform (TypeUsername name) w))).

Definition root_backend := backend "root"%js "super_admin"%js ["*"%js].
Definition viewer_backend := backend "eve"%js "viewer"%js ["*.read"%js].

(** ** A tab outlives its user *)

Definition root_in : world State := log_in "root"%js root_backend at_login.
Definition root_out : world State :=
  perform SignOut (perform ToggleProfileMenu (perform (SelectTab "security_admins"%js) root_in)).
Definition viewer_in : world State := log_in "eve"%js viewer_backend root_out.

Lemma log_in_reachable name server w :
  offers (App (state w)) (TypeUsername name) →
  offers (App (state (perform (TypeUsername name) w))) (TypePassword "pw"%js) →
  offers (App (state (perform (TypePassword "pw"%js) (perform (TypeUsername name) w)))) Submit →
  rtc panel at_login w → rtc panel at_login (log_in name server w).
Proof. intros H1 H2 H3 Hw. by repeat first [apply serve_reachable|apply event_reachable]. Qed.

Lemma root_in_reachable : rtc panel at_login root_in.
Proof. by apply log_in_reachable; [offered..|]. Qed.

(** The tabs the menu offers. *)
Definition menu (w : world State) : list jsstring :=
  match App (state w) with
  | Ok (Shell side _ _ _) =>
      omap (λ a, match a with Do (SelectTab id) => Some id | _ => None end) (actions side)
  | _ => []
  end.

(** The tab is kept across sessions and not checked against the new user's
    permissions: after an administrator left the page of admin accounts open, the next
    user gets that page, although they lack its permission and their menu does not
    offer it. The permissions the backend gives a viewer are not understood, so that
    the menu offers only the two tabs that need none. *)
Lemma tab_outlives_user :
  ∃ w, rtc panel at_login w ∧ user (state w) = profile "eve"%js "viewer"%js ["*.read"%js]
    ∧ shows_page w SecurityAdminsPage = true
    ∧ hasPermission (user (state w)) "admin.manage"%js = Ok false
    ∧ menu w = ["dashboard"%js; "search_index"%js].
Proof.
  exists viewer_in. split.
  - apply log_in_reachable; [offered..|]. apply event_reachable; [offered|].
    apply event_reachable; [offered|]. apply event_reachable; [offered|]. apply root_in_reachable.
  - vm_compute. done.
Qed.

(** ** A confirmation that was typed for an earlier question *)

Definition ask : Event := OnPage (ToggleFlag (JStr "perps_enabled"%js) (JBool false)).
Definition phrase : jsstring := "ENABLE PERPS_ENABLED"%js.
Definition flags_shown : world State := serve 20 root_backend (perform (SelectTab "feature_flags"%js) root_in).
Definition cancelled : world State :=
  perform (OnPage (OnFlagModal ConfirmModal.Cancel))
    (perform (OnPage (OnFlagModal (ConfirmModal.TypeValue phrase))) (perform ask flags_shown)).

(** The requests in flight. *)
Definition in_flight (w : world State) : list (jsstring * jsstring * option jsstring) :=
  omap (λ t, match t with Awaiting rq _ => Some (rq_method rq, rq_url rq, rq_body rq) | _ => None end) (tasks w).

(** The phrase that confirms a critical change survives cancelling it: when the
    question is asked again, the confirmation is enabled although nothing was typed, and
    one click sends the change. *)
Lemma confirmation_survives_cancel :
  ∃ w, rtc panel at_login w ∧ offers (App (state w)) ask ∧ in_flight w = []
    ∧ offers (App (state (perform ask w))) (OnPage (OnFlagModal ConfirmModal.Confirm))
    ∧ in_flight (perform (OnPage (OnFlagModal ConfirmModal.Confirm)) (perform ask w))
      = [("PATCH"%js, "/api/v1/admin/feature-flags/perps_enabled"%js,
          Some (json_ser (JObj [("is_enabled"%js, JBool true)])))].
Proof.
  exists cancelled. split.
  - apply event_reachable; [offered|]. apply event_reachable; [offered|].
    apply event_reachable; [offered|]. apply serve_reachable.
    apply event_reachable; [offered|]. apply root_in_reachable.
  - split; [offered|]. split; [by vm_compute|]. split; [offered|]. by vm_compute.
Qed.
